(** * ThreadSanitizer (data-race-test): a shallow embedding of the ignore-file
    reader, the tool exit path and the event handlers of the Valgrind
    front-end, the thread registry, the range access decomposition, the
    sync table with its stack traces and the report printer, with the
    properties of the specification proved over it. *)

From Stdlib Require Import ZArith List String Ascii Bool Lia.
From stdpp Require Import base tactics option list gmap strings.

Local Open Scope Z_scope.

(** ** tsan/ignore.cc *)
Module Ignore.

Definition newline : ascii := "010"%char.
Definition tab : ascii := "009"%char.
Definition space : ascii := " "%char.
Definition hash : ascii := "#"%char.

(** The three locals of [SplitStringIntoLinesAndRemoveBlanksAndComments]:
    [cur_line], [in_comment] and the output vector [lines]. *)
Record SplitState := mkSplit {
  cur_line : string;
  in_comment : bool;
  lines : list string
}.

Definition split_init : SplitState := mkSplit "" false [].

(** One iteration of the [for] loop over [str], on the character [ch]. *)
Definition split_step (st : SplitState) (ch : ascii) : SplitState :=
  if Ascii.eqb ch newline then
    mkSplit ""  false
            (if String.eqb (cur_line st) "" then lines st
             else lines st ++ [cur_line st])
  else if Ascii.eqb ch space || Ascii.eqb ch tab then st
  else if Ascii.eqb ch hash then mkSplit (cur_line st) true (lines st)
  else if negb (in_comment st) then
    mkSplit (cur_line st +:+ String ch "") (in_comment st) (lines st)
  else st.

Fixpoint split_loop (str : string) (st : SplitState) : SplitState :=
  match str with
  | EmptyString => st
  | String ch rest => split_loop rest (split_step st ch)
  end.

Definition SplitStringIntoLinesAndRemoveBlanksAndComments (str : string)
  : list string :=
  lines (split_loop str split_init).

(** [input.find(prefix) == 0] holds exactly when [prefix] starts [input];
    the output is [input.substr(prefix.size())]. *)
Definition CutStringPrefixIfPresent (input prefix : string) : option string :=
  if String.prefix prefix input
  then Some (String.substring (String.length prefix)
                              (String.length input - String.length prefix)
                              input)
  else None.

Record IgnoreTriple := mkTriple {
  t_fun : string;
  t_obj : string;
  t_file : string
}.

Record IgnoreLists := mkLists {
  ignores : list IgnoreTriple;
  ignores_r : list IgnoreTriple;
  ignores_hist : list IgnoreTriple
}.

(** What [ReadIgnoresFromString] leaves behind: the global ignore lists,
    the text given to [Printf], and whether [CHECK(0)] was reached. *)
Record ReadResult := mkRead {
  r_lists : IgnoreLists;
  r_printed : list string;
  r_check_failed : bool
}.

Section Reader.

(** The constructors [IgnoreObj], [IgnoreFile] and [IgnoreFun] of ignore.h
    build the triple that is pushed; the header is outside the sources at
    hand, so the reader is parametric in them. *)
Variables IgnoreObj IgnoreFile IgnoreFun : string -> IgnoreTriple.

Definition push_ignores (il : IgnoreLists) (t : IgnoreTriple) : IgnoreLists :=
  mkLists (ignores il ++ [t]) (ignores_r il) (ignores_hist il).
Definition push_ignores_r (il : IgnoreLists) (t : IgnoreTriple) : IgnoreLists :=
  mkLists (ignores il) (ignores_r il ++ [t]) (ignores_hist il).
Definition push_ignores_hist (il : IgnoreLists) (t : IgnoreTriple) : IgnoreLists :=
  mkLists (ignores il) (ignores_r il) (ignores_hist il ++ [t]).

Definition ReadIgnoreLine (input_line : string) (il : IgnoreLists)
  : bool * IgnoreLists :=
  match CutStringPrefixIfPresent input_line "obj:" with
  | Some tail => (true, push_ignores il (IgnoreObj tail))
  | None =>
  match CutStringPrefixIfPresent input_line "src:" with
  | Some tail => (true, push_ignores il (IgnoreFile tail))
  | None =>
  match CutStringPrefixIfPresent input_line "fun:" with
  | Some tail => (true, push_ignores il (IgnoreFun tail))
  | None =>
  match CutStringPrefixIfPresent input_line "fun_r:" with
  | Some tail => (true, push_ignores_r il (IgnoreFun tail))
  | None =>
  match CutStringPrefixIfPresent input_line "fun_hist:" with
  | Some tail => (true, push_ignores_hist il (IgnoreFun tail))
  | None => (false, il)
  end end end end end.

(** [line.c_str()] as [%s] reads it: the characters before the first NUL
    character of the line. *)
Fixpoint c_str (s : string) : string :=
  match s with
  | EmptyString => EmptyString
  | String c s' => if Ascii.eqb c Ascii.zero then EmptyString
                   else String c (c_str s')
  end.

(** The text of [Printf("Error reading ignore file line:\n%s\n", ...)]. *)
Definition error_message (line : string) : string :=
  "Error reading ignore file line:" +:+ String newline (c_str line)
    +:+ String newline "".

(** The loop of [ReadIgnoresFromString] over the vector of lines; [CHECK(0)]
    is fatal, so the loop stops at the first line that does not parse. *)
Fixpoint read_lines (ls : list string) (il : IgnoreLists) : ReadResult :=
  match ls with
  | [] => mkRead il [] false
  | line :: rest =>
      let '(line_parsed, il') := ReadIgnoreLine line il in
      if line_parsed then read_lines rest il'
      else mkRead il' [error_message line] true
  end.

Definition ReadIgnoresFromString (ignoreString : string) (il : IgnoreLists)
  : ReadResult :=
  read_lines (SplitStringIntoLinesAndRemoveBlanksAndComments ignoreString) il.

End Reader.

Section Matching.

(** [StringMatch] of stringmatch.h (glob matching with [*] and [?]) is
    outside the sources at hand; the matcher is parametric in it. *)
Variable StringMatch : string -> string -> bool.

Fixpoint StringVectorMatch (v : list string) (s : string) : bool :=
  match v with
  | [] => false
  | p :: v' => if StringMatch p s then true else StringVectorMatch v' s
  end.

Definition is_empty (s : string) : bool := (String.length s =? 0)%nat.

Definition triple_matches (t : IgnoreTriple) (fn obj file : string) : bool :=
  (is_empty fn || StringMatch (t_fun t) fn) &&
  (is_empty obj || StringMatch (t_obj t) obj) &&
  (is_empty file || StringMatch (t_file t) file).

Definition triple_trivial (t : IgnoreTriple) (fn obj file : string) : bool :=
  (is_empty fn || String.eqb (t_fun t) "*") &&
  (is_empty obj || String.eqb (t_obj t) "*") &&
  (is_empty file || String.eqb (t_file t) "*").

Fixpoint TripleVectorMatchKnown (v : list IgnoreTriple)
         (fn obj file : string) : bool :=
  match v with
  | [] => false
  | t :: v' =>
      if triple_matches t fn obj file then
        if triple_trivial t fn obj file
        then TripleVectorMatchKnown v' fn obj file
        else true
      else TripleVectorMatchKnown v' fn obj file
  end.

(** Propositional reading of the two conditions of the loop body. *)
Definition matches_query (t : IgnoreTriple) (fn obj file : string) : Prop :=
  (fn = "" \/ StringMatch (t_fun t) fn = true) /\
  (obj = "" \/ StringMatch (t_obj t) obj = true) /\
  (file = "" \/ StringMatch (t_file t) file = true).

Definition only_wildcards (t : IgnoreTriple) (fn obj file : string) : Prop :=
  (fn = "" \/ t_fun t = "*") /\
  (obj = "" \/ t_obj t = "*") /\
  (file = "" \/ t_file t = "*").

End Matching.

(** *** The splitter as the specification words it

    Text is cut at newline characters; what follows the last newline is kept
    apart as the unterminated rest.  A line loses what follows its first
    [#], then all its spaces and tabs; lines left empty are not delivered. *)

Fixpoint lines_and_rest (s : string) : list string * string :=
  match s with
  | EmptyString => ([], EmptyString)
  | String c s' =>
      let '(ls, r) := lines_and_rest s' in
      if Ascii.eqb c newline then (EmptyString :: ls, r)
      else match ls with
           | [] => ([], String c r)
           | l :: ls' => (String c l :: ls', r)
           end
  end.

Fixpoint before_hash (s : string) : string :=
  match s with
  | EmptyString => EmptyString
  | String c s' => if Ascii.eqb c hash then EmptyString
                   else String c (before_hash s')
  end.

Fixpoint remove_blanks (s : string) : string :=
  match s with
  | EmptyString => EmptyString
  | String c s' => if Ascii.eqb c space || Ascii.eqb c tab
                   then remove_blanks s'
                   else String c (remove_blanks s')
  end.

Definition clean_line (l : string) : string := remove_blanks (before_hash l).

(** What the line under construction will be once the rest [l] of the
    current raw line has been read. *)
Definition line_after (st : SplitState) (l : string) : string :=
  if in_comment st then cur_line st else cur_line st +:+ clean_line l.

Definition nonempty_lines (ls : list string) : list string :=
  List.filter (fun l => negb (String.eqb l "")) ls.

Definition spec_lines (str : string) : list string :=
  nonempty_lines (List.map clean_line (fst (lines_and_rest str))).

Fixpoint has_char (c : ascii) (s : string) : bool :=
  match s with
  | EmptyString => false
  | String c' s' => Ascii.eqb c' c || has_char c s'
  end.

(** The five prefixes of the ignore-file syntax. *)
Definition known_prefix (line : string) : bool :=
  String.prefix "obj:" line || String.prefix "src:" line ||
  String.prefix "fun:" line || String.prefix "fun_r:" line ||
  String.prefix "fun_hist:" line.

Definition total_entries (il : IgnoreLists) : nat :=
  (List.length (ignores il) + List.length (ignores_r il)
   + List.length (ignores_hist il))%nat.

(** Modelled from the spec: glob matching of stringmatch.h (not under src/):
    "Globs use [*] and [?] wildcards".  [*] stands for any run of characters,
    [?] for any single one.  Used to run the matcher on concrete queries. *)
Fixpoint glob_match (p s : string) : bool :=
  match p with
  | EmptyString => match s with EmptyString => true | _ => false end
  | String c p' =>
      if Ascii.eqb c "*" then
        (fix star (s : string) : bool :=
           glob_match p' s ||
           match s with
           | EmptyString => false
           | String _ s' => star s'
           end) s
      else match s with
           | EmptyString => false
           | String d s' =>
               (Ascii.eqb c "?" || Ascii.eqb c d) && glob_match p' s'
           end
  end.

(** Modelled from the spec: the constructors of ignore.h (not under src/)
    turn a pattern into an ignore triple {fun, obj, file}; the components
    the line does not constrain are the wildcard.  Used to run the reader on
    concrete texts. *)
Definition wild_obj (o : string) : IgnoreTriple := mkTriple "*" o "*".
(** Modelled from the spec: [IgnoreFile] of ignore.h (not under src/), the
    triple that constrains the source file only. *)
Definition wild_file (f : string) : IgnoreTriple := mkTriple "*" "*" f.
(** Modelled from the spec: [IgnoreFun] of ignore.h (not under src/), the
    triple that constrains the function only. *)
Definition wild_fun (f : string) : IgnoreTriple := mkTriple f "*" "*".

Definition nl : string := String newline "".

(** The text that holds the given lines, each followed by a newline. *)
Fixpoint join_lines (ls : list string) : string :=
  match ls with
  | [] => EmptyString
  | l :: ls' => l +:+ nl +:+ join_lines ls'
  end.

(** The lines of a text as a reader of the file sees them: the lines that
    end in a newline, and the text after the last newline. *)
Definition terminated_lines (str : string) : list string :=
  fst (lines_and_rest str).
Definition raw_lines (str : string) : list string :=
  terminated_lines str ++ [snd (lines_and_rest str)].

(** A raw line is blank or a comment when nothing is left of it once its
    comment, spaces and tabs are removed; otherwise it is checked in that
    cleaned form. *)
Definition blank_or_comment (raw : string) : Prop := clean_line raw = "".
Definition acceptable (raw : string) : Prop :=
  blank_or_comment raw \/ known_prefix (clean_line raw) = true.

(** A line as the splitter delivers it: not empty, and free of spaces,
    tabs, [#] and newlines. *)
Definition plain_line (l : string) : Prop :=
  l <> EmptyString /\ has_char space l = false /\ has_char tab l = false
  /\ has_char hash l = false /\ has_char newline l = false.

End Ignore.

(** ** tsan/ts_valgrind.cc *)
Module Valgrind.

(** The one field of [G_flags] that [ts_fini] reads. *)
Record FLAGS := mkFlags { error_exitcode : Z }.

(** How [ts_fini] ends: by calling [exit(code)] or by returning to the
    Valgrind core. *)
Inductive FiniOutcome := Exited (code : Z) | Returned.

Section Fini.

(** [ThreadSanitizerFini] and [GetNumberOfFoundErrors] belong to the
    detector proper, outside the sources at hand: the first is a transition
    of the detector state, the second reads the error count from it. *)
Context {State : Type}.
Variable ThreadSanitizerFini : State -> State.
Variable GetNumberOfFoundErrors : State -> Z.

Definition ts_fini (G_flags : FLAGS) (st : State) (exitcode : Z)
  : State * FiniOutcome :=
  let st' := ThreadSanitizerFini st in
  if negb (error_exitcode G_flags =? 0) && (GetNumberOfFoundErrors st' >? 0)
  then (st', Exited (error_exitcode G_flags))
  else (st', Returned).

(** The exit code of the process: the argument of [exit] when [ts_fini]
    called it; otherwise the Valgrind core goes on and exits with the
    application's code, the [exitcode] it handed to [ts_fini]. *)
Definition process_exit_code (exitcode : Z) (o : FiniOutcome) : Z :=
  match o with
  | Exited code => code
  | Returned => exitcode
  end.

End Fini.

End Valgrind.

(** ** v2/tsan: tsan_defs.h, tsan_rtl_thread.cc, tsan_sync.cc, tsan_report.cc *)
Module Rtl.

(** *** tsan_defs.h *)

Definition kThreadQuarantineSize : Z := 100.
Definition kTidBits : Z := 16.
Definition kMaxTid : Z := Z.shiftl 1 kTidBits.
Definition kClkBits : Z := 40.
Definition kShadowCnt : Z := 8.
Definition kShadowCell : Z := 8.

(** [u64] and [uptr] are 64 bits wide; a cast wraps around. *)
Definition to_u64 (z : Z) : Z := z mod 2 ^ 64.
Definition to_uptr (z : Z) : Z := z mod 2 ^ 64.

(** Modelled from the spec: [CheckFailed] is only declared in tsan_defs.h
    and [Die] is defined elsewhere; an assertion failure and a fatal both
    end the run ("either the event is handled or the process aborts").
    These are the ways a call stops short of returning; [NullDeref] stands
    for the use of a null pointer, [OutOfFuel] for a loop that was given too
    few steps. *)
Inductive Abort :=
| CheckFailed (line : Z) (cond : string) (v1 v2 : Z)
| Die (printed : string)
| NullDeref
| OutOfFuel.

Inductive Result (A : Type) :=
| Done (a : A)
| Stop (e : Abort).
Arguments Done {A} a.
Arguments Stop {A} e.

#[global] Instance Result_ret : MRet Result := fun A a => Done a.
#[global] Instance Result_bind : MBind Result := fun A B f m =>
  match m with
  | Done a => f a
  | Stop e => Stop e
  end.

(** [CHECK_IMPL(c1, op, c2)]: both sides are cast to [u64] and compared;
    [CheckFailed] is called when the comparison does not hold.  The macro is
    the same whatever [TSAN_DEBUG] is. *)
Definition CHECK_IMPL (op : Z -> Z -> bool) (line : Z) (cond : string)
           (c1 c2 : Z) : Result unit :=
  let v1 := to_u64 c1 in
  let v2 := to_u64 c2 in
  if op v1 v2 then Done tt else Stop (CheckFailed line cond v1 v2).

Definition CHECK (line : Z) (cond : string) (a : Z) : Result unit :=
  CHECK_IMPL (fun x y => negb (x =? y)) line cond a 0.
Definition CHECK_EQ := CHECK_IMPL Z.eqb.
Definition CHECK_NE := CHECK_IMPL (fun x y => negb (x =? y)).
Definition CHECK_LT := CHECK_IMPL Z.ltb.
Definition CHECK_LE := CHECK_IMPL Z.leb.
Definition CHECK_GT := CHECK_IMPL Z.gtb.
Definition CHECK_GE := CHECK_IMPL Z.geb.

(** [DCHECK(a)] is [CHECK(a)] when [TSAN_DEBUG] is set and nothing
    otherwise. *)
Definition DCHECK (TSAN_DEBUG : bool) (line : Z) (cond : string) (a : Z)
  : Result unit :=
  if TSAN_DEBUG then CHECK line cond a else Done tt.

(** *** The records of tsan_rtl.h, tsan_clock.h and tsan_report.h

    These headers are not under src/; the records hold the fields that the
    functions of tsan_rtl_thread.cc read and write. *)

(** Modelled from the spec: "status ∈ {Invalid, Created, Running, Finished,
    Dead}", numbered in that order for the casts of [CHECK_EQ]. *)
Inductive ThreadStatus :=
| ThreadStatusInvalid
| ThreadStatusCreated
| ThreadStatusRunning
| ThreadStatusFinished
| ThreadStatusDead.

(** Modelled from the spec: the value of a status in a cast, by the order
    in which the spec lists the statuses (the enum is in tsan_rtl.h, not
    under src/). *)
Definition status_val (s : ThreadStatus) : Z :=
  match s with
  | ThreadStatusInvalid => 0
  | ThreadStatusCreated => 1
  | ThreadStatusRunning => 2
  | ThreadStatusFinished => 3
  | ThreadStatusDead => 4
  end.

#[global] Instance ThreadStatus_eq_dec : EqDecision ThreadStatus.
Proof. solve_decision. Defined.

(** Modelled from the spec: "FastState: a packed pair ⟨TID, epoch,
    ignore-bit⟩"; the epoch is "a monotonically increasing per-thread
    counter", taken here as an unbounded integer, and [IncrementEpoch] adds
    one to it. *)
Record FastState := mkFastState {
  fs_tid : Z;
  fs_epoch : Z;
  fs_ignore_bit : bool
}.

(** Modelled from the spec: [FastState::IncrementEpoch] (tsan_rtl.h, not
    under src/) adds one to the epoch. *)
Definition IncrementEpoch (fs : FastState) : FastState :=
  mkFastState (fs_tid fs) (fs_epoch fs + 1) (fs_ignore_bit fs).
(** Modelled from the spec: [FastState::GetIgnoreBit] reads the ignore-bit. *)
Definition GetIgnoreBit (fs : FastState) : bool := fs_ignore_bit fs.

(** Modelled from the spec: "Vector clock (ChunkedClock): a sparse mapping
    from TID to epoch"; [acquire(src)] is the element-wise max from another
    clock, [release(dst)] the element-wise max into another clock, [Free]
    empties it. *)
Definition clock_get (c : gmap Z Z) (t : Z) : Z := default 0 (c !! t).
(** Modelled from the spec: [set(t, e)] of the vector clock. *)
Definition clock_set (c : gmap Z Z) (t e : Z) : gmap Z Z := <[t := e]> c.
(** Modelled from the spec: "[acquire(src)] — element-wise max from another
    clock". *)
Definition clock_acquire (self src : gmap Z Z) : gmap Z Z :=
  union_with (fun a b => Some (Z.max a b)) self src.
(** Modelled from the spec: "[release(dst)] — element-wise max into another
    clock"; the result is the new [dst]. *)
Definition clock_release (self dst : gmap Z Z) : gmap Z Z :=
  union_with (fun a b => Some (Z.max a b)) dst self.
(** Modelled from the spec: a freed clock holds no component. *)
Definition clock_Free : gmap Z Z := ∅.

(** Modelled from the spec: the kinds of trace events ("An event packs
    (EventType, pc)"); [tsan_rtl_thread.cc] uses [EventTypeMop] only. *)
Inductive EventType := EventTypeMop | EventTypeFuncEnter | EventTypeFuncExit.

(** Modelled from the spec: an event of the trace, with the epoch it was
    added at. *)
Record TraceEvent := mkEvent {
  ev_epoch : Z;
  ev_typ : EventType;
  ev_pc : Z
}.

(** The hot state of a thread, [ThreadState]. *)
Record ThreadState := mkThreadState {
  ts_in_rtl : Z;
  ts_fast_state : FastState;
  ts_fast_synch_epoch : Z;
  ts_clock : gmap Z Z;
  ts_shadow_stack : list Z;
  ts_trace : list TraceEvent
}.

(** Modelled from the spec: [TraceAddEvent] appends the event to the
    thread's trace ("Increment thread epoch; append ⟨Mop, pc⟩ to trace"). *)
Definition TraceAddEvent (thr : ThreadState) (epoch : Z) (typ : EventType)
           (pc : Z) : ThreadState :=
  mkThreadState (ts_in_rtl thr) (ts_fast_state thr) (ts_fast_synch_epoch thr)
                (ts_clock thr) (ts_shadow_stack thr)
                (ts_trace thr ++ [mkEvent epoch typ pc]).

Definition set_fast_state (thr : ThreadState) (fs : FastState) : ThreadState :=
  mkThreadState (ts_in_rtl thr) fs (ts_fast_synch_epoch thr)
                (ts_clock thr) (ts_shadow_stack thr) (ts_trace thr).
Definition set_fast_synch_epoch (thr : ThreadState) (e : Z) : ThreadState :=
  mkThreadState (ts_in_rtl thr) (ts_fast_state thr) e
                (ts_clock thr) (ts_shadow_stack thr) (ts_trace thr).
Definition set_clock (thr : ThreadState) (c : gmap Z Z) : ThreadState :=
  mkThreadState (ts_in_rtl thr) (ts_fast_state thr) (ts_fast_synch_epoch thr)
                c (ts_shadow_stack thr) (ts_trace thr).

(** The words [StackTrace::ObtainCurrent] stores: the frames of the shadow
    stack, followed by [toppc] when it is not zero. *)
Definition current_frames (thr : ThreadState) (toppc : Z) : list Z :=
  ts_shadow_stack thr ++ (if toppc =? 0 then [] else [toppc]).

(** *** trunk/v2/tsan/tsan_sync.cc: [StackTrace] *)
Module Stack.

(** [StackTrace]: the count [n_] and the buffer [s_] points to; a null
    [s_] is [None]. *)
Record StackTrace := mkStackTrace {
  n_ : Z;
  s_ : option (list Z)
}.

(** [StackTrace::StackTrace()] *)
Definition StackTrace_new : StackTrace := mkStackTrace 0 None.

Definition buf_val (s : option (list Z)) : Z :=
  match s with
  | None => 0
  | Some _ => 1
  end.

(** [StackTrace::~StackTrace()] *)
Definition StackTrace_delete (st : StackTrace) : Result unit :=
  _ ← CHECK_EQ 108 "(n_) == (0)" (n_ st) 0;
  CHECK_EQ 109 "(s_) == (0)" (buf_val (s_ st)) 0.

(** [StackTrace::Free]: the check is made only when a buffer is held. *)
Definition Free (st : StackTrace) : Result StackTrace :=
  match s_ st with
  | Some _ =>
      _ ← CHECK_NE 135 "(n_) != (0)" (n_ st) 0;
      Done (mkStackTrace 0 None)
  | None => Done st
  end.

Definition IsEmpty (st : StackTrace) : bool := n_ st =? 0.
Definition Size (st : StackTrace) : Z := n_ st.

(** [StackTrace::Get]: the check, then the read of [s_[i]]; a read
    through a null [s_] or past the buffer has no defined result. *)
Definition Get (st : StackTrace) (i : Z) : Result Z :=
  _ ← CHECK_LT 151 "(i) < (n_)" i (n_ st);
  match s_ st with
  | Some l =>
      match l !! Z.to_nat i with
      | Some pc => Done pc
      | None => Stop NullDeref
      end
  | None => Stop NullDeref
  end.

Section Alloc.

(** [internal_alloc] is in tsan_mman.cc (not under src/): whether it
    returns a buffer (and not a null pointer) for a request of so many
    words is a parameter. *)
Variable internal_alloc : Z -> bool.

(** A buffer of [words] words filled with [contents]; writing through a
    null pointer has no defined result. *)
Definition filled (words : Z) (contents : list Z) : Result (option (list Z)) :=
  if internal_alloc words then Done (Some contents)
  else match contents with
       | [] => Done None
       | _ :: _ => Stop NullDeref
       end.

(** [StackTrace::Init]; [pcs i] is the word [pcs[i]]. *)
Definition Init (st : StackTrace) (pcs : Z -> Z) (cnt : Z)
  : Result StackTrace :=
  st ← Free st;
  if cnt =? 0 then Done st
  else
    s ← filled cnt (pcs <$> seqZ 0 cnt);
    Done (mkStackTrace cnt s).

(** [StackTrace::ObtainCurrent]: [Free] first; then the frames of the
    shadow stack are copied one by one into a buffer of [n_ + !!toppc]
    words, and [toppc] is stored and counted when it is not zero. *)
Definition ObtainCurrent (st : StackTrace) (thr : ThreadState) (toppc : Z)
  : Result StackTrace :=
  st ← Free st;
  let n := Z.of_nat (List.length (ts_shadow_stack thr)) in
  let extra := if toppc =? 0 then 0 else 1 in
  s ← filled (n + extra) (current_frames thr toppc);
  Done (mkStackTrace (n + extra) s).

End Alloc.

(** The object is either empty with a null buffer, or holds as many
    words as it counts. *)
Definition consistent (st : StackTrace) : Prop :=
  match s_ st with
  | None => n_ st = 0
  | Some l => n_ st = Z.of_nat (List.length l) /\ n_ st <> 0
  end.

(** The check of [Free] passes: no buffer is held, or the count is not
    zero as an unsigned 64-bit word. *)
Definition freeable (st : StackTrace) : Prop :=
  s_ st = None \/ to_u64 (n_ st) <> 0.

(** The stack that holds the given words. *)
Definition holding (frames : list Z) : StackTrace :=
  mkStackTrace (Z.of_nat (List.length frames)) (Some frames).

End Stack.

(** The persistent descriptor of a thread, [ThreadContext].  A pointer to a
    context is the index of its slot in [ctx->threads]; [None] is the null
    pointer.  [tc_thr] tells whether [tctx->thr] is set. *)
Record ThreadContext := mkThreadContext {
  tc_tid : Z;
  tc_uid : Z;
  tc_status : ThreadStatus;
  tc_detached : bool;
  tc_reuse_count : Z;
  tc_sync : gmap Z Z;
  tc_creation_stack : Stack.StackTrace;
  tc_epoch0 : Z;
  tc_epoch1 : Z;
  tc_thr : bool;
  tc_dead_next : option Z
}.

(** Modelled from the spec: the constructor [ThreadContext(tid)] gives a
    context in status Invalid with every other field zero. *)
Definition new_ThreadContext (tid : Z) : ThreadContext :=
  mkThreadContext tid 0 ThreadStatusInvalid false 0 ∅ Stack.StackTrace_new 0 0
                  false None.

Definition set_status (t : ThreadContext) (s : ThreadStatus) : ThreadContext :=
  mkThreadContext (tc_tid t) (tc_uid t) s (tc_detached t) (tc_reuse_count t)
    (tc_sync t) (tc_creation_stack t) (tc_epoch0 t) (tc_epoch1 t) (tc_thr t)
    (tc_dead_next t).
Definition set_uid (t : ThreadContext) (u : Z) : ThreadContext :=
  mkThreadContext (tc_tid t) u (tc_status t) (tc_detached t) (tc_reuse_count t)
    (tc_sync t) (tc_creation_stack t) (tc_epoch0 t) (tc_epoch1 t) (tc_thr t)
    (tc_dead_next t).
Definition set_detached (t : ThreadContext) (d : bool) : ThreadContext :=
  mkThreadContext (tc_tid t) (tc_uid t) (tc_status t) d (tc_reuse_count t)
    (tc_sync t) (tc_creation_stack t) (tc_epoch0 t) (tc_epoch1 t) (tc_thr t)
    (tc_dead_next t).
Definition set_reuse_count (t : ThreadContext) (n : Z) : ThreadContext :=
  mkThreadContext (tc_tid t) (tc_uid t) (tc_status t) (tc_detached t) n
    (tc_sync t) (tc_creation_stack t) (tc_epoch0 t) (tc_epoch1 t) (tc_thr t)
    (tc_dead_next t).
Definition set_sync (t : ThreadContext) (c : gmap Z Z) : ThreadContext :=
  mkThreadContext (tc_tid t) (tc_uid t) (tc_status t) (tc_detached t)
    (tc_reuse_count t) c (tc_creation_stack t) (tc_epoch0 t) (tc_epoch1 t)
    (tc_thr t) (tc_dead_next t).
Definition set_creation_stack (t : ThreadContext) (s : Stack.StackTrace)
  : ThreadContext :=
  mkThreadContext (tc_tid t) (tc_uid t) (tc_status t) (tc_detached t)
    (tc_reuse_count t) (tc_sync t) s (tc_epoch0 t) (tc_epoch1 t) (tc_thr t)
    (tc_dead_next t).
Definition set_epochs (t : ThreadContext) (e0 e1 : Z) : ThreadContext :=
  mkThreadContext (tc_tid t) (tc_uid t) (tc_status t) (tc_detached t)
    (tc_reuse_count t) (tc_sync t) (tc_creation_stack t) e0 e1 (tc_thr t)
    (tc_dead_next t).
Definition set_thr (t : ThreadContext) (b : bool) : ThreadContext :=
  mkThreadContext (tc_tid t) (tc_uid t) (tc_status t) (tc_detached t)
    (tc_reuse_count t) (tc_sync t) (tc_creation_stack t) (tc_epoch0 t)
    (tc_epoch1 t) b (tc_dead_next t).
Definition set_dead_next (t : ThreadContext) (n : option Z) : ThreadContext :=
  mkThreadContext (tc_tid t) (tc_uid t) (tc_status t) (tc_detached t)
    (tc_reuse_count t) (tc_sync t) (tc_creation_stack t) (tc_epoch0 t)
    (tc_epoch1 t) (tc_thr t) n.

(** The part of the process-wide [Context] that the thread registry uses.
    [threads] is the array [ctx->threads] of [kMaxTid] pointers: slot [i]
    holds a context or is null. *)
Record Context := mkContext {
  threads : gmap Z ThreadContext;
  thread_seq : Z;
  dead_list_head : option Z;
  dead_list_tail : option Z;
  dead_list_size : Z;
  nreported : Z
}.

Definition set_threads (c : Context) (m : gmap Z ThreadContext) : Context :=
  mkContext m (thread_seq c) (dead_list_head c) (dead_list_tail c)
            (dead_list_size c) (nreported c).

(** The report record, [ReportDesc], as far as tsan_rtl_thread.cc and
    tsan_report.cc use it.  [nmop], [nthread] and [cnt] are the lengths of
    the lists; a null [loc] is [None]. *)
Inductive ReportType := ReportTypeRace | ReportTypeThreadLeak.

Record ReportStackEntry := mkEntry {
  ent_pc : Z;
  ent_func : string;
  ent_file : string;
  ent_line : Z
}.

Definition ReportStack := list ReportStackEntry.

Record ReportMop := mkMop {
  mop_tid : Z;
  mop_addr : Z;
  mop_size : Z;
  mop_write : bool;
  mop_stack : ReportStack
}.

Inductive ReportLocationType :=
| ReportLocationGlobal | ReportLocationHeap | ReportLocationStack.

Record ReportLocation := mkLoc {
  loc_type : ReportLocationType;
  loc_addr : Z;
  loc_size : Z;
  loc_tid : Z;
  loc_name : string;
  loc_stack : ReportStack
}.

Record ReportThread := mkReportThread {
  rt_id : Z;
  rt_running : bool;
  rt_stack : ReportStack
}.

Record ReportDesc := mkReport {
  rep_typ : ReportType;
  rep_mop : list ReportMop;
  rep_loc : option ReportLocation;
  rep_thread : list ReportThread
}.

(** *** tsan_report.cc *)

(** What [Printf] is called with, with the arguments of each format kept
    apart. *)
Inductive Printed :=
| PText (s : string)
| PMop (previous write : bool) (size addr tid : Z)
| PStackEntry (i pc : Z) (func file : string) (line : Z)
| PLocGlobal (name : string) (size addr : Z)
| PLocHeap (size addr tid : Z)
| PLocStack (tid : Z).

Fixpoint PrintStack_from (i : Z) (stack : ReportStack) : list Printed :=
  match stack with
  | [] => []
  | ent :: rest =>
      PStackEntry i (ent_pc ent) (ent_func ent) (ent_file ent) (ent_line ent)
      :: PrintStack_from (i + 1) rest
  end.

Definition PrintStack (stack : ReportStack) : list Printed :=
  PrintStack_from 0 stack.

Fixpoint PrintMops_from (i : Z) (mops : list ReportMop) : list Printed :=
  match mops with
  | [] => []
  | mop :: rest =>
      PMop (negb (i =? 0)) (mop_write mop) (mop_size mop) (mop_addr mop)
           (mop_tid mop)
      :: PrintStack (mop_stack mop) ++ PrintMops_from (i + 1) rest
  end.

Definition PrintReport (rep : ReportDesc) : list Printed :=
  [PText "=================="; PText "WARNING: ThreadSanitizer: data race"]
  ++ PrintMops_from 0 (rep_mop rep)
  ++ match rep_loc rep with
     | None => []
     | Some loc =>
         match loc_type loc with
         | ReportLocationGlobal =>
             [PLocGlobal (loc_name loc) (loc_size loc) (loc_addr loc)]
         | ReportLocationHeap =>
             PLocHeap (loc_size loc) (loc_addr loc) (loc_tid loc)
             :: PrintStack (loc_stack loc)
         | ReportLocationStack => [PLocStack (loc_tid loc)]
         end
     end
  ++ [PText "=================="].

(** *** tsan_rtl_thread.cc *)

Definition is_leak_status (s : ThreadStatus) : bool :=
  match s with
  | ThreadStatusCreated | ThreadStatusRunning | ThreadStatusFinished => true
  | _ => false
  end.

Definition bump_nreported (c : Context) : Context :=
  mkContext (threads c) (thread_seq c) (dead_list_head c) (dead_list_tail c)
            (dead_list_size c) (nreported c + 1).

Definition cond_in_rtl : string := "(thr->in_rtl) > (0)".

Section Finalize.

(** [SymbolizeStack] is provided by the front-end; the registry is
    parametric in it. *)
Variable SymbolizeStack : Stack.StackTrace -> ReportStack.

(** The body of the [for] loop of [ThreadFinalize] at index [i]: the
    context and the reports handed to [PrintReport] so far. *)
Definition ThreadFinalize_body (i : Z) (st : Context * list ReportDesc)
  : Context * list ReportDesc :=
  let '(c, out) := st in
  match threads c !! i with
  | None => st
  | Some tctx =>
      if tc_detached tctx then st
      else if negb (is_leak_status (tc_status tctx)) then st
      else
        let rep :=
          mkReport ReportTypeThreadLeak [] None
            [mkReportThread (tc_tid tctx)
               (negb (bool_decide (tc_status tctx = ThreadStatusFinished)))
               (SymbolizeStack (tc_creation_stack tctx))] in
        (bump_nreported c, out ++ [rep])
  end.

Fixpoint ThreadFinalize_loop (n : nat) (i : Z) (st : Context * list ReportDesc)
  : Context * list ReportDesc :=
  match n with
  | O => st
  | S n' => ThreadFinalize_loop n' (i + 1) (ThreadFinalize_body i st)
  end.

Definition ThreadFinalize (c : Context) (thr : ThreadState)
  : Result (Context * list ReportDesc) :=
  _ ← CHECK_GT 26 cond_in_rtl (ts_in_rtl thr) 0;
  Done (ThreadFinalize_loop (Z.to_nat kMaxTid) 0 (c, [])).

(** What a call of [ThreadFinalize] prints: [PrintReport] is called on each
    report in turn. *)
Definition ThreadFinalize_printed (c : Context) (thr : ThreadState)
  : Result (list Printed) :=
  '(_, reps) ← ThreadFinalize c thr;
  Done (List.concat (List.map PrintReport reps)).

End Finalize.

Definition b2z (b : bool) : Z := if b then 1 else 0.

(** The value of a pointer in a [CHECK]: zero for the null pointer and
    nonzero otherwise (addresses themselves are not modelled: 1 stands for
    any of them). *)
Definition ptr_val (p : option Z) : Z :=
  match p with
  | None => 0
  | Some _ => 1
  end.

Definition ThreadDead (c : Context) (thr : ThreadState) (t : Z)
  : Result Context :=
  _ ← CHECK_GT 55 cond_in_rtl (ts_in_rtl thr) 0;
  match threads c !! t with
  | None => Stop NullDeref
  | Some tctx =>
      _ ← CHECK 56 "((tctx->status == ThreadStatusRunning || tctx->status == ThreadStatusFinished)) != (0)"
            (b2z (bool_decide (tc_status tctx = ThreadStatusRunning)
                  || bool_decide (tc_status tctx = ThreadStatusFinished)));
      let tctx :=
        set_dead_next
          (set_sync (set_uid (set_status tctx ThreadStatusDead) 0) clock_Free)
          None in
      let th := <[t := tctx]> (threads c) in
      if dead_list_size c =? 0 then
        Done (mkContext th (thread_seq c) (Some t) (Some t)
                        (dead_list_size c + 1) (nreported c))
      else
        match dead_list_tail c with
        | None => Stop NullDeref
        | Some tl =>
            match th !! tl with
            | None => Stop NullDeref
            | Some tl_ctx =>
                Done (mkContext (<[tl := set_dead_next tl_ctx (Some t)]> th)
                                (thread_seq c) (dead_list_head c) (Some t)
                                (dead_list_size c + 1) (nreported c))
            end
        end
  end.

Definition thread_limit_message : string :=
  "ThreadSanitizer: 65536 thread limit exceeded. Dying." +:+ Ignore.nl.

(** The first half of [ThreadCreate]: the context to use, as the registry
    after the choice, the slot of [tctx] and [tid]. *)
Definition ThreadCreate_pick (c : Context) : Result (Context * Z * Z) :=
  if (dead_list_size c >? kThreadQuarantineSize)
     || (thread_seq c >=? kMaxTid) then
    if dead_list_size c =? 0 then Stop (Die thread_limit_message)
    else
      match dead_list_head c with
      | None => Stop NullDeref
      | Some h =>
          match threads c !! h with
          | None => Stop NullDeref
          | Some tctx =>
              let head := tc_dead_next tctx in
              let size := dead_list_size c - 1 in
              _ ← (if size =? 0
                   then CHECK_EQ 88 "(tctx->dead_next) == (0)"
                                 (ptr_val (tc_dead_next tctx)) 0
                   else Done tt);
              let head := if size =? 0 then None else head in
              _ ← CHECK_EQ 91 "(tctx->status) == (ThreadStatusDead)"
                    (status_val (tc_status tctx))
                    (status_val ThreadStatusDead);
              let tctx :=
                set_reuse_count (set_status tctx ThreadStatusInvalid)
                                (tc_reuse_count tctx + 1) in
              Done (mkContext (<[h := tctx]> (threads c)) (thread_seq c)
                              head (dead_list_tail c) size (nreported c),
                    h, tc_tid tctx)
          end
      end
  else
    let tid := thread_seq c in
    Done (mkContext (<[tid := new_ThreadContext tid]> (threads c)) (tid + 1)
                    (dead_list_head c) (dead_list_tail c) (dead_list_size c)
                    (nreported c),
          tid, tid).

Section Create.

(** [internal_alloc], which [ObtainCurrent] calls, is a parameter. *)
Variable internal_alloc : Z -> bool.

Definition ThreadCreate (c : Context) (thr : ThreadState) (pc uid : Z)
           (detached : bool) : Result (Context * ThreadState * Z) :=
  _ ← CHECK_GT 74 cond_in_rtl (ts_in_rtl thr) 0;
  '(c, p, tid) ← ThreadCreate_pick c;
  match threads c !! p with
  | None => Stop NullDeref
  | Some tctx =>
      _ ← CHECK_NE 102 "(tctx) != (0)" (ptr_val (Some p)) 0;
      _ ← CHECK_GE 103 "(tid) >= (0)" tid 0;
      _ ← CHECK_LT 104 "(tid) < (kMaxTid)" tid kMaxTid;
      _ ← CHECK_EQ 107 "(tctx->status) == (ThreadStatusInvalid)"
            (status_val (tc_status tctx)) (status_val ThreadStatusInvalid);
      let tctx :=
        set_detached
          (set_uid (set_thr (set_status tctx ThreadStatusCreated) false) uid)
          detached in
      if negb (tid =? 0) then
        let thr := set_fast_state thr (IncrementEpoch (ts_fast_state thr)) in
        let thr :=
          TraceAddEvent thr (fs_epoch (ts_fast_state thr)) EventTypeMop 0 in
        let thr :=
          set_clock thr (clock_set (ts_clock thr)
                                   (fs_tid (ts_fast_state thr))
                                   (fs_epoch (ts_fast_state thr))) in
        let thr := set_fast_synch_epoch thr (fs_epoch (ts_fast_state thr)) in
        let tctx :=
          set_sync tctx (clock_release (ts_clock thr) (tc_sync tctx)) in
        creation_stack ←
          Stack.ObtainCurrent internal_alloc (tc_creation_stack tctx) thr pc;
        let tctx := set_creation_stack tctx creation_stack in
        Done (set_threads c (<[p := tctx]> (threads c)), thr, tid)
      else
        Done (set_threads c (<[p := tctx]> (threads c)), thr, tid)
  end.

(** The creation stack of the picked context once [ThreadCreate] is
    through: untouched for tid 0, what [ObtainCurrent] leaves otherwise. *)
Definition create_capture (tid : Z) (st : Stack.StackTrace)
           (thr : ThreadState) (pc : Z) : Result Stack.StackTrace :=
  if tid =? 0 then Done st else Stack.ObtainCurrent internal_alloc st thr pc.

(** What a create that yields [tid] needs in order to capture the stack:
    nothing for tid 0; otherwise the check of [Free] passes on the stack
    the context holds, and the allocator returns a buffer for the
    [n_ + !!toppc] words asked for. *)
Definition can_capture (tid : Z) (st : Stack.StackTrace) (thr : ThreadState)
           (pc : Z) : Prop :=
  tid <> 0 ->
  Stack.freeable st
  /\ internal_alloc (Z.of_nat (List.length (ts_shadow_stack thr))
                     + (if pc =? 0 then 0 else 1)) = true.

End Create.

(** An allocator that always returns a buffer. *)
Definition sample_alloc (words : Z) : bool := true.

Section Start.

(** The constructor of [ThreadState] is in tsan_rtl.h (not under src/):
    [ThreadStart] is parametric in it.  Its arguments are [tid], [epoch0] and
    the stack and TLS bounds. *)
Variable new_ThreadState : Z -> Z -> Z -> Z -> Z -> Z -> ThreadState.

(** [ThreadStart].  [TSAN_DEBUG] is the build configuration; the function
    holds [CHECK]s only, whose expansion is the same in both builds.  The
    four bounds are what [GetThreadStackAndTls] stores; the calls of
    [MemoryResetRange] are returned as (pc, addr, size). *)
Definition ThreadStart (TSAN_DEBUG : bool) (c : Context) (thr : ThreadState)
           (tid : Z) (stk_addr stk_size tls_addr tls_size : Z)
  : Result (Context * ThreadState * list (Z * Z * Z)) :=
  _ ← CHECK_GT 126 cond_in_rtl (ts_in_rtl thr) 0;
  let resets :=
    (if negb (stk_addr =? 0) && negb (stk_size =? 0)
     then [(1, stk_addr, stk_size)] else [])
    ++ (if negb (tls_addr =? 0) && negb (tls_size =? 0)
        then [(2, tls_addr, tls_size)] else []) in
  let tctx_ptr :=
    match threads c !! tid with Some _ => Some tid | None => None end in
  _ ← CHECK_NE 139 "(tctx) != (0)" (ptr_val tctx_ptr) 0;
  match threads c !! tid with
  | None => Stop NullDeref
  | Some tctx =>
      _ ← CHECK_EQ 140 "(tctx->status) == (ThreadStatusCreated)"
            (status_val (tc_status tctx)) (status_val ThreadStatusCreated);
      let tctx := set_status tctx ThreadStatusRunning in
      let epoch0 := to_u64 (tc_epoch1 tctx + 1) in
      let tctx := set_epochs tctx epoch0 (to_u64 (-1)) in
      let thr :=
        new_ThreadState tid epoch0 stk_addr stk_size tls_addr tls_size in
      let tctx := set_thr tctx true in
      let thr := set_fast_synch_epoch thr epoch0 in
      let thr := set_clock thr (clock_set (ts_clock thr) tid epoch0) in
      let thr := set_clock thr (clock_acquire (ts_clock thr) (tc_sync tctx)) in
      Done (set_threads c (<[tid := tctx]> (threads c)), thr, resets)
  end.

End Start.

(** Modelled from the spec: the shadow word built for an access, "Shadow
    word ... Encodes: TID, epoch, offset within cell (3 bits), access size
    log2 (2 bits), and write flag"; the class is in tsan_rtl.h (not under
    src/). *)
Record Shadow := mkShadow {
  sh_fast_state : FastState;
  sh_write : bool;
  sh_addr0 : Z;
  sh_size_log : Z
}.

(** Modelled from the spec: [Shadow cur(fast_state)] takes the TID and the
    epoch of the fast state. *)
Definition new_Shadow (fs : FastState) : Shadow := mkShadow fs false 0 0.
(** Modelled from the spec: [SetWrite] stores the write flag. *)
Definition SetWrite (s : Shadow) (w : bool) : Shadow :=
  mkShadow (sh_fast_state s) w (sh_addr0 s) (sh_size_log s).
(** Modelled from the spec: [SetAddr0AndSizeLog] stores the offset within
    the cell and the size log. *)
Definition SetAddr0AndSizeLog (s : Shadow) (addr0 size_log : Z) : Shadow :=
  mkShadow (sh_fast_state s) (sh_write s) addr0 size_log.

(** One call of [MemoryAccessImpl(thr, addr, kAccessSizeLog, is_write,
    fast_state, shadow_mem, cur)]; the function itself is in tsan_rtl.cc
    (not under src/), so the calls are collected in order. *)
Record AccessCall := mkCall {
  a_addr : Z;
  a_size_log : Z;
  a_is_write : bool;
  a_fast_state : FastState;
  a_shadow_mem : Z;
  a_cur : Shadow
}.

Definition byte_call (fast_state : FastState) (is_write : bool)
           (shadow_mem addr : Z) : AccessCall :=
  let kAccessSizeLog := 0 in
  let cur := new_Shadow fast_state in
  let cur := SetWrite cur is_write in
  let cur := SetAddr0AndSizeLog cur (Z.land addr (kShadowCell - 1))
                                kAccessSizeLog in
  mkCall addr kAccessSizeLog is_write fast_state shadow_mem cur.

Definition cell_call (fast_state : FastState) (is_write : bool)
           (shadow_mem addr : Z) : AccessCall :=
  let kAccessSizeLog := 3 in
  let cur := new_Shadow fast_state in
  let cur := SetWrite cur is_write in
  let cur := SetAddr0AndSizeLog cur 0 kAccessSizeLog in
  mkCall addr kAccessSizeLog is_write fast_state shadow_mem cur.

(** The size in bytes of the shadow words of one cell: [shadow_mem +=
    kShadowCnt] moves a [u64*] by [kShadowCnt] words. *)
Definition cell_stride : Z := kShadowCnt * 8.

Section Range.

Variable fast_state : FastState.
Variable is_write : bool.

(** [for (; addr % kShadowCell && size; addr++, size--)] *)
Fixpoint prefix_loop (fuel : nat) (shadow_mem addr size : Z)
         (calls : list AccessCall) : option (Z * Z * list AccessCall) :=
  match fuel with
  | O => None
  | S fuel' =>
      if negb (addr mod kShadowCell =? 0) && negb (size =? 0) then
        prefix_loop fuel' shadow_mem (to_uptr (addr + 1)) (size - 1)
                    (calls ++ [byte_call fast_state is_write shadow_mem addr])
      else Some (addr, size, calls)
  end.

(** [for (; size >= kShadowCell; addr += kShadowCell, size -= kShadowCell)],
    with [shadow_mem += kShadowCnt] at the end of the body. *)
Fixpoint body_loop (fuel : nat) (shadow_mem addr size : Z)
         (calls : list AccessCall) : option (Z * Z * Z * list AccessCall) :=
  match fuel with
  | O => None
  | S fuel' =>
      if size >=? kShadowCell then
        body_loop fuel' (shadow_mem + cell_stride)
                  (to_uptr (addr + kShadowCell)) (size - kShadowCell)
                  (calls ++ [cell_call fast_state is_write shadow_mem addr])
      else Some (shadow_mem, addr, size, calls)
  end.

(** [for (; size; addr++, size--)] *)
Fixpoint suffix_loop (fuel : nat) (shadow_mem addr size : Z)
         (calls : list AccessCall) : option (Z * Z * list AccessCall) :=
  match fuel with
  | O => None
  | S fuel' =>
      if negb (size =? 0) then
        suffix_loop fuel' shadow_mem (to_uptr (addr + 1)) (size - 1)
                    (calls ++ [byte_call fast_state is_write shadow_mem addr])
      else Some (addr, size, calls)
  end.

End Range.

Definition run_loop {A : Type} (r : option A) : Result A :=
  match r with
  | Some a => Done a
  | None => Stop OutOfFuel
  end.

Section AccessRange.

(** [MemToShadow], [IsAppMem] and [IsShadowMem] come from tsan_platform.h
    (not under src/): the function is parametric in them.  A shadow pointer
    is the byte address it holds. *)
Variable MemToShadow : Z -> Z.
Variable IsAppMem : Z -> bool.
Variable IsShadowMem : Z -> bool.

(** The block under [#if TSAN_DEBUG]: each test prints and fails its
    [DCHECK]. *)
Definition debug_checks (TSAN_DEBUG : bool) (addr size shadow_mem : Z)
  : Result unit :=
  if TSAN_DEBUG then
    _ ← (if negb (IsAppMem addr)
         then DCHECK TSAN_DEBUG 259 "((IsAppMem(addr))) != (0)"
                     (b2z (IsAppMem addr))
         else Done tt);
    _ ← (if negb (IsAppMem (to_uptr (addr + size - 1)))
         then DCHECK TSAN_DEBUG 263 "((IsAppMem(addr + size - 1))) != (0)"
                     (b2z (IsAppMem (to_uptr (addr + size - 1))))
         else Done tt);
    _ ← (if negb (IsShadowMem shadow_mem)
         then DCHECK TSAN_DEBUG 267 "((IsShadowMem((uptr)shadow_mem))) != (0)"
                     (b2z (IsShadowMem shadow_mem))
         else Done tt);
    let last := shadow_mem + 8 * (to_uptr (size * kShadowCnt) / 8) - 8 in
    (if negb (IsShadowMem last)
     then DCHECK TSAN_DEBUG 272
            "((IsShadowMem((uptr)(shadow_mem + size * kShadowCnt / 8 - 1)))) != (0)"
            (b2z (IsShadowMem last))
     else Done tt)
  else Done tt.

(** [MemoryAccessRange]: the thread state it leaves and the calls of
    [MemoryAccessImpl] it makes.  [StatInc] only touches the statistics
    counters, which [ThreadState] leaves out.  Each loop runs at most [size]
    times, which is the fuel it is given. *)
Definition MemoryAccessRange (TSAN_DEBUG : bool) (thr : ThreadState)
           (pc addr size : Z) (is_write : bool)
  : Result (ThreadState * list AccessCall) :=
  if size =? 0 then Done (thr, [])
  else
    let shadow_mem := MemToShadow addr in
    _ ← debug_checks TSAN_DEBUG addr size shadow_mem;
    let fast_state := ts_fast_state thr in
    if GetIgnoreBit fast_state then Done (thr, [])
    else
      let fast_state := IncrementEpoch fast_state in
      let thr := set_fast_state thr fast_state in
      let thr := TraceAddEvent thr (fs_epoch fast_state) EventTypeMop pc in
      let unaligned := negb (addr mod kShadowCell =? 0) in
      let fuel := S (Z.to_nat size) in
      '(addr, size, calls) ←
        run_loop (prefix_loop fast_state is_write fuel shadow_mem addr size []);
      let shadow_mem :=
        if unaligned then shadow_mem + cell_stride else shadow_mem in
      '(shadow_mem, addr, size, calls) ←
        run_loop (body_loop fast_state is_write fuel shadow_mem addr size calls);
      '(addr, size, calls) ←
        run_loop (suffix_loop fast_state is_write fuel shadow_mem addr size calls);
      Done (thr, calls).

End AccessRange.

(** *** The properties of the registry in the words of the specification *)

(** A thread "still in {Created, Running, Finished} that is not detached". *)
Definition is_leak (tctx : ThreadContext) : bool :=
  negb (tc_detached tctx) && is_leak_status (tc_status tctx).

(** The thread contexts of the registry, in slot order. *)
Definition registered (c : Context) : list ThreadContext :=
  omap (fun i => threads c !! i) (seqZ 0 kMaxTid).

(** The thread-leak report of a context: kind ThreadLeak, no memory access,
    no location, and the one thread with its tid and creation stack. *)
Definition leak_report (SymbolizeStack : Stack.StackTrace -> ReportStack)
           (tctx : ThreadContext) : ReportDesc :=
  mkReport ReportTypeThreadLeak [] None
    [mkReportThread (tc_tid tctx)
       (negb (bool_decide (tc_status tctx = ThreadStatusFinished)))
       (SymbolizeStack (tc_creation_stack tctx))].

(** *** Concrete states on which the functions are run *)

Definition sample_thr : ThreadState :=
  mkThreadState 1 (mkFastState 0 10 false) 0 ∅ [100; 200] [].

Definition sample_symbolize (s : Stack.StackTrace) : ReportStack :=
  List.map (fun pc => mkEntry pc "" "" 0) (default [] (Stack.s_ s)).

Definition sample_new_ThreadState (tid epoch0 stk_addr stk_size tls_addr
                                   tls_size : Z) : ThreadState :=
  mkThreadState 1 (mkFastState tid epoch0 false) 0 ∅ [] [].

(** Main thread running, thread 1 finished and joinable, thread 2 running
    and detached, thread 3 dead and alone in the quarantine. *)
Definition sample_ctx : Context :=
  mkContext
    (list_to_map
       [(0, mkThreadContext 0 11 ThreadStatusRunning false 0 ∅
                            Stack.StackTrace_new 1 0 true None);
        (1, mkThreadContext 1 12 ThreadStatusFinished false 0 ∅
                            (Stack.holding [100; 7]) 1 5 false None);
        (2, mkThreadContext 2 13 ThreadStatusRunning true 0 ∅
                            (Stack.holding [100; 8]) 1 0 true None);
        (3, mkThreadContext 3 0 ThreadStatusDead false 0 ∅
                            (Stack.holding [100; 9]) 1 4 false None)])
    4 (Some 3) (Some 3) 1 0.

(** Modelled from the spec: "Shadow memory: a dense map from application
    address A → index (A / 8) into a flat array of shadow cells";
    [MemToShadow] itself is in tsan_platform.h (not under src/).  Used to
    run [MemoryAccessRange] on concrete ranges. *)
Definition sample_MemToShadow (addr : Z) : Z := addr / kShadowCell * cell_stride.

(** The address and the size-log of each call, and the offset of its shadow
    word. *)
Definition call_summary (r : Result (ThreadState * list AccessCall))
  : list (Z * Z * Z) :=
  match r with
  | Done (_, calls) =>
      List.map (fun c => (a_addr c, a_size_log c, sh_addr0 (a_cur c))) calls
  | Stop _ => []
  end.

(** *** The quarantine as a queue

    The dead list is the chain of [dead_next] pointers from
    [dead_list_head]; [quarantine c q] says that it holds the slots [q],
    oldest first, all of them Dead, that [dead_list_tail] is its last
    element and [dead_list_size] its length.  When the list is empty the
    two pointers are not looked at.  A context of the quarantine has the
    empty sync clock that [ThreadDead] left it. *)
Fixpoint dead_chain (th : gmap Z ThreadContext) (p : option Z) (q : list Z)
  : Prop :=
  match q with
  | [] => p = None
  | t :: q' =>
      p = Some t /\
      match th !! t with
      | Some tctx =>
          (tc_status tctx = ThreadStatusDead /\ tc_sync tctx = ∅)
          /\ dead_chain th (tc_dead_next tctx) q'
      | None => False
      end
  end.

(** The chain as a test that can be run. *)
Fixpoint dead_chain_b (th : gmap Z ThreadContext) (p : option Z) (q : list Z)
  : bool :=
  match q with
  | [] => bool_decide (p = None)
  | t :: q' =>
      bool_decide (p = Some t)
      && match th !! t with
         | Some tctx =>
             bool_decide (tc_status tctx = ThreadStatusDead)
             && bool_decide (tc_sync tctx = ∅)
             && dead_chain_b th (tc_dead_next tctx) q'
         | None => false
         end
  end.

Definition quarantine (c : Context) (q : list Z) : Prop :=
  dead_list_size c = Z.of_nat (List.length q)
  /\ NoDup q
  /\ (q <> [] ->
      dead_chain (threads c) (dead_list_head c) q
      /\ dead_list_tail c = last q).

(** Slot [i] of [ctx->threads] holds the context made for tid [i], and the
    slots in use are those below [thread_seq]. *)
Definition slots_ok (th : gmap Z ThreadContext) (seq : Z) : Prop :=
  forall i tctx, th !! i = Some tctx -> tc_tid tctx = i /\ 0 <= i < seq.

Definition registry_wf (c : Context) : Prop :=
  slots_ok (threads c) (thread_seq c) /\ 0 <= thread_seq c <= kMaxTid.

(** What [ThreadCreate] leaves in the calling thread and in the context it
    picked, for a nonzero [tid]. *)
Definition released_thr (thr : ThreadState) : ThreadState :=
  let epoch := fs_epoch (ts_fast_state thr) + 1 in
  mkThreadState (ts_in_rtl thr)
    (mkFastState (fs_tid (ts_fast_state thr)) epoch
                 (fs_ignore_bit (ts_fast_state thr)))
    epoch
    (<[fs_tid (ts_fast_state thr) := epoch]> (ts_clock thr))
    (ts_shadow_stack thr)
    (ts_trace thr ++ [mkEvent epoch EventTypeMop 0]).

Definition created_tctx (tctx0 : ThreadContext) (uid : Z) (detached : bool)
           (sync : gmap Z Z) (creation_stack : Stack.StackTrace)
  : ThreadContext :=
  mkThreadContext (tc_tid tctx0) uid ThreadStatusCreated detached
    (tc_reuse_count tctx0) sync creation_stack (tc_epoch0 tctx0)
    (tc_epoch1 tctx0) false (tc_dead_next tctx0).

(** A registry with thread 0 running and threads 1 to [n] dead, in the
    quarantine in that order. *)
Definition quarantine_ctx (n : Z) : Context :=
  mkContext
    (list_to_map
       ((0, mkThreadContext 0 11 ThreadStatusRunning false 0 ∅
                            Stack.StackTrace_new 1 0 true None)
        :: List.map (fun i =>
                       (i, mkThreadContext i 0 ThreadStatusDead true 0 ∅
                             (Stack.holding [100]) 1 4
                             false (if i <? n then Some (i + 1) else None)))
                    (seqZ 1 n)))
    (n + 1) (Some 1) (Some n) n 0.

(** The thread limit is reached and thread 1, alone in the quarantine, was
    created with no frame on the shadow stack and [pc = 0]: its creation
    stack holds a buffer and counts no frame. *)
Definition zero_frames_ctx : Context :=
  mkContext
    (list_to_map
       [(0, mkThreadContext 0 11 ThreadStatusRunning false 0 ∅
                            Stack.StackTrace_new 1 0 true None);
        (1, mkThreadContext 1 0 ThreadStatusDead false 0 ∅
                            (Stack.mkStackTrace 0 (Some [])) 1 4 false None)])
    kMaxTid (Some 1) (Some 1) 1 0.

Definition result_tid (r : Result (Context * ThreadState * Z)) : option Z :=
  match r with
  | Done (_, _, tid) => Some tid
  | Stop _ => None
  end.

Definition result_ctx (r : Result (Context * ThreadState * Z))
  : option Context :=
  match r with
  | Done (c, _, _) => Some c
  | Stop _ => None
  end.

End Rtl.

(** ** trunk/v2/tsan/tsan_sync.cc: the sync table *)
Module Sync.

(** Modelled from the spec: [Mutex] is defined outside src/; a SyncVar is
    "protected by an internal read/write lock": one writer or any number of
    readers.  [Lock] and [ReadLock] block while the lock cannot be taken,
    which is [None] here. *)
Record Mutex := mkMutex {
  writer : bool;
  readers : nat
}.

(** Modelled from the spec: a lock nobody holds. *)
Definition mtx_free : Mutex := mkMutex false 0.

(** Modelled from the spec: [Lock] takes the lock for writing when nobody
    holds it. *)
Definition mtx_Lock (m : Mutex) : option Mutex :=
  if negb (writer m) && (readers m =? 0)%nat then Some (mkMutex true 0)
  else None.

(** Modelled from the spec: [ReadLock] adds a reader when no writer holds
    the lock. *)
Definition mtx_ReadLock (m : Mutex) : option Mutex :=
  if negb (writer m) then Some (mkMutex false (S (readers m))) else None.

(** [SyncVar], with the fields its constructor sets and [creation_stack].
    [sv_ptr] is the address of the object, as [slab->Alloc()] returned it;
    the [next] pointers of a bucket are the order of its list. *)
Record SyncVar := mkSyncVar {
  sv_ptr : Z;
  sv_mtx : Mutex;
  sv_addr : Z;
  sv_owner_tid : Z;
  sv_recursion : Z;
  sv_is_rw : bool;
  sv_is_recursive : bool;
  sv_is_broken : bool;
  sv_creation_stack : Rtl.Stack.StackTrace
}.

Definition set_mtx (v : SyncVar) (m : Mutex) : SyncVar :=
  mkSyncVar (sv_ptr v) m (sv_addr v) (sv_owner_tid v) (sv_recursion v)
            (sv_is_rw v) (sv_is_recursive v) (sv_is_broken v)
            (sv_creation_stack v).
Definition set_creation_stack (v : SyncVar) (s : Rtl.Stack.StackTrace)
  : SyncVar :=
  mkSyncVar (sv_ptr v) (sv_mtx v) (sv_addr v) (sv_owner_tid v)
            (sv_recursion v) (sv_is_rw v) (sv_is_recursive v)
            (sv_is_broken v) s.

Section Table.

(** [kPartCount] and [kInvalidTid] are declared in headers outside src/;
    [internal_alloc], which [ObtainCurrent] calls, is in tsan_mman.cc. *)
Variable kPartCount : Z.
Variable kInvalidTid : Z.
Variable internal_alloc : Z -> bool.

(** [SyncVar::SyncVar(addr)], placed at [ptr]. *)
Definition new_SyncVar (ptr addr : Z) : SyncVar :=
  mkSyncVar ptr mtx_free addr kInvalidTid 0 false false false
            Rtl.Stack.StackTrace_new.

Definition PartIdx (addr : Z) : Z := Z.shiftr addr 3 mod kPartCount.

(** [tab_]: the list of each part; a part without entry has [val == 0]. *)
Definition bucket (tab : gmap Z (list SyncVar)) (p : Z) : list SyncVar :=
  default [] (tab !! p).

(** [for (res = p->val; res; res = res->next) if (res->addr == addr)]: the
    first variable of the list with this address, and its position. *)
Fixpoint find_var (l : list SyncVar) (addr : Z) : option (nat * SyncVar) :=
  match l with
  | [] => None
  | res :: rest =>
      if sv_addr res =? addr then Some (O, res)
      else match find_var rest addr with
           | Some (k, r) => Some (S k, r)
           | None => None
           end
  end.

(** [if (write_lock) res->mtx.Lock(); else res->mtx.ReadLock();] *)
Definition lock_var (write_lock : bool) (res : SyncVar) : option SyncVar :=
  match (if write_lock then mtx_Lock (sv_mtx res)
         else mtx_ReadLock (sv_mtx res)) with
  | Some m => Some (set_mtx res m)
  | None => None
  end.

(** The block of [GetAndLock] under the shard read lock. *)
Inductive FirstScan :=
| Hit (tab : gmap Z (list SyncVar)) (res : SyncVar)
| Blocked
| Miss.

Definition GetAndLock_first (tab : gmap Z (list SyncVar)) (addr : Z)
           (write_lock : bool) : FirstScan :=
  let p := PartIdx addr in
  match find_var (bucket tab p) addr with
  | Some (k, res) =>
      match lock_var write_lock res with
      | Some res' => Hit (<[p := <[k := res']> (bucket tab p)]> tab) res'
      | None => Blocked
      end
  | None => Miss
  end.

(** The block of [GetAndLock] under the shard write lock; [ptr] is what
    [slab->Alloc()] returns.  The result is [Done None] when the lock of
    the variable cannot be taken yet. *)
Definition GetAndLock_second (tab : gmap Z (list SyncVar))
           (thr : Rtl.ThreadState) (pc ptr addr : Z) (write_lock : bool)
  : Rtl.Result (option (gmap Z (list SyncVar) * SyncVar)) :=
  let p := PartIdx addr in
  match find_var (bucket tab p) addr with
  | Some (k, res) =>
      match lock_var write_lock res with
      | Some res' =>
          Rtl.Done (Some (<[p := <[k := res']> (bucket tab p)]> tab, res'))
      | None => Rtl.Done None
      end
  | None =>
      let res := new_SyncVar ptr addr in
      creation_stack ←
        Rtl.Stack.ObtainCurrent internal_alloc (sv_creation_stack res) thr pc;
      let res := set_creation_stack res creation_stack in
      match lock_var write_lock res with
      | Some res' => Rtl.Done (Some (<[p := res' :: bucket tab p]> tab, res'))
      | None => Rtl.Done None
      end
  end.

(** [SyncTab::GetAndLock] run without interference between its two
    blocks.  The [DCHECK_EQ] on the slab size concerns the allocator, which
    is not modelled. *)
Definition GetAndLock (tab : gmap Z (list SyncVar)) (thr : Rtl.ThreadState)
           (pc ptr addr : Z) (write_lock : bool)
  : Rtl.Result (option (gmap Z (list SyncVar) * SyncVar)) :=
  match GetAndLock_first tab addr write_lock with
  | Hit tab' res => Rtl.Done (Some (tab', res))
  | Blocked => Rtl.Done None
  | Miss => GetAndLock_second tab thr pc ptr addr write_lock
  end.

(** The loop of [GetAndRemove]: unlink the first variable with this
    address. *)
Fixpoint unlink (l : list SyncVar) (addr : Z)
  : list SyncVar * option SyncVar :=
  match l with
  | [] => ([], None)
  | res :: rest =>
      if sv_addr res =? addr then (rest, Some res)
      else let '(rest', r) := unlink rest addr in (res :: rest', r)
  end.

(** [SyncTab::GetAndRemove]: the unlinking under the shard write lock, then
    [res->mtx.Lock(); res->mtx.Unlock()], which waits for the holders of the
    variable and leaves its lock as it was. *)
Definition GetAndRemove (tab : gmap Z (list SyncVar)) (addr : Z)
  : option (gmap Z (list SyncVar) * option SyncVar) :=
  let p := PartIdx addr in
  let '(l, res) := unlink (bucket tab p) addr in
  let tab' := <[p := l]> tab in
  match res with
  | Some r =>
      match mtx_Lock (sv_mtx r) with
      | Some _ => Some (tab', Some r)
      | None => None
      end
  | None => Some (tab', None)
  end.

(** The variable the scan of a list finds for an address. *)
Definition var_of (l : list SyncVar) (addr : Z) : option SyncVar :=
  snd <$> find_var l addr.

(** *** Threads running [GetAndLock] and [GetAndRemove] side by side

    A block run under a shard lock is one step.  Between its two blocks a
    [GetAndLock] holds no lock: the thread is then in [waiting], with the
    arguments of its call.  The holders of a variable change its fields in
    place and release its lock; such a step keeps the address of the
    variable. *)
Record Request := mkRequest {
  rq_thr : Rtl.ThreadState;
  rq_pc : Z;
  rq_addr : Z;
  rq_write_lock : bool
}.

Record TabState := mkTab {
  tab_ : gmap Z (list SyncVar);
  waiting : gmap Z Request
}.

Definition tab_init : TabState := mkTab ∅ ∅.

Inductive step : TabState -> TabState -> Prop :=
| step_first_hit st t addr write_lock tab' res :
    waiting st !! t = None ->
    GetAndLock_first (tab_ st) addr write_lock = Hit tab' res ->
    step st (mkTab tab' (waiting st))
| step_first_miss st t rq :
    waiting st !! t = None ->
    GetAndLock_first (tab_ st) (rq_addr rq) (rq_write_lock rq) = Miss ->
    step st (mkTab (tab_ st) (<[t := rq]> (waiting st)))
| step_second st t rq ptr tab' res :
    waiting st !! t = Some rq ->
    GetAndLock_second (tab_ st) (rq_thr rq) (rq_pc rq) ptr (rq_addr rq)
                      (rq_write_lock rq) = Rtl.Done (Some (tab', res)) ->
    step st (mkTab tab' (delete t (waiting st)))
| step_remove st addr l res :
    unlink (bucket (tab_ st) (PartIdx addr)) addr = (l, res) ->
    step st (mkTab (<[PartIdx addr := l]> (tab_ st)) (waiting st))
| step_holder st p k v v' :
    bucket (tab_ st) p !! k = Some v ->
    sv_addr v' = sv_addr v ->
    step st (mkTab (<[p := <[k := v']> (bucket (tab_ st) p)]> (tab_ st))
                   (waiting st)).

Inductive reachable : TabState -> Prop :=
| reachable_init : reachable tab_init
| reachable_step st st' : reachable st -> step st st' -> reachable st'.

(** Every list holds each address at most once, and only addresses of its
    part. *)
Definition buckets_ok (tab : gmap Z (list SyncVar)) : Prop :=
  forall p, NoDup (sv_addr <$> bucket tab p)
            /\ Forall (fun v => PartIdx (sv_addr v) = p) (bucket tab p).

(** "At most one instance": two variables of the table with the same
    address are the same entry of the same list. *)
Definition one_instance_per_address (tab : gmap Z (list SyncVar)) : Prop :=
  forall p1 k1 v1 p2 k2 v2,
    bucket tab p1 !! k1 = Some v1 ->
    bucket tab p2 !! k2 = Some v2 ->
    sv_addr v1 = sv_addr v2 ->
    p1 = p2 /\ k1 = k2.

End Table.

End Sync.

(** ** v2/tsan/tsan_rtl_thread.cc: the rest of the thread registry *)
Module Life.
Import Rtl.

(** The bytes an access call stands for: [2 ^ size_log] bytes from its
    address. *)
Definition call_bytes (c : AccessCall) : list Z :=
  seqZ (a_addr c) (2 ^ a_size_log c).

Definition calls_of (r : Result (ThreadState * list AccessCall))
  : list AccessCall :=
  match r with
  | Done (_, calls) => calls
  | Stop _ => []
  end.

(** The search loop of [ThreadJoin] and [ThreadDetach]: the first slot from
    [tid] on, among the next [n], whose context has this uid and is not
    Invalid. *)
Fixpoint find_uid (n : nat) (tid : Z) (th : gmap Z ThreadContext) (uid : Z)
  : option Z :=
  match n with
  | O => None
  | S n' =>
      match th !! tid with
      | Some tctx =>
          if (tc_uid tctx =? uid)
             && negb (bool_decide (tc_status tctx = ThreadStatusInvalid))
          then Some tid
          else find_uid n' (tid + 1) th uid
      | None => find_uid n' (tid + 1) th uid
      end
  end.

Definition join_message : string :=
  "ThreadSanitizer: join of non-existent thread" +:+ Ignore.nl.
Definition detach_message : string :=
  "ThreadSanitizer: detach of non-existent thread" +:+ Ignore.nl.

(** [ThreadJoin]: the registry, the calling thread and what was printed. *)
Definition ThreadJoin (c : Context) (thr : ThreadState) (pc uid : Z)
  : Result (Context * ThreadState * list string) :=
  _ ← CHECK_GT 199 cond_in_rtl (ts_in_rtl thr) 0;
  match find_uid (Z.to_nat kMaxTid) 0 (threads c) uid with
  | None => Done (c, thr, [join_message])
  | Some p =>
      match threads c !! p with
      | None => Stop NullDeref
      | Some tctx =>
          if bool_decide (tc_status tctx = ThreadStatusInvalid)
          then Done (c, thr, [join_message])
          else
            _ ← CHECK_EQ 217 "(tctx->detached) == (false)"
                  (b2z (tc_detached tctx)) (b2z false);
            _ ← CHECK_EQ 218 "(tctx->status) == (ThreadStatusFinished)"
                  (status_val (tc_status tctx))
                  (status_val ThreadStatusFinished);
            let thr :=
              set_clock thr (clock_acquire (ts_clock thr) (tc_sync tctx)) in
            c ← ThreadDead c thr p;
            Done (c, thr, [])
      end
  end.

(** [ThreadDetach]. *)
Definition ThreadDetach (c : Context) (thr : ThreadState) (pc uid : Z)
  : Result (Context * ThreadState * list string) :=
  _ ← CHECK_GT 224 cond_in_rtl (ts_in_rtl thr) 0;
  match find_uid (Z.to_nat kMaxTid) 0 (threads c) uid with
  | None => Done (c, thr, [detach_message])
  | Some p =>
      match threads c !! p with
      | None => Stop NullDeref
      | Some tctx =>
          if bool_decide (tc_status tctx = ThreadStatusInvalid)
          then Done (c, thr, [detach_message])
          else if bool_decide (tc_status tctx = ThreadStatusFinished) then
            c ← ThreadDead c thr p;
            Done (c, thr, [])
          else
            Done (set_threads c (<[p := set_detached tctx true]> (threads c)),
                  thr, [])
      end
  end.

(** What [ThreadFinish] leaves: the registry, the thread state as it is
    when its destructor runs, the events copied into [dead_info], and the
    calls of [MemoryResetRange] as (pc, addr, size). *)
Record Finished := mkFinished {
  fin_ctx : Context;
  fin_thr : ThreadState;
  fin_dead_info : list TraceEvent;
  fin_resets : list (Z * Z * Z)
}.

(** [ThreadFinish].  The stack and TLS bounds are those the thread state
    holds since [ThreadStart]; the statistics are left out ([kCollectStats]
    is false unless the build sets it). *)
Definition ThreadFinish (c : Context) (thr : ThreadState)
           (stk_addr stk_size tls_addr tls_size : Z) : Result Finished :=
  _ ← CHECK_GT 156 cond_in_rtl (ts_in_rtl thr) 0;
  let resets :=
    (if negb (stk_addr =? 0) && negb (stk_size =? 0)
     then [(3, stk_addr, stk_size)] else [])
    ++ (if negb (tls_addr =? 0) && negb (tls_size =? 0)
        then [(4, tls_addr, tls_size)] else []) in
  let p := fs_tid (ts_fast_state thr) in
  let tctx_ptr :=
    match threads c !! p with Some _ => Some p | None => None end in
  _ ← CHECK_NE 164 "(tctx) != (0)" (ptr_val tctx_ptr) 0;
  match threads c !! p with
  | None => Stop NullDeref
  | Some tctx =>
      _ ← CHECK_EQ 165 "(tctx->status) == (ThreadStatusRunning)"
            (status_val (tc_status tctx)) (status_val ThreadStatusRunning);
      '(c, thr) ←
        (if tc_detached tctx then
           c ← ThreadDead c thr p; Done (c, thr)
         else
           let thr := set_fast_state thr (IncrementEpoch (ts_fast_state thr)) in
           let thr :=
             TraceAddEvent thr (fs_epoch (ts_fast_state thr)) EventTypeMop 0 in
           let thr :=
             set_clock thr (clock_set (ts_clock thr)
                                      (fs_tid (ts_fast_state thr))
                                      (fs_epoch (ts_fast_state thr))) in
           let thr :=
             set_fast_synch_epoch thr (fs_epoch (ts_fast_state thr)) in
           let tctx :=
             set_sync tctx (clock_release (ts_clock thr) (tc_sync tctx)) in
           let tctx := set_status tctx ThreadStatusFinished in
           Done (set_threads c (<[p := tctx]> (threads c)), thr));
      match threads c !! p with
      | None => Stop NullDeref
      | Some tctx =>
          let tctx :=
            set_epochs tctx (tc_epoch0 tctx)
                       (clock_get (ts_clock thr) (tc_tid tctx)) in
          let tctx := set_thr tctx false in
          Done (mkFinished (set_threads c (<[p := tctx]> (threads c))) thr
                           (ts_trace thr) resets)
      end
  end.

Section Registry.

Variable SymbolizeStack : Stack.StackTrace -> ReportStack.
Variable new_ThreadState : Z -> Z -> Z -> Z -> Z -> Z -> ThreadState.
Variable internal_alloc : Z -> bool.

(** One call of a registry function that returns. *)
Inductive registry_step : Context -> Context -> Prop :=
| rs_create c thr pc uid detached c' thr' tid :
    ThreadCreate internal_alloc c thr pc uid detached = Done (c', thr', tid) ->
    registry_step c c'
| rs_start dbg c thr tid sa ss ta tsz c' thr' resets :
    ThreadStart new_ThreadState dbg c thr tid sa ss ta tsz
    = Done (c', thr', resets) ->
    registry_step c c'
| rs_finish c thr sa ss ta tsz r :
    ThreadFinish c thr sa ss ta tsz = Done r ->
    registry_step c (fin_ctx r)
| rs_join c thr pc uid c' thr' out :
    ThreadJoin c thr pc uid = Done (c', thr', out) ->
    registry_step c c'
| rs_detach c thr pc uid c' thr' out :
    ThreadDetach c thr pc uid = Done (c', thr', out) ->
    registry_step c c'
| rs_finalize c thr c' reps :
    ThreadFinalize SymbolizeStack c thr = Done (c', reps) ->
    registry_step c c'.

Inductive registry_reachable : Context -> Prop :=
| rr_init : registry_reachable (mkContext ∅ 0 None None 0 0)
| rr_step c c' :
    registry_reachable c -> registry_step c c' -> registry_reachable c'.

End Registry.

(** The started context: Running, with the epochs set. *)
Definition started_tctx (tctx : ThreadContext) : ThreadContext :=
  set_thr (set_epochs (set_status tctx ThreadStatusRunning)
                      (to_u64 (tc_epoch1 tctx + 1)) (to_u64 (-1))) true.

(** The state of the started thread. *)
Definition started_thr
           (new_ThreadState : Z -> Z -> Z -> Z -> Z -> Z -> ThreadState)
           (tctx : ThreadContext) (tid sa ss ta tsz : Z) : ThreadState :=
  let epoch0 := to_u64 (tc_epoch1 tctx + 1) in
  let thr := new_ThreadState tid epoch0 sa ss ta tsz in
  let thr := set_fast_synch_epoch thr epoch0 in
  let thr := set_clock thr (clock_set (ts_clock thr) tid epoch0) in
  set_clock thr (clock_acquire (ts_clock thr) (tc_sync tctx)).

(** The thread state after the joinable branch of [ThreadFinish]. *)
Definition finished_thr (thr : ThreadState) : ThreadState :=
  let thr := set_fast_state thr (IncrementEpoch (ts_fast_state thr)) in
  let thr :=
    TraceAddEvent thr (fs_epoch (ts_fast_state thr)) EventTypeMop 0 in
  let thr :=
    set_clock thr (clock_set (ts_clock thr) (fs_tid (ts_fast_state thr))
                             (fs_epoch (ts_fast_state thr))) in
  set_fast_synch_epoch thr (fs_epoch (ts_fast_state thr)).

(** The context after the joinable branch of [ThreadFinish]. *)
Definition finished_tctx (tctx : ThreadContext) (thr : ThreadState)
  : ThreadContext :=
  set_status (set_sync tctx (clock_release (ts_clock thr) (tc_sync tctx)))
             ThreadStatusFinished.

(** The last writes of [ThreadFinish] to the context. *)
Definition finish_epochs (tctx : ThreadContext) (thr : ThreadState)
  : ThreadContext :=
  set_thr (set_epochs tctx (tc_epoch0 tctx)
                      (clock_get (ts_clock thr) (tc_tid tctx))) false.

(** The lines of an output that announce a memory access. *)
Definition mop_lines (out : list Printed) : list Printed :=
  List.filter (fun l => match l with
                        | PMop _ _ _ _ _ => true
                        | _ => false
                        end) out.

(** The thread ids named by a list of reports. *)
Definition reported_ids (reps : list ReportDesc) : list Z :=
  List.flat_map (fun r => List.map rt_id (rep_thread r)) reps.

End Life.

(** ** tsan/ts_valgrind.cc: the allocation cost centers and the per-thread
    state of the Valgrind front-end *)
Module Vg.

(** How a handler ends: it returns, or a [CHECK], a [DCHECK] that is
    compiled in or a [tl_assert] fails on [cond], or it reads or writes
    outside an array. *)
Inductive Outcome (A : Type) :=
| Ok (a : A)
| Failed (cond : string)
| OutOfBounds.
Arguments Ok {A} a.
Arguments Failed {A} cond.
Arguments OutOfBounds {A}.

#[global] Instance Outcome_ret : MRet Outcome := fun A a => Ok a.
#[global] Instance Outcome_bind : MBind Outcome := fun A B f m =>
  match m with
  | Ok a => f a
  | Failed cond => Failed cond
  | OutOfBounds => OutOfBounds
  end.

Definition CHECK (cond : string) (b : bool) : Outcome unit :=
  if b then Ok tt else Failed cond.

Section Handlers.

(** [DEBUG_MODE] is a constant of the build; [DCHECK] (ts_util.h, not
    under src/) is [CHECK] in a debug build and nothing otherwise.
    [VG_N_THREADS] is a constant of Valgrind; [dry_run] and [verbosity]
    are the fields of [G_flags] the handlers read. *)
Variable DEBUG_MODE : bool.
Variable VG_N_THREADS : Z.
Variable dry_run : Z.
Variable verbosity : Z.

Definition DCHECK (cond : string) (b : bool) : Outcome unit :=
  if DEBUG_MODE then CHECK cond b else Ok tt.

(** *** [MallocCostCenterStack] *)

Definition kMaxMallocStackSize : Z := 100.

(** [size_] and the array [malloc_cost_centers_]; a cost center is a
    [const char *], [None] for the null pointer.  The one object of the
    class is static, so its cells start as null pointers. *)
Record MallocCostCenterStack := mkCostCenters {
  size_ : Z;
  malloc_cost_centers_ : gmap Z (option string)
}.

Definition g_malloc_stack : MallocCostCenterStack := mkCostCenters 0 ∅.

Definition in_array (i : Z) : bool := (0 <=? i) && (i <? kMaxMallocStackSize).

Definition Push (s : MallocCostCenterStack) (cc : option string)
  : Outcome MallocCostCenterStack :=
  _ ← DCHECK "size_ < kMaxMallocStackSize" (size_ s <? kMaxMallocStackSize);
  _ ← DCHECK "cc" (bool_decide (cc <> None));
  if in_array (size_ s) then
    Ok (mkCostCenters (size_ s + 1)
                      (<[size_ s := cc]> (malloc_cost_centers_ s)))
  else OutOfBounds.

Definition Pop (s : MallocCostCenterStack) : Outcome MallocCostCenterStack :=
  _ ← DCHECK "size_ > 0" (size_ s >? 0);
  Ok (mkCostCenters (size_ s - 1) (malloc_cost_centers_ s)).

Definition Top (s : MallocCostCenterStack) : Outcome (option string) :=
  if size_ s =? 0 then Ok (Some "default_cc")
  else if in_array (size_ s - 1)
       then Ok (default None (malloc_cost_centers_ s !! (size_ s - 1)))
       else OutOfBounds.

(** *** [ValgrindThread] and the handlers of thread events *)

Record CallStackRecord := mkRecord {
  r_pc : Z;
  r_sp : Z
}.

(** [call_stack] is the vector, [back()] last. *)
Record ValgrindThread := mkValgrindThread {
  zero_based_uniq_tid : Z;
  call_stack : list CallStackRecord;
  ignore_accesses : Z;
  ignore_accesses_in_current_trace : bool;
  ignore_sync : Z;
  in_signal_handler : Z
}.

(** [ValgrindThread::Clear] *)
Definition Clear : ValgrindThread := mkValgrindThread (-1) [] 0 false 0 0.

(** The calls into the detector and to [Printf], in order. *)
Inductive Call :=
| HandleOneEvent (type : string) (tid pc a info : Z)
| HandleRtnCall (tid call_pc target_pc ignore_below : Z)
| HandleRtnExit (tid : Z)
| HandleStackMemChange (tid a len : Z) (is_new : bool)
| HandleMemoryAccess (tid a size : Z) (is_w : bool)
| EnterSblock (tid pc : Z)
| PrintfReuse (child : Z)
| PrintfRtnCall (tid pc : Z)
| PrintfRtnExit (tid : Z).

(** The globals of the file.  [g_valgrind_threads] is the array of
    [VG_N_THREADS] objects that [ts_post_clo_init] allocates, each built
    by [Clear]: a slot that was never written is [Clear].  The [int]
    counters are taken without wrap-around. *)
Record State := mkState {
  g_valgrind_threads : gmap Z ValgrindThread;
  global_ignore : bool;
  g_uniq_thread_id_counter : Z;
  calls : list Call
}.

Definition thread_at (st : State) (vg_tid : Z) : ValgrindThread :=
  default Clear (g_valgrind_threads st !! vg_tid).

Definition set_thread (st : State) (vg_tid : Z) (t : ValgrindThread) : State :=
  mkState (<[vg_tid := t]> (g_valgrind_threads st)) (global_ignore st)
          (g_uniq_thread_id_counter st) (calls st).

Definition emit (st : State) (c : Call) : State :=
  mkState (g_valgrind_threads st) (global_ignore st)
          (g_uniq_thread_id_counter st) (calls st ++ [c]).

(** An access to [g_valgrind_threads[vg_tid]]: the array holds
    [VG_N_THREADS] objects. *)
Definition in_threads (vg_tid : Z) : bool :=
  (0 <=? vg_tid) && (vg_tid <? VG_N_THREADS).

Definition at_slot (vg_tid : Z) : Outcome unit :=
  if in_threads vg_tid then Ok tt else OutOfBounds.

(** [VgTidToTsTid]; the pointer [g_valgrind_threads] is set in the states
    at hand, those after [ts_post_clo_init]. *)
Definition VgTidToTsTid (st : State) (vg_tid : Z) : Outcome Z :=
  _ ← DCHECK "vg_tid < VG_N_THREADS" (vg_tid <? VG_N_THREADS);
  _ ← DCHECK "vg_tid >= 1" (vg_tid >=? 1);
  _ ← DCHECK "g_valgrind_threads" true;
  _ ← at_slot vg_tid;
  _ ← DCHECK "g_valgrind_threads[vg_tid].zero_based_uniq_tid >= 0"
             (zero_based_uniq_tid (thread_at st vg_tid) >=? 0);
  Ok (zero_based_uniq_tid (thread_at st vg_tid)).

(** [Put]: the event goes to [ThreadSanitizerHandleOneEvent] unless this
    is a dry run of a debug build. *)
Definition Put (st : State) (type : string) (tid pc a info : Z) : State :=
  if DEBUG_MODE && (dry_run >=? 1) then st
  else emit st (HandleOneEvent type tid pc a info).

(** [evh__pre_thread_ll_create]; [pc] is [GetVgPc(parent)]. *)
Definition evh__pre_thread_ll_create (st : State) (parent child pc : Z)
  : Outcome State :=
  _ ← CHECK "parent != child" (negb (parent =? child));
  _ ← at_slot child;
  let st :=
    if negb (zero_based_uniq_tid (thread_at st child) =? -1)
    then emit st (PrintfReuse child) else st in
  let st :=
    set_thread st child
      (mkValgrindThread (g_uniq_thread_id_counter st) [] 0 false 0 0) in
  let st :=
    mkState (g_valgrind_threads st) (global_ignore st)
            (g_uniq_thread_id_counter st + 1) (calls st) in
  child_tid ← VgTidToTsTid st child;
  parent_tid ← (if parent >? 0 then VgTidToTsTid st parent else Ok 0);
  Ok (Put st "THR_START" child_tid pc 0 parent_tid).

(** [evh__pre_thread_ll_exit] *)
Definition evh__pre_thread_ll_exit (st : State) (quit_tid : Z)
  : Outcome State :=
  ts_tid ← VgTidToTsTid st quit_tid;
  let st := Put st "THR_END" ts_tid 0 0 0 in
  let t := thread_at st quit_tid in
  Ok (set_thread st quit_tid
        (mkValgrindThread (-1) (call_stack t) (ignore_accesses t)
           (ignore_accesses_in_current_trace t) (ignore_sync t)
           (in_signal_handler t))).

Definition set_call_stack (t : ValgrindThread) (s : list CallStackRecord)
  : ValgrindThread :=
  mkValgrindThread (zero_based_uniq_tid t) s (ignore_accesses t)
    (ignore_accesses_in_current_trace t) (ignore_sync t)
    (in_signal_handler t).

Definition set_ignore (t : ValgrindThread) (n : Z) (in_trace : bool)
  : ValgrindThread :=
  mkValgrindThread (zero_based_uniq_tid t) (call_stack t) n in_trace
    (ignore_sync t) (in_signal_handler t).

(** [rtn_call]; [vg_tid] is [GetVgTid()] and [call_pc] is
    [GetVgPc(vg_tid)].  The [lr] field of the ARM build is left out. *)
Definition rtn_call (st : State) (vg_tid call_pc : Z)
           (sp_post_call_insn pc_post_call_insn ignore_below : Z)
  : Outcome State :=
  let record := mkRecord pc_post_call_insn sp_post_call_insn in
  _ ← at_slot vg_tid;
  let t := thread_at st vg_tid in
  let st := set_thread st vg_tid (set_call_stack t (call_stack t ++ [record])) in
  _ ← DCHECK "g_valgrind_threads[vg_tid].call_stack.size() < 10000"
             (Z.of_nat (List.length (call_stack (thread_at st vg_tid)))
              <? 10000);
  ts_tid ← VgTidToTsTid st vg_tid;
  let st := emit st (HandleRtnCall ts_tid call_pc (r_pc record) ignore_below) in
  if verbosity >=? 2 then
    ts_tid ← VgTidToTsTid st vg_tid;
    Ok (emit st (PrintfRtnCall ts_tid (r_pc record)))
  else Ok st.

(** [evh__die_mem_stack_helper]: the body of the [while] ends with
    [break], so it runs at most once. *)
Definition evh__die_mem_stack_helper (st : State) (vg_tid a len : Z)
  : Outcome State :=
  ts_tid ← VgTidToTsTid st vg_tid;
  let t := thread_at st vg_tid in
  let st :=
    match last (call_stack t) with
    | Some record =>
        if a <? r_sp record then st
        else
          let st :=
            set_thread st vg_tid
                       (set_call_stack t (List.removelast (call_stack t))) in
          let st := emit st (HandleRtnExit ts_tid) in
          if verbosity >=? 2 then emit st (PrintfRtnExit ts_tid) else st
    | None => st
    end in
  if ignore_accesses (thread_at st vg_tid) =? 0
  then Ok (emit st (HandleStackMemChange ts_tid a len false))
  else Ok st.

(** [Mop]; [vg_tid] is [GetVgTid()]. *)
Definition Mop (st : State) (vg_tid a : Z) (is_w : bool) (size : Z)
  : Outcome State :=
  _ ← at_slot vg_tid;
  if negb (ignore_accesses (thread_at st vg_tid) =? 0) then Ok st
  else
    ts_tid ← VgTidToTsTid st vg_tid;
    Ok (emit st (HandleMemoryAccess ts_tid a size is_w)).

(** [evh__on_trace_entry]; [pc] is [GetVgPc(vg_tid)] and [skip] is what
    [LiteRaceSkipTrace] answers when it is called. *)
Definition evh__on_trace_entry (st : State) (vg_tid pc : Z) (skip : bool)
  : Outcome State :=
  _ ← at_slot vg_tid;
  let t := thread_at st vg_tid in
  t ← (if ignore_accesses_in_current_trace t then
         _ ← CHECK "thr->ignore_accesses > 0" (ignore_accesses t >? 0);
         Ok (set_ignore t (ignore_accesses t - 1) false)
       else Ok t);
  let st := set_thread st vg_tid t in
  if negb (ignore_accesses t =? 0) then Ok st
  else
    let st :=
      if global_ignore st || skip
      then set_thread st vg_tid (set_ignore t (ignore_accesses t + 1) true)
      else st in
    ts_tid ← VgTidToTsTid st vg_tid;
    Ok (emit st (EnterSblock ts_tid pc)).

(** The cases [TSREQ_IGNORE_ALL_ACCESSES_BEGIN] and
    [TSREQ_IGNORE_ALL_ACCESSES_END] of [ts_handle_client_request]. *)
Definition ignore_all_accesses_begin (st : State) (vg_tid : Z)
  : Outcome State :=
  _ ← VgTidToTsTid st vg_tid;
  let t := thread_at st vg_tid in
  Ok (set_thread st vg_tid
        (set_ignore t (ignore_accesses t + 1)
                    (ignore_accesses_in_current_trace t))).

Definition ignore_all_accesses_end (st : State) (vg_tid : Z)
  : Outcome State :=
  _ ← VgTidToTsTid st vg_tid;
  let t := thread_at st vg_tid in
  let t := set_ignore t (ignore_accesses t - 1)
                      (ignore_accesses_in_current_trace t) in
  _ ← CHECK "g_valgrind_threads[vg_tid].ignore_accesses >= 0"
            (ignore_accesses t >=? 0);
  Ok (set_thread st vg_tid t).

End Handlers.

(** The nesting depth of the client's requests to ignore accesses: the
    counter without the one that a skipped trace adds. *)
Definition user_ignores (t : ValgrindThread) : Z :=
  ignore_accesses t - (if ignore_accesses_in_current_trace t then 1 else 0).

(** The threads that have a ThreadSanitizer tid do not share one, and
    every tid handed out is below the counter. *)
Definition tids_ok (st : State) : Prop :=
  0 <= g_uniq_thread_id_counter st
  /\ (forall i t, g_valgrind_threads st !! i = Some t ->
        -1 <= zero_based_uniq_tid t < g_uniq_thread_id_counter st)
  /\ (forall i j ti tj,
        g_valgrind_threads st !! i = Some ti ->
        g_valgrind_threads st !! j = Some tj ->
        zero_based_uniq_tid ti = zero_based_uniq_tid tj ->
        zero_based_uniq_tid ti <> -1 -> i = j).

(** A state to run the handlers on: the main thread is Valgrind thread 1
    and has ThreadSanitizer tid 0. *)
Definition sample_state : State :=
  mkState {[1 := mkValgrindThread 0 [] 0 false 0 0]} false 1 [].

End Vg.

(** * Properties *)

(** ** tsan/ignore.cc *)

Section SplitterFacts.
Import Ignore.

Lemma string_app_cons c (s t : string) : String c s +:+ t = String c (s +:+ t).
Proof. reflexivity. Qed.

Lemma string_app_nil_l (t : string) : "" +:+ t = t.
Proof. reflexivity. Qed.

Lemma string_app_nil_r (s : string) : s +:+ "" = s.
Proof.
  induction s as [|c s IH]; [reflexivity|].
  now rewrite string_app_cons, IH.
Qed.

Lemma string_app_assoc (a b c : string) : (a +:+ b) +:+ c = a +:+ (b +:+ c).
Proof.
  induction a as [|x a IH]; [reflexivity|].
  now rewrite !string_app_cons, IH.
Qed.

Lemma split_loop_app s t st :
  split_loop (s +:+ t) st = split_loop t (split_loop s st).
Proof.
  revert st. induction s as [|c s IH]; intros st; [reflexivity|].
  rewrite string_app_cons. simpl. apply IH.
Qed.

Lemma split_loop_no_newline t st :
  has_char newline t = false -> lines (split_loop t st) = lines st.
Proof.
  revert st. induction t as [|c t IH]; intros st H; simpl in *; [reflexivity|].
  apply orb_false_iff in H as [Hc Ht].
  rewrite IH by exact Ht.
  unfold split_step. rewrite Hc.
  repeat (match goal with |- context [if ?b then _ else _] => destruct b end;
          try reflexivity).
Qed.

Lemma line_after_step st c l :
  Ascii.eqb c newline = false ->
  line_after (split_step st c) l = line_after st (String c l).
Proof.
  intros Hnl. unfold split_step, line_after, clean_line. rewrite Hnl.
  destruct (Ascii.eqb c space || Ascii.eqb c tab) eqn:Hb.
  - assert (Hh : Ascii.eqb c hash = false).
    { apply orb_true_iff in Hb as [H|H]; apply Ascii.eqb_eq in H; subst c;
        reflexivity. }
    simpl. rewrite Hh. simpl. rewrite Hb. reflexivity.
  - destruct (Ascii.eqb c hash) eqn:Hh; simpl; rewrite Hh.
    + simpl. destruct (in_comment st); [reflexivity|].
      now rewrite string_app_nil_r.
    + destruct (in_comment st) eqn:Hc; simpl; rewrite ?Hc; [reflexivity|].
      rewrite Hb. now rewrite string_app_assoc.
Qed.

Lemma lines_step_not_newline st c :
  Ascii.eqb c newline = false -> lines (split_step st c) = lines st.
Proof.
  intros Hnl. unfold split_step. rewrite Hnl.
  repeat (match goal with |- context [if ?b then _ else _] => destruct b end;
          try reflexivity).
Qed.

Lemma split_loop_lines str : forall st,
  lines (split_loop str st) =
  lines st ++ match fst (lines_and_rest str) with
              | [] => []
              | l :: ls =>
                  nonempty_lines (line_after st l :: List.map clean_line ls)
              end.
Proof.
  induction str as [|c str IH]; intros st; simpl.
  - now rewrite app_nil_r.
  - rewrite IH. destruct (lines_and_rest str) as [ls r]; simpl.
    destruct (Ascii.eqb c newline) eqn:Hnl; simpl.
    + unfold split_step. rewrite Hnl. simpl.
      assert (Hla : line_after st "" = cur_line st).
      { unfold line_after. destruct (in_comment st); [reflexivity|].
        apply string_app_nil_r. }
      rewrite Hla.
      destruct (String.eqb (cur_line st) "") eqn:He; simpl; rewrite ?He; simpl.
      * f_equal. destruct ls; reflexivity.
      * rewrite <- app_assoc. f_equal. simpl. f_equal.
        destruct ls; reflexivity.
    + rewrite lines_step_not_newline by exact Hnl.
      destruct ls as [|l ls]; simpl; [reflexivity|].
      now rewrite line_after_step.
Qed.

Lemma split_refines_spec str :
  SplitStringIntoLinesAndRemoveBlanksAndComments str = spec_lines str.
Proof.
  unfold SplitStringIntoLinesAndRemoveBlanksAndComments, spec_lines.
  rewrite split_loop_lines. simpl.
  destruct (fst (lines_and_rest str)); reflexivity.
Qed.

Lemma split_trailing s t :
  has_char newline t = false ->
  SplitStringIntoLinesAndRemoveBlanksAndComments (s +:+ t)
  = SplitStringIntoLinesAndRemoveBlanksAndComments s.
Proof.
  intros H. unfold SplitStringIntoLinesAndRemoveBlanksAndComments.
  rewrite split_loop_app. now apply split_loop_no_newline.
Qed.

End SplitterFacts.

Section ReaderFacts.
Import Ignore.

Variables IgnoreObj IgnoreFile IgnoreFun : string -> IgnoreTriple.

Local Abbreviation ReadIgnoreLine := (ReadIgnoreLine IgnoreObj IgnoreFile IgnoreFun).
Local Abbreviation read_lines := (read_lines IgnoreObj IgnoreFile IgnoreFun).
Local Abbreviation ReadIgnoresFromString :=
  (ReadIgnoresFromString IgnoreObj IgnoreFile IgnoreFun).

Lemma substring_whole (s : string) : substring 0 (String.length s) s = s.
Proof. induction s as [|c s IH]; simpl; [reflexivity | now rewrite IH]. Qed.

Lemma cut_prefix_app (p tail : string) :
  CutStringPrefixIfPresent (p +:+ tail) p = Some tail.
Proof.
  unfold CutStringPrefixIfPresent.
  assert (Hp : String.prefix p (p +:+ tail) = true).
  { induction p as [|c p IH]; [now destruct tail|].
    rewrite string_app_cons. simpl. now destruct (ascii_dec c c). }
  rewrite Hp. f_equal.
  induction p as [|c p IH].
  - rewrite string_app_nil_l. simpl. rewrite Nat.sub_0_r. apply substring_whole.
  - rewrite string_app_cons. simpl. apply IH.
    clear IH Hp. induction p as [|c' p IH]; [now destruct tail|].
    rewrite string_app_cons. simpl. now destruct (ascii_dec c' c').
Qed.

Lemma cut_prefix_false (line p : string) :
  String.prefix p line = false -> CutStringPrefixIfPresent line p = None.
Proof. intros H. unfold CutStringPrefixIfPresent. now rewrite H. Qed.

Lemma cut_prefix_true (line p : string) :
  String.prefix p line = true ->
  exists tail, CutStringPrefixIfPresent line p = Some tail.
Proof. intros H. unfold CutStringPrefixIfPresent. rewrite H. eauto. Qed.

Ltac other_prefix :=
  apply cut_prefix_false; rewrite !string_app_cons; reflexivity.

Lemma read_obj tail il :
  ReadIgnoreLine ("obj:" +:+ tail) il = (true, push_ignores il (IgnoreObj tail)).
Proof. unfold Ignore.ReadIgnoreLine. now rewrite cut_prefix_app. Qed.

Lemma read_src tail il :
  ReadIgnoreLine ("src:" +:+ tail) il = (true, push_ignores il (IgnoreFile tail)).
Proof.
  unfold Ignore.ReadIgnoreLine.
  replace (CutStringPrefixIfPresent ("src:" +:+ tail) "obj:") with (@None string)
    by (symmetry; other_prefix).
  now rewrite cut_prefix_app.
Qed.

Lemma read_fun tail il :
  ReadIgnoreLine ("fun:" +:+ tail) il = (true, push_ignores il (IgnoreFun tail)).
Proof.
  unfold Ignore.ReadIgnoreLine.
  replace (CutStringPrefixIfPresent ("fun:" +:+ tail) "obj:") with (@None string)
    by (symmetry; other_prefix).
  replace (CutStringPrefixIfPresent ("fun:" +:+ tail) "src:") with (@None string)
    by (symmetry; other_prefix).
  now rewrite cut_prefix_app.
Qed.

Lemma read_fun_r tail il :
  ReadIgnoreLine ("fun_r:" +:+ tail) il
  = (true, push_ignores_r il (IgnoreFun tail)).
Proof.
  unfold Ignore.ReadIgnoreLine.
  replace (CutStringPrefixIfPresent ("fun_r:" +:+ tail) "obj:") with (@None string)
    by (symmetry; other_prefix).
  replace (CutStringPrefixIfPresent ("fun_r:" +:+ tail) "src:") with (@None string)
    by (symmetry; other_prefix).
  replace (CutStringPrefixIfPresent ("fun_r:" +:+ tail) "fun:") with (@None string)
    by (symmetry; other_prefix).
  now rewrite cut_prefix_app.
Qed.

Lemma read_fun_hist tail il :
  ReadIgnoreLine ("fun_hist:" +:+ tail) il
  = (true, push_ignores_hist il (IgnoreFun tail)).
Proof.
  unfold Ignore.ReadIgnoreLine.
  replace (CutStringPrefixIfPresent ("fun_hist:" +:+ tail) "obj:")
    with (@None string) by (symmetry; other_prefix).
  replace (CutStringPrefixIfPresent ("fun_hist:" +:+ tail) "src:")
    with (@None string) by (symmetry; other_prefix).
  replace (CutStringPrefixIfPresent ("fun_hist:" +:+ tail) "fun:")
    with (@None string) by (symmetry; other_prefix).
  replace (CutStringPrefixIfPresent ("fun_hist:" +:+ tail) "fun_r:")
    with (@None string) by (symmetry; other_prefix).
  now rewrite cut_prefix_app.
Qed.

Lemma read_unknown line il :
  known_prefix line = false -> ReadIgnoreLine line il = (false, il).
Proof.
  unfold known_prefix. intros H.
  repeat (apply orb_false_iff in H as [H ?]).
  unfold Ignore.ReadIgnoreLine. now rewrite !cut_prefix_false.
Qed.

Lemma read_known line il :
  known_prefix line = true ->
  exists il', ReadIgnoreLine line il = (true, il')
              /\ total_entries il' = S (total_entries il).
Proof.
  unfold known_prefix, Ignore.ReadIgnoreLine, CutStringPrefixIfPresent.
  intros H.
  destruct (String.prefix "obj:" line);
    [eexists; split; [reflexivity|]; unfold total_entries; simpl;
     rewrite length_app; simpl; lia|].
  destruct (String.prefix "src:" line);
    [eexists; split; [reflexivity|]; unfold total_entries; simpl;
     rewrite length_app; simpl; lia|].
  destruct (String.prefix "fun:" line);
    [eexists; split; [reflexivity|]; unfold total_entries; simpl;
     rewrite length_app; simpl; lia|].
  destruct (String.prefix "fun_r:" line);
    [eexists; split; [reflexivity|]; unfold total_entries; simpl;
     rewrite length_app; simpl; lia|].
  destruct (String.prefix "fun_hist:" line);
    [eexists; split; [reflexivity|]; unfold total_entries; simpl;
     rewrite length_app; simpl; lia|].
  discriminate H.
Qed.

Lemma read_lines_all_known ls : forall il,
  Forall (fun l => known_prefix l = true) ls ->
  r_check_failed (read_lines ls il) = false
  /\ r_printed (read_lines ls il) = []
  /\ total_entries (r_lists (read_lines ls il))
     = (total_entries il + List.length ls)%nat.
Proof.
  induction ls as [|l ls IH]; intros il Hall; simpl.
  - repeat split; lia.
  - inversion Hall as [|? ? Hl Hls]; subst.
    destruct (read_known l il Hl) as (il' & -> & Htot).
    destruct (IH il' Hls) as (? & ? & Hn).
    repeat split; try assumption. rewrite Hn, Htot. lia.
Qed.

Lemma read_lines_first_unknown good : forall bad rest il,
  Forall (fun l => known_prefix l = true) good ->
  known_prefix bad = false ->
  r_check_failed (read_lines (good ++ bad :: rest) il) = true
  /\ r_printed (read_lines (good ++ bad :: rest) il) = [error_message bad]
  /\ r_lists (read_lines (good ++ bad :: rest) il)
     = r_lists (read_lines good il).
Proof.
  induction good as [|l good IH]; intros bad rest il Hall Hbad; simpl.
  - rewrite (read_unknown bad il Hbad). simpl. repeat split.
  - inversion Hall as [|? ? Hl Hls]; subst.
    destruct (read_known l il Hl) as (il' & -> & _).
    now apply IH.
Qed.

Lemma remove_blanks_clean s :
  has_char space (remove_blanks s) = false
  /\ has_char tab (remove_blanks s) = false.
Proof.
  induction s as [|c s [IH1 IH2]]; simpl; [now split|].
  destruct (Ascii.eqb c space) eqn:Hs; simpl; [now split|].
  destruct (Ascii.eqb c tab) eqn:Ht; simpl; [now split|].
  now rewrite Hs, Ht.
Qed.

Lemma remove_blanks_keeps_absent c s :
  has_char c s = false -> has_char c (remove_blanks s) = false.
Proof.
  induction s as [|c' s IH]; simpl; [reflexivity|].
  intros H. apply orb_false_iff in H as [Hc Hs].
  destruct (Ascii.eqb c' space || Ascii.eqb c' tab); simpl; [now apply IH|].
  now rewrite Hc, IH.
Qed.

Lemma before_hash_clean s : has_char hash (before_hash s) = false.
Proof.
  induction s as [|c s IH]; simpl; [reflexivity|].
  destruct (Ascii.eqb c hash) eqn:Hh; simpl; [reflexivity|].
  now rewrite Hh.
Qed.

Lemma delivered_line_shape str l :
  In l (SplitStringIntoLinesAndRemoveBlanksAndComments str) ->
  l <> "" /\ has_char space l = false /\ has_char tab l = false
  /\ has_char hash l = false.
Proof.
  rewrite split_refines_spec. unfold spec_lines, nonempty_lines.
  intros H. apply filter_In in H as [Hin Hne].
  apply in_map_iff in Hin as (raw & <- & _).
  split.
  - intros He. rewrite He in Hne. discriminate.
  - unfold clean_line. destruct (remove_blanks_clean (before_hash raw)).
    repeat split; try assumption.
    apply remove_blanks_keeps_absent, before_hash_clean.
Qed.

Lemma first_unknown_split (ls : list string) :
  (exists l, In l ls /\ known_prefix l = false) ->
  exists good bad rest,
    ls = good ++ bad :: rest
    /\ Forall (fun l => known_prefix l = true) good
    /\ known_prefix bad = false.
Proof.
  induction ls as [|a ls IH]; intros (l & Hin & Hl); [destruct Hin|].
  destruct (known_prefix a) eqn:Ha.
  - destruct Hin as [->|Hin]; [congruence|].
    destruct IH as (good & bad & rest & -> & Hg & Hb); [eauto|].
    exists (a :: good), bad, rest. repeat split; auto.
  - exists [], a, ls. repeat split; auto.
Qed.

Lemma read_lines_failed_unknown ls : forall il,
  r_check_failed (read_lines ls il) = true ->
  exists l, In l ls /\ known_prefix l = false.
Proof.
  induction ls as [|a ls IH]; intros il Hf; [discriminate Hf|].
  destruct (known_prefix a) eqn:Ha.
  - simpl in Hf. destruct (read_known a il Ha) as (il' & Hr & _).
    rewrite Hr in Hf. destruct (IH il' Hf) as (l & Hin & Hl).
    exists l. split; [now right | exact Hl].
  - exists a. split; [now left | exact Ha].
Qed.

Lemma read_fails_iff_unknown str il :
  r_check_failed (ReadIgnoresFromString str il) = true <->
  exists l, In l (SplitStringIntoLinesAndRemoveBlanksAndComments str)
            /\ known_prefix l = false.
Proof.
  unfold Ignore.ReadIgnoresFromString. split.
  - apply read_lines_failed_unknown.
  - intros Hex.
    destruct (first_unknown_split _ Hex) as (good & bad & rest & E & Hg & Hb).
    rewrite E.
    now destruct (read_lines_first_unknown good bad rest il Hg Hb).
Qed.

Lemma nonempty_lines_app a b :
  nonempty_lines (a ++ b) = nonempty_lines a ++ nonempty_lines b.
Proof. unfold nonempty_lines. apply List.filter_app. Qed.

Lemma nonempty_lines_cons l ls :
  l <> "" -> nonempty_lines (l :: ls) = l :: nonempty_lines ls.
Proof.
  intros H. unfold nonempty_lines. simpl.
  destruct (String.eqb l "") eqn:E; [|reflexivity].
  apply String.eqb_eq in E. contradiction.
Qed.

Lemma cleaned_known raws :
  Forall acceptable raws ->
  Forall (fun l => known_prefix l = true)
         (nonempty_lines (List.map clean_line raws)).
Proof.
  induction 1 as [|raw raws [He|Hk] _ IH]; cbn [List.map]; [constructor| |].
  - unfold blank_or_comment in He. unfold nonempty_lines. simpl.
    rewrite He. exact IH.
  - rewrite nonempty_lines_cons; [now constructor|].
    intros He. rewrite He in Hk. discriminate Hk.
Qed.

Lemma split_terminated str :
  SplitStringIntoLinesAndRemoveBlanksAndComments str
  = nonempty_lines (List.map clean_line (terminated_lines str)).
Proof. apply split_refines_spec. Qed.

Lemma split_at_bad str good bad rest :
  terminated_lines str = good ++ bad :: rest ->
  clean_line bad <> "" ->
  SplitStringIntoLinesAndRemoveBlanksAndComments str
  = nonempty_lines (List.map clean_line good)
    ++ clean_line bad :: nonempty_lines (List.map clean_line rest).
Proof.
  intros E Hb. rewrite split_terminated, E, List.map_app, nonempty_lines_app.
  cbn [List.map]. now rewrite nonempty_lines_cons.
Qed.

Lemma delivered_iff_raw str l :
  In l (SplitStringIntoLinesAndRemoveBlanksAndComments str) <->
  exists raw, In raw (terminated_lines str) /\ clean_line raw = l /\ l <> "".
Proof.
  rewrite split_terminated. unfold nonempty_lines.
  rewrite filter_In, in_map_iff. split.
  - intros ((raw & E & Hin) & Hne). exists raw. repeat split; try assumption.
    intros ->. discriminate Hne.
  - intros (raw & Hin & E & Hne). split; [now exists raw|].
    destruct (String.eqb l "") eqn:El; [|reflexivity].
    apply String.eqb_eq in El. contradiction.
Qed.

(** C7: a line that begins with [obj:], [src:], [fun:], [fun_r:] or
    [fun_hist:] adds exactly one entry, built from the text after the
    prefix, to the list of that prefix ([ignores] for the first three,
    [ignores_r], [ignores_hist]); a line with none of the five prefixes is
    refused.  The lines read are the newline-terminated lines of the text,
    each without its comment, spaces and tabs, those left empty being
    skipped.  When every such line carries a known prefix the read succeeds,
    prints nothing and adds one entry per line; at the first such line with
    an unknown prefix the text [Error reading ignore file line:], a newline,
    the cleaned line up to its first NUL character and a newline are printed
    and the fatal check is reached, the entries of the lines before it
    having been added.  The fatal check is reached exactly when some
    newline-terminated line is neither blank, nor a comment, nor begins with
    a known prefix; text after the last newline is not read. *)
Theorem ignore_line_prefix_or_fatal :
  (forall tail il,
      ReadIgnoreLine ("obj:" +:+ tail) il
      = (true, push_ignores il (IgnoreObj tail))) /\
  (forall tail il,
      ReadIgnoreLine ("src:" +:+ tail) il
      = (true, push_ignores il (IgnoreFile tail))) /\
  (forall tail il,
      ReadIgnoreLine ("fun:" +:+ tail) il
      = (true, push_ignores il (IgnoreFun tail))) /\
  (forall tail il,
      ReadIgnoreLine ("fun_r:" +:+ tail) il
      = (true, push_ignores_r il (IgnoreFun tail))) /\
  (forall tail il,
      ReadIgnoreLine ("fun_hist:" +:+ tail) il
      = (true, push_ignores_hist il (IgnoreFun tail))) /\
  (forall line il,
      known_prefix line = false -> ReadIgnoreLine line il = (false, il)) /\
  (forall str il,
      Forall acceptable (terminated_lines str) ->
      r_check_failed (ReadIgnoresFromString str il) = false
      /\ r_printed (ReadIgnoresFromString str il) = []
      /\ total_entries (r_lists (ReadIgnoresFromString str il))
         = (total_entries il
            + List.length (nonempty_lines
                             (List.map clean_line (terminated_lines str))))%nat) /\
  (forall str il good bad rest,
      terminated_lines str = good ++ bad :: rest ->
      Forall acceptable good ->
      ~ blank_or_comment bad ->
      known_prefix (clean_line bad) = false ->
      r_check_failed (ReadIgnoresFromString str il) = true
      /\ r_printed (ReadIgnoresFromString str il)
         = ["Error reading ignore file line:" +:+ nl
              +:+ c_str (clean_line bad) +:+ nl]
      /\ r_lists (ReadIgnoresFromString str il)
         = r_lists (read_lines (nonempty_lines (List.map clean_line good)) il)
      /\ total_entries (r_lists (ReadIgnoresFromString str il))
         = (total_entries il
            + List.length (nonempty_lines (List.map clean_line good)))%nat) /\
  (forall str il,
      r_check_failed (ReadIgnoresFromString str il) = true <->
      exists raw, In raw (terminated_lines str)
                  /\ ~ blank_or_comment raw
                  /\ known_prefix (clean_line raw) = false) /\
  (forall s t il,
      has_char newline t = false ->
      ReadIgnoresFromString (s +:+ t) il = ReadIgnoresFromString s il).
Proof.
  split; [exact read_obj|]. split; [exact read_src|].
  split; [exact read_fun|]. split; [exact read_fun_r|].
  split; [exact read_fun_hist|]. split; [exact read_unknown|].
  split; [|split; [|split]].
  - intros str il Hall. unfold Ignore.ReadIgnoresFromString.
    rewrite split_terminated. now apply read_lines_all_known, cleaned_known.
  - intros str il good bad rest Hsplit Hgood Hne Hbad.
    unfold Ignore.ReadIgnoresFromString.
    rewrite (split_at_bad str good bad rest Hsplit Hne).
    destruct (read_lines_first_unknown _ (clean_line bad)
                (nonempty_lines (List.map clean_line rest)) il
                (cleaned_known good Hgood) Hbad) as (H1 & H2 & H3).
    split; [exact H1|]. split; [exact H2|]. split; [exact H3|].
    rewrite H3. now apply read_lines_all_known, cleaned_known.
  - intros str il. rewrite read_fails_iff_unknown. split.
    + intros (l & Hin & Hl). apply delivered_iff_raw in Hin as (raw & Hin & <- & Hne).
      exists raw. now repeat split.
    + intros (raw & Hin & Hne & Hl). exists (clean_line raw).
      split; [|exact Hl]. apply delivered_iff_raw. now exists raw.
  - intros s t il Ht. unfold Ignore.ReadIgnoresFromString.
    now rewrite split_trailing.
Qed.

(** C10: the splitter delivers, for each newline-terminated raw line, the
    text before its first [#] with every space and tab deleted (wherever
    they stand), leaving out lines that end up empty; no delivered line
    holds a space, a tab or a [#].  Text after the last newline is dropped:
    appending newline-free text to any input changes neither the delivered
    lines nor the outcome of [ReadIgnoresFromString] (no entry, no error). *)
Theorem splitter_blanks_comments_trailing_line :
  (forall str,
      SplitStringIntoLinesAndRemoveBlanksAndComments str = spec_lines str) /\
  (forall str l,
      In l (SplitStringIntoLinesAndRemoveBlanksAndComments str) ->
      l <> "" /\ has_char space l = false /\ has_char tab l = false
      /\ has_char hash l = false) /\
  (forall s t,
      has_char newline t = false ->
      SplitStringIntoLinesAndRemoveBlanksAndComments (s +:+ t)
      = SplitStringIntoLinesAndRemoveBlanksAndComments s
      /\ forall il,
          ReadIgnoresFromString (s +:+ t) il = ReadIgnoresFromString s il).
Proof.
  split; [exact split_refines_spec|]. split; [exact delivered_line_shape|].
  intros s t Ht. split; [now apply split_trailing|].
  intros il. unfold Ignore.ReadIgnoresFromString. now rewrite split_trailing.
Qed.

End ReaderFacts.

Section MatchingFacts.
Import Ignore.

Variable StringMatch : string -> string -> bool.

Local Abbreviation TripleVectorMatchKnown := (TripleVectorMatchKnown StringMatch).

Lemma is_empty_spec s : is_empty s = true <-> s = "".
Proof. destruct s; split; intros H; try reflexivity; discriminate H. Qed.

Lemma triple_matches_spec t fn obj file :
  triple_matches StringMatch t fn obj file = true <-> matches_query StringMatch t fn obj file.
Proof.
  unfold triple_matches, matches_query.
  rewrite !andb_true_iff, !orb_true_iff, !is_empty_spec. tauto.
Qed.

Lemma triple_trivial_spec t fn obj file :
  triple_trivial t fn obj file = true <-> only_wildcards t fn obj file.
Proof.
  unfold triple_trivial, only_wildcards.
  rewrite !andb_true_iff, !orb_true_iff, !is_empty_spec, !String.eqb_eq. tauto.
Qed.

Lemma triple_vector_match_iff v fn obj file :
  TripleVectorMatchKnown v fn obj file = true <->
  exists t, In t v /\ matches_query StringMatch t fn obj file
            /\ ~ only_wildcards t fn obj file.
Proof.
  induction v as [|t v IH]; simpl.
  - split; [discriminate | intros (t & [] & _)].
  - destruct (triple_matches StringMatch t fn obj file) eqn:Hm.
    + destruct (triple_trivial t fn obj file) eqn:Ht.
      * rewrite IH. split.
        -- intros (t' & Hin & H). exists t'. split; [now right | exact H].
        -- intros (t' & [<-|Hin] & Hq & Hw).
           ++ exfalso. apply Hw. now apply triple_trivial_spec.
           ++ exists t'. auto.
      * split; [intros _ | reflexivity].
        exists t. split; [now left|]. split; [now apply triple_matches_spec|].
        intros Hw. apply triple_trivial_spec in Hw. congruence.
    + rewrite IH. split.
      * intros (t' & Hin & H). exists t'. split; [now right | exact H].
      * intros (t' & [<-|Hin] & Hq & Hw).
        -- apply triple_matches_spec in Hq. congruence.
        -- exists t'. auto.
Qed.

(** C9: [TripleVectorMatchKnown] answers true exactly when some triple of
    the vector matches every non-empty query component and not all of the
    patterns it was matched with are ["*"]; so a vector of all-wildcard
    triples matches no query, and a triple whose patterns for the non-empty
    components of a query are all ["*"] does not match that query. *)
Theorem triple_vector_match_known_nontrivial :
  (forall v fn obj file,
      TripleVectorMatchKnown v fn obj file = true <->
      exists t, In t v
                /\ ((fn = "" \/ StringMatch (t_fun t) fn = true) /\
                    (obj = "" \/ StringMatch (t_obj t) obj = true) /\
                    (file = "" \/ StringMatch (t_file t) file = true))
                /\ ~ ((fn = "" \/ t_fun t = "*") /\
                      (obj = "" \/ t_obj t = "*") /\
                      (file = "" \/ t_file t = "*"))) /\
  (forall v fn obj file,
      (forall t, In t v -> t = mkTriple "*" "*" "*") ->
      TripleVectorMatchKnown v fn obj file = false) /\
  (forall t fn obj file,
      (fn = "" \/ t_fun t = "*") ->
      (obj = "" \/ t_obj t = "*") ->
      (file = "" \/ t_file t = "*") ->
      TripleVectorMatchKnown [t] fn obj file = false).
Proof.
  split; [exact triple_vector_match_iff|]. split.
  - intros v fn obj file Hall.
    destruct (TripleVectorMatchKnown v fn obj file) eqn:E; [|reflexivity].
    apply triple_vector_match_iff in E as (t & Hin & _ & Hw).
    exfalso. apply Hw. rewrite (Hall t Hin). simpl.
    repeat split; right; reflexivity.
  - intros t fn obj file H1 H2 H3.
    destruct (TripleVectorMatchKnown [t] fn obj file) eqn:E; [|reflexivity].
    apply triple_vector_match_iff in E as (t' & [<-|[]] & _ & Hw).
    exfalso. apply Hw. repeat split; assumption.
Qed.

End MatchingFacts.

Section IgnoreExamples.
Import Ignore.

Example split_example :
  SplitStringIntoLinesAndRemoveBlanksAndComments
    ("# header" +:+ nl +:+ " fun : a b # c" +:+ nl +:+ nl +:+ "obj:x" +:+ nl
     +:+ "src:last")
  = ["fun:ab"; "obj:x"].
Proof. reflexivity. Qed.

Example read_example :
  ReadIgnoresFromString wild_obj wild_file wild_fun
    ("fun_r:f*" +:+ nl +:+ "bogus" +:+ nl +:+ "obj:x" +:+ nl)
    (mkLists [] [] [])
  = mkRead (mkLists [] [wild_fun "f*"] [])
           [error_message "bogus"] true.
Proof. reflexivity. Qed.

(** A last line without newline is dropped: no entry, no error. *)
Example read_trailing_example :
  ReadIgnoresFromString wild_obj wild_file wild_fun
    ("fun:a" +:+ nl +:+ "bogus") (mkLists [] [] [])
  = mkRead (mkLists [wild_fun "a"] [] []) [] false
  /\ ReadIgnoresFromString wild_obj wild_file wild_fun
       ("fun:a" +:+ nl +:+ "obj:b") (mkLists [] [] [])
     = mkRead (mkLists [wild_fun "a"] [] []) [] false.
Proof. split; reflexivity. Qed.

(** The case named in the source: a [<*, *, filename.ext>] triple does not
    match fun="fun", obj="obj.o", file="". *)
Example match_example :
  TripleVectorMatchKnown glob_match [wild_file "filename.ext"] "fun" "obj.o" ""
  = false
  /\ TripleVectorMatchKnown glob_match [wild_file "filename.ext"]
       "fun" "obj.o" "filename.ext" = true.
Proof. split; reflexivity. Qed.

End IgnoreExamples.

Lemma ignore_line_prefix_or_fatal_witness :
  let str := (" fun: foo # first" +:+ Ignore.nl +:+ "# note" +:+ Ignore.nl
              +:+ "bo gus" +:+ Ignore.nl +:+ "obj:x" +:+ Ignore.nl)%string in
  let r := Ignore.ReadIgnoresFromString Ignore.wild_obj Ignore.wild_file
             Ignore.wild_fun str (Ignore.mkLists [] [] []) in
  Ignore.r_check_failed r = true
  /\ Ignore.r_printed r
     = [("Error reading ignore file line:" +:+ Ignore.nl +:+ "bogus"
         +:+ Ignore.nl)%string]
  /\ Ignore.r_lists r = Ignore.mkLists [Ignore.wild_fun "foo"] [] []
  /\ Ignore.total_entries (Ignore.r_lists r) = 1%nat.
Proof.
  destruct (ignore_line_prefix_or_fatal Ignore.wild_obj Ignore.wild_file
              Ignore.wild_fun) as (_ & _ & _ & _ & _ & _ & _ & H & _).
  destruct (H (" fun: foo # first" +:+ Ignore.nl +:+ "# note" +:+ Ignore.nl
               +:+ "bo gus" +:+ Ignore.nl +:+ "obj:x" +:+ Ignore.nl)%string
              (Ignore.mkLists [] [] [])
              [" fun: foo # first"%string; "# note"%string]
              "bo gus"%string ["obj:x"%string])
    as (H1 & H2 & H3 & H4).
  - reflexivity.
  - constructor; [right; reflexivity|].
    constructor; [left; reflexivity|]. constructor.
  - intros E. discriminate E.
  - reflexivity.
  - exact (conj H1 (conj H2 (conj H3 H4))).
Defined.

(** C7 as worded fails on a last line without newline: [bogus] is neither
    blank nor a comment and begins with no known prefix, yet the read
    succeeds and prints nothing. *)
Lemma ignore_unterminated_line_counterexample :
  let str := ("fun:a" +:+ Ignore.nl +:+ "bogus")%string in
  let r := Ignore.ReadIgnoresFromString Ignore.wild_obj Ignore.wild_file
             Ignore.wild_fun str (Ignore.mkLists [] [] []) in
  ~ (forall line,
        In line (Ignore.raw_lines str) ->
        ~ Ignore.blank_or_comment line ->
        Ignore.known_prefix (Ignore.clean_line line) = false ->
        Ignore.r_check_failed r = true /\ Ignore.r_printed r <> []).
Proof.
  intros str r H.
  destruct (H "bogus"%string) as [Hf _].
  - right. left. reflexivity.
  - intros E. discriminate E.
  - reflexivity.
  - discriminate Hf.
Qed.

Lemma splitter_blanks_comments_trailing_line_witness :
  Ignore.SplitStringIntoLinesAndRemoveBlanksAndComments
    (("fun:foo" +:+ Ignore.nl) +:+ "bogus")
  = Ignore.SplitStringIntoLinesAndRemoveBlanksAndComments
      ("fun:foo" +:+ Ignore.nl)
  /\ Ignore.ReadIgnoresFromString Ignore.wild_obj Ignore.wild_file
       Ignore.wild_fun (("fun:foo" +:+ Ignore.nl) +:+ "bogus")
       (Ignore.mkLists [] [] [])
     = Ignore.ReadIgnoresFromString Ignore.wild_obj Ignore.wild_file
         Ignore.wild_fun ("fun:foo" +:+ Ignore.nl) (Ignore.mkLists [] [] []).
Proof.
  destruct (splitter_blanks_comments_trailing_line Ignore.wild_obj
              Ignore.wild_file Ignore.wild_fun) as (_ & _ & H).
  destruct (H ("fun:foo" +:+ Ignore.nl)%string "bogus"%string) as [H1 H2].
  - reflexivity.
  - split; [exact H1 | exact (H2 _)].
Defined.

Lemma triple_vector_match_known_nontrivial_witness :
  Ignore.TripleVectorMatchKnown Ignore.glob_match
    [Ignore.wild_file "filename.ext"] "fun" "obj.o" "" = false.
Proof.
  apply (proj2 (proj2 (triple_vector_match_known_nontrivial Ignore.glob_match))).
  - right; reflexivity.
  - right; reflexivity.
  - left; reflexivity.
Defined.

(** ** tsan/ts_valgrind.cc *)

Section FiniFacts.
Import Valgrind.

Context {State : Type}.
Variable ThreadSanitizerFini : State -> State.
Variable GetNumberOfFoundErrors : State -> Z.

Local Abbreviation ts_fini := (ts_fini ThreadSanitizerFini GetNumberOfFoundErrors).

(** C8: when [error_exitcode] is nonzero and the detector, once finished,
    counts at least one found error, [ts_fini] exits the process with
    [error_exitcode]; in every other case it returns without calling [exit],
    so the process ends with the application's own exit code. *)
Theorem ts_fini_exit_code (G_flags : FLAGS) (st : State) (exitcode : Z) :
  let found := GetNumberOfFoundErrors (ThreadSanitizerFini st) in
  let o := snd (ts_fini G_flags st exitcode) in
  fst (ts_fini G_flags st exitcode) = ThreadSanitizerFini st /\
  (error_exitcode G_flags <> 0 /\ found > 0 ->
   o = Exited (error_exitcode G_flags)
   /\ process_exit_code exitcode o = error_exitcode G_flags) /\
  (error_exitcode G_flags = 0 \/ found <= 0 ->
   o = Returned /\ process_exit_code exitcode o = exitcode).
Proof.
  unfold Valgrind.ts_fini. cbv zeta.
  destruct (Z.eqb_spec (error_exitcode G_flags) 0) as [He|He];
    destruct (Z.gtb_spec (GetNumberOfFoundErrors (ThreadSanitizerFini st)) 0)
      as [Hf|Hf]; simpl; (split; [reflexivity|]); split; intros H;
    try (split; reflexivity); lia.
Qed.

End FiniFacts.

Lemma ts_fini_exit_code_witness :
  Valgrind.process_exit_code 0
    (snd (Valgrind.ts_fini (fun n : Z => n) (fun n : Z => n)
            (Valgrind.mkFlags 66) 2 0)) = 66
  /\ Valgrind.process_exit_code 3
       (snd (Valgrind.ts_fini (fun n : Z => n) (fun n : Z => n)
               (Valgrind.mkFlags 66) 0 3)) = 3.
Proof.
  split.
  - apply (ts_fini_exit_code (fun n : Z => n) (fun n : Z => n)
             (Valgrind.mkFlags 66) 2 0).
    simpl. lia.
  - apply (ts_fini_exit_code (fun n : Z => n) (fun n : Z => n)
             (Valgrind.mkFlags 66) 0 3).
    simpl. lia.
Defined.

(** ** v2/tsan/tsan_rtl_thread.cc *)

Section CheckFacts.
Import Rtl.

Lemma check_gt_in_rtl line (thr : ThreadState) :
  0 < to_u64 (ts_in_rtl thr) ->
  CHECK_GT line cond_in_rtl (ts_in_rtl thr) 0 = Done tt.
Proof.
  intros H. unfold CHECK_GT, CHECK_IMPL.
  change (to_u64 0) with 0.
  destruct (Z.gtb_spec (to_u64 (ts_in_rtl thr)) 0); [reflexivity | lia].
Qed.

Lemma status_val_inj s1 s2 : status_val s1 = status_val s2 -> s1 = s2.
Proof. destruct s1, s2; simpl; intros H; try reflexivity; discriminate H. Qed.

Lemma to_u64_status s : to_u64 (status_val s) = status_val s.
Proof. destruct s; reflexivity. Qed.

Lemma check_eq_status line cond s1 s2 :
  CHECK_EQ line cond (status_val s1) (status_val s2)
  = if bool_decide (s1 = s2) then Done tt
    else Stop (CheckFailed line cond (status_val s1) (status_val s2)).
Proof.
  unfold CHECK_EQ, CHECK_IMPL. rewrite !to_u64_status.
  case_bool_decide as H.
  - subst. now rewrite Z.eqb_refl.
  - destruct (Z.eqb_spec (status_val s1) (status_val s2)) as [E|E];
      [|reflexivity].
    now apply status_val_inj in E.
Qed.

End CheckFacts.

Section FinalizeFacts.
Import Rtl.

Variable SymbolizeStack : Stack.StackTrace -> ReportStack.

Lemma finalize_loop_spec (n : nat) : forall i c out,
  let leaks :=
    List.filter is_leak
      (omap (fun j => threads c !! j) (seqZ i (Z.of_nat n))) in
  ThreadFinalize_loop SymbolizeStack n i (c, out)
  = (mkContext (threads c) (thread_seq c) (dead_list_head c)
               (dead_list_tail c) (dead_list_size c)
               (nreported c + Z.of_nat (List.length leaks)),
     out ++ List.map (leak_report SymbolizeStack) leaks).
Proof.
  induction n as [|n IH]; intros i c out.
  - simpl. rewrite Z.add_0_r, app_nil_r. now destruct c.
  - cbv zeta. rewrite seqZ_cons by lia.
    replace (Z.pred (Z.of_nat (S n))) with (Z.of_nat n) by lia.
    change (List.filter is_leak
              (omap (fun j => threads c !! j) (i :: seqZ (Z.succ i) (Z.of_nat n))))
      with (List.filter is_leak
              (match threads c !! i with
               | Some t => t :: omap (fun j => threads c !! j)
                                     (seqZ (Z.succ i) (Z.of_nat n))
               | None => omap (fun j => threads c !! j)
                              (seqZ (Z.succ i) (Z.of_nat n))
               end)).
    cbn [ThreadFinalize_loop]. unfold ThreadFinalize_body.
    destruct (threads c !! i) as [tctx|] eqn:Hi.
    + cbn [List.filter].
      replace (is_leak tctx)
        with (negb (tc_detached tctx) && is_leak_status (tc_status tctx))
        by reflexivity.
      destruct (tc_detached tctx); cbn [negb andb].
      * rewrite IH. reflexivity.
      * destruct (is_leak_status (tc_status tctx)); cbn [negb].
        -- rewrite IH. cbn [threads bump_nreported thread_seq dead_list_head
                            dead_list_tail dead_list_size nreported].
           cbn [List.length List.map]. rewrite <- app_assoc. cbn [app].
           rewrite <- !Z.add_1_r. f_equal. f_equal. lia.
        -- rewrite IH. reflexivity.
    + rewrite IH. reflexivity.
Qed.

(** X16: the records of [ThreadFinalize]: it hands to [PrintReport], in slot
    order, exactly one report for each registered thread context that is not
    detached and whose status is Created, Running or Finished: a ThreadLeak
    report whose one thread carries the context's tid and its symbolized
    creation stack.  Detached contexts and contexts in status Invalid or Dead
    give no report; the registry is otherwise unchanged and [nreported]
    counts the reports. *)
Theorem thread_finalize_reports_leaks (c : Context) (thr : ThreadState) :
  0 < to_u64 (ts_in_rtl thr) ->
  let leaks := List.filter is_leak (registered c) in
  exists c',
    ThreadFinalize SymbolizeStack c thr
    = Done (c', List.map (fun tctx =>
                            mkReport ReportTypeThreadLeak [] None
                              [mkReportThread (tc_tid tctx)
                                 (negb (bool_decide
                                          (tc_status tctx = ThreadStatusFinished)))
                                 (SymbolizeStack (tc_creation_stack tctx))])
                         leaks)
    /\ threads c' = threads c
    /\ nreported c' = nreported c + Z.of_nat (List.length leaks)
    /\ (forall tctx, In tctx leaks <->
          In tctx (registered c) /\ tc_detached tctx = false
          /\ (tc_status tctx = ThreadStatusCreated
              \/ tc_status tctx = ThreadStatusRunning
              \/ tc_status tctx = ThreadStatusFinished)).
Proof.
  intros Hin. unfold registered, ThreadFinalize. cbv zeta.
  rewrite check_gt_in_rtl by exact Hin. cbn [mbind Result_bind].
  rewrite finalize_loop_spec. cbv zeta.
  rewrite Z2Nat.id by (vm_compute; discriminate).
  eexists. split; [reflexivity|]. split; [reflexivity|].
  split; [reflexivity|].
  intros tctx. rewrite filter_In. unfold is_leak.
  rewrite andb_true_iff, negb_true_iff.
  generalize (omap (fun j => threads c !! j) (seqZ 0 kMaxTid)). intros L.
  destruct (tc_status tctx); cbn [is_leak_status]; intuition congruence.
Qed.

(** What [PrintReport] prints for such a report: the banner lines only. *)
Lemma print_leak_report tctx :
  PrintReport (leak_report SymbolizeStack tctx)
  = [PText "=================="; PText "WARNING: ThreadSanitizer: data race";
     PText "=================="].
Proof. reflexivity. Qed.

Lemma concat_leak_reports leaks :
  List.concat (List.map PrintReport
                        (List.map (leak_report SymbolizeStack) leaks))
  = List.concat
      (List.map (fun _ : ThreadContext =>
                   [PText "==================";
                    PText "WARNING: ThreadSanitizer: data race";
                    PText "=================="]) leaks).
Proof.
  induction leaks as [|t leaks IH]; [reflexivity|].
  cbn [List.map List.concat]. now rewrite IH, print_leak_report.
Qed.

(** C4 on the code: for each registered context that is not detached and
    is Created, Running or Finished, [ThreadFinalize] builds a ThreadLeak
    record with the context's tid and symbolized creation stack and calls
    [PrintReport] on it; [PrintReport] reads neither the type nor the
    threads of a record, and prints for each of these the two separator
    lines around [WARNING: ThreadSanitizer: data race].  What is emitted
    depends on the number of leaked threads only: it names no thread and
    carries no stack. *)
Theorem thread_finalize_leak_printed_as_race (c : Context) (thr : ThreadState) :
  0 < to_u64 (ts_in_rtl thr) ->
  let leaks := List.filter is_leak (registered c) in
  (exists c',
      ThreadFinalize SymbolizeStack c thr
      = Done (c', List.map (leak_report SymbolizeStack) leaks))
  /\ ThreadFinalize_printed SymbolizeStack c thr
     = Done (List.concat
               (List.map (fun _ : ThreadContext =>
                            [PText "==================";
                             PText "WARNING: ThreadSanitizer: data race";
                             PText "=================="]) leaks))
  /\ (forall typ mops loc thrs,
        PrintReport (mkReport typ mops loc thrs)
        = PrintReport (mkReport ReportTypeRace mops loc [])).
Proof.
  intros Hin leaks. unfold registered in leaks.
  assert (E : exists c',
             ThreadFinalize SymbolizeStack c thr
             = Done (c', List.map (leak_report SymbolizeStack) leaks)).
  { subst leaks. unfold ThreadFinalize. rewrite check_gt_in_rtl by exact Hin.
    cbn [mbind Result_bind]. rewrite finalize_loop_spec. cbv zeta.
    rewrite Z2Nat.id by (vm_compute; discriminate).
    eexists. reflexivity. }
  split; [exact E|]. split; [|reflexivity].
  destruct E as (c' & E). unfold ThreadFinalize_printed. rewrite E.
  cbn [mbind Result_bind]. rewrite concat_leak_reports. reflexivity.
Qed.

End FinalizeFacts.

Example thread_finalize_sample :
  exists c',
    Rtl.ThreadFinalize Rtl.sample_symbolize Rtl.sample_ctx Rtl.sample_thr
    = Rtl.Done (c',
        [Rtl.mkReport Rtl.ReportTypeThreadLeak [] None
           [Rtl.mkReportThread 0 true []];
         Rtl.mkReport Rtl.ReportTypeThreadLeak [] None
           [Rtl.mkReportThread 1 false
              [Rtl.mkEntry 100 "" "" 0; Rtl.mkEntry 7 "" "" 0]]])
    /\ Rtl.nreported c' = 2.
Proof. eexists. split; vm_compute; reflexivity. Qed.

Lemma thread_finalize_reports_leaks_witness :
  exists c',
    Rtl.ThreadFinalize Rtl.sample_symbolize Rtl.sample_ctx Rtl.sample_thr
    = Rtl.Done (c',
        List.map (Rtl.leak_report Rtl.sample_symbolize)
                 (List.filter Rtl.is_leak (Rtl.registered Rtl.sample_ctx))).
Proof.
  destruct (thread_finalize_reports_leaks Rtl.sample_symbolize Rtl.sample_ctx
              Rtl.sample_thr) as (c' & H & _).
  - reflexivity.
  - exists c'. exact H.
Defined.

(** Threads 0 and 1 of the sample registry are leaked: the records name
    them, the text printed is twice the data-race banner. *)
Example thread_finalize_printed_sample :
  Rtl.ThreadFinalize_printed Rtl.sample_symbolize Rtl.sample_ctx
                             Rtl.sample_thr
  = Rtl.Done
      [Rtl.PText "==================";
       Rtl.PText "WARNING: ThreadSanitizer: data race";
       Rtl.PText "==================";
       Rtl.PText "==================";
       Rtl.PText "WARNING: ThreadSanitizer: data race";
       Rtl.PText "=================="].
Proof. vm_compute. reflexivity. Qed.

Lemma thread_finalize_leak_printed_as_race_witness :
  let leaks := List.filter Rtl.is_leak (Rtl.registered Rtl.sample_ctx) in
  (exists c',
      Rtl.ThreadFinalize Rtl.sample_symbolize Rtl.sample_ctx Rtl.sample_thr
      = Rtl.Done (c', List.map (Rtl.leak_report Rtl.sample_symbolize) leaks))
  /\ Rtl.ThreadFinalize_printed Rtl.sample_symbolize Rtl.sample_ctx
                                Rtl.sample_thr
     = Rtl.Done
         (List.concat
            (List.map (fun _ : Rtl.ThreadContext =>
                         [Rtl.PText "==================";
                          Rtl.PText "WARNING: ThreadSanitizer: data race";
                          Rtl.PText "=================="]) leaks)).
Proof.
  destruct (thread_finalize_leak_printed_as_race Rtl.sample_symbolize
              Rtl.sample_ctx Rtl.sample_thr) as (H1 & H2 & _).
  - reflexivity.
  - exact (conj H1 H2).
Defined.

Section StartFacts.
Import Rtl.

Variable new_ThreadState : Z -> Z -> Z -> Z -> Z -> Z -> ThreadState.

(** C6 (as the code has it): a [ThreadStart] for a tid whose context is not
    in status Created fails the [CHECK_EQ] on the status, in debug and in
    release builds alike: the call stops at [CheckFailed] and returns no
    state, so nothing is logged and skipped. *)
Theorem thread_start_not_created_check_fails
        (TSAN_DEBUG : bool) (c : Context) (thr : ThreadState) (tid : Z)
        (stk_addr stk_size tls_addr tls_size : Z) (tctx : ThreadContext) :
  0 < to_u64 (ts_in_rtl thr) ->
  threads c !! tid = Some tctx ->
  tc_status tctx <> ThreadStatusCreated ->
  ThreadStart new_ThreadState TSAN_DEBUG c thr tid
              stk_addr stk_size tls_addr tls_size
  = Stop (CheckFailed 140 "(tctx->status) == (ThreadStatusCreated)"
                      (status_val (tc_status tctx))
                      (status_val ThreadStatusCreated)).
Proof.
  intros Hin Htctx Hst. unfold ThreadStart.
  rewrite check_gt_in_rtl by exact Hin. cbn [mbind Result_bind].
  rewrite Htctx.
  change (CHECK_NE 139 "(tctx) != (0)" (ptr_val (Some tid)) 0) with (Done tt).
  cbn [mbind Result_bind]. rewrite check_eq_status.
  now rewrite bool_decide_eq_false_2.
Qed.

End StartFacts.

(** C6, as stated, fails here.  In the release build a [ThreadStart] for a
    Running thread ends in
    [CheckFailed]; it does not return with the event skipped. *)
Lemma thread_start_release_build_counterexample :
  Rtl.ThreadStart Rtl.sample_new_ThreadState false Rtl.sample_ctx
                  Rtl.sample_thr 2 0 0 0 0
  = Rtl.Stop (Rtl.CheckFailed 140 "(tctx->status) == (ThreadStatusCreated)" 2 1)
  /\ Rtl.ThreadStart Rtl.sample_new_ThreadState false Rtl.sample_ctx
                     Rtl.sample_thr 2 0 0 0 0
     <> Rtl.Done (Rtl.sample_ctx, Rtl.sample_thr, []).
Proof. split; [vm_compute; reflexivity | vm_compute; discriminate]. Qed.

Lemma thread_start_not_created_check_fails_witness :
  Rtl.ThreadStart Rtl.sample_new_ThreadState true Rtl.sample_ctx
                  Rtl.sample_thr 1 0 0 0 0
  = Rtl.Stop (Rtl.CheckFailed 140 "(tctx->status) == (ThreadStatusCreated)" 3 1).
Proof.
  apply (thread_start_not_created_check_fails Rtl.sample_new_ThreadState true
           Rtl.sample_ctx Rtl.sample_thr 1 0 0 0 0
           (Rtl.mkThreadContext 1 12 Rtl.ThreadStatusFinished false 0 ∅
                                (Rtl.Stack.holding [100; 7]) 1 5 false None)).
  - reflexivity.
  - reflexivity.
  - discriminate.
Defined.

Section RangeFacts.
Import Rtl.

Lemma to_uptr_idem a : to_uptr (to_uptr a) = to_uptr a.
Proof. unfold to_uptr. apply Zmod_mod. Qed.

Lemma to_uptr_small a : 0 <= a < 2 ^ 64 -> to_uptr a = a.
Proof. intros H. unfold to_uptr. now apply Z.mod_small. Qed.

Lemma to_uptr_add_l a b : to_uptr (to_uptr a + b) = to_uptr (a + b).
Proof. unfold to_uptr. apply Zplus_mod_idemp_l. Qed.

Lemma to_uptr_mod8 a : to_uptr a mod 8 = a mod 8.
Proof.
  unfold to_uptr. apply Z.mod_mod_divide. exists (2 ^ 61). reflexivity.
Qed.

Lemma neg_to_uptr_mod8 a : (- to_uptr a) mod 8 = (- a) mod 8.
Proof.
  unfold to_uptr. rewrite (Z.mod_eq a (2 ^ 64)) by lia.
  replace (- (a - 2 ^ 64 * (a / 2 ^ 64)))
    with (- a + (2 ^ 61 * (a / 2 ^ 64)) * 8) by lia.
  apply Z_mod_plus_full.
Qed.

Lemma neg_mod8_zero a : (- a) mod 8 = 0 <-> a mod 8 = 0.
Proof. split; intros H; Z.div_mod_to_equations; lia. Qed.

Lemma neg_mod8_step a :
  (- a) mod 8 <> 0 -> (- (a + 1)) mod 8 = (- a) mod 8 - 1.
Proof. intros H. Z.div_mod_to_equations. lia. Qed.

Lemma map_seq_succ {A} (f : nat -> A) n :
  List.map f (List.seq 1 n) = List.map (fun i => f (S i)) (List.seq 0 n).
Proof. now rewrite <- seq_shift, map_map. Qed.

Variable fs : FastState.
Variable w : bool.

Lemma suffix_loop_spec (n : nat) : forall fuel sm addr calls,
  (n < fuel)%nat ->
  to_uptr addr = addr ->
  suffix_loop fs w fuel sm addr (Z.of_nat n) calls
  = Some (to_uptr (addr + Z.of_nat n), 0,
          calls ++ List.map (fun i : nat =>
                               byte_call fs w sm (to_uptr (addr + Z.of_nat i)))
                            (List.seq 0 n)).
Proof.
  induction n as [|n IH]; intros fuel sm addr calls Hfuel Haddr;
    (destruct fuel as [|fuel]; [lia|]).
  - simpl. now rewrite Z.add_0_r, Haddr, app_nil_r.
  - cbn [suffix_loop].
    replace (Z.of_nat (S n) =? 0) with false by (symmetry; apply Z.eqb_neq; lia).
    cbn [negb]. replace (Z.of_nat (S n) - 1) with (Z.of_nat n) by lia.
    rewrite IH by (try lia; apply to_uptr_idem).
    rewrite to_uptr_add_l. f_equal. f_equal; [f_equal; f_equal; lia|].
    rewrite <- app_assoc. f_equal.
    cbn [List.seq List.map app]. rewrite Z.add_0_r, Haddr. f_equal.
    rewrite map_seq_succ. apply map_ext. intros i.
    rewrite to_uptr_add_l. f_equal. f_equal. lia.
Qed.

Lemma prefix_loop_spec (p : nat) : forall fuel sm addr size calls,
  (p < fuel)%nat ->
  to_uptr addr = addr ->
  0 <= size ->
  Z.of_nat p = Z.min size ((- addr) mod 8) ->
  prefix_loop fs w fuel sm addr size calls
  = Some (to_uptr (addr + Z.of_nat p), size - Z.of_nat p,
          calls ++ List.map (fun i : nat =>
                               byte_call fs w sm (to_uptr (addr + Z.of_nat i)))
                            (List.seq 0 p)).
Proof.
  unfold kShadowCell.
  induction p as [|p IH]; intros fuel sm addr size calls Hfuel Haddr Hsize Hp;
    (destruct fuel as [|fuel]; [lia|]); cbn [prefix_loop]; unfold kShadowCell.
  - assert (Hstop : negb (addr mod 8 =? 0) && negb (size =? 0) = false).
    { apply andb_false_iff.
      destruct (Z.eq_dec size 0) as [->|Hs]; [now right|left].
      apply negb_false_iff, Z.eqb_eq, neg_mod8_zero.
      pose proof (Z.mod_pos_bound (- addr) 8). lia. }
    rewrite Hstop. simpl. now rewrite !Z.add_0_r, Z.sub_0_r, Haddr, app_nil_r.
  - assert (Hm : (- addr) mod 8 <> 0) by lia.
    assert (Hgo : negb (addr mod 8 =? 0) && negb (size =? 0) = true).
    { apply andb_true_iff. split; apply negb_true_iff, Z.eqb_neq; [|lia].
      intros E. now apply neg_mod8_zero in E. }
    rewrite Hgo.
    rewrite IH; try lia; try apply to_uptr_idem.
    + rewrite to_uptr_add_l. f_equal. f_equal; [f_equal; [f_equal; lia | lia]|].
      rewrite <- app_assoc. f_equal.
      cbn [List.seq List.map app]. rewrite Z.add_0_r, Haddr. f_equal.
      rewrite map_seq_succ. apply map_ext. intros i.
      rewrite to_uptr_add_l. f_equal. f_equal. lia.
    + rewrite neg_to_uptr_mod8, neg_mod8_step by exact Hm. lia.
Qed.

Lemma body_loop_spec (b : nat) : forall fuel sm addr size calls,
  (b < fuel)%nat ->
  to_uptr addr = addr ->
  8 * Z.of_nat b <= size < 8 * Z.of_nat b + 8 ->
  body_loop fs w fuel sm addr size calls
  = Some (sm + cell_stride * Z.of_nat b, to_uptr (addr + 8 * Z.of_nat b),
          size - 8 * Z.of_nat b,
          calls ++ List.map (fun j : nat =>
                               cell_call fs w (sm + cell_stride * Z.of_nat j)
                                         (to_uptr (addr + 8 * Z.of_nat j)))
                            (List.seq 0 b)).
Proof.
  induction b as [|b IH]; intros fuel sm addr size calls Hfuel Haddr Hsize;
    (destruct fuel as [|fuel]; [lia|]); cbn [body_loop]; unfold kShadowCell.
  - rewrite Z.geb_leb.
    replace (8 <=? size) with false by (symmetry; apply Z.leb_gt; lia).
    simpl. now rewrite !Z.mul_0_r, !Z.add_0_r, Z.sub_0_r, Haddr, app_nil_r.
  - rewrite Z.geb_leb.
    replace (8 <=? size) with true by (symmetry; apply Z.leb_le; lia).
    rewrite IH; try lia; try apply to_uptr_idem.
    rewrite to_uptr_add_l. f_equal.
    f_equal; [f_equal; [f_equal; [lia | f_equal; lia] | lia]|].
    rewrite <- app_assoc. f_equal.
    cbn [List.seq List.map app].
    rewrite Z.mul_0_r, !Z.add_0_r, Haddr. f_equal.
    rewrite map_seq_succ. apply map_ext. intros j.
    rewrite to_uptr_add_l. f_equal; [lia | f_equal; lia].
Qed.

End RangeFacts.

Section AccessRangeFacts.
Import Rtl.

Variable MemToShadow : Z -> Z.
Variable IsAppMem : Z -> bool.
Variable IsShadowMem : Z -> bool.

Local Abbreviation MemoryAccessRange :=
  (MemoryAccessRange MemToShadow IsAppMem IsShadowMem).

Lemma debug_checks_pass (TSAN_DEBUG : bool) addr size shadow_mem :
  (TSAN_DEBUG = true ->
   IsAppMem addr = true /\ IsAppMem (to_uptr (addr + size - 1)) = true
   /\ IsShadowMem shadow_mem = true
   /\ IsShadowMem (shadow_mem + 8 * (to_uptr (size * kShadowCnt) / 8) - 8)
      = true) ->
  debug_checks IsAppMem IsShadowMem TSAN_DEBUG addr size shadow_mem = Done tt.
Proof.
  intros H. unfold debug_checks. destruct TSAN_DEBUG; [|reflexivity].
  destruct (H eq_refl) as (H1 & H2 & H3 & H4).
  rewrite H1, H2, H3, H4. reflexivity.
Qed.

(** C1: a call of [MemoryAccessRange] with [size > 0] and the ignore bit
    clear (and, in a debug build, addresses that pass the range checks)
    increments the thread's epoch once, appends one [Mop] event with that
    epoch and [pc] to the trace, and calls [MemoryAccessImpl] first for the
    [p] bytes before the first cell boundary (size-log 0, one byte each),
    then for [b] whole cells at aligned addresses (size-log 3, offset 0),
    then for the [s] bytes left (size-log 0), with [p + 8*b + s = size],
    [p < 8] and [s < 8].  Every call carries the write flag, the new fast
    state and, for a byte, its offset [addr & 7] within its cell. *)
Theorem memory_access_range_decomposition
        (TSAN_DEBUG : bool) (thr : ThreadState) (pc addr size : Z)
        (is_write : bool) :
  0 <= addr < 2 ^ 64 ->
  0 < size < 2 ^ 64 ->
  GetIgnoreBit (ts_fast_state thr) = false ->
  (TSAN_DEBUG = true ->
   IsAppMem addr = true /\ IsAppMem (to_uptr (addr + size - 1)) = true
   /\ IsShadowMem (MemToShadow addr) = true
   /\ IsShadowMem (MemToShadow addr + 8 * (to_uptr (size * kShadowCnt) / 8) - 8)
      = true) ->
  let fs := mkFastState (fs_tid (ts_fast_state thr))
                        (fs_epoch (ts_fast_state thr) + 1)
                        (fs_ignore_bit (ts_fast_state thr)) in
  let p := Z.min size ((- addr) mod 8) in
  let b := (size - p) / 8 in
  let s := (size - p) mod 8 in
  let sm0 := MemToShadow addr in
  let sm1 := if addr mod 8 =? 0 then sm0 else sm0 + 64 in
  let byte sm a :=
    mkCall a 0 is_write fs sm (mkShadow fs is_write (Z.land a 7) 0) in
  let cell sm a := mkCall a 3 is_write fs sm (mkShadow fs is_write 0 3) in
  MemoryAccessRange TSAN_DEBUG thr pc addr size is_write
  = Done (mkThreadState (ts_in_rtl thr) fs (ts_fast_synch_epoch thr)
                        (ts_clock thr) (ts_shadow_stack thr)
                        (ts_trace thr
                         ++ [mkEvent (fs_epoch (ts_fast_state thr) + 1)
                                     EventTypeMop pc]),
          List.map (fun i : nat => byte sm0 (to_uptr (addr + Z.of_nat i)))
                   (List.seq 0 (Z.to_nat p))
          ++ List.map (fun j : nat =>
                         cell (sm1 + 64 * Z.of_nat j)
                              (to_uptr (addr + p + 8 * Z.of_nat j)))
                      (List.seq 0 (Z.to_nat b))
          ++ List.map (fun k : nat =>
                         byte (sm1 + 64 * b)
                              (to_uptr (addr + p + 8 * b + Z.of_nat k)))
                      (List.seq 0 (Z.to_nat s)))
  /\ p + 8 * b + s = size
  /\ 0 <= p < 8 /\ 0 <= b /\ 0 <= s < 8
  /\ (p = size \/ (addr + p) mod 8 = 0).
Proof.
  intros Haddr Hsize Hign Hdbg fs p b s sm0 sm1 byte cell.
  assert (Hm : 0 <= (- addr) mod 8 < 8) by (apply Z.mod_pos_bound; lia).
  assert (Hp : 0 <= p <= size) by (unfold p; lia).
  assert (Hp8 : 0 <= p < 8) by (unfold p; lia).
  assert (Hb : 0 <= b) by (unfold b; apply Z.div_pos; lia).
  assert (Hs : 0 <= s < 8) by (unfold s; apply Z.mod_pos_bound; lia).
  assert (Hsum : p + 8 * b + s = size).
  { unfold b, s. pose proof (Z.div_mod (size - p) 8). lia. }
  assert (Hal : p = size \/ (addr + p) mod 8 = 0).
  { destruct (Z.min_spec size ((- addr) mod 8)) as [[_ E]|[_ E]];
      fold p in E; [now left | right].
    rewrite E. clear - Hm. Z.div_mod_to_equations. lia. }
  split; [|repeat split; try assumption; lia].
  unfold Rtl.MemoryAccessRange.
  replace (size =? 0) with false by (symmetry; apply Z.eqb_neq; lia).
  rewrite debug_checks_pass by exact Hdbg. cbn [mbind Result_bind].
  rewrite Hign.
  change (IncrementEpoch (ts_fast_state thr)) with fs.
  rewrite (prefix_loop_spec fs is_write (Z.to_nat p));
    [| lia | now apply to_uptr_small | lia | rewrite Z2Nat.id by lia; reflexivity].
  cbn [run_loop mbind Result_bind]. rewrite Z2Nat.id by lia.
  rewrite (body_loop_spec fs is_write (Z.to_nat b));
    [| lia | apply to_uptr_idem
     | rewrite Z2Nat.id by lia; unfold b;
       pose proof (Z.div_mod (size - p) 8);
       pose proof (Z.mod_pos_bound (size - p) 8); lia].
  cbn [run_loop mbind Result_bind]. rewrite Z2Nat.id by lia.
  replace (size - p - 8 * b) with (Z.of_nat (Z.to_nat s))
    by (rewrite Z2Nat.id; lia).
  rewrite (suffix_loop_spec fs is_write (Z.to_nat s));
    [| lia | apply to_uptr_idem].
  cbn [run_loop mbind Result_bind].
  f_equal. f_equal.
  change cell_stride with 64. unfold kShadowCell.
  replace (if negb (addr mod 8 =? 0) then MemToShadow addr + 64
           else MemToShadow addr) with sm1
    by (unfold sm1, sm0; now destruct (addr mod 8 =? 0)).
  cbn [app]. rewrite <- app_assoc. f_equal. f_equal.
  - apply map_ext. intros j. unfold cell, cell_call.
    rewrite to_uptr_add_l. reflexivity.
  - apply map_ext. intros k. unfold byte, byte_call.
    rewrite !to_uptr_add_l, <- !Z.add_assoc, to_uptr_add_l, !Z.add_assoc.
    reflexivity.
Qed.

End AccessRangeFacts.

Example memory_access_range_sample :
  Rtl.call_summary
    (Rtl.MemoryAccessRange Rtl.sample_MemToShadow (fun _ => true)
       (fun _ => true) false Rtl.sample_thr 77 5 20 true)
  = [(5, 0, 5); (6, 0, 6); (7, 0, 7); (8, 3, 0); (16, 3, 0); (24, 0, 0)].
Proof. vm_compute. reflexivity. Qed.

Lemma memory_access_range_decomposition_witness :
  Rtl.call_summary
    (Rtl.MemoryAccessRange Rtl.sample_MemToShadow (fun _ => true)
       (fun _ => true) true Rtl.sample_thr 77 5 20 true)
  = [(5, 0, 5); (6, 0, 6); (7, 0, 7); (8, 3, 0); (16, 3, 0); (24, 0, 0)].
Proof.
  destruct (memory_access_range_decomposition Rtl.sample_MemToShadow
              (fun _ => true) (fun _ => true) true Rtl.sample_thr 77 5 20 true)
    as [H _].
  - lia.
  - lia.
  - reflexivity.
  - intros _. repeat split.
  - rewrite H. vm_compute. reflexivity.
Defined.

Example thread_create_samples :
  Rtl.result_tid (Rtl.ThreadCreate Rtl.sample_alloc (Rtl.quarantine_ctx 100)
                                   Rtl.sample_thr 7 12 false) = Some 101
  /\ Rtl.result_tid (Rtl.ThreadCreate Rtl.sample_alloc (Rtl.quarantine_ctx 101)
                                      Rtl.sample_thr 7 12 false) = Some 1
  /\ Rtl.ThreadCreate Rtl.sample_alloc
                      (Rtl.mkContext ∅ Rtl.kMaxTid None None 0 0)
                      Rtl.sample_thr 7 12 false
     = Rtl.Stop (Rtl.Die Rtl.thread_limit_message).
Proof. repeat split; vm_compute; reflexivity. Qed.

Section QuarantineFacts.
Import Rtl.

Lemma dead_chain_status th q : forall p x,
  dead_chain th p q -> x ∈ q ->
  exists tctx, th !! x = Some tctx /\ tc_status tctx = ThreadStatusDead.
Proof.
  induction q as [|a q IH]; intros p x Hc Hx; [now apply elem_of_nil in Hx|].
  simpl in Hc. destruct Hc as [_ Hc].
  destruct (th !! a) as [ac|] eqn:Ha; [|contradiction].
  destruct Hc as [[Hs _] Hc].
  apply elem_of_cons in Hx as [->|Hx]; [eauto | eapply IH; eauto].
Qed.

Lemma dead_chain_insert th q : forall p t x,
  t ∉ q -> dead_chain th p q -> dead_chain (<[t := x]> th) p q.
Proof.
  induction q as [|a q IH]; intros p t x Ht Hc; [exact Hc|].
  apply not_elem_of_cons in Ht as [Hta Ht].
  simpl in *. destruct Hc as [Hp Hc]. split; [exact Hp|].
  rewrite lookup_insert_ne by exact Hta.
  destruct (th !! a) as [ac|]; [|contradiction].
  destruct Hc as [Hs Hc]. split; [exact Hs | now apply IH].
Qed.

Lemma dead_chain_snoc th q : forall p tl tl_ctx t tctx',
  dead_chain th p q -> last q = Some tl -> NoDup q -> t ∉ q ->
  th !! tl = Some tl_ctx ->
  tc_status tctx' = ThreadStatusDead -> tc_sync tctx' = ∅ ->
  tc_dead_next tctx' = None ->
  dead_chain (<[tl := set_dead_next tl_ctx (Some t)]> (<[t := tctx']> th))
             p (q ++ [t]).
Proof.
  induction q as [|a q IH];
    intros p tl tl_ctx t tctx' Hc Hl Hnd Ht Htl Hs Hsy Hn;
    [discriminate Hl|].
  apply not_elem_of_cons in Ht as [Hta Ht].
  apply NoDup_cons in Hnd as [Ha Hnd].
  simpl in Hc. destruct Hc as [Hp Hc].
  destruct (th !! a) as [ac|] eqn:Hac; [|contradiction].
  destruct Hc as [Hsa Hc].
  cbn [app dead_chain]. split; [exact Hp|].
  destruct q as [|b q].
  - simpl in Hl. injection Hl as <-.
    rewrite lookup_insert_eq. rewrite Hac in Htl. injection Htl as <-.
    split; [exact Hsa|]. simpl. split; [reflexivity|].
    rewrite lookup_insert_ne by congruence. rewrite lookup_insert_eq.
    split; [now split | exact Hn].
  - assert (Hl' : last (b :: q) = Some tl) by exact Hl.
    assert (Hin : tl ∈ b :: q).
    { apply list_elem_of_lookup. apply last_Some in Hl' as [l' Hl'].
      rewrite Hl'. exists (List.length l'). apply list_lookup_middle.
      reflexivity. }
    assert (Hatl : a <> tl) by (intros ->; contradiction).
    rewrite lookup_insert_ne by congruence.
    rewrite lookup_insert_ne by congruence.
    rewrite Hac. split; [exact Hsa|].
    apply IH; assumption.
Qed.

Lemma slots_ok_insert th seq k old new :
  slots_ok th seq -> th !! k = Some old -> tc_tid new = tc_tid old ->
  slots_ok (<[k := new]> th) seq.
Proof.
  intros Hok Hk Htid i tctx Hi.
  destruct (decide (k = i)) as [->|Hne].
  - rewrite lookup_insert_eq in Hi. injection Hi as <-.
    rewrite Htid. now apply Hok.
  - rewrite lookup_insert_ne in Hi by exact Hne. now apply Hok.
Qed.

Lemma check_one line cond : CHECK line cond 1 = Done tt.
Proof. reflexivity. Qed.

Lemma quarantine_nil_size c q :
  quarantine c q -> dead_list_size c = 0 -> q = [].
Proof.
  intros (Hsz & _) H0. destruct q; [reflexivity|]. simpl in Hsz. lia.
Qed.

(** [ThreadDead] puts the context at the young end of the quarantine. *)
Lemma thread_dead_appends c thr t tctx q :
  0 < to_u64 (ts_in_rtl thr) ->
  registry_wf c -> quarantine c q ->
  threads c !! t = Some tctx ->
  tc_status tctx = ThreadStatusRunning
  \/ tc_status tctx = ThreadStatusFinished ->
  exists c',
    ThreadDead c thr t = Done c'
    /\ quarantine c' (q ++ [t])
    /\ registry_wf c'
    /\ thread_seq c' = thread_seq c.
Proof.
  intros Hin [Hok Hseq] Hq Ht Hst.
  assert (Htq : t ∉ q).
  { intros Hel. destruct Hq as (_ & _ & Hq).
    destruct q as [|a q]; [now apply elem_of_nil in Hel|].
    destruct (Hq ltac:(discriminate)) as [Hc _].
    destruct (dead_chain_status _ _ _ _ Hc Hel) as (x & Hx & Hd).
    rewrite Ht in Hx. injection Hx as <-. destruct Hst; congruence. }
  unfold ThreadDead. rewrite check_gt_in_rtl by exact Hin.
  cbn [mbind Result_bind]. rewrite Ht.
  replace (b2z _) with 1
    by (destruct Hst as [-> | ->]; reflexivity).
  rewrite check_one. cbn [mbind Result_bind].
  set (tctx' := set_dead_next _ None).
  assert (Htid : tc_tid tctx' = tc_tid tctx) by reflexivity.
  destruct (Z.eqb_spec (dead_list_size c) 0) as [H0|H0].
  - pose proof (quarantine_nil_size _ _ Hq H0) as ->.
    eexists. split; [reflexivity|]. split; [|split; [|reflexivity]].
    + split; [simpl; lia|]. split; [apply NoDup_singleton|]. intros _.
      cbn. rewrite lookup_insert_eq. repeat split.
    + split; [|exact Hseq]. cbn. eapply slots_ok_insert; eauto.
  - destruct Hq as (Hsz & Hnd & Hq).
    assert (Hne : q <> []) by (intros ->; simpl in Hsz; lia).
    destruct (Hq Hne) as [Hc Htail].
    rewrite Htail.
    destruct (last q) as [tl|] eqn:Hl;
      [|apply last_None in Hl; contradiction].
    assert (Htlq : tl ∈ q).
    { apply list_elem_of_lookup. apply last_Some in Hl as [l' ->].
      exists (List.length l'). apply list_lookup_middle. reflexivity. }
    destruct (dead_chain_status _ _ _ _ Hc Htlq) as (tl_ctx & Htl & _).
    assert (Hneq : t <> tl) by (intros ->; contradiction).
    rewrite lookup_insert_ne by exact Hneq. rewrite Htl.
    eexists. split; [reflexivity|]. split; [|split; [|reflexivity]].
    + split; [cbn; rewrite length_app; simpl; lia|].
      split.
      { apply NoDup_app. split; [exact Hnd|]. split; [|apply NoDup_singleton].
        intros x Hx Hx'. apply elem_of_cons in Hx' as [->|Hx'];
          [contradiction | now apply elem_of_nil in Hx']. }
      intros _. cbn. split.
      * now apply dead_chain_snoc.
      * now rewrite last_snoc.
    + split; [|exact Hseq]. cbn.
      apply (slots_ok_insert _ _ _ tl_ctx);
        [eapply slots_ok_insert; eauto| |reflexivity].
      rewrite lookup_insert_ne by exact Hneq. exact Htl.
Qed.

End QuarantineFacts.

Section CreateFacts.
Import Rtl.

Variable internal_alloc : Z -> bool.

Local Abbreviation ThreadCreate := (ThreadCreate internal_alloc).
Local Abbreviation create_capture := (create_capture internal_alloc).
Local Abbreviation can_capture := (can_capture internal_alloc).

Lemma current_frames_length thr pc :
  Z.of_nat (List.length (ts_shadow_stack thr)) + (if pc =? 0 then 0 else 1)
  = Z.of_nat (List.length (current_frames thr pc)).
Proof.
  unfold current_frames. rewrite length_app. destruct (pc =? 0); simpl; lia.
Qed.

Lemma free_freeable st :
  Stack.freeable st -> exists st0, Stack.Free st = Done st0.
Proof.
  unfold Stack.Free. intros [Hn|Hn].
  - rewrite Hn. eauto.
  - destruct (Stack.s_ st); [|eauto].
    unfold CHECK_NE, CHECK_IMPL. change (to_u64 0) with 0.
    replace (to_u64 (Stack.n_ st) =? 0) with false
      by (symmetry; apply Z.eqb_neq; exact Hn).
    cbn. eauto.
Qed.

(** [ObtainCurrent] on a stack that can be freed, with an allocator that
    returns a buffer: the stack holds the current frames. *)
Lemma obtain_current_done st thr pc :
  Stack.freeable st ->
  internal_alloc (Z.of_nat (List.length (ts_shadow_stack thr))
                  + (if pc =? 0 then 0 else 1)) = true ->
  Stack.ObtainCurrent internal_alloc st thr pc
  = Done (Stack.holding (current_frames thr pc)).
Proof.
  intros Hf Ha. unfold Stack.ObtainCurrent.
  destruct (free_freeable st Hf) as [st0 ->]. cbn [mbind Result_bind].
  cbv zeta. unfold Stack.filled. rewrite Ha. cbn [mbind Result_bind].
  unfold Stack.holding. now rewrite current_frames_length.
Qed.

(** [ObtainCurrent] on a stack that holds a buffer and counts no frame:
    the check of [Free] fails. *)
Lemma obtain_current_zero_frames l thr pc :
  Stack.ObtainCurrent internal_alloc (Stack.mkStackTrace 0 (Some l)) thr pc
  = Stop (CheckFailed 135 "(n_) != (0)" 0 0).
Proof. reflexivity. Qed.

Lemma create_capture_done tid st thr pc :
  can_capture tid st thr pc ->
  create_capture tid st thr pc
  = Done (if tid =? 0 then st else Stack.holding (current_frames thr pc)).
Proof.
  intros H. unfold Rtl.create_capture.
  destruct (Z.eqb_spec tid 0) as [E|E]; [reflexivity|].
  destruct (H E) as [Hf Ha]. now apply obtain_current_done.
Qed.

Lemma to_u64_tid tid : 0 <= tid < kMaxTid -> to_u64 tid = tid.
Proof.
  intros H. apply Z.mod_small. change kMaxTid with 65536 in H. lia.
Qed.

Lemma check_ge_tid tid :
  0 <= tid < kMaxTid -> CHECK_GE 103 "(tid) >= (0)" tid 0 = Done tt.
Proof.
  intros H. unfold CHECK_GE, CHECK_IMPL. rewrite to_u64_tid by exact H.
  change (to_u64 0) with 0. rewrite Z.geb_leb.
  now replace (0 <=? tid) with true by (symmetry; apply Z.leb_le; lia).
Qed.

Lemma check_lt_tid tid :
  0 <= tid < kMaxTid -> CHECK_LT 104 "(tid) < (kMaxTid)" tid kMaxTid = Done tt.
Proof.
  intros H. unfold CHECK_LT, CHECK_IMPL. rewrite to_u64_tid by exact H.
  change (to_u64 kMaxTid) with kMaxTid.
  now replace (tid <? kMaxTid) with true by (symmetry; apply Z.ltb_lt; lia).
Qed.

(** The second half of [ThreadCreate], once a context was picked. *)
Lemma thread_create_finish c thr pc uid detached c1 p tid tctx0 :
  0 < to_u64 (ts_in_rtl thr) ->
  ThreadCreate_pick c = Done (c1, p, tid) ->
  threads c1 !! p = Some tctx0 ->
  tc_status tctx0 = ThreadStatusInvalid ->
  0 <= tid < kMaxTid ->
  ThreadCreate c thr pc uid detached
  = (cs ← create_capture tid (tc_creation_stack tctx0) thr pc;
     Done (set_threads c1
             (<[p := created_tctx tctx0 uid detached
                       (if tid =? 0 then tc_sync tctx0
                        else clock_release (ts_clock (released_thr thr))
                                           (tc_sync tctx0))
                       cs]> (threads c1)),
           if tid =? 0 then thr else released_thr thr, tid)).
Proof.
  intros Hin Hpick Hp Hst Htid. unfold ThreadCreate.
  rewrite check_gt_in_rtl by exact Hin. cbn [mbind Result_bind].
  rewrite Hpick. cbn [mbind Result_bind]. rewrite Hp.
  change (CHECK_NE 102 "(tctx) != (0)" (ptr_val (Some p)) 0) with (Done tt).
  cbn [mbind Result_bind].
  rewrite check_ge_tid by exact Htid. cbn [mbind Result_bind].
  rewrite check_lt_tid by exact Htid. cbn [mbind Result_bind].
  rewrite check_eq_status, Hst. cbn [mbind Result_bind].
  rewrite bool_decide_eq_true_2 by reflexivity.
  unfold Rtl.create_capture. destruct (tid =? 0); reflexivity.
Qed.

Lemma quarantine_insert c q t x :
  quarantine c q -> t ∉ q ->
  quarantine (set_threads c (<[t := x]> (threads c))) q.
Proof.
  intros (Hsz & Hnd & Hq) Ht. split; [exact Hsz|]. split; [exact Hnd|].
  intros Hne. destruct (Hq Hne) as [Hc Htl]. split; [|exact Htl].
  cbn. now apply dead_chain_insert.
Qed.

(** The branch of [ThreadCreate] that takes the head of the dead list. *)
Lemma thread_create_reuse c thr pc uid detached t q' :
  0 < to_u64 (ts_in_rtl thr) ->
  registry_wf c -> quarantine c (t :: q') ->
  dead_list_size c > kThreadQuarantineSize \/ thread_seq c >= kMaxTid ->
  exists tctx c1,
    threads c !! t = Some tctx
    /\ (tc_status tctx = ThreadStatusDead /\ tc_sync tctx = ∅)
    /\ threads c1 = <[t := set_reuse_count
                             (set_status tctx ThreadStatusInvalid)
                             (tc_reuse_count tctx + 1)]> (threads c)
    /\ thread_seq c1 = thread_seq c
    /\ quarantine c1 q'
    /\ ThreadCreate c thr pc uid detached
       = (cs ← create_capture t (tc_creation_stack tctx) thr pc;
          Done (set_threads c1
                  (<[t := created_tctx
                            (set_reuse_count
                               (set_status tctx ThreadStatusInvalid)
                               (tc_reuse_count tctx + 1))
                            uid detached
                            (if t =? 0 then tc_sync tctx
                             else clock_release (ts_clock (released_thr thr))
                                                (tc_sync tctx))
                            cs]> (threads c1)),
                if t =? 0 then thr else released_thr thr, t)).
Proof.
  intros Hin [Hok Hseq] Hq Hcond.
  destruct Hq as (Hsz & Hnd & Hq).
  destruct (Hq ltac:(discriminate)) as [Hc Htail].
  cbn [dead_chain] in Hc. destruct Hc as [Hhead Hc].
  destruct (threads c !! t) as [tctx|] eqn:Ht; [|contradiction].
  destruct Hc as [[Hdead Hsync] Hc].
  apply NoDup_cons in Hnd as [Htq Hnd].
  destruct (Hok t tctx Ht) as [Htid Hrange].
  set (tctx1 := set_reuse_count (set_status tctx ThreadStatusInvalid)
                                (tc_reuse_count tctx + 1)).
  set (c1 := mkContext (<[t := tctx1]> (threads c)) (thread_seq c)
               (if dead_list_size c - 1 =? 0 then None else tc_dead_next tctx)
               (dead_list_tail c) (dead_list_size c - 1) (nreported c)).
  assert (Hpick : ThreadCreate_pick c = Done (c1, t, t)).
  { unfold ThreadCreate_pick.
    replace ((dead_list_size c >? kThreadQuarantineSize)
             || (thread_seq c >=? kMaxTid)) with true.
    2:{ symmetry. apply orb_true_iff.
        destruct Hcond as [H|H]; [left|right].
        - now apply Z.gtb_gt.
        - rewrite Z.geb_leb. apply Z.leb_le. lia. }
    replace (dead_list_size c =? 0) with false
      by (symmetry; apply Z.eqb_neq; simpl in Hsz; lia).
    rewrite Hhead, Ht.
    assert (Hchk : (if dead_list_size c - 1 =? 0
                    then CHECK_EQ 88 "(tctx->dead_next) == (0)"
                                  (ptr_val (tc_dead_next tctx)) 0
                    else Done tt) = Done tt).
    { destruct (Z.eqb_spec (dead_list_size c - 1) 0) as [E|E]; [|reflexivity].
      destruct q' as [|b q'']; [|simpl in Hsz; lia].
      simpl in Hc. now rewrite Hc. }
    rewrite Hchk. cbn [mbind Result_bind].
    rewrite check_eq_status, Hdead.
    rewrite bool_decide_eq_true_2 by reflexivity.
    cbn [mbind Result_bind tc_tid set_reuse_count set_status].
    now rewrite Htid. }
  exists tctx, c1. split; [reflexivity|]. split; [now split|].
  split; [reflexivity|]. split; [reflexivity|]. split.
  - split; [cbn; simpl in Hsz; lia|]. split; [exact Hnd|].
    intros Hne. cbn.
    replace (dead_list_size c - 1 =? 0) with false.
    2:{ symmetry. apply Z.eqb_neq. destruct q'; [contradiction|].
        simpl in Hsz. simpl. lia. }
    split; [now apply dead_chain_insert|].
    rewrite Htail. destruct q'; [contradiction | reflexivity].
  - refine (thread_create_finish c thr pc uid detached c1 t t tctx1
                                  Hin Hpick _ _ _).
    + cbn. apply lookup_insert_eq.
    + reflexivity.
    + lia.
Qed.

(** The branch that makes a new context for the next tid of the sequence. *)
Lemma thread_create_fresh c thr pc uid detached q :
  0 < to_u64 (ts_in_rtl thr) ->
  registry_wf c -> quarantine c q ->
  dead_list_size c <= kThreadQuarantineSize ->
  thread_seq c < kMaxTid ->
  threads c !! thread_seq c = None
  /\ (thread_seq c ∉ q)
  /\ ThreadCreate c thr pc uid detached
     = let tid := thread_seq c in
       let c1 := mkContext (<[tid := new_ThreadContext tid]> (threads c))
                           (tid + 1) (dead_list_head c) (dead_list_tail c)
                           (dead_list_size c) (nreported c) in
       cs ← create_capture tid Stack.StackTrace_new thr pc;
       Done (set_threads c1
               (<[tid := created_tctx (new_ThreadContext tid) uid detached
                           (if tid =? 0 then ∅
                            else clock_release (ts_clock (released_thr thr)) ∅)
                           cs]> (threads c1)),
             if tid =? 0 then thr else released_thr thr, tid).
Proof.
  intros Hin [Hok Hseq] Hq Hsize Hlt.
  assert (Hnone : threads c !! thread_seq c = None).
  { destruct (threads c !! thread_seq c) as [x|] eqn:E; [|reflexivity].
    apply Hok in E. lia. }
  assert (Hnq : thread_seq c ∉ q).
  { intros Hel. destruct Hq as (_ & _ & Hq).
    destruct q as [|a q]; [now apply elem_of_nil in Hel|].
    destruct (Hq ltac:(discriminate)) as [Hc _].
    destruct (dead_chain_status _ _ _ _ Hc Hel) as (x & Hx & _). congruence. }
  split; [exact Hnone|]. split; [exact Hnq|]. cbv zeta.
  apply thread_create_finish; try assumption.
  - unfold ThreadCreate_pick.
    replace ((dead_list_size c >? kThreadQuarantineSize)
             || (thread_seq c >=? kMaxTid)) with false; [reflexivity|].
    symmetry. apply orb_false_iff. split.
    + rewrite Z.gtb_ltb. apply Z.ltb_ge. lia.
    + rewrite Z.geb_leb. apply Z.leb_gt. lia.
  - cbn. apply lookup_insert_eq.
  - reflexivity.
  - lia.
Qed.

Lemma slots_ok_fresh th seq x :
  slots_ok th seq -> tc_tid x = seq -> 0 <= seq ->
  slots_ok (<[seq := x]> th) (seq + 1).
Proof.
  intros Hok Htid Hseq i tctx Hi.
  destruct (decide (seq = i)) as [<-|Hne].
  - rewrite lookup_insert_eq in Hi. injection Hi as <-. lia.
  - rewrite lookup_insert_ne in Hi by exact Hne.
    destruct (Hok i tctx Hi). lia.
Qed.

(** C3 (as the code has it): [ThreadCreate] takes the oldest context of the
    quarantine when the quarantine holds more than [kThreadQuarantineSize]
    = 100 contexts, or when the sequence counter has reached [kMaxTid] =
    2^16 and the quarantine is not empty; it returns that context's tid and
    leaves the rest of the queue in order.  With at most 100 contexts in
    the quarantine and the counter below 2^16 it returns the counter as a
    fresh tid and increments it.  In both cases the call returns when, for
    a nonzero tid, the check of [Free] passes on the creation stack the
    context holds and the allocator returns a buffer.  With an empty
    quarantine and the counter at 2^16 it prints [ThreadSanitizer: 65536
    thread limit exceeded. Dying.] and a newline, and dies.  [ThreadDead]
    puts a context at the young end of the queue, so the queue is first in,
    first out. *)
Theorem thread_create_reuse_or_fresh
        (c : Context) (thr : ThreadState) (pc uid : Z) (detached : bool)
        (q : list Z) :
  0 < to_u64 (ts_in_rtl thr) ->
  registry_wf c ->
  quarantine c q ->
  (dead_list_size c > kThreadQuarantineSize \/ thread_seq c >= kMaxTid ->
   forall t q', q = t :: q' ->
     (forall tctx, threads c !! t = Some tctx ->
                   can_capture t (tc_creation_stack tctx) thr pc) ->
     exists c' thr',
       ThreadCreate c thr pc uid detached = Done (c', thr', t)
       /\ quarantine c' q' /\ registry_wf c'
       /\ thread_seq c' = thread_seq c
       /\ tc_status <$> threads c' !! t = Some ThreadStatusCreated) /\
  (dead_list_size c <= kThreadQuarantineSize -> thread_seq c < kMaxTid ->
   can_capture (thread_seq c) Stack.StackTrace_new thr pc ->
   exists c' thr',
     ThreadCreate c thr pc uid detached = Done (c', thr', thread_seq c)
     /\ quarantine c' q /\ registry_wf c'
     /\ thread_seq c' = thread_seq c + 1
     /\ tc_status <$> threads c' !! thread_seq c = Some ThreadStatusCreated) /\
  (q = [] -> thread_seq c >= kMaxTid ->
   ThreadCreate c thr pc uid detached
   = Stop (Die ("ThreadSanitizer: 65536 thread limit exceeded. Dying."
                  +:+ Ignore.nl))) /\
  (forall t tctx,
     threads c !! t = Some tctx ->
     tc_status tctx = ThreadStatusRunning
     \/ tc_status tctx = ThreadStatusFinished ->
     exists c',
       ThreadDead c thr t = Done c'
       /\ quarantine c' (q ++ [t]) /\ registry_wf c').
Proof.
  intros Hin Hwf Hq. split; [|split; [|split]].
  - intros Hcond t q' -> Hcap.
    destruct (thread_create_reuse c thr pc uid detached t q' Hin Hwf Hq Hcond)
      as (tctx & c1 & Ht & Hdead & Hth & Hs1 & Hq1 & Heq).
    rewrite (create_capture_done _ _ _ _ (Hcap tctx Ht)) in Heq.
    cbn [mbind Result_bind] in Heq.
    destruct Hwf as [Hok Hseq].
    destruct Hq as (_ & Hnd & _). apply NoDup_cons in Hnd as [Htq _].
    eexists _, _. split; [exact Heq|]. split; [|split; [|split]].
    + now apply quarantine_insert.
    + split; cbn; rewrite Hs1; [|exact Hseq].
      rewrite Hth, insert_insert_eq.
      apply (slots_ok_insert _ _ _ tctx); [exact Hok | exact Ht | reflexivity].
    + exact Hs1.
    + cbn. now rewrite lookup_insert_eq.
  - intros Hsize Hlt Hcap.
    destruct (thread_create_fresh c thr pc uid detached q Hin Hwf Hq Hsize Hlt)
      as (Hnone & Hnq & Heq).
    cbv zeta in Heq. rewrite (create_capture_done _ _ _ _ Hcap) in Heq.
    cbn [mbind Result_bind] in Heq.
    destruct Hwf as [Hok Hseq].
    eexists _, _. split; [exact Heq|]. split; [|split; [|split]].
    + apply quarantine_insert; [|exact Hnq].
      destruct Hq as (Hsz & Hnd & Hq). split; [exact Hsz|].
      split; [exact Hnd|]. intros Hne. destruct (Hq Hne) as [Hc Htl].
      split; [|exact Htl]. cbn. now apply dead_chain_insert.
    + split; cbn; [|lia]. rewrite insert_insert_eq.
      apply slots_ok_fresh; [exact Hok | reflexivity | lia].
    + reflexivity.
    + cbn. now rewrite lookup_insert_eq.
  - intros -> Hfull. destruct Hq as (Hsz & _). simpl in Hsz.
    unfold Rtl.ThreadCreate. rewrite check_gt_in_rtl by exact Hin.
    cbn [mbind Result_bind]. unfold ThreadCreate_pick.
    replace (thread_seq c >=? kMaxTid) with true
      by (symmetry; rewrite Z.geb_leb; apply Z.leb_le; lia).
    rewrite orb_true_r, Hsz. reflexivity.
  - intros t tctx Ht Hst.
    destruct (thread_dead_appends c thr t tctx q Hin Hwf Hq Ht Hst)
      as (c' & H1 & H2 & H3 & _).
    eauto.
Qed.

(** C5 (as the code has it): a [ThreadCreate] that returns a nonzero tid
    increments the creating thread's epoch, adds one trace event, sets the
    creator's own clock component to the new epoch, merges the creator's
    clock into the sync clock of the picked context, which is empty for a
    new context and for one taken from the quarantine, so that the sync
    clock becomes the creator's clock, and stores as creation stack the
    creator's shadow stack followed by [pc] when [pc] is not zero.  The call
    returns when the check of [Free] passes on the creation stack the
    picked context holds and the allocator returns a buffer.  When the tid
    is zero the creating thread and the context's sync clock and creation
    stack are left as they were. *)
Theorem thread_create_releases_into_child
        (c : Context) (thr : ThreadState) (pc uid : Z) (detached : bool)
        (q : list Z) :
  0 < to_u64 (ts_in_rtl thr) ->
  registry_wf c ->
  quarantine c q ->
  q <> [] \/ thread_seq c < kMaxTid ->
  (forall t q' tctx, q = t :: q' -> threads c !! t = Some tctx ->
                     can_capture t (tc_creation_stack tctx) thr pc) ->
  can_capture (thread_seq c) Stack.StackTrace_new thr pc ->
  let sync_before tid :=
    match threads c !! tid with Some t => tc_sync t | None => ∅ end in
  let stack_before tid :=
    match threads c !! tid with
    | Some t => tc_creation_stack t
    | None => Stack.StackTrace_new
    end in
  let epoch := fs_epoch (ts_fast_state thr) + 1 in
  exists c' thr' tid tctx',
    ThreadCreate c thr pc uid detached = Done (c', thr', tid)
    /\ threads c' !! tid = Some tctx'
    /\ tc_status tctx' = ThreadStatusCreated
    /\ tc_uid tctx' = uid /\ tc_detached tctx' = detached
    /\ (tid <> 0 ->
        thr' = mkThreadState (ts_in_rtl thr)
                 (mkFastState (fs_tid (ts_fast_state thr)) epoch
                              (fs_ignore_bit (ts_fast_state thr)))
                 epoch
                 (<[fs_tid (ts_fast_state thr) := epoch]> (ts_clock thr))
                 (ts_shadow_stack thr)
                 (ts_trace thr ++ [mkEvent epoch EventTypeMop 0])
        /\ tc_sync tctx' = clock_release (ts_clock thr') (sync_before tid)
        /\ sync_before tid = ∅
        /\ tc_sync tctx' = ts_clock thr'
        /\ Stack.s_ (tc_creation_stack tctx')
           = Some (ts_shadow_stack thr ++ (if pc =? 0 then [] else [pc]))
        /\ Stack.n_ (tc_creation_stack tctx')
           = Z.of_nat (List.length (ts_shadow_stack thr))
             + (if pc =? 0 then 0 else 1))
    /\ (tid = 0 ->
        thr' = thr /\ tc_sync tctx' = sync_before 0
        /\ tc_creation_stack tctx' = stack_before 0).
Proof.
  intros Hin Hwf Hq Hroom Hcapq Hcapf sync_before stack_before epoch.
  assert (Hrel : forall m : gmap Z Z, clock_release m ∅ = m).
  { intros m. unfold clock_release. apply (left_id ∅ _). }
  assert (Hcall : exists c1 base tid,
             ThreadCreate c thr pc uid detached
             = Done (set_threads c1
                       (<[tid := created_tctx base uid detached
                                   (if tid =? 0 then sync_before tid
                                    else clock_release
                                           (ts_clock (released_thr thr))
                                           (sync_before tid))
                                   (if tid =? 0 then stack_before tid
                                    else Stack.holding (current_frames thr pc))]>
                          (threads c1)),
                     if tid =? 0 then thr else released_thr thr, tid)
             /\ sync_before tid = ∅).
  { assert (Hreuse : forall t q',
               q = t :: q' ->
               dead_list_size c > kThreadQuarantineSize
               \/ thread_seq c >= kMaxTid ->
               exists c1 base tid,
                 ThreadCreate c thr pc uid detached
                 = Done (set_threads c1
                           (<[tid := created_tctx base uid detached
                                       (if tid =? 0 then sync_before tid
                                        else clock_release
                                               (ts_clock (released_thr thr))
                                               (sync_before tid))
                                       (if tid =? 0 then stack_before tid
                                        else Stack.holding
                                               (current_frames thr pc))]>
                              (threads c1)),
                         if tid =? 0 then thr else released_thr thr, tid)
                 /\ sync_before tid = ∅).
    { intros t q' E Hcond. subst q.
      destruct (thread_create_reuse c thr pc uid detached t q' Hin Hwf Hq
                  Hcond)
        as (tctx & c1 & Ht & [_ Hsy] & _ & _ & _ & Heq).
      rewrite (create_capture_done _ _ _ _ (Hcapq t q' tctx eq_refl Ht)) in Heq.
      cbn [mbind Result_bind] in Heq.
      exists c1, (set_reuse_count (set_status tctx ThreadStatusInvalid)
                                  (tc_reuse_count tctx + 1)), t.
      unfold sync_before, stack_before. rewrite Ht. now split. }
    destruct (Z_lt_le_dec (thread_seq c) kMaxTid) as [Hlt|Hge];
      [destruct (Z_le_gt_dec (dead_list_size c) kThreadQuarantineSize)
         as [Hsz|Hsz]|].
    - destruct (thread_create_fresh c thr pc uid detached q Hin Hwf Hq Hsz Hlt)
        as (Hnone & _ & Heq).
      cbv zeta in Heq. rewrite (create_capture_done _ _ _ _ Hcapf) in Heq.
      cbn [mbind Result_bind] in Heq.
      eexists _, (new_ThreadContext (thread_seq c)), (thread_seq c).
      unfold sync_before, stack_before. rewrite Hnone.
      split; [exact Heq | reflexivity].
    - destruct q as [|t q'];
        [destruct Hq as (Hq & _); simpl in Hq;
         unfold kThreadQuarantineSize in Hsz; lia|].
      apply (Hreuse t q' eq_refl). now left.
    - destruct Hroom as [Hne|Hlt]; [|lia].
      destruct q as [|t q']; [contradiction|].
      apply (Hreuse t q' eq_refl). right. lia. }
  destruct Hcall as (c1 & base & tid & Heq & Hempty).
  eexists _, _, tid, _. split; [exact Heq|].
  split; [cbn; apply lookup_insert_eq|].
  split; [reflexivity|]. split; [reflexivity|]. split; [reflexivity|].
  split.
  - intros Hnz. apply Z.eqb_neq in Hnz. rewrite Hnz.
    split; [reflexivity|]. split; [reflexivity|]. split; [exact Hempty|].
    split; [|split; [reflexivity|]].
    + cbn [created_tctx tc_sync]. rewrite Hempty. apply Hrel.
    + cbn [created_tctx tc_creation_stack Stack.holding Stack.n_].
      symmetry. apply current_frames_length.
  - intros ->. cbn. repeat split.
Qed.

(** X17: the slip [ThreadCreate] makes on reuse: a context of the quarantine
    whose creation stack holds a buffer and counts no frame (what a create
    with an empty shadow stack and [pc = 0] leaves) stops the next create
    that picks it at the check of [StackTrace::Free]. *)
Theorem thread_create_reuse_zero_frames
        (c : Context) (thr : ThreadState) (pc uid : Z) (detached : bool)
        (t : Z) (q' : list Z) (tctx : ThreadContext) (l : list Z) :
  0 < to_u64 (ts_in_rtl thr) ->
  registry_wf c ->
  quarantine c (t :: q') ->
  dead_list_size c > kThreadQuarantineSize \/ thread_seq c >= kMaxTid ->
  t <> 0 ->
  threads c !! t = Some tctx ->
  tc_creation_stack tctx = Stack.mkStackTrace 0 (Some l) ->
  ThreadCreate c thr pc uid detached
  = Stop (CheckFailed 135 "(n_) != (0)" 0 0).
Proof.
  intros Hin Hwf Hq Hcond Hnz Ht Hst.
  destruct (thread_create_reuse c thr pc uid detached t q' Hin Hwf Hq Hcond)
    as (tctx' & c1 & Ht' & _ & _ & _ & _ & Heq).
  rewrite Ht in Ht'. injection Ht' as <-. rewrite Heq, Hst.
  unfold Rtl.create_capture. apply Z.eqb_neq in Hnz. rewrite Hnz.
  reflexivity.
Qed.

End CreateFacts.

Section SampleFacts.
Import Rtl.

Lemma initial_ctx_wf :
  registry_wf (mkContext ∅ 0 None None 0 0)
  /\ quarantine (mkContext ∅ 0 None None 0 0) [].
Proof.
  split; [split|].
  - intros i tctx H. cbn in H. now rewrite lookup_empty in H.
  - vm_compute. split; discriminate.
  - split; [reflexivity|]. split; [constructor|]. intros H. now elim H.
Qed.

Lemma sample_ctx_wf : registry_wf sample_ctx.
Proof.
  split; [|vm_compute; split; discriminate].
  intros i tctx H. unfold sample_ctx in H. cbn [threads] in H.
  apply elem_of_list_to_map_2 in H.
  change (thread_seq sample_ctx) with 4.
  repeat (apply elem_of_cons in H as [H|H];
          [injection H as -> ->; simpl; lia|]).
  now apply elem_of_nil in H.
Qed.

Lemma sample_ctx_quarantine : quarantine sample_ctx [3].
Proof.
  split; [reflexivity|]. split; [apply NoDup_singleton|].
  intros _. vm_compute. repeat split.
Qed.

Lemma quarantine_ctx_100_wf : registry_wf (quarantine_ctx 100).
Proof.
  split; [|vm_compute; split; discriminate].
  intros i tctx H. unfold quarantine_ctx in H. cbn [threads] in H.
  apply elem_of_list_to_map_2 in H.
  change (thread_seq (quarantine_ctx 100)) with 101.
  apply elem_of_cons in H as [H|H]; [injection H as -> ->; simpl; lia|].
  apply list_elem_of_fmap in H as (y & Hy & Hin).
  injection Hy as -> ->. apply elem_of_seqZ in Hin. simpl. lia.
Qed.

Lemma dead_chain_b_sound th q : forall p,
  dead_chain_b th p q = true -> dead_chain th p q.
Proof.
  induction q as [|t q IH]; intros p H; cbn [dead_chain_b dead_chain] in *.
  - now apply bool_decide_eq_true_1 in H.
  - apply andb_true_iff in H as [Hp H]. apply bool_decide_eq_true_1 in Hp.
    split; [exact Hp|]. destruct (th !! t) as [tctx|]; [|discriminate].
    apply andb_true_iff in H as [H Hc]. apply andb_true_iff in H as [Hs Hy].
    apply bool_decide_eq_true_1 in Hs, Hy. split; [now split|]. now apply IH.
Qed.

Lemma quarantine_ctx_100_queue :
  quarantine (quarantine_ctx 100) (seqZ 1 100).
Proof.
  split; [vm_compute; reflexivity|]. split; [apply NoDup_seqZ|].
  intros _. split; [|vm_compute; reflexivity].
  apply dead_chain_b_sound. vm_compute. reflexivity.
Qed.

Lemma quarantine_ctx_101_wf : registry_wf (quarantine_ctx 101).
Proof.
  split; [|vm_compute; split; discriminate].
  intros i tctx H. unfold quarantine_ctx in H. cbn [threads] in H.
  apply elem_of_list_to_map_2 in H.
  change (thread_seq (quarantine_ctx 101)) with 102.
  apply elem_of_cons in H as [H|H]; [injection H as -> ->; simpl; lia|].
  apply list_elem_of_fmap in H as (y & Hy & Hin).
  injection Hy as -> ->. apply elem_of_seqZ in Hin. simpl. lia.
Qed.

Lemma quarantine_ctx_101_queue :
  quarantine (quarantine_ctx 101) (1 :: seqZ 2 100).
Proof.
  split; [vm_compute; reflexivity|].
  split; [change (1 :: seqZ 2 100) with (seqZ 1 101); apply NoDup_seqZ|].
  intros _. split; [|vm_compute; reflexivity].
  apply dead_chain_b_sound. vm_compute. reflexivity.
Qed.

End SampleFacts.

(** C3, as stated, fails here.  With exactly [kThreadQuarantineSize] = 100
    dead threads in the
    quarantine (oldest: tid 1) and the sequence counter at 101,
    [ThreadCreate] returns the fresh tid 101 and not the oldest dead tid. *)
Lemma thread_create_quarantine_of_100_counterexample :
  Rtl.registry_wf (Rtl.quarantine_ctx 100)
  /\ Rtl.quarantine (Rtl.quarantine_ctx 100) (seqZ 1 100)
  /\ Rtl.dead_list_size (Rtl.quarantine_ctx 100) >= Rtl.kThreadQuarantineSize
  /\ Rtl.dead_list_head (Rtl.quarantine_ctx 100) = Some 1
  /\ Rtl.result_tid (Rtl.ThreadCreate Rtl.sample_alloc (Rtl.quarantine_ctx 100)
                                      Rtl.sample_thr 7 12 false) = Some 101
  /\ Rtl.result_tid (Rtl.ThreadCreate Rtl.sample_alloc (Rtl.quarantine_ctx 100)
                                      Rtl.sample_thr 7 12 false) <> Some 1.
Proof.
  split; [exact quarantine_ctx_100_wf|].
  split; [exact quarantine_ctx_100_queue|].
  repeat split; vm_compute; congruence.
Qed.

(** A fresh tid on the sample registry, the oldest dead tid with 101
    contexts in the quarantine, and the thread limit. *)
Lemma thread_create_reuse_or_fresh_witness :
  (exists c' thr',
      Rtl.ThreadCreate Rtl.sample_alloc Rtl.sample_ctx Rtl.sample_thr 7 12 false
      = Rtl.Done (c', thr', 4)
      /\ Rtl.quarantine c' [3])
  /\ (exists c' thr',
        Rtl.ThreadCreate Rtl.sample_alloc (Rtl.quarantine_ctx 101)
                         Rtl.sample_thr 7 12 false
        = Rtl.Done (c', thr', 1)
        /\ Rtl.quarantine c' (seqZ 2 100))
  /\ Rtl.ThreadCreate Rtl.sample_alloc
                      (Rtl.mkContext ∅ Rtl.kMaxTid None None 0 0)
                      Rtl.sample_thr 7 12 false
     = Rtl.Stop (Rtl.Die ("ThreadSanitizer: 65536 thread limit exceeded. Dying."
                            +:+ Ignore.nl)).
Proof.
  split; [|split].
  - destruct (thread_create_reuse_or_fresh Rtl.sample_alloc Rtl.sample_ctx
                Rtl.sample_thr 7 12 false [3]) as (_ & Hfresh & _).
    + reflexivity.
    + exact sample_ctx_wf.
    + exact sample_ctx_quarantine.
    + destruct Hfresh as (c' & thr' & H1 & H2 & _).
      * vm_compute. discriminate.
      * reflexivity.
      * intros _. split; [left; reflexivity | reflexivity].
      * exists c', thr'. split; [exact H1 | exact H2].
  - destruct (thread_create_reuse_or_fresh Rtl.sample_alloc
                (Rtl.quarantine_ctx 101) Rtl.sample_thr 7 12 false
                (1 :: seqZ 2 100)) as (Hreuse & _).
    + reflexivity.
    + exact quarantine_ctx_101_wf.
    + exact quarantine_ctx_101_queue.
    + destruct (Hreuse (or_introl eq_refl) 1 (seqZ 2 100) eq_refl)
        as (c' & thr' & H1 & H2 & _).
      * intros tctx Ht _. vm_compute in Ht. injection Ht as <-.
        split; [right; vm_compute; discriminate | reflexivity].
      * exists c', thr'. split; [exact H1 | exact H2].
  - destruct (thread_create_reuse_or_fresh Rtl.sample_alloc
                (Rtl.mkContext ∅ Rtl.kMaxTid None None 0 0) Rtl.sample_thr
                7 12 false []) as (_ & _ & Hdie & _).
    + reflexivity.
    + split; [|vm_compute; split; discriminate].
      intros i tctx H. cbn in H. now rewrite lookup_empty in H.
    + split; [reflexivity|]. split; [constructor|]. intros H. now elim H.
    + apply Hdie; [reflexivity | vm_compute; discriminate].
Defined.

(** C5, as stated, fails here.  The first [ThreadCreate] of a run returns
    tid 0: the creating thread
    keeps its epoch, clock and trace, and the new context gets an empty
    sync clock and an empty creation stack although the creator's shadow
    stack holds two frames. *)
Lemma thread_create_tid0_counterexample :
  exists c',
    Rtl.ThreadCreate Rtl.sample_alloc (Rtl.mkContext ∅ 0 None None 0 0)
                     Rtl.sample_thr 7 12 false
    = Rtl.Done (c', Rtl.sample_thr, 0)
    /\ Rtl.ts_shadow_stack Rtl.sample_thr = [100; 200]
    /\ Rtl.tc_creation_stack <$> Rtl.threads c' !! 0
       = Some (Rtl.Stack.mkStackTrace 0 None)
    /\ Rtl.tc_sync <$> Rtl.threads c' !! 0 = Some ∅.
Proof. eexists. repeat split; vm_compute; reflexivity. Qed.

Lemma thread_create_releases_into_child_witness :
  exists c' thr' tctx',
    Rtl.ThreadCreate Rtl.sample_alloc Rtl.sample_ctx Rtl.sample_thr 7 12 false
    = Rtl.Done (c', thr', 4)
    /\ Rtl.threads c' !! 4 = Some tctx'
    /\ Rtl.tc_status tctx' = Rtl.ThreadStatusCreated
    /\ Rtl.fs_epoch (Rtl.ts_fast_state thr') = 11
    /\ Rtl.tc_sync tctx' = Rtl.ts_clock thr'
    /\ Rtl.tc_creation_stack tctx'
       = Rtl.Stack.mkStackTrace 3 (Some [100; 200; 7]).
Proof.
  destruct (thread_create_releases_into_child Rtl.sample_alloc Rtl.sample_ctx
              Rtl.sample_thr 7 12 false [3])
    as (c' & thr' & tid & tctx' & Ha & Hb & Hc & _ & _ & Hd & _).
  - reflexivity.
  - exact sample_ctx_wf.
  - exact sample_ctx_quarantine.
  - left. discriminate.
  - intros t q' tctx E Ht _. injection E as <- <-.
    vm_compute in Ht. injection Ht as <-.
    split; [right; vm_compute; discriminate | reflexivity].
  - intros _. split; [left; reflexivity | reflexivity].
  - assert (Et : tid = 4).
    { pose proof Ha as Ha'. vm_compute in Ha'. now injection Ha' as _ _ <-. }
    subst tid. destruct (Hd ltac:(discriminate)) as (Ht & _ & _ & Hs & Hst & Hn).
    exists c', thr', tctx'.
    split; [exact Ha|]. split; [exact Hb|]. split; [exact Hc|].
    split; [rewrite Ht; reflexivity|]. split; [exact Hs|].
    destruct (Rtl.tc_creation_stack tctx') as [n s0].
    cbn in Hst, Hn. now rewrite Hst, Hn.
Defined.

Example thread_create_sample_release :
  exists c' thr',
    Rtl.ThreadCreate Rtl.sample_alloc Rtl.sample_ctx Rtl.sample_thr 7 12 false
    = Rtl.Done (c', thr', 4)
    /\ Rtl.fs_epoch (Rtl.ts_fast_state thr') = 11
    /\ Rtl.ts_clock thr' = {[0 := 11]}
    /\ Rtl.tc_sync <$> Rtl.threads c' !! 4 = Some {[0 := 11]}
    /\ Rtl.tc_creation_stack <$> Rtl.threads c' !! 4
       = Some (Rtl.Stack.mkStackTrace 3 (Some [100; 200; 7])).
Proof. eexists _, _. repeat split; vm_compute; reflexivity. Qed.

(** A thread created with no frame on the shadow stack and [pc = 0] gets
    a buffer that counts no frame; once it is dead and picked again, the
    create stops at the check of [StackTrace::Free]. *)
Example thread_create_zero_frames_sample :
  let empty_thr := Rtl.mkThreadState 1 (Rtl.mkFastState 0 10 false) 0 ∅ [] [] in
  Rtl.tc_creation_stack
    <$> (Rtl.result_ctx
           (Rtl.ThreadCreate Rtl.sample_alloc
              (Rtl.mkContext
                 {[0 := Rtl.mkThreadContext 0 11 Rtl.ThreadStatusRunning false
                          0 ∅ Rtl.Stack.StackTrace_new 1 0 true None]}
                 1 None None 0 0)
              empty_thr 0 12 false) ≫= fun c => Rtl.threads c !! 1)
  = Some (Rtl.Stack.mkStackTrace 0 (Some []))
  /\ Rtl.ThreadCreate Rtl.sample_alloc Rtl.zero_frames_ctx Rtl.sample_thr
                      7 13 false
     = Rtl.Stop (Rtl.CheckFailed 135 "(n_) != (0)" 0 0).
Proof. split; vm_compute; reflexivity. Qed.

Lemma thread_create_reuse_zero_frames_witness :
  Rtl.ThreadCreate Rtl.sample_alloc Rtl.zero_frames_ctx Rtl.sample_thr
                   7 13 false
  = Rtl.Stop (Rtl.CheckFailed 135 "(n_) != (0)" 0 0).
Proof.
  apply (thread_create_reuse_zero_frames Rtl.sample_alloc Rtl.zero_frames_ctx
           Rtl.sample_thr 7 13 false 1 []
           (Rtl.mkThreadContext 1 0 Rtl.ThreadStatusDead false 0 ∅
              (Rtl.Stack.mkStackTrace 0 (Some [])) 1 4 false None) []).
  - reflexivity.
  - split; [|vm_compute; split; discriminate].
    intros i tctx H. unfold Rtl.zero_frames_ctx in H. cbn [Rtl.threads] in H.
    apply elem_of_list_to_map_2 in H.
    change (Rtl.thread_seq Rtl.zero_frames_ctx) with 65536.
    repeat (apply elem_of_cons in H as [H|H];
            [injection H as -> ->; simpl; lia|]).
    now apply elem_of_nil in H.
  - split; [reflexivity|]. split; [apply NoDup_singleton|].
    intros _. vm_compute. repeat split.
  - right. vm_compute. discriminate.
  - discriminate.
  - reflexivity.
  - reflexivity.
Defined.

(** ** trunk/v2/tsan/tsan_sync.cc *)

Section SyncFacts.
Import Sync.

Variable kPartCount : Z.
Variable kInvalidTid : Z.
Variable internal_alloc : Z -> bool.

Local Abbreviation PartIdx := (PartIdx kPartCount).
Local Abbreviation buckets_ok := (buckets_ok kPartCount).
Local Abbreviation GetAndLock_first := (GetAndLock_first kPartCount).
Local Abbreviation GetAndLock_second :=
  (GetAndLock_second kPartCount kInvalidTid internal_alloc).
Local Abbreviation GetAndLock :=
  (GetAndLock kPartCount kInvalidTid internal_alloc).
Local Abbreviation step := (step kPartCount kInvalidTid internal_alloc).
Local Abbreviation reachable :=
  (reachable kPartCount kInvalidTid internal_alloc).

Lemma find_var_some l : forall addr k v,
  find_var l addr = Some (k, v) -> l !! k = Some v /\ sv_addr v = addr.
Proof.
  induction l as [|a l IH]; intros addr k v H; [discriminate|].
  simpl in H. destruct (Z.eqb_spec (sv_addr a) addr) as [E|E].
  - injection H as <- <-. now split.
  - destruct (find_var l addr) as [[k' r]|] eqn:Hf; [|discriminate].
    injection H as <- <-. now apply IH.
Qed.

Lemma find_var_none l : forall addr,
  find_var l addr = None -> addr ∉ sv_addr <$> l.
Proof.
  induction l as [|a l IH]; intros addr H; [apply not_elem_of_nil|].
  simpl in H. destruct (Z.eqb_spec (sv_addr a) addr) as [E|E]; [discriminate|].
  destruct (find_var l addr) as [[k' r]|] eqn:Hf; [discriminate|].
  rewrite fmap_cons. apply not_elem_of_cons. split; [congruence|].
  now apply IH.
Qed.

Lemma lock_var_same w v v' :
  lock_var w v = Some v' ->
  sv_ptr v' = sv_ptr v /\ sv_addr v' = sv_addr v
  /\ sv_creation_stack v' = sv_creation_stack v.
Proof.
  unfold lock_var. intros H.
  destruct (if w then mtx_Lock (sv_mtx v) else mtx_ReadLock (sv_mtx v));
    [|discriminate].
  injection H as <-. repeat split.
Qed.

Lemma lock_var_mode w v v' :
  lock_var w v = Some v' ->
  sv_mtx v' = if w then mkMutex true 0
              else mkMutex false (S (readers (sv_mtx v))).
Proof.
  unfold lock_var, mtx_Lock, mtx_ReadLock. intros H. destruct w.
  - destruct (negb (writer (sv_mtx v)) && (readers (sv_mtx v) =? 0)%nat);
      [|discriminate].
    now injection H as <-.
  - destruct (negb (writer (sv_mtx v))); [|discriminate].
    now injection H as <-.
Qed.

Lemma addrs_insert_same (l : list SyncVar) k v v' :
  l !! k = Some v -> sv_addr v' = sv_addr v ->
  sv_addr <$> <[k := v']> l = sv_addr <$> l.
Proof.
  intros Hk Ha. rewrite list_fmap_insert, Ha.
  apply list_insert_id. now rewrite list_lookup_fmap, Hk.
Qed.

Lemma bucket_insert (tab : gmap Z (list SyncVar)) p l q :
  bucket (<[p := l]> tab) q = if decide (p = q) then l else bucket tab q.
Proof.
  unfold bucket. destruct (decide (p = q)) as [->|Hne].
  - now rewrite lookup_insert_eq.
  - now rewrite lookup_insert_ne.
Qed.

Lemma buckets_ok_insert tab p l :
  buckets_ok tab ->
  NoDup (sv_addr <$> l) ->
  Forall (fun v => PartIdx (sv_addr v) = p) l ->
  buckets_ok (<[p := l]> tab).
Proof.
  intros Hok Hnd Hall q. rewrite bucket_insert.
  destruct (decide (p = q)) as [<-|Hne]; [now split | apply Hok].
Qed.

Lemma buckets_ok_update tab p k v v' :
  buckets_ok tab ->
  bucket tab p !! k = Some v -> sv_addr v' = sv_addr v ->
  buckets_ok (<[p := <[k := v']> (bucket tab p)]> tab).
Proof.
  intros Hok Hk Ha. destruct (Hok p) as [Hnd Hall].
  apply buckets_ok_insert; [exact Hok | |].
  - now rewrite (addrs_insert_same _ _ v).
  - apply Forall_insert; [exact Hall|]. rewrite Ha.
    eapply Forall_lookup_1 in Hall; eauto.
Qed.

Lemma unlink_keeps l : forall addr l' r,
  unlink l addr = (l', r) ->
  (forall x, x ∈ sv_addr <$> l' -> x ∈ sv_addr <$> l)
  /\ (NoDup (sv_addr <$> l) -> NoDup (sv_addr <$> l'))
  /\ (forall P : SyncVar -> Prop, Forall P l -> Forall P l').
Proof.
  induction l as [|a l IH]; intros addr l' r H; simpl in H.
  - injection H as <- <-. repeat split; auto.
  - destruct (sv_addr a =? addr).
    + injection H as <- <-. repeat split.
      * intros x Hx. rewrite fmap_cons. now apply elem_of_cons; right.
      * rewrite fmap_cons. intros Hnd. now apply NoDup_cons in Hnd as [_ ?].
      * intros P HP. now apply Forall_cons in HP as [_ ?].
    + destruct (unlink l addr) as [rest' r'] eqn:Hu.
      injection H as <- <-.
      destruct (IH addr rest' r' Hu) as (Hsub & Hnd & Hall).
      repeat split.
      * intros x. rewrite !fmap_cons, !elem_of_cons. intros [->|Hx]; auto.
      * rewrite !fmap_cons, !NoDup_cons. intros [Hn Hd]. split; auto.
      * intros P HP. apply Forall_cons in HP as [Ha HP].
        apply Forall_cons. split; auto.
Qed.

Lemma second_spec tab thr pc ptr addr w tab' res :
  GetAndLock_second tab thr pc ptr addr w = Rtl.Done (Some (tab', res)) ->
  sv_addr res = addr
  /\ ((exists k v, find_var (bucket tab (PartIdx addr)) addr = Some (k, v)
                   /\ lock_var w v = Some res
                   /\ tab' = <[PartIdx addr := <[k := res]>
                                 (bucket tab (PartIdx addr))]> tab)
      \/ (find_var (bucket tab (PartIdx addr)) addr = None
          /\ sv_ptr res = ptr
          /\ Rtl.Stack.ObtainCurrent internal_alloc Rtl.Stack.StackTrace_new
                                     thr pc
             = Rtl.Done (sv_creation_stack res)
          /\ tab' = <[PartIdx addr := res :: bucket tab (PartIdx addr)]> tab)).
Proof.
  unfold Sync.GetAndLock_second. intros H.
  destruct (find_var (bucket tab (PartIdx addr)) addr) as [[k v]|] eqn:Hf.
  - destruct (lock_var w v) as [v'|] eqn:Hl; [|discriminate].
    injection H as <- <-.
    apply find_var_some in Hf as Hf'. destruct Hf' as [_ Ha].
    apply lock_var_same in Hl as Hl'. destruct Hl' as (_ & Ha' & _).
    split; [congruence|]. left. eauto.
  - cbn [sv_creation_stack new_SyncVar] in H.
    destruct (Rtl.Stack.ObtainCurrent internal_alloc Rtl.Stack.StackTrace_new
                                      thr pc) as [cs|e] eqn:Ho;
      [|discriminate].
    cbn [mbind Rtl.Result_bind] in H.
    match type of H with
    | match lock_var w ?v with _ => _ end = _ =>
        destruct (lock_var w v) as [v'|] eqn:Hl; [|discriminate];
        apply lock_var_same in Hl as (Hp & Ha & Hs)
    end.
    injection H as <- <-. split; [exact Ha|]. right.
    split; [reflexivity|]. split; [exact Hp|]. split; [|reflexivity].
    now rewrite Hs.
Qed.

(** The second block when its re-check finds the variable. *)
Lemma second_hit tab thr pc ptr addr w k res :
  find_var (bucket tab (PartIdx addr)) addr = Some (k, res) ->
  GetAndLock_second tab thr pc ptr addr w
  = Rtl.Done
      (match lock_var w res with
       | Some res' =>
           Some (<[PartIdx addr := <[k := res']> (bucket tab (PartIdx addr))]>
                   tab, res')
       | None => None
       end).
Proof.
  intros Hf. unfold Sync.GetAndLock_second. rewrite Hf.
  now destruct (lock_var w res).
Qed.

(** The variable the second block makes on a miss. *)
Lemma second_miss tab thr pc ptr addr w :
  find_var (bucket tab (PartIdx addr)) addr = None ->
  internal_alloc (Z.of_nat (List.length (Rtl.ts_shadow_stack thr))
                  + (if pc =? 0 then 0 else 1)) = true ->
  exists res',
    GetAndLock_second tab thr pc ptr addr w
    = Rtl.Done (Some (<[PartIdx addr := res' :: bucket tab (PartIdx addr)]> tab,
                      res'))
    /\ sv_ptr res' = ptr /\ sv_addr res' = addr
    /\ sv_creation_stack res'
       = Rtl.Stack.mkStackTrace
           (Z.of_nat (List.length (Rtl.ts_shadow_stack thr))
            + (if pc =? 0 then 0 else 1))
           (Some (Rtl.ts_shadow_stack thr ++ (if pc =? 0 then [] else [pc])))
    /\ sv_mtx res' = if w then mkMutex true 0 else mkMutex false 1.
Proof.
  intros Hf Ha. unfold Sync.GetAndLock_second. rewrite Hf.
  cbn [sv_creation_stack new_SyncVar].
  rewrite (obtain_current_done internal_alloc) by (try exact Ha; now left).
  cbn [mbind Rtl.Result_bind]. unfold Rtl.Stack.holding.
  rewrite <- current_frames_length.
  destruct w; eexists; repeat split.
Qed.

Lemma find_var_lookup l : forall k v,
  NoDup (sv_addr <$> l) -> l !! k = Some v ->
  find_var l (sv_addr v) = Some (k, v).
Proof.
  induction l as [|a l IH]; intros k v Hnd Hk; [discriminate|].
  rewrite fmap_cons in Hnd. apply NoDup_cons in Hnd as [Ha Hnd].
  destruct k as [|k]; cbn in Hk.
  - injection Hk as ->. cbn. now rewrite Z.eqb_refl.
  - cbn. destruct (Z.eqb_spec (sv_addr a) (sv_addr v)) as [E|E].
    + exfalso. apply Ha. rewrite E. apply list_elem_of_fmap. exists v.
      split; [reflexivity|]. eapply list_elem_of_lookup_2. exact Hk.
    + now rewrite (IH k v Hnd Hk).
Qed.

Lemma lock_var_free w v m :
  m = mtx_free ->
  lock_var w (set_mtx v m)
  = Some (set_mtx v (if w then mkMutex true 0 else mkMutex false 1)).
Proof. intros ->. now destruct w. Qed.

Lemma second_keeps_ok tab thr pc ptr addr w tab' res :
  buckets_ok tab ->
  GetAndLock_second tab thr pc ptr addr w = Rtl.Done (Some (tab', res)) ->
  buckets_ok tab'
  /\ exists k, bucket tab' (PartIdx addr) !! k = Some res.
Proof.
  intros Hok H. apply second_spec in H as [Ha [(k & v & Hf & Hl & ->)|
                                               (Hf & _ & _ & ->)]].
  - apply find_var_some in Hf as [Hk Hv].
    apply lock_var_same in Hl as (_ & Hl & _). split.
    + now apply (buckets_ok_update _ _ _ v).
    + exists k. rewrite bucket_insert. rewrite decide_True by reflexivity.
      apply list_lookup_insert_eq. now apply lookup_lt_Some in Hk.
  - destruct (Hok (PartIdx addr)) as [Hnd Hall]. split.
    + apply buckets_ok_insert; [exact Hok | |].
      * rewrite fmap_cons. apply NoDup_cons. split; [|exact Hnd].
        rewrite Ha. now apply find_var_none.
      * apply Forall_cons. split; [now rewrite Ha | exact Hall].
    + exists O. rewrite bucket_insert. now rewrite decide_True by reflexivity.
Qed.

Lemma step_keeps_ok st st' :
  buckets_ok (tab_ st) -> step st st' -> buckets_ok (tab_ st').
Proof.
  intros Hok Hstep. destruct Hstep as
      [st t addr w tab' res _ H | st t rq _ _ | st t rq ptr tab' res _ H
      | st addr l res H | st p k v v' Hk Ha]; cbn [tab_].
  - unfold Sync.GetAndLock_first in H.
    destruct (find_var (bucket (tab_ st) (PartIdx addr)) addr)
      as [[k v]|] eqn:Hf; [|discriminate].
    destruct (lock_var w v) as [v'|] eqn:Hl; [|discriminate].
    injection H as <- <-.
    apply find_var_some in Hf as [Hk _].
    apply lock_var_same in Hl as (_ & Hl & _).
    now apply (buckets_ok_update _ _ _ v).
  - exact Hok.
  - now apply second_keeps_ok in H as [? _].
  - destruct (Hok (PartIdx addr)) as [Hnd Hall].
    destruct (unlink_keeps _ _ _ _ H) as (_ & Hnd' & Hall').
    apply buckets_ok_insert; auto.
  - now apply (buckets_ok_update _ _ _ v).
Qed.

Lemma reachable_ok st : reachable st -> buckets_ok (tab_ st).
Proof.
  induction 1 as [|st st' _ IH Hstep].
  - intros p. unfold bucket. cbn. rewrite lookup_empty. cbn.
    split; constructor.
  - now apply (step_keeps_ok st).
Qed.

Lemma buckets_ok_one_instance tab :
  buckets_ok tab -> one_instance_per_address tab.
Proof.
  intros Hok p1 k1 v1 p2 k2 v2 H1 H2 Ha.
  destruct (Hok p1) as [Hnd1 Hall1]. destruct (Hok p2) as [_ Hall2].
  assert (Hp : p1 = p2).
  { eapply Forall_lookup_1 in Hall1; eauto.
    eapply Forall_lookup_1 in Hall2; eauto. cbn in *. congruence. }
  subst p2. split; [reflexivity|].
  eapply NoDup_lookup; [exact Hnd1 | |].
  - rewrite list_lookup_fmap, H1. reflexivity.
  - rewrite list_lookup_fmap, H2. cbn. now rewrite Ha.
Qed.


End SyncFacts.

Example sync_tab_race_sample :
  exists tab1 res1 tab2 res2,
    Sync.GetAndLock_first 1009 ∅ 4096 false = Sync.Miss
    /\ Sync.GetAndLock_second 1009 (-1) Rtl.sample_alloc ∅ Rtl.sample_thr
                              7 5000 4096 false
       = Rtl.Done (Some (tab1, res1))
    /\ Sync.GetAndLock_second 1009 (-1) Rtl.sample_alloc tab1 Rtl.sample_thr
                              7 6000 4096 false
       = Rtl.Done (Some (tab2, res2))
    /\ Sync.sv_ptr res1 = 5000 /\ Sync.sv_ptr res2 = 5000
    /\ Sync.readers (Sync.sv_mtx res2) = 2%nat
    /\ List.length (Sync.bucket tab2 (Sync.PartIdx 1009 4096)) = 1%nat.
Proof. eexists _, _, _, _. repeat split; vm_compute; reflexivity. Qed.


(** ** tsan/ignore.cc: further properties *)

Section IgnoreMore.
Import Ignore.

Variables IgnoreObj IgnoreFile IgnoreFun : string -> IgnoreTriple.
Variable StringMatch : string -> string -> bool.

Local Abbreviation ReadIgnoreLine := (ReadIgnoreLine IgnoreObj IgnoreFile IgnoreFun).
Local Abbreviation read_lines := (read_lines IgnoreObj IgnoreFile IgnoreFun).
Local Abbreviation ReadIgnoresFromString :=
  (ReadIgnoresFromString IgnoreObj IgnoreFile IgnoreFun).

Lemma prefix_decompose (p : string) : forall s,
  String.prefix p s = true ->
  s = p +:+ substring (String.length p) (String.length s - String.length p) s.
Proof.
  induction p as [|c p IH]; intros s H.
  - rewrite string_app_nil_l. simpl. rewrite Nat.sub_0_r.
    symmetry. apply substring_whole.
  - destruct s as [|d s]; [discriminate H|]. simpl in H.
    destruct (ascii_dec c d) as [->|]; [|discriminate H].
    rewrite string_app_cons. simpl. f_equal. now apply IH.
Qed.

(** X1: [CutStringPrefixIfPresent] succeeds exactly on the strings that start
    with the prefix, and what it returns is the rest of the string. *)
Theorem cut_prefix_round_trip (input prefix tail : string) :
  CutStringPrefixIfPresent input prefix = Some tail <-> input = prefix +:+ tail.
Proof.
  split.
  - unfold CutStringPrefixIfPresent.
    destruct (String.prefix prefix input) eqn:Hp; [|discriminate].
    intros H. injection H as <-. now apply prefix_decompose.
  - intros ->. apply cut_prefix_app.
Qed.

Lemma split_loop_newline a st :
  split_loop (a +:+ nl) st
  = mkSplit "" false
      (if String.eqb (cur_line (split_loop a st)) ""
       then lines (split_loop a st)
       else lines (split_loop a st) ++ [cur_line (split_loop a st)]).
Proof. rewrite split_loop_app. reflexivity. Qed.

Lemma split_loop_from_fresh b L :
  lines (split_loop b (mkSplit "" false L))
  = L ++ lines (split_loop b split_init).
Proof. rewrite !split_loop_lines. reflexivity. Qed.

(** A text can be cut after any newline: the lines of the whole are the
    lines of the part up to the newline followed by those of the rest. *)
Theorem split_at_newline (a b : string) :
  SplitStringIntoLinesAndRemoveBlanksAndComments (a +:+ nl +:+ b)
  = SplitStringIntoLinesAndRemoveBlanksAndComments (a +:+ nl)
    ++ SplitStringIntoLinesAndRemoveBlanksAndComments b.
Proof.
  unfold SplitStringIntoLinesAndRemoveBlanksAndComments.
  rewrite <- string_app_assoc, split_loop_app, split_loop_newline.
  now rewrite split_loop_from_fresh.
Qed.

Lemma split_loop_plain l : forall c L,
  has_char space l = false -> has_char tab l = false ->
  has_char hash l = false -> has_char newline l = false ->
  split_loop l (mkSplit c false L) = mkSplit (c +:+ l) false L.
Proof.
  induction l as [|x l IH]; intros c L Hs Ht Hh Hn.
  - simpl. now rewrite string_app_nil_r.
  - simpl in *.
    apply orb_false_iff in Hs as [Hs Hs'], Ht as [Ht Ht'], Hh as [Hh Hh'],
      Hn as [Hn Hn'].
    unfold split_step. rewrite Hn, Hs, Ht, Hh. simpl.
    rewrite IH by assumption. f_equal.
    rewrite string_app_assoc. reflexivity.
Qed.

Lemma split_plain_line l :
  plain_line l ->
  SplitStringIntoLinesAndRemoveBlanksAndComments (l +:+ nl) = [l].
Proof.
  intros (Hne & Hs & Ht & Hh & Hn).
  unfold SplitStringIntoLinesAndRemoveBlanksAndComments.
  rewrite split_loop_newline. unfold split_init.
  rewrite split_loop_plain by assumption. rewrite string_app_nil_l. cbn.
  destruct (String.eqb_spec l ""); [contradiction | reflexivity].
Qed.

Lemma split_join_plain ls :
  Forall plain_line ls ->
  SplitStringIntoLinesAndRemoveBlanksAndComments (join_lines ls) = ls.
Proof.
  induction 1 as [|l ls Hl _ IH]; [reflexivity|].
  cbn [join_lines]. rewrite split_at_newline, IH.
  now rewrite split_plain_line.
Qed.

Lemma lines_and_rest_no_newline s : forall l,
  In l (fst (lines_and_rest s)) -> has_char newline l = false.
Proof.
  induction s as [|c s IH]; intros l Hin; [destruct Hin|].
  simpl in Hin. destruct (lines_and_rest s) as [ls r]. simpl in IH.
  destruct (Ascii.eqb c newline) eqn:Hc.
  - destruct Hin as [<-|Hin]; [reflexivity | now apply IH].
  - destruct ls as [|l0 ls]; [destruct Hin|].
    destruct Hin as [<-|Hin].
    + simpl. rewrite Hc. apply IH. now left.
    + apply IH. now right.
Qed.

Lemma before_hash_keeps_absent c s :
  has_char c s = false -> has_char c (before_hash s) = false.
Proof.
  induction s as [|x s IH]; simpl; [reflexivity|].
  intros H. apply orb_false_iff in H as [Hx Hs].
  destruct (Ascii.eqb x hash); simpl; [reflexivity|].
  now rewrite Hx, IH.
Qed.

Lemma delivered_line_plain str l :
  In l (SplitStringIntoLinesAndRemoveBlanksAndComments str) -> plain_line l.
Proof.
  intros Hin.
  destruct (delivered_line_shape str l Hin) as (Hne & Hs & Ht & Hh).
  repeat split; try assumption.
  rewrite split_refines_spec in Hin. unfold spec_lines, nonempty_lines in Hin.
  apply filter_In in Hin as [Hin _].
  apply in_map_iff in Hin as (raw & <- & Hraw).
  unfold clean_line.
  apply remove_blanks_keeps_absent, before_hash_keeps_absent.
  now apply (lines_and_rest_no_newline str).
Qed.

(** X2: Splitting is a normal form: writing the delivered lines back, one per
    line, and splitting again gives the same lines. *)
Theorem split_join_round_trip (str : string) :
  SplitStringIntoLinesAndRemoveBlanksAndComments
    (join_lines (SplitStringIntoLinesAndRemoveBlanksAndComments str))
  = SplitStringIntoLinesAndRemoveBlanksAndComments str.
Proof.
  apply split_join_plain. apply List.Forall_forall.
  intros l Hl. now apply (delivered_line_plain str).
Qed.

Lemma read_line_appends line il :
  exists e1 e2 e3,
    snd (ReadIgnoreLine line il)
    = mkLists (ignores il ++ e1) (ignores_r il ++ e2) (ignores_hist il ++ e3).
Proof.
  unfold Ignore.ReadIgnoreLine, push_ignores, push_ignores_r, push_ignores_hist.
  destruct (CutStringPrefixIfPresent line "obj:") as [tail|];
    [exists [IgnoreObj tail], [], []; cbn; now rewrite !app_nil_r|].
  destruct (CutStringPrefixIfPresent line "src:") as [tail|];
    [exists [IgnoreFile tail], [], []; cbn; now rewrite !app_nil_r|].
  destruct (CutStringPrefixIfPresent line "fun:") as [tail|];
    [exists [IgnoreFun tail], [], []; cbn; now rewrite !app_nil_r|].
  destruct (CutStringPrefixIfPresent line "fun_r:") as [tail|];
    [exists [], [IgnoreFun tail], []; cbn; now rewrite !app_nil_r|].
  destruct (CutStringPrefixIfPresent line "fun_hist:") as [tail|];
    [exists [], [], [IgnoreFun tail]; cbn; now rewrite !app_nil_r|].
  exists [], [], []. cbn. rewrite !app_nil_r. now destruct il.
Qed.

Lemma read_lines_appends ls : forall il,
  exists e1 e2 e3,
    r_lists (read_lines ls il)
    = mkLists (ignores il ++ e1) (ignores_r il ++ e2) (ignores_hist il ++ e3).
Proof.
  induction ls as [|l ls IH]; intros il.
  - exists [], [], []. cbn. rewrite !app_nil_r. now destruct il.
  - cbn [Ignore.read_lines].
    destruct (read_line_appends l il) as (a1 & a2 & a3 & Ha).
    destruct (ReadIgnoreLine l il) as [parsed il']. cbn in Ha. subst il'.
    destruct parsed.
    + destruct (IH (mkLists (ignores il ++ a1) (ignores_r il ++ a2)
                            (ignores_hist il ++ a3)))
        as (b1 & b2 & b3 & Hb).
      exists (a1 ++ b1), (a2 ++ b2), (a3 ++ b3). rewrite Hb. cbn.
      now rewrite !app_assoc.
    + exists a1, a2, a3. reflexivity.
Qed.

(** X3: Reading ignore text only appends: whatever the text, and also when the
    read ends in the fatal check, the three lists keep the entries they had,
    in their order, at their front. *)
Theorem read_ignores_only_appends (str : string) (il : IgnoreLists) :
  exists e1 e2 e3,
    r_lists (ReadIgnoresFromString str il)
    = mkLists (ignores il ++ e1) (ignores_r il ++ e2) (ignores_hist il ++ e3).
Proof. apply read_lines_appends. Qed.

Lemma read_lines_app l1 : forall l2 il,
  read_lines (l1 ++ l2) il
  = if r_check_failed (read_lines l1 il) then read_lines l1 il
    else read_lines l2 (r_lists (read_lines l1 il)).
Proof.
  induction l1 as [|l l1 IH]; intros l2 il; [reflexivity|].
  cbn [app Ignore.read_lines].
  destruct (ReadIgnoreLine l il) as [parsed il'].
  destruct parsed; [apply IH | reflexivity].
Qed.

(** Reading two texts in a row is reading their concatenation, when the
    first ends with a newline: a first text that fails gives its failure,
    otherwise the second is read into the lists the first left. *)
Theorem read_ignores_concat (a b : string) (il : IgnoreLists) :
  ReadIgnoresFromString (a +:+ nl +:+ b) il
  = if r_check_failed (ReadIgnoresFromString (a +:+ nl) il)
    then ReadIgnoresFromString (a +:+ nl) il
    else ReadIgnoresFromString b
           (r_lists (ReadIgnoresFromString (a +:+ nl) il)).
Proof.
  unfold Ignore.ReadIgnoresFromString.
  now rewrite split_at_newline, read_lines_app.
Qed.

(** X4: [StringVectorMatch] answers true exactly when some pattern of the
    vector matches, and so the answer for two vectors put together is the
    disjunction of the answers for each. *)
Theorem string_vector_match_exists (v w : list string) (s : string) :
  (StringVectorMatch StringMatch v s = true <->
   exists p, In p v /\ StringMatch p s = true)
  /\ StringVectorMatch StringMatch (v ++ w) s
     = StringVectorMatch StringMatch v s || StringVectorMatch StringMatch w s.
Proof.
  split.
  - induction v as [|p v IH]; simpl.
    + split; [discriminate | intros (p & [] & _)].
    + destruct (StringMatch p s) eqn:Hp.
      * split; [eauto | reflexivity].
      * rewrite IH. split.
        -- intros (p' & Hin & H). eauto.
        -- intros (p' & [<-|Hin] & H); [congruence | eauto].
  - induction v as [|p v IH]; simpl; [reflexivity|].
    destruct (StringMatch p s); [reflexivity | exact IH].
Qed.

(** The answer of [TripleVectorMatchKnown] for two vectors put together is
    the disjunction of the answers for each: adding triples never turns a
    match into a miss. *)
Theorem triple_vector_match_app (v w : list IgnoreTriple)
        (fn obj file : string) :
  TripleVectorMatchKnown StringMatch (v ++ w) fn obj file
  = TripleVectorMatchKnown StringMatch v fn obj file
    || TripleVectorMatchKnown StringMatch w fn obj file.
Proof.
  induction v as [|t v IH]; simpl; [reflexivity|].
  destruct (triple_matches StringMatch t fn obj file); [|exact IH].
  destruct (triple_trivial t fn obj file); [exact IH | reflexivity].
Qed.

(** A query with no known component (function, object and file all empty)
    is matched by no vector of triples. *)
Theorem triple_vector_match_empty_query (v : list IgnoreTriple) :
  TripleVectorMatchKnown StringMatch v "" "" "" = false.
Proof.
  induction v as [|t v IH]; [reflexivity|]. simpl. exact IH.
Qed.

End IgnoreMore.

(** ** v2/tsan: tsan_defs.h and tsan_rtl_thread.cc, further properties *)

Section CheckMore.
Import Rtl.

Lemma to_u64_range x : 0 <= to_u64 x < 2 ^ 64.
Proof. unfold to_u64. apply Z.mod_pos_bound. lia. Qed.

Lemma check_gt_zero_cases line cond x :
  (0 < to_u64 x /\ CHECK_GT line cond x 0 = Done tt)
  \/ (to_u64 x = 0
      /\ CHECK_GT line cond x 0 = Stop (CheckFailed line cond 0 0)).
Proof.
  unfold CHECK_GT, CHECK_IMPL. change (to_u64 0) with 0.
  pose proof (to_u64_range x) as Hr.
  destruct (Z.gtb_spec (to_u64 x) 0) as [H|H]; [left | right].
  - split; [lia | reflexivity].
  - assert (E : to_u64 x = 0) by lia. rewrite E. now split.
Qed.

(** X5: The comparisons of [CHECK_IMPL] are made on [u64] values.  So
    [CHECK_GE(x, 0)] holds for every [x]; [CHECK_GT(x, 0)] fails only when
    [x] is zero modulo 2^64, and passes for a negative [x]; and
    [CHECK_LT(tid, kMaxTid)] holds for a signed 64-bit [tid] exactly when
    [0 <= tid < kMaxTid], a negative tid being a huge unsigned value. *)
Theorem check_compares_unsigned :
  (forall line cond x, CHECK_GE line cond x 0 = Done tt) /\
  (forall line cond x,
      CHECK_GT line cond x 0 = Done tt <-> x mod 2 ^ 64 <> 0) /\
  (forall line cond tid,
      - 2 ^ 63 <= tid < 2 ^ 63 ->
      (CHECK_LT line cond tid kMaxTid = Done tt <-> 0 <= tid < kMaxTid)).
Proof.
  split; [|split].
  - intros line cond x. unfold CHECK_GE, CHECK_IMPL. change (to_u64 0) with 0.
    pose proof (to_u64_range x). rewrite Z.geb_leb.
    now replace (0 <=? to_u64 x) with true by (symmetry; apply Z.leb_le; lia).
  - intros line cond x. fold (to_u64 x).
    destruct (check_gt_zero_cases line cond x) as [[H ->]|[H ->]];
      split; intros; try lia; try discriminate; reflexivity || congruence.
  - intros line cond tid Hr. unfold CHECK_LT, CHECK_IMPL.
    change (to_u64 kMaxTid) with 65536. change kMaxTid with 65536.
    destruct (Z.ltb_spec (to_u64 tid) 65536) as [H|H].
    + split; [intros _ | reflexivity].
      unfold to_u64 in H. Z.div_mod_to_equations. lia.
    + split; [discriminate|]. intros Ht. exfalso.
      unfold to_u64 in H. rewrite Z.mod_small in H by lia. lia.
Qed.

End CheckMore.

Lemma check_compares_unsigned_witness :
  Rtl.CHECK_LT 104 "(tid) < (kMaxTid)" 7 Rtl.kMaxTid = Rtl.Done tt
  /\ Rtl.CHECK_LT 104 "(tid) < (kMaxTid)" (-1) Rtl.kMaxTid <> Rtl.Done tt.
Proof.
  destruct check_compares_unsigned as (_ & _ & H). split.
  - apply (H 104 "(tid) < (kMaxTid)"%string 7); [lia | vm_compute; split; congruence].
  - intros E. apply (H 104 "(tid) < (kMaxTid)"%string (-1)) in E; lia.
Defined.

Section LifeFacts.
Import Rtl Life.

Lemma find_uid_some n : forall i th uid p,
  find_uid n i th uid = Some p ->
  i <= p < i + Z.of_nat n
  /\ (exists tctx, th !! p = Some tctx /\ tc_uid tctx = uid
                   /\ tc_status tctx <> ThreadStatusInvalid)
  /\ (forall j tctx, i <= j < p -> th !! j = Some tctx ->
        tc_uid tctx <> uid \/ tc_status tctx = ThreadStatusInvalid).
Proof.
  induction n as [|n IH]; intros i th uid p H; [discriminate|].
  cbn [find_uid] in H.
  destruct (th !! i) as [tctx|] eqn:Hi.
  - destruct (Z.eqb_spec (tc_uid tctx) uid) as [Hu|Hu]; cbn [andb] in H.
    + case_bool_decide as Hs; cbn [negb] in H.
      * apply IH in H as (Hr & Hex & Hfirst). split; [lia|]. split; [exact Hex|].
        intros j t' Hj Hl. destruct (decide (j = i)) as [->|Hne].
        -- rewrite Hi in Hl. injection Hl as <-. now right.
        -- apply (Hfirst j); [lia | exact Hl].
      * injection H as <-. split; [lia|]. split; [eauto|]. intros; lia.
    + apply IH in H as (Hr & Hex & Hfirst). split; [lia|]. split; [exact Hex|].
      intros j t' Hj Hl. destruct (decide (j = i)) as [->|Hne].
      * rewrite Hi in Hl. injection Hl as <-. now left.
      * apply (Hfirst j); [lia | exact Hl].
  - apply IH in H as (Hr & Hex & Hfirst). split; [lia|]. split; [exact Hex|].
    intros j t' Hj Hl. destruct (decide (j = i)) as [->|Hne]; [congruence|].
    apply (Hfirst j); [lia | exact Hl].
Qed.

Lemma find_uid_none n : forall i th uid,
  (forall j tctx, i <= j < i + Z.of_nat n -> th !! j = Some tctx ->
     tc_uid tctx <> uid \/ tc_status tctx = ThreadStatusInvalid) ->
  find_uid n i th uid = None.
Proof.
  induction n as [|n IH]; intros i th uid H; [reflexivity|].
  cbn [find_uid].
  assert (Hrest : find_uid n (i + 1) th uid = None).
  { apply IH. intros j t' Hj. apply H. lia. }
  destruct (th !! i) as [tctx|] eqn:Hi; [|exact Hrest].
  destruct (H i tctx ltac:(lia) Hi) as [Hu|Hs].
  - now replace (tc_uid tctx =? uid) with false by (symmetry; apply Z.eqb_neq; exact Hu).
  - rewrite (bool_decide_eq_true_2 _ Hs). now rewrite andb_false_r.
Qed.

(** When one context only answers to [uid], the search finds its slot. *)
Lemma find_uid_unique c uid p tctx :
  registry_wf c ->
  threads c !! p = Some tctx ->
  tc_uid tctx = uid -> tc_status tctx <> ThreadStatusInvalid ->
  (forall j t', threads c !! j = Some t' -> tc_uid t' = uid ->
                tc_status t' <> ThreadStatusInvalid -> j = p) ->
  find_uid (Z.to_nat kMaxTid) 0 (threads c) uid = Some p.
Proof.
  intros [Hok Hseq] Hp Hu Hs Huniq.
  destruct (find_uid (Z.to_nat kMaxTid) 0 (threads c) uid) as [p'|] eqn:Hf.
  - apply find_uid_some in Hf as (_ & (t' & Hl & Hu' & Hs') & _).
    f_equal. now apply (Huniq p' t').
  - exfalso.
    assert (Hin : 0 <= p < 0 + Z.of_nat (Z.to_nat kMaxTid)).
    { destruct (Hok p tctx Hp) as [_ Hr].
      rewrite Z2Nat.id by (vm_compute; discriminate). lia. }
    clear Huniq. revert Hf Hin. generalize (Z.to_nat kMaxTid) 0.
    intros n. induction n as [|n IH]; intros i Hf Hin; [lia|].
    cbn [find_uid] in Hf. destruct (decide (i = p)) as [->|Hne].
    + rewrite Hp in Hf.
      replace (tc_uid tctx =? uid) with true in Hf
        by (symmetry; apply Z.eqb_eq; exact Hu).
      rewrite (bool_decide_eq_false_2 _ Hs) in Hf. discriminate.
    + apply (IH (i + 1)); [|lia].
      destruct (threads c !! i) as [t'|]; [|exact Hf].
      destruct ((tc_uid t' =? uid)
                && negb (bool_decide (tc_status t' = ThreadStatusInvalid)));
        [discriminate | exact Hf].
Qed.

Lemma dead_chain_same th q : forall p t old new,
  th !! t = Some old ->
  tc_status new = tc_status old -> tc_sync new = tc_sync old ->
  tc_dead_next new = tc_dead_next old ->
  dead_chain th p q -> dead_chain (<[t := new]> th) p q.
Proof.
  induction q as [|a q IH]; intros p t old new Ht Hs Hy Hn Hc; [exact Hc|].
  simpl in *. destruct Hc as [Hp Hc]. split; [exact Hp|].
  destruct (decide (t = a)) as [->|Hne].
  - rewrite lookup_insert_eq. rewrite Ht in Hc. rewrite Hs, Hy, Hn.
    destruct Hc as [Hd Hc]. split; [exact Hd|]. eapply IH; eauto.
  - rewrite lookup_insert_ne by exact Hne.
    destruct (th !! a) as [ac|]; [|contradiction].
    destruct Hc as [Hd Hc]. split; [exact Hd|]. eapply IH; eauto.
Qed.

Lemma quarantine_same c q t old new :
  quarantine c q ->
  threads c !! t = Some old ->
  tc_status new = tc_status old -> tc_sync new = tc_sync old ->
  tc_dead_next new = tc_dead_next old ->
  quarantine (set_threads c (<[t := new]> (threads c))) q.
Proof.
  intros (Hsz & Hnd & Hq) Ht Hs Hy Hn. split; [exact Hsz|].
  split; [exact Hnd|]. intros Hne. destruct (Hq Hne) as [Hc Htl].
  split; [|exact Htl]. cbn. eapply dead_chain_same; eauto.
Qed.

Lemma wf_same c t old new :
  registry_wf c -> threads c !! t = Some old -> tc_tid new = tc_tid old ->
  registry_wf (set_threads c (<[t := new]> (threads c))).
Proof.
  intros [Hok Hseq] Ht Htid. split; [|exact Hseq]. cbn.
  eapply slots_ok_insert; eauto.
Qed.

End LifeFacts.

Section RegistryFacts.
Import Rtl Life.

Variable internal_alloc : Z -> bool.

Local Abbreviation ThreadCreate := (ThreadCreate internal_alloc).
Local Abbreviation create_capture := (create_capture internal_alloc).
Local Abbreviation thread_create_reuse := (thread_create_reuse internal_alloc).
Local Abbreviation thread_create_fresh := (thread_create_fresh internal_alloc).

Lemma clock_acquire_dominates (a b : gmap Z Z) t e :
  b !! t = Some e ->
  exists e', clock_acquire a b !! t = Some e' /\ e <= e'.
Proof.
  intros Hb. unfold clock_acquire. rewrite lookup_union_with, Hb.
  destruct (a !! t) as [x|]; cbn; eexists; split; try reflexivity; lia.
Qed.

Lemma clock_release_dominates (self dst : gmap Z Z) t e :
  self !! t = Some e ->
  exists e', clock_release self dst !! t = Some e' /\ e <= e'.
Proof.
  intros Hb. unfold clock_release. rewrite lookup_union_with, Hb.
  destruct (dst !! t) as [x|]; cbn; eexists; split; try reflexivity; lia.
Qed.

(** What a [ThreadDead] that returns has done to the slots. *)
Lemma thread_dead_slots c thr t c' :
  ThreadDead c thr t = Done c' ->
  0 < to_u64 (ts_in_rtl thr)
  /\ (exists old, threads c !! t = Some old
                  /\ (tc_status old = ThreadStatusRunning
                      \/ tc_status old = ThreadStatusFinished))
  /\ (exists x, threads c' !! t = Some x
                /\ tc_status x = ThreadStatusDead /\ tc_uid x = 0
                /\ tc_sync x = ∅)
  /\ (forall j, j <> t ->
        match threads c' !! j, threads c !! j with
        | Some x, Some y =>
            tc_uid x = tc_uid y /\ tc_status x = tc_status y
            /\ tc_detached x = tc_detached y /\ tc_sync x = tc_sync y
            /\ tc_tid x = tc_tid y
            /\ tc_creation_stack x = tc_creation_stack y
        | None, None => True
        | _, _ => False
        end)
  /\ thread_seq c' = thread_seq c /\ nreported c' = nreported c.
Proof.
  unfold ThreadDead. intros H.
  destruct (check_gt_zero_cases 55 cond_in_rtl (ts_in_rtl thr))
    as [[Hin E]|[_ E]]; rewrite E in H; [|discriminate].
  cbn [mbind Result_bind] in H. split; [exact Hin|].
  destruct (threads c !! t) as [old|] eqn:Ht; [|discriminate].
  assert (Hst : tc_status old = ThreadStatusRunning
                \/ tc_status old = ThreadStatusFinished).
  { destruct (tc_status old); auto; cbn in H; discriminate. }
  split; [eauto|].
  replace (b2z _) with 1 in H by (destruct Hst as [-> | ->]; reflexivity).
  rewrite check_one in H. cbn [mbind Result_bind] in H.
  set (tctx' := set_dead_next _ None) in H.
  assert (Hsame : forall j, j <> t ->
            match threads c !! j, threads c !! j with
            | Some x, Some y =>
                tc_uid x = tc_uid y /\ tc_status x = tc_status y
                /\ tc_detached x = tc_detached y /\ tc_sync x = tc_sync y
                /\ tc_tid x = tc_tid y
                /\ tc_creation_stack x = tc_creation_stack y
            | None, None => True
            | _, _ => False
            end).
  { intros j _. destruct (threads c !! j); [repeat split | exact I]. }
  destruct (dead_list_size c =? 0).
  - injection H as <-. cbn [threads thread_seq nreported].
    split; [|split; [|split; reflexivity]].
    + rewrite lookup_insert_eq. eexists. repeat split.
    + intros j Hj. rewrite lookup_insert_ne by congruence. now apply Hsame.
  - destruct (dead_list_tail c) as [tl|]; [|discriminate].
    destruct (<[t:=tctx']> (threads c) !! tl) as [tl_ctx|] eqn:Htl;
      [|discriminate].
    injection H as <-. cbn [threads thread_seq nreported].
    split; [|split; [|split; reflexivity]].
    + destruct (decide (tl = t)) as [->|Hne].
      * rewrite lookup_insert_eq. rewrite lookup_insert_eq in Htl.
        injection Htl as <-. eexists. repeat split.
      * rewrite lookup_insert_ne by exact Hne. rewrite lookup_insert_eq.
        eexists. repeat split.
    + intros j Hj. destruct (decide (tl = j)) as [->|Hne].
      * rewrite lookup_insert_eq.
        rewrite lookup_insert_ne in Htl by congruence. rewrite Htl.
        repeat split.
      * rewrite lookup_insert_ne by exact Hne.
        rewrite lookup_insert_ne by congruence. now apply Hsame.
Qed.

(** A [ThreadDead] that returns keeps the registry well formed and has put
    the slot at the young end of the quarantine. *)
Lemma thread_dead_done c thr t c' q :
  registry_wf c -> quarantine c q ->
  ThreadDead c thr t = Done c' ->
  registry_wf c' /\ quarantine c' (q ++ [t]).
Proof.
  intros Hwf Hq H.
  destruct (thread_dead_slots _ _ _ _ H) as (Hin & (old & Ht & Hst) & _).
  destruct (thread_dead_appends c thr t old q Hin Hwf Hq Ht Hst)
    as (c2 & E & Hq2 & Hwf2 & _).
  rewrite H in E. injection E as <-. now split.
Qed.

(** A [ThreadCreate] that returns: the registry stays well formed; the tid
    is either the next of the sequence, whose slot was empty, or the head of
    the quarantine; for a nonzero tid the context's sync clock is the
    creator's clock. *)
Lemma thread_create_done c thr pc uid detached q c' thr' tid :
  registry_wf c -> quarantine c q ->
  ThreadCreate c thr pc uid detached = Done (c', thr', tid) ->
  registry_wf c'
  /\ ((threads c !! tid = None /\ tid = thread_seq c /\ quarantine c' q
       /\ thread_seq c' = thread_seq c + 1)
      \/ (exists q' tctx,
             q = tid :: q' /\ threads c !! tid = Some tctx
             /\ tc_status tctx = ThreadStatusDead /\ quarantine c' q'
             /\ thread_seq c' = thread_seq c))
  /\ (exists x, threads c' !! tid = Some x
                /\ tc_status x = ThreadStatusCreated /\ tc_uid x = uid
                /\ tc_detached x = detached /\ tc_tid x = tid
                /\ (tid <> 0 -> tc_sync x = ts_clock thr'))
  /\ (forall j, j <> tid -> threads c' !! j = threads c !! j)
  /\ thr' = (if tid =? 0 then thr else released_thr thr).
Proof.
  intros Hwf Hq H.
  assert (Hin : 0 < to_u64 (ts_in_rtl thr)).
  { destruct (check_gt_zero_cases 74 cond_in_rtl (ts_in_rtl thr))
      as [[Hin _]|[_ E]]; [exact Hin|].
    unfold Rtl.ThreadCreate in H. rewrite E in H. discriminate. }
  assert (Hrel : forall m : gmap Z Z, clock_release m ∅ = m).
  { intros m. unfold clock_release. apply (left_id ∅ _). }
  assert (Hreuse : forall t q',
             q = t :: q' ->
             dead_list_size c > kThreadQuarantineSize
             \/ thread_seq c >= kMaxTid ->
             registry_wf c'
             /\ ((threads c !! tid = None /\ tid = thread_seq c
                  /\ quarantine c' q /\ thread_seq c' = thread_seq c + 1)
                 \/ (exists q' tctx,
                        q = tid :: q' /\ threads c !! tid = Some tctx
                        /\ tc_status tctx = ThreadStatusDead
                        /\ quarantine c' q'
                        /\ thread_seq c' = thread_seq c))
             /\ (exists x, threads c' !! tid = Some x
                           /\ tc_status x = ThreadStatusCreated
                           /\ tc_uid x = uid /\ tc_detached x = detached
                           /\ tc_tid x = tid
                           /\ (tid <> 0 -> tc_sync x = ts_clock thr'))
             /\ (forall j, j <> tid -> threads c' !! j = threads c !! j)
             /\ thr' = (if tid =? 0 then thr else released_thr thr)).
  { intros t q' -> Hcond.
    destruct (thread_create_reuse c thr pc uid detached t q' Hin Hwf Hq Hcond)
      as (tctx & c1 & Ht & [Hdead Hsy] & Hth & Hs1 & Hq1 & Heq).
    rewrite H in Heq.
    destruct (create_capture t (tc_creation_stack tctx) thr pc) as [cs|e];
      [|discriminate Heq].
    cbn [mbind Result_bind] in Heq. injection Heq as -> -> ->.
    destruct Hwf as [Hok Hseq].
    destruct Hq as (_ & Hnd & _). apply NoDup_cons in Hnd as [Htq _].
    destruct (Hok t tctx Ht) as [Htid _].
    split; [|split; [|split; [|split]]].
    - split; cbn; rewrite Hs1; [|exact Hseq].
      rewrite Hth, insert_insert_eq.
      apply (slots_ok_insert _ _ _ tctx); [exact Hok | exact Ht | reflexivity].
    - right. exists q', tctx.
      split; [reflexivity|]. split; [exact Ht|]. split; [exact Hdead|].
      split; [now apply quarantine_insert | exact Hs1].
    - cbn. rewrite lookup_insert_eq. eexists. split; [reflexivity|].
      repeat split; try assumption.
      intros Hnz. apply Z.eqb_neq in Hnz. cbn. rewrite Hnz, Hsy. apply Hrel.
    - intros j Hj. cbn. rewrite Hth.
      rewrite !lookup_insert_ne by congruence. reflexivity.
    - reflexivity. }
  destruct (Z_lt_le_dec (thread_seq c) kMaxTid) as [Hlt|Hge];
    [destruct (Z_le_gt_dec (dead_list_size c) kThreadQuarantineSize)
       as [Hsz|Hsz]|].
  - destruct (thread_create_fresh c thr pc uid detached q Hin Hwf Hq Hsz Hlt)
      as (Hnone & Hnq & Heq).
    rewrite H in Heq. cbv zeta in Heq.
    destruct (create_capture (thread_seq c) Stack.StackTrace_new thr pc)
      as [cs|e]; [|discriminate Heq].
    cbn [mbind Result_bind] in Heq. injection Heq as -> -> ->.
    destruct Hwf as [Hok Hseq].
    split; [|split; [|split; [|split]]].
    + split; cbn; [|lia]. rewrite insert_insert_eq.
      apply slots_ok_fresh; [exact Hok | reflexivity | lia].
    + left. split; [exact Hnone|]. split; [reflexivity|].
      split; [|reflexivity].
      apply quarantine_insert; [|exact Hnq].
      destruct Hq as (Hsz' & Hnd & Hq). split; [exact Hsz'|].
      split; [exact Hnd|]. intros Hne. destruct (Hq Hne) as [Hc Htl].
      split; [|exact Htl]. cbn. now apply dead_chain_insert.
    + cbn. rewrite lookup_insert_eq. eexists. split; [reflexivity|].
      repeat split.
      intros Hnz. apply Z.eqb_neq in Hnz. cbn. rewrite Hnz. apply Hrel.
    + intros j Hj. cbn. rewrite !lookup_insert_ne by congruence. reflexivity.
    + reflexivity.
  - destruct q as [|t q'];
      [destruct Hq as (Hq & _); simpl in Hq;
       unfold kThreadQuarantineSize in Hsz; lia|].
    apply (Hreuse t q' eq_refl). now left.
  - destruct q as [|t q'].
    + exfalso. destruct Hq as (Hq & _). simpl in Hq.
      unfold Rtl.ThreadCreate in H. rewrite check_gt_in_rtl in H by exact Hin.
      cbn [mbind Result_bind] in H. unfold ThreadCreate_pick in H.
      replace (thread_seq c >=? kMaxTid) with true in H
        by (symmetry; rewrite Z.geb_leb; apply Z.leb_le; lia).
      rewrite orb_true_r, Hq in H. discriminate.
    + apply (Hreuse t q' eq_refl). right. lia.
Qed.

End RegistryFacts.

Section OperationFacts.
Import Rtl Life.

Variable SymbolizeStack : Stack.StackTrace -> ReportStack.
Variable new_ThreadState : Z -> Z -> Z -> Z -> Z -> Z -> ThreadState.
Variable internal_alloc : Z -> bool.

Local Abbreviation ThreadCreate := (ThreadCreate internal_alloc).

Lemma quarantine_not_dead c q t x :
  quarantine c q -> threads c !! t = Some x ->
  tc_status x <> ThreadStatusDead -> t ∉ q.
Proof.
  intros (_ & _ & Hq) Ht Hs Hel.
  destruct q as [|a q]; [now apply elem_of_nil in Hel|].
  destruct (Hq ltac:(discriminate)) as [Hc _].
  destruct (dead_chain_status _ _ _ _ Hc Hel) as (y & Hy & Hd). congruence.
Qed.

Lemma thread_start_not_created_check_fails_aux dbg c thr tid sa ss ta tsz
      tctx :
  0 < to_u64 (ts_in_rtl thr) ->
  threads c !! tid = Some tctx ->
  tc_status tctx <> ThreadStatusCreated ->
  ThreadStart new_ThreadState dbg c thr tid sa ss ta tsz
  = Stop (CheckFailed 140 "(tctx->status) == (ThreadStatusCreated)"
                      (status_val (tc_status tctx))
                      (status_val ThreadStatusCreated)).
Proof.
  intros Hin Htctx Hst. unfold ThreadStart.
  rewrite check_gt_in_rtl by exact Hin. cbn [mbind Result_bind].
  rewrite Htctx.
  change (CHECK_NE 139 "(tctx) != (0)" (ptr_val (Some tid)) 0) with (Done tt).
  cbn [mbind Result_bind]. rewrite check_eq_status.
  now rewrite bool_decide_eq_false_2.
Qed.

Lemma thread_start_created dbg c thr tid sa ss ta tsz tctx :
  0 < to_u64 (ts_in_rtl thr) ->
  threads c !! tid = Some tctx ->
  tc_status tctx = ThreadStatusCreated ->
  exists resets,
    ThreadStart new_ThreadState dbg c thr tid sa ss ta tsz
    = Done (set_threads c (<[tid := started_tctx tctx]> (threads c)),
            started_thr new_ThreadState tctx tid sa ss ta tsz, resets).
Proof.
  intros Hin Ht Hs. unfold ThreadStart.
  rewrite check_gt_in_rtl by exact Hin. cbn [mbind Result_bind].
  rewrite Ht.
  change (CHECK_NE 139 "(tctx) != (0)" (ptr_val (Some tid)) 0) with (Done tt).
  cbn [mbind Result_bind]. rewrite check_eq_status, Hs.
  rewrite bool_decide_eq_true_2 by reflexivity. cbn [mbind Result_bind].
  eexists. reflexivity.
Qed.

Lemma thread_start_done dbg c thr tid sa ss ta tsz c' thr' resets q :
  registry_wf c -> quarantine c q ->
  ThreadStart new_ThreadState dbg c thr tid sa ss ta tsz
  = Done (c', thr', resets) ->
  exists tctx,
    threads c !! tid = Some tctx
    /\ tc_status tctx = ThreadStatusCreated
    /\ c' = set_threads c (<[tid := started_tctx tctx]> (threads c))
    /\ thr' = started_thr new_ThreadState tctx tid sa ss ta tsz
    /\ registry_wf c' /\ quarantine c' q.
Proof.
  intros Hwf Hq H.
  assert (Hin : 0 < to_u64 (ts_in_rtl thr)).
  { destruct (check_gt_zero_cases 126 cond_in_rtl (ts_in_rtl thr))
      as [[Hin _]|[_ E]]; [exact Hin|].
    unfold ThreadStart in H. rewrite E in H. discriminate. }
  destruct (threads c !! tid) as [tctx|] eqn:Ht.
  2:{ unfold ThreadStart in H. rewrite check_gt_in_rtl in H by exact Hin.
      cbn [mbind Result_bind] in H. rewrite Ht in H. discriminate. }
  destruct (decide (tc_status tctx = ThreadStatusCreated)) as [Hs|Hs].
  2:{ rewrite (thread_start_not_created_check_fails_aux dbg c thr tid sa ss ta
                 tsz tctx Hin Ht Hs) in H. discriminate. }
  destruct (thread_start_created dbg c thr tid sa ss ta tsz tctx Hin Ht Hs)
    as (r & E).
  rewrite H in E. injection E as -> -> ->.
  exists tctx. split; [reflexivity|]. split; [exact Hs|].
  split; [reflexivity|]. split; [reflexivity|]. split.
  - eapply wf_same; eauto.
  - apply quarantine_insert; [exact Hq|].
    eapply quarantine_not_dead; eauto. congruence.
Qed.

End OperationFacts.

Section JoinFacts.
Import Rtl Life.

Lemma find_uid_none_inv n : forall i th uid,
  find_uid n i th uid = None ->
  forall j tctx, i <= j < i + Z.of_nat n -> th !! j = Some tctx ->
    tc_uid tctx <> uid \/ tc_status tctx = ThreadStatusInvalid.
Proof.
  induction n as [|n IH]; intros i th uid H j tctx Hj Hl; [lia|].
  cbn [find_uid] in H.
  destruct (decide (j = i)) as [->|Hne].
  - rewrite Hl in H.
    destruct (Z.eqb_spec (tc_uid tctx) uid) as [Hu|Hu]; [|now left].
    case_bool_decide as Hs; [now right|]. cbn in H. discriminate.
  - apply (IH (i + 1) th uid) with (j := j); [|lia|exact Hl].
    destruct (th !! i) as [t'|]; [|exact H].
    destruct ((tc_uid t' =? uid)
              && negb (bool_decide (tc_status t' = ThreadStatusInvalid)));
      [discriminate | exact H].
Qed.

(** The search over the whole table fails exactly when no context that is
    not Invalid has the uid. *)
Lemma find_uid_table_none c uid :
  registry_wf c ->
  (find_uid (Z.to_nat kMaxTid) 0 (threads c) uid = None
   <-> forall j tctx, threads c !! j = Some tctx ->
         tc_uid tctx <> uid \/ tc_status tctx = ThreadStatusInvalid).
Proof.
  intros [Hok Hseq]. split.
  - intros H j tctx Hl. apply (find_uid_none_inv _ _ _ _ H j tctx); [|exact Hl].
    destruct (Hok j tctx Hl) as [_ Hr].
    rewrite Z2Nat.id by (vm_compute; discriminate). lia.
  - intros H. apply find_uid_none. intros j tctx _. apply H.
Qed.

Lemma check_eq_b2z line cond (a b : bool) :
  CHECK_EQ line cond (b2z a) (b2z b)
  = if bool_decide (a = b) then Done tt
    else Stop (CheckFailed line cond (b2z a) (b2z b)).
Proof. destruct a, b; reflexivity. Qed.

(** What a [ThreadJoin] that returns has done. *)
Lemma thread_join_inv c thr pc uid c' thr' out :
  ThreadJoin c thr pc uid = Done (c', thr', out) ->
  0 < to_u64 (ts_in_rtl thr)
  /\ ((find_uid (Z.to_nat kMaxTid) 0 (threads c) uid = None
       /\ c' = c /\ thr' = thr /\ out = [join_message])
      \/ (exists p tctx,
            find_uid (Z.to_nat kMaxTid) 0 (threads c) uid = Some p
            /\ threads c !! p = Some tctx
            /\ tc_detached tctx = false
            /\ tc_status tctx = ThreadStatusFinished
            /\ thr' = set_clock thr (clock_acquire (ts_clock thr)
                                                   (tc_sync tctx))
            /\ ThreadDead c thr' p = Done c' /\ out = [])).
Proof.
  unfold ThreadJoin.
  remember (find_uid (Z.to_nat kMaxTid) 0 (threads c) uid) as f eqn:Hf.
  symmetry in Hf. intros H.
  destruct (check_gt_zero_cases 199 cond_in_rtl (ts_in_rtl thr))
    as [[Hin E]|[_ E]]; rewrite E in H; [|discriminate].
  split; [exact Hin|].
  destruct f as [p|]; cbn [mbind Result_bind] in H.
  2:{ injection H as <- <- <-. left. now repeat split. }
  right. destruct (find_uid_some _ _ _ _ _ Hf) as (_ & (t0 & Hl & _ & Hs) & _).
  rewrite Hl in H. rewrite (bool_decide_eq_false_2 _ Hs) in H.
  rewrite check_eq_b2z in H. case_bool_decide as Hd; [|discriminate].
  cbn [mbind Result_bind] in H.
  rewrite check_eq_status in H. case_bool_decide as Hst; [|discriminate].
  cbn [mbind Result_bind] in H.
  destruct (ThreadDead c _ p) as [c1|] eqn:Hdead; [|discriminate].
  cbn [mbind Result_bind] in H. injection H as <- <- <-.
  exists p, t0. split; [reflexivity|]. split; [exact Hl|].
  split; [exact Hd|]. split; [exact Hst|]. split; [reflexivity|].
  split; [exact Hdead | reflexivity].
Qed.

(** What a [ThreadDetach] that returns has done. *)
Lemma thread_detach_inv c thr pc uid c' thr' out :
  ThreadDetach c thr pc uid = Done (c', thr', out) ->
  0 < to_u64 (ts_in_rtl thr) /\ thr' = thr
  /\ ((find_uid (Z.to_nat kMaxTid) 0 (threads c) uid = None
       /\ c' = c /\ out = [detach_message])
      \/ (exists p tctx,
            find_uid (Z.to_nat kMaxTid) 0 (threads c) uid = Some p
            /\ threads c !! p = Some tctx
            /\ tc_status tctx <> ThreadStatusInvalid
            /\ out = []
            /\ ((tc_status tctx = ThreadStatusFinished
                 /\ ThreadDead c thr p = Done c')
                \/ (tc_status tctx <> ThreadStatusFinished
                    /\ c' = set_threads c (<[p := set_detached tctx true]>
                                             (threads c)))))).
Proof.
  unfold ThreadDetach.
  remember (find_uid (Z.to_nat kMaxTid) 0 (threads c) uid) as f eqn:Hf.
  symmetry in Hf. intros H.
  destruct (check_gt_zero_cases 224 cond_in_rtl (ts_in_rtl thr))
    as [[Hin E]|[_ E]]; rewrite E in H; [|discriminate].
  split; [exact Hin|].
  destruct f as [p|]; cbn [mbind Result_bind] in H.
  2:{ injection H as <- <- <-. split; [reflexivity|]. left. now repeat split. }
  destruct (find_uid_some _ _ _ _ _ Hf) as (_ & (t0 & Hl & _ & Hs) & _).
  rewrite Hl in H. rewrite (bool_decide_eq_false_2 _ Hs) in H.
  case_bool_decide as Hst.
  - destruct (ThreadDead c thr p) as [c1|] eqn:Hdead; [|discriminate].
    cbn [mbind Result_bind] in H. injection H as <- <- <-.
    split; [reflexivity|]. right. exists p, t0.
    split; [reflexivity|]. split; [exact Hl|]. split; [exact Hs|].
    split; [reflexivity|]. left. now split.
  - injection H as <- <- <-.
    split; [reflexivity|]. right. exists p, t0.
    split; [reflexivity|]. split; [exact Hl|]. split; [exact Hs|].
    split; [reflexivity|]. right. now split.
Qed.

End JoinFacts.

Section FinishFacts.
Import Rtl Life.

Variable SymbolizeStack : Stack.StackTrace -> ReportStack.
Variable new_ThreadState : Z -> Z -> Z -> Z -> Z -> Z -> ThreadState.
Variable internal_alloc : Z -> bool.

Local Abbreviation ThreadCreate := (ThreadCreate internal_alloc).

(** What a [ThreadFinish] that returns has done. *)
Lemma thread_finish_inv c thr sa ss ta tsz r :
  ThreadFinish c thr sa ss ta tsz = Done r ->
  0 < to_u64 (ts_in_rtl thr)
  /\ exists tctx,
       threads c !! fs_tid (ts_fast_state thr) = Some tctx
       /\ tc_status tctx = ThreadStatusRunning
       /\ ((tc_detached tctx = true
            /\ exists c1 x,
                 ThreadDead c thr (fs_tid (ts_fast_state thr)) = Done c1
                 /\ threads c1 !! fs_tid (ts_fast_state thr) = Some x
                 /\ fin_ctx r
                    = set_threads c1 (<[fs_tid (ts_fast_state thr)
                                        := finish_epochs x thr]> (threads c1))
                 /\ fin_thr r = thr)
           \/ (tc_detached tctx = false
               /\ fin_thr r = finished_thr thr
               /\ fin_ctx r
                  = set_threads c
                      (<[fs_tid (ts_fast_state thr)
                         := finish_epochs
                              (finished_tctx tctx (finished_thr thr))
                              (finished_thr thr)]> (threads c)))).
Proof.
  unfold ThreadFinish. intros H.
  destruct (check_gt_zero_cases 156 cond_in_rtl (ts_in_rtl thr))
    as [[Hin E]|[_ E]]; rewrite E in H; [|discriminate].
  cbn [mbind Result_bind] in H. split; [exact Hin|].
  set (p := fs_tid (ts_fast_state thr)) in *.
  destruct (threads c !! p) as [tctx|] eqn:Hl; [|discriminate].
  change (CHECK_NE 164 "(tctx) != (0)" (ptr_val (Some p)) 0) with (Done tt)
    in H.
  cbn [mbind Result_bind] in H.
  rewrite check_eq_status in H. case_bool_decide as Hst; [|discriminate].
  cbn [mbind Result_bind] in H.
  exists tctx. split; [reflexivity|]. split; [exact Hst|].
  destruct (tc_detached tctx) eqn:Hd.
  - left. split; [reflexivity|].
    destruct (ThreadDead c thr p) as [c1|] eqn:Hdead; [|discriminate].
    cbn [mbind Result_bind] in H.
    destruct (threads c1 !! p) as [x|] eqn:Hx; [|discriminate].
    injection H as <-. exists c1, x. now repeat split.
  - right. split; [reflexivity|]. cbn [mbind Result_bind threads set_threads] in H.
    rewrite lookup_insert_eq in H. injection H as <-.
    split; [reflexivity|]. cbn [fin_ctx]. unfold set_threads. cbn.
    now rewrite insert_insert_eq.
Qed.

(** [ThreadFinish] keeps the registry well formed; a detached thread goes
    to the young end of the quarantine. *)
Lemma thread_finish_done c thr sa ss ta tsz r q :
  registry_wf c -> quarantine c q ->
  ThreadFinish c thr sa ss ta tsz = Done r ->
  registry_wf (fin_ctx r)
  /\ exists tctx,
       threads c !! fs_tid (ts_fast_state thr) = Some tctx
       /\ quarantine (fin_ctx r)
            (if tc_detached tctx then q ++ [fs_tid (ts_fast_state thr)]
             else q).
Proof.
  intros Hwf Hq H.
  destruct (thread_finish_inv _ _ _ _ _ _ _ H)
    as (Hin & tctx & Hl & Hst & [(Hd & c1 & x & Hdead & Hx & -> & _)
                                |(Hd & _ & ->)]).
  - destruct (thread_dead_done _ _ _ _ _ Hwf Hq Hdead) as [Hwf1 Hq1].
    split; [eapply wf_same; eauto|].
    exists tctx. split; [exact Hl|]. rewrite Hd.
    eapply quarantine_same; eauto.
  - split; [eapply wf_same; eauto|].
    exists tctx. split; [exact Hl|]. rewrite Hd.
    apply quarantine_insert; [exact Hq|].
    eapply quarantine_not_dead; eauto. congruence.
Qed.

(** [ThreadFinalize] writes nothing but the counter of reports. *)
Lemma thread_finalize_frame c thr c' reps :
  ThreadFinalize SymbolizeStack c thr = Done (c', reps) ->
  threads c' = threads c /\ thread_seq c' = thread_seq c
  /\ dead_list_head c' = dead_list_head c
  /\ dead_list_tail c' = dead_list_tail c
  /\ dead_list_size c' = dead_list_size c
  /\ nreported c' = nreported c + Z.of_nat (List.length reps).
Proof.
  unfold ThreadFinalize. intros H.
  destruct (check_gt_zero_cases 26 cond_in_rtl (ts_in_rtl thr))
    as [[Hin E]|[_ E]]; rewrite E in H; [|discriminate].
  cbn [mbind Result_bind] in H. revert H.
  generalize (Z.to_nat kMaxTid). intros n H.
  pose proof (finalize_loop_spec SymbolizeStack n 0 c []) as Hs.
  cbv zeta in Hs. rewrite Hs in H. injection H as <- <-.
  cbn. now rewrite length_map.
Qed.

Lemma thread_finalize_done c thr c' reps q :
  registry_wf c -> quarantine c q ->
  ThreadFinalize SymbolizeStack c thr = Done (c', reps) ->
  registry_wf c' /\ quarantine c' q.
Proof.
  intros Hwf Hq H.
  destruct (thread_finalize_frame _ _ _ _ H) as (Ht & Hs & Hh & Htl & Hz & _).
  unfold registry_wf, quarantine. now rewrite Ht, Hs, Hh, Htl, Hz.
Qed.

Lemma registry_step_keeps c c' q :
  registry_wf c -> quarantine c q ->
  registry_step SymbolizeStack new_ThreadState internal_alloc c c' ->
  registry_wf c' /\ exists q', quarantine c' q'.
Proof.
  intros Hwf Hq Hstep. destruct Hstep.
  - destruct (thread_create_done _ _ _ _ _ _ _ _ _ _ Hwf Hq H)
      as (Hwf' & [(_ & _ & Hq' & _)|(q' & t & _ & _ & _ & Hq' & _)] & _);
      split; eauto.
  - destruct (thread_start_done _ _ _ _ _ _ _ _ _ _ _ _ _ Hwf Hq H)
      as (t & _ & _ & _ & _ & Hwf' & Hq'). split; eauto.
  - destruct (thread_finish_done _ _ _ _ _ _ _ _ Hwf Hq H)
      as (Hwf' & t & _ & Hq'). split; eauto.
  - destruct (thread_join_inv _ _ _ _ _ _ _ H)
      as (_ & [(_ & -> & _)|(p & t & _ & _ & _ & _ & _ & Hdead & _)]).
    + split; eauto.
    + destruct (thread_dead_done _ _ _ _ _ Hwf Hq Hdead). split; eauto.
  - destruct (thread_detach_inv _ _ _ _ _ _ _ H)
      as (_ & _ & [(_ & -> & _)
                  |(p & t & _ & Hl & Hs & _ & [[Hf Hdead]|[Hf ->]])]).
    + split; eauto.
    + destruct (thread_dead_done _ _ _ _ _ Hwf Hq Hdead). split; eauto.
    + split; [eapply wf_same; eauto|]. exists q.
      eapply quarantine_same; eauto.
  - destruct (thread_finalize_done _ _ _ _ _ Hwf Hq H). split; eauto.
Qed.

(** X6: the registry invariant.  Whatever sequence of ThreadCreate,
    ThreadStart, ThreadFinish, ThreadJoin, ThreadDetach and ThreadFinalize
    calls has returned since the empty registry, every context sits in the
    slot of its tid below [thread_seq], [thread_seq] is at most [kMaxTid],
    and the dead list is a queue of distinct Dead contexts whose length is
    [dead_list_size] and whose last element is [dead_list_tail]. *)
Theorem registry_invariant c :
  registry_reachable SymbolizeStack new_ThreadState internal_alloc c ->
  registry_wf c /\ exists q, quarantine c q.
Proof.
  induction 1 as [|c c' _ [Hwf [q Hq]] Hstep].
  - destruct initial_ctx_wf as [Hwf Hq]. split; eauto.
  - eapply registry_step_keeps; eauto.
Qed.

End FinishFacts.

Section LifecycleTheorems.
Import Rtl Life.

Variable SymbolizeStack : Stack.StackTrace -> ReportStack.
Variable new_ThreadState : Z -> Z -> Z -> Z -> Z -> Z -> ThreadState.
Variable internal_alloc : Z -> bool.

Local Abbreviation ThreadCreate := (ThreadCreate internal_alloc).

(** The search of [ThreadJoin] and [ThreadDetach] stops at the lowest slot
    whose context has the uid and is not Invalid. *)
Lemma find_uid_first c uid p tctx :
  registry_wf c ->
  threads c !! p = Some tctx ->
  tc_uid tctx = uid -> tc_status tctx <> ThreadStatusInvalid ->
  (forall j t', j < p -> threads c !! j = Some t' ->
     tc_uid t' <> uid \/ tc_status t' = ThreadStatusInvalid) ->
  find_uid (Z.to_nat kMaxTid) 0 (threads c) uid = Some p.
Proof.
  intros [Hok Hseq] Hp Hu Hs Hfirst.
  assert (Hin : 0 <= p < 0 + Z.of_nat (Z.to_nat kMaxTid)).
  { destruct (Hok p tctx Hp) as [_ Hr].
    rewrite Z2Nat.id by (vm_compute; discriminate). lia. }
  destruct (find_uid (Z.to_nat kMaxTid) 0 (threads c) uid) as [p'|] eqn:Hf.
  - apply find_uid_some in Hf as (_ & (t' & Hl & Hu' & Hs') & Hlow).
    f_equal. destruct (Z.lt_trichotomy p' p) as [Hlt|[Heq|Hgt]].
    + destruct (Hfirst p' t' Hlt Hl); contradiction.
    + exact Heq.
    + destruct (Hlow p tctx ltac:(lia) Hp); contradiction.
  - destruct (find_uid_none_inv _ _ _ _ Hf p tctx Hin Hp); contradiction.
Qed.

Lemma thread_join_absent c thr pc uid :
  0 < to_u64 (ts_in_rtl thr) ->
  find_uid (Z.to_nat kMaxTid) 0 (threads c) uid = None ->
  ThreadJoin c thr pc uid = Done (c, thr, [join_message]).
Proof.
  intros Hin Hf. unfold ThreadJoin. rewrite Hf.
  now rewrite check_gt_in_rtl by exact Hin.
Qed.

Lemma thread_detach_absent c thr pc uid :
  0 < to_u64 (ts_in_rtl thr) ->
  find_uid (Z.to_nat kMaxTid) 0 (threads c) uid = None ->
  ThreadDetach c thr pc uid = Done (c, thr, [detach_message]).
Proof.
  intros Hin Hf. unfold ThreadDetach. rewrite Hf.
  now rewrite check_gt_in_rtl by exact Hin.
Qed.

(** The part of [ThreadJoin] after the search, on a context that is there
    and not Invalid. *)
Lemma thread_join_at c thr pc uid p tctx :
  0 < to_u64 (ts_in_rtl thr) ->
  find_uid (Z.to_nat kMaxTid) 0 (threads c) uid = Some p ->
  threads c !! p = Some tctx ->
  tc_status tctx <> ThreadStatusInvalid ->
  ThreadJoin c thr pc uid
  = (_ ← CHECK_EQ 217 "(tctx->detached) == (false)"
           (b2z (tc_detached tctx)) (b2z false);
     _ ← CHECK_EQ 218 "(tctx->status) == (ThreadStatusFinished)"
           (status_val (tc_status tctx)) (status_val ThreadStatusFinished);
     c' ← ThreadDead c (set_clock thr (clock_acquire (ts_clock thr)
                                                     (tc_sync tctx))) p;
     Done (c', set_clock thr (clock_acquire (ts_clock thr) (tc_sync tctx)),
           [])).
Proof.
  intros Hin Hf Hl Hs. unfold ThreadJoin. rewrite Hf, Hl.
  rewrite check_gt_in_rtl by exact Hin.
  rewrite (bool_decide_eq_false_2 _ Hs). reflexivity.
Qed.

Lemma thread_detach_at c thr pc uid p tctx :
  0 < to_u64 (ts_in_rtl thr) ->
  find_uid (Z.to_nat kMaxTid) 0 (threads c) uid = Some p ->
  threads c !! p = Some tctx ->
  tc_status tctx <> ThreadStatusInvalid ->
  ThreadDetach c thr pc uid
  = if bool_decide (tc_status tctx = ThreadStatusFinished) then
      c' ← ThreadDead c thr p; Done (c', thr, [])
    else
      Done (set_threads c (<[p := set_detached tctx true]> (threads c)),
            thr, []).
Proof.
  intros Hin Hf Hl Hs. unfold ThreadDetach. rewrite Hf, Hl.
  rewrite check_gt_in_rtl by exact Hin.
  rewrite (bool_decide_eq_false_2 _ Hs). reflexivity.
Qed.

(** What a [ThreadStart] that returns has found. *)
Lemma thread_start_inv dbg c thr tid sa ss ta tsz c' thr' resets :
  ThreadStart new_ThreadState dbg c thr tid sa ss ta tsz
  = Done (c', thr', resets) ->
  0 < to_u64 (ts_in_rtl thr)
  /\ exists tctx,
       threads c !! tid = Some tctx
       /\ tc_status tctx = ThreadStatusCreated
       /\ c' = set_threads c (<[tid := started_tctx tctx]> (threads c))
       /\ thr' = started_thr new_ThreadState tctx tid sa ss ta tsz.
Proof.
  intros H.
  assert (Hin : 0 < to_u64 (ts_in_rtl thr)).
  { destruct (check_gt_zero_cases 126 cond_in_rtl (ts_in_rtl thr))
      as [[Hin _]|[_ E]]; [exact Hin|].
    unfold ThreadStart in H. rewrite E in H. discriminate. }
  split; [exact Hin|].
  destruct (threads c !! tid) as [tctx|] eqn:Ht.
  2:{ unfold ThreadStart in H. rewrite check_gt_in_rtl in H by exact Hin.
      cbn [mbind Result_bind] in H. rewrite Ht in H. discriminate. }
  destruct (decide (tc_status tctx = ThreadStatusCreated)) as [Hs|Hs].
  2:{ rewrite (thread_start_not_created_check_fails_aux new_ThreadState dbg c
                 thr tid sa ss ta tsz tctx Hin Ht Hs) in H. discriminate. }
  destruct (thread_start_created new_ThreadState dbg c thr tid sa ss ta tsz
              tctx Hin Ht Hs) as (r & E).
  rewrite H in E. injection E as -> -> ->.
  exists tctx. now repeat split.
Qed.

(** The reports of [ThreadFinalize] name exactly the tids of the contexts
    that are not detached and Created, Running or Finished. *)
Lemma finalize_reported_ids c thr c' reps t :
  registry_wf c ->
  ThreadFinalize SymbolizeStack c thr = Done (c', reps) ->
  (t ∈ reported_ids reps
   <-> exists tctx, threads c !! t = Some tctx /\ is_leak tctx = true).
Proof.
  intros [Hok Hseq] H. unfold ThreadFinalize in H.
  destruct (check_gt_zero_cases 26 cond_in_rtl (ts_in_rtl thr))
    as [[Hin E]|[_ E]]; rewrite E in H; [|discriminate].
  cbn [mbind Result_bind] in H.
  assert (Hn : Z.of_nat (Z.to_nat kMaxTid) = kMaxTid)
    by (apply Z2Nat.id; vm_compute; discriminate).
  revert H Hn. generalize (Z.to_nat kMaxTid). intros n H Hn.
  pose proof (finalize_loop_spec SymbolizeStack n 0 c []) as Hs.
  cbv zeta in Hs. rewrite Hs in H. injection H as _ <-. clear Hs.
  unfold reported_ids. cbn [app]. rewrite list_elem_of_In, in_flat_map.
  split.
  - intros (r & Hr & Ht). apply in_map_iff in Hr as (x & <- & Hx).
    cbn in Ht. destruct Ht as [<-|[]].
    apply filter_In in Hx as [Hx Hleak].
    apply list_elem_of_In, list_elem_of_omap in Hx as (j & _ & Hj).
    destruct (Hok j x Hj) as [-> _]. eauto.
  - intros (x & Hl & Hleak). exists (leak_report SymbolizeStack x).
    destruct (Hok t x Hl) as [Htid Hr]. split; [|cbn; now left].
    apply in_map, filter_In. split; [|exact Hleak].
    apply list_elem_of_In, list_elem_of_omap. exists t. split; [|exact Hl].
    apply elem_of_seqZ. lia.
Qed.

(** X7: [ThreadJoin] and [ThreadDetach] of an unknown uid.  The call prints
    its "non-existent thread" line and leaves the registry and the calling
    thread as they were exactly when no context that is not Invalid has
    the uid. *)
Theorem join_detach_nonexistent c thr pc uid :
  registry_wf c -> 0 < to_u64 (ts_in_rtl thr) ->
  ((forall j tctx, threads c !! j = Some tctx ->
      tc_uid tctx <> uid \/ tc_status tctx = ThreadStatusInvalid)
   <-> ThreadJoin c thr pc uid = Done (c, thr, [join_message]))
  /\ ((forall j tctx, threads c !! j = Some tctx ->
         tc_uid tctx <> uid \/ tc_status tctx = ThreadStatusInvalid)
      <-> ThreadDetach c thr pc uid = Done (c, thr, [detach_message])).
Proof.
  intros Hwf Hin. split; split.
  - intros H. apply thread_join_absent; [exact Hin|].
    now apply find_uid_table_none.
  - intros H. apply find_uid_table_none; [exact Hwf|].
    destruct (thread_join_inv _ _ _ _ _ _ _ H)
      as (_ & [(Hf & _)|(p & t & _ & _ & _ & _ & _ & _ & Hout)]);
      [exact Hf | discriminate].
  - intros H. apply thread_detach_absent; [exact Hin|].
    now apply find_uid_table_none.
  - intros H. apply find_uid_table_none; [exact Hwf|].
    destruct (thread_detach_inv _ _ _ _ _ _ _ H)
      as (_ & _ & [(Hf & _)|(p & t & _ & _ & _ & Hout & _)]);
      [exact Hf | discriminate].
Qed.

(** X8: [ThreadJoin] of a finished, joinable thread.  When the lowest slot
    answering to the uid holds a Finished context that is not detached, the
    call returns without printing: the caller's clock has acquired the
    context's sync clock, and the context is Dead, has uid 0 and is the
    youngest of the quarantine. *)
Theorem thread_join_finished c thr pc uid p tctx q :
  registry_wf c -> quarantine c q -> 0 < to_u64 (ts_in_rtl thr) ->
  threads c !! p = Some tctx -> tc_uid tctx = uid ->
  tc_status tctx = ThreadStatusFinished -> tc_detached tctx = false ->
  (forall j t', j < p -> threads c !! j = Some t' ->
     tc_uid t' <> uid \/ tc_status t' = ThreadStatusInvalid) ->
  exists c' thr' x,
    ThreadJoin c thr pc uid = Done (c', thr', [])
    /\ registry_wf c' /\ quarantine c' (q ++ [p])
    /\ threads c' !! p = Some x
    /\ tc_status x = ThreadStatusDead /\ tc_uid x = 0
    /\ (forall t e, tc_sync tctx !! t = Some e ->
          exists e', ts_clock thr' !! t = Some e' /\ e <= e')
    /\ (forall t e, ts_clock thr !! t = Some e ->
          exists e', ts_clock thr' !! t = Some e' /\ e <= e').
Proof.
  intros Hwf Hq Hin Hl Hu Hst Hd Hlow.
  assert (Hs : tc_status tctx <> ThreadStatusInvalid) by congruence.
  pose proof (find_uid_first c uid p tctx Hwf Hl Hu Hs Hlow) as Hf.
  set (thr' := set_clock thr (clock_acquire (ts_clock thr) (tc_sync tctx))).
  destruct (thread_dead_appends c thr' p tctx q Hin Hwf Hq Hl (or_intror Hst))
    as (c' & Hdead & Hq' & Hwf' & _).
  destruct (thread_dead_slots _ _ _ _ Hdead)
    as (_ & _ & (x & Hx & Hxs & Hxu & _) & _).
  exists c', thr', x. split.
  { rewrite (thread_join_at c thr pc uid p tctx Hin Hf Hl Hs).
    rewrite check_eq_b2z, Hd, check_eq_status, Hst.
    rewrite !bool_decide_eq_true_2 by reflexivity.
    cbn [mbind Result_bind]. fold thr'. now rewrite Hdead. }
  split; [exact Hwf'|]. split; [exact Hq'|]. split; [exact Hx|].
  split; [exact Hxs|]. split; [exact Hxu|]. split.
  - intros t e He. now apply clock_acquire_dominates.
  - intros t e He. cbn [thr' ts_clock set_clock]. unfold clock_acquire.
    rewrite lookup_union_with, He.
    destruct (tc_sync tctx !! t) as [y|]; cbn; eexists; split;
      try reflexivity; lia.
Qed.

(** X9: the checks of [ThreadJoin].  Joining a detached thread fails the
    check of line 217; joining a joinable thread that is not Finished (one
    that is Created, Running or already Dead) fails the check of line
    218. *)
Theorem thread_join_check_fails c thr pc uid p tctx :
  registry_wf c -> 0 < to_u64 (ts_in_rtl thr) ->
  threads c !! p = Some tctx -> tc_uid tctx = uid ->
  tc_status tctx <> ThreadStatusInvalid ->
  (forall j t', j < p -> threads c !! j = Some t' ->
     tc_uid t' <> uid \/ tc_status t' = ThreadStatusInvalid) ->
  (tc_detached tctx = true ->
   ThreadJoin c thr pc uid
   = Stop (CheckFailed 217 "(tctx->detached) == (false)" 1 0))
  /\ (tc_detached tctx = false ->
      tc_status tctx <> ThreadStatusFinished ->
      ThreadJoin c thr pc uid
      = Stop (CheckFailed 218 "(tctx->status) == (ThreadStatusFinished)"
                          (status_val (tc_status tctx)) 3)).
Proof.
  intros Hwf Hin Hl Hu Hs Hlow.
  pose proof (find_uid_first c uid p tctx Hwf Hl Hu Hs Hlow) as Hf.
  rewrite (thread_join_at c thr pc uid p tctx Hin Hf Hl Hs).
  split.
  - intros Hd. rewrite check_eq_b2z, Hd. reflexivity.
  - intros Hd Hst. rewrite check_eq_b2z, Hd, check_eq_status.
    rewrite (bool_decide_eq_false_2 _ Hst). reflexivity.
Qed.

(** X10: a thread is joined once.  When at most one context answers to a
    nonzero uid and a [ThreadJoin] of it has returned without printing, a
    second [ThreadJoin] of the same uid reports a non-existent thread and
    changes nothing. *)
Theorem thread_join_twice c q thr pc uid c' thr' thr2 pc2 :
  registry_wf c -> quarantine c q -> uid <> 0 ->
  (forall i j x y, threads c !! i = Some x -> threads c !! j = Some y ->
     tc_uid x = uid -> tc_uid y = uid ->
     tc_status x <> ThreadStatusInvalid ->
     tc_status y <> ThreadStatusInvalid -> i = j) ->
  ThreadJoin c thr pc uid = Done (c', thr', []) ->
  0 < to_u64 (ts_in_rtl thr2) ->
  ThreadJoin c' thr2 pc2 uid = Done (c', thr2, [join_message]).
Proof.
  intros Hwf Hq Hnz Huniq H Hin2.
  destruct (thread_join_inv _ _ _ _ _ _ _ H)
    as (_ & [(_ & _ & _ & Hout)|(p & t & Hf & Hl & _ & Hst & _ & Hdead & _)]);
    [discriminate|].
  destruct (find_uid_some _ _ _ _ _ Hf) as (_ & (t0 & Hl0 & Hu & Hs) & _).
  rewrite Hl in Hl0. injection Hl0 as <-.
  destruct (thread_dead_done _ _ _ _ _ Hwf Hq Hdead) as [Hwf' _].
  destruct (thread_dead_slots _ _ _ _ Hdead)
    as (_ & _ & (x & Hx & _ & Hxu & _) & Hothers & _).
  apply thread_join_absent; [exact Hin2|].
  apply find_uid_table_none; [exact Hwf'|].
  intros j y Hj. destruct (decide (j = p)) as [->|Hne].
  - rewrite Hx in Hj. injection Hj as <-. left. congruence.
  - specialize (Hothers j Hne). rewrite Hj in Hothers.
    destruct (threads c !! j) as [z|] eqn:Hz; [|contradiction].
    destruct Hothers as (Hyu & Hys & _).
    destruct (decide (tc_uid y = uid)) as [Hyuid|]; [|now left].
    destruct (decide (tc_status y = ThreadStatusInvalid)) as [|Hyst];
      [now right|].
    exfalso. apply Hne.
    apply (Huniq j p z t Hz Hl); congruence.
Qed.

Lemma thread_finish_returns c thr sa ss ta tsz tctx q :
  registry_wf c -> quarantine c q -> 0 < to_u64 (ts_in_rtl thr) ->
  threads c !! fs_tid (ts_fast_state thr) = Some tctx ->
  tc_status tctx = ThreadStatusRunning ->
  exists r, ThreadFinish c thr sa ss ta tsz = Done r.
Proof.
  intros Hwf Hq Hin Hl Hst. unfold ThreadFinish.
  rewrite check_gt_in_rtl by exact Hin. cbn [mbind Result_bind].
  rewrite Hl.
  change (CHECK_NE 164 "(tctx) != (0)"
            (ptr_val (Some (fs_tid (ts_fast_state thr)))) 0) with (Done tt).
  cbn [mbind Result_bind]. rewrite check_eq_status, Hst.
  rewrite bool_decide_eq_true_2 by reflexivity. cbn [mbind Result_bind].
  destruct (tc_detached tctx).
  - destruct (thread_dead_appends c thr _ tctx q Hin Hwf Hq Hl
                (or_introl Hst)) as (c1 & Hdead & _).
    rewrite Hdead. cbn [mbind Result_bind].
    destruct (thread_dead_slots _ _ _ _ Hdead)
      as (_ & _ & (x & Hx & _) & _).
    rewrite Hx. eexists. reflexivity.
  - cbn [mbind Result_bind threads set_threads].
    rewrite lookup_insert_eq. eexists. reflexivity.
Qed.

(** X11: [ThreadDetach] of a known thread.  The call returns without
    printing.  A Finished context goes to the young end of the quarantine;
    any other gets its detached flag set and stays where it is.  Either
    way a [ThreadFinalize] that follows does not report the thread. *)
Theorem thread_detach_found c thr pc uid p tctx q :
  registry_wf c -> quarantine c q -> 0 < to_u64 (ts_in_rtl thr) ->
  threads c !! p = Some tctx -> tc_uid tctx = uid ->
  tc_status tctx <> ThreadStatusInvalid ->
  (forall j t', j < p -> threads c !! j = Some t' ->
     tc_uid t' <> uid \/ tc_status t' = ThreadStatusInvalid) ->
  exists c',
    ThreadDetach c thr pc uid = Done (c', thr, [])
    /\ registry_wf c'
    /\ quarantine c'
         (if bool_decide (tc_status tctx = ThreadStatusFinished)
          then q ++ [p] else q)
    /\ (exists x, threads c' !! p = Some x
                  /\ (if bool_decide (tc_status tctx = ThreadStatusFinished)
                      then tc_status x = ThreadStatusDead
                      else x = set_detached tctx true))
    /\ (forall thr2 c'' reps,
          ThreadFinalize SymbolizeStack c' thr2 = Done (c'', reps) ->
          p ∉ reported_ids reps).
Proof.
  intros Hwf Hq Hin Hl Hu Hs Hlow.
  pose proof (find_uid_first c uid p tctx Hwf Hl Hu Hs Hlow) as Hf.
  rewrite (thread_detach_at c thr pc uid p tctx Hin Hf Hl Hs).
  assert (Hsilent : forall c' x,
            registry_wf c' -> threads c' !! p = Some x ->
            is_leak x = false ->
            forall thr2 c'' reps,
              ThreadFinalize SymbolizeStack c' thr2 = Done (c'', reps) ->
              p ∉ reported_ids reps).
  { intros c' x Hwf' Hx Hleak thr2 c'' reps Hfin Hel.
    apply (finalize_reported_ids c' thr2 c'' reps p Hwf' Hfin) in Hel
      as (y & Hy & Hleaky). congruence. }
  case_bool_decide as Hst.
  - destruct (thread_dead_appends c thr p tctx q Hin Hwf Hq Hl
                (or_intror Hst)) as (c' & Hdead & Hq' & Hwf' & _).
    destruct (thread_dead_slots _ _ _ _ Hdead)
      as (_ & _ & (x & Hx & Hxs & _) & _).
    exists c'. rewrite Hdead. split; [reflexivity|].
    split; [exact Hwf'|]. split; [exact Hq'|]. split; [eauto|].
    apply (Hsilent c' x Hwf' Hx). unfold is_leak. rewrite Hxs.
    apply andb_false_r.
  - eexists. split; [reflexivity|].
    split; [eapply wf_same; eauto|].
    split; [eapply quarantine_same; eauto|].
    split; [cbn; rewrite lookup_insert_eq; eauto|].
    eapply Hsilent; [eapply wf_same; eauto | cbn; apply lookup_insert_eq |].
    reflexivity.
Qed.

(** Detach and finish in either order.  A running, joinable thread
    that is detached and then finishes, or finishes and is then detached,
    ends Dead at the young end of the quarantine. *)
Theorem detach_and_finish_quarantine c q thr_d pc uid thr sa ss ta tsz tctx :
  registry_wf c -> quarantine c q ->
  0 < to_u64 (ts_in_rtl thr_d) -> 0 < to_u64 (ts_in_rtl thr) ->
  threads c !! fs_tid (ts_fast_state thr) = Some tctx -> tc_uid tctx = uid ->
  tc_status tctx = ThreadStatusRunning -> tc_detached tctx = false ->
  (forall j t', j < fs_tid (ts_fast_state thr) -> threads c !! j = Some t' ->
     tc_uid t' <> uid \/ tc_status t' = ThreadStatusInvalid) ->
  (exists c1 r,
      ThreadDetach c thr_d pc uid = Done (c1, thr_d, [])
      /\ ThreadFinish c1 thr sa ss ta tsz = Done r
      /\ quarantine (fin_ctx r) (q ++ [fs_tid (ts_fast_state thr)]))
  /\ (exists r c2,
         ThreadFinish c thr sa ss ta tsz = Done r
         /\ ThreadDetach (fin_ctx r) thr_d pc uid = Done (c2, thr_d, [])
         /\ quarantine c2 (q ++ [fs_tid (ts_fast_state thr)])).
Proof.
  intros Hwf Hq Hind Hin Hl Hu Hst Hd Hlow.
  set (p := fs_tid (ts_fast_state thr)) in *.
  assert (Hs : tc_status tctx <> ThreadStatusInvalid) by congruence.
  pose proof (find_uid_first c uid p tctx Hwf Hl Hu Hs Hlow) as Hf.
  split.
  - set (c1 := set_threads c (<[p := set_detached tctx true]> (threads c))).
    assert (Hwf1 : registry_wf c1) by (eapply wf_same; eauto).
    assert (Hq1 : quarantine c1 q) by (eapply quarantine_same; eauto).
    assert (Hl1 : threads c1 !! p = Some (set_detached tctx true))
      by (cbn; apply lookup_insert_eq).
    destruct (thread_finish_returns c1 thr sa ss ta tsz _ q Hwf1 Hq1 Hin Hl1
                Hst) as (r & Hr).
    exists c1, r. split.
    { rewrite (thread_detach_at c thr_d pc uid p tctx Hind Hf Hl Hs).
      rewrite bool_decide_eq_false_2 by congruence. reflexivity. }
    split; [exact Hr|].
    destruct (thread_finish_done _ _ _ _ _ _ _ _ Hwf1 Hq1 Hr)
      as (_ & t' & Hl' & Hq').
    fold p in Hl', Hq'. rewrite Hl1 in Hl'. injection Hl' as <-.
    exact Hq'.
  - destruct (thread_finish_returns c thr sa ss ta tsz tctx q Hwf Hq Hin Hl
                Hst) as (r & Hr).
    destruct (thread_finish_done _ _ _ _ _ _ _ _ Hwf Hq Hr)
      as (Hwfr & t' & Hl' & Hqr).
    fold p in Hl', Hqr. rewrite Hl in Hl'. injection Hl' as <-.
    rewrite Hd in Hqr.
    destruct (thread_finish_inv _ _ _ _ _ _ _ Hr)
      as (_ & t' & Hl' & _ & [(Hd' & _)|(_ & _ & Hctx)]);
      fold p in Hl'; rewrite Hl in Hl'; injection Hl' as <-;
      [congruence|]. fold p in Hctx.
    set (X := finish_epochs (finished_tctx tctx (finished_thr thr))
                            (finished_thr thr)) in Hctx.
    assert (HlX : threads (fin_ctx r) !! p = Some X)
      by (rewrite Hctx; cbn; apply lookup_insert_eq).
    assert (HsX : tc_status X <> ThreadStatusInvalid) by (cbn; congruence).
    assert (HfX : find_uid (Z.to_nat kMaxTid) 0 (threads (fin_ctx r)) uid
                  = Some p).
    { apply (find_uid_first (fin_ctx r) uid p X Hwfr HlX Hu HsX).
      intros j t' Hj Hlj. rewrite Hctx in Hlj. cbn in Hlj.
      rewrite lookup_insert_ne in Hlj by lia. eauto. }
    destruct (thread_dead_appends (fin_ctx r) thr_d p X q Hind Hwfr Hqr HlX
                (or_intror eq_refl)) as (c2 & Hdead & Hq2 & _).
    exists r, c2. split; [exact Hr|]. split; [|exact Hq2].
    rewrite (thread_detach_at (fin_ctx r) thr_d pc uid p X Hind HfX HlX HsX).
    rewrite bool_decide_eq_true_2 by reflexivity. now rewrite Hdead.
Qed.

(** X12: creation happens before the start of the child.  After a
    [ThreadCreate] that returned a nonzero tid, the [ThreadStart] of that
    tid leaves the child with a clock that is, component by component, at
    least the creator's clock after the call, which holds the creator's
    incremented epoch; the context is Running under the uid given. *)
Theorem create_start_happens_before dbg c q thr pc uid detached c1 thr1 tid
        thr0 sa ss ta tsz c2 child resets :
  registry_wf c -> quarantine c q ->
  ThreadCreate c thr pc uid detached = Done (c1, thr1, tid) ->
  tid <> 0 ->
  ThreadStart new_ThreadState dbg c1 thr0 tid sa ss ta tsz
  = Done (c2, child, resets) ->
  (forall t e, ts_clock thr1 !! t = Some e ->
     exists e', ts_clock child !! t = Some e' /\ e <= e')
  /\ ts_clock thr1 !! fs_tid (ts_fast_state thr)
     = Some (fs_epoch (ts_fast_state thr) + 1)
  /\ (exists x, threads c2 !! tid = Some x
                /\ tc_status x = ThreadStatusRunning /\ tc_uid x = uid
                /\ tc_detached x = detached).
Proof.
  intros Hwf Hq Hcreate Hnz Hstart.
  destruct (thread_create_done _ _ _ _ _ _ _ _ _ _ Hwf Hq Hcreate)
    as (_ & _ & (x & Hx & _ & Hxu & Hxd & _ & Hsync) & _ & Hthr).
  destruct (thread_start_inv _ _ _ _ _ _ _ _ _ _ _ Hstart)
    as (_ & t & Ht & _ & -> & ->).
  rewrite Hx in Ht. injection Ht as <-.
  split; [|split].
  - intros j e He. cbn [started_thr ts_clock set_clock].
    apply clock_acquire_dominates. now rewrite (Hsync Hnz).
  - rewrite Hthr. apply Z.eqb_neq in Hnz. rewrite Hnz.
    cbn [released_thr ts_clock]. apply lookup_insert_eq.
  - eexists. split; [cbn; apply lookup_insert_eq|].
    repeat split; assumption.
Qed.

(** X13: the end of a thread happens before the return of its join.  After
    the [ThreadFinish] of a joinable thread, a [ThreadJoin] of its uid that
    returns without printing leaves the joiner with a clock that is,
    component by component, at least the finished thread's last clock,
    which holds its incremented epoch; the context is then Dead. *)
Theorem finish_join_happens_before c thr sa ss ta tsz r tctx joiner pc uid
        c2 joiner' :
  threads c !! fs_tid (ts_fast_state thr) = Some tctx ->
  tc_detached tctx = false -> tc_uid tctx = uid ->
  (forall j x, threads c !! j = Some x -> tc_uid x = uid ->
     tc_status x <> ThreadStatusInvalid -> j = fs_tid (ts_fast_state thr)) ->
  ThreadFinish c thr sa ss ta tsz = Done r ->
  ThreadJoin (fin_ctx r) joiner pc uid = Done (c2, joiner', []) ->
  (forall t e, ts_clock (fin_thr r) !! t = Some e ->
     exists e', ts_clock joiner' !! t = Some e' /\ e <= e')
  /\ ts_clock (fin_thr r) !! fs_tid (ts_fast_state thr)
     = Some (fs_epoch (ts_fast_state thr) + 1)
  /\ (exists x, threads c2 !! fs_tid (ts_fast_state thr) = Some x
                /\ tc_status x = ThreadStatusDead).
Proof.
  intros Hl Hd Hu Huniq Hfin Hjoin.
  set (p := fs_tid (ts_fast_state thr)) in *.
  destruct (thread_finish_inv _ _ _ _ _ _ _ Hfin)
    as (_ & t' & Hl' & _ & [(Hd' & _)|(_ & Hthr & Hctx)]);
    fold p in Hl'; rewrite Hl in Hl'; injection Hl' as <-; [congruence|].
  fold p in Hctx.
  set (X := finish_epochs (finished_tctx tctx (finished_thr thr))
                          (finished_thr thr)) in Hctx.
  destruct (thread_join_inv _ _ _ _ _ _ _ Hjoin)
    as (_ & [(_ & _ & _ & Hout)
            |(p' & t & Hf & Hlt & _ & _ & Hj' & Hdead & _)]);
    [discriminate|].
  destruct (find_uid_some _ _ _ _ _ Hf) as (_ & (t0 & Hl0 & Hu0 & Hs0) & _).
  rewrite Hlt in Hl0. injection Hl0 as <-.
  assert (Hp : p' = p).
  { destruct (decide (p' = p)) as [|Hne]; [assumption|].
    rewrite Hctx in Hlt. cbn in Hlt.
    rewrite lookup_insert_ne in Hlt by congruence. eauto. }
  subst p'. rewrite Hctx in Hlt. cbn in Hlt.
  rewrite lookup_insert_eq in Hlt. injection Hlt as <-.
  split; [|split].
  - intros j e He. rewrite Hj'. cbn [ts_clock set_clock].
    rewrite Hthr in He.
    destruct (clock_release_dominates (ts_clock (finished_thr thr))
                (tc_sync tctx) j e He) as (e1 & He1 & Hle1).
    destruct (clock_acquire_dominates (ts_clock joiner) (tc_sync X) j e1)
      as (e2 & He2 & Hle2); [exact He1|].
    exists e2. split; [exact He2 | lia].
  - rewrite Hthr. cbn. apply lookup_insert_eq.
  - destruct (thread_dead_slots _ _ _ _ Hdead)
      as (_ & _ & (x & Hx & Hxs & _) & _). eauto.
Qed.

(** X14: when [ThreadStart] returns.  The call returns exactly when the
    caller is inside the runtime and the slot of the tid holds a Created
    context; it then makes that context Running and writes no other
    slot. *)
Theorem thread_start_returns_iff dbg c thr tid sa ss ta tsz :
  ((exists c' thr' resets,
       ThreadStart new_ThreadState dbg c thr tid sa ss ta tsz
       = Done (c', thr', resets))
   <-> (0 < to_u64 (ts_in_rtl thr)
        /\ exists tctx, threads c !! tid = Some tctx
                        /\ tc_status tctx = ThreadStatusCreated))
  /\ (forall c' thr' resets,
        ThreadStart new_ThreadState dbg c thr tid sa ss ta tsz
        = Done (c', thr', resets) ->
        (exists x, threads c' !! tid = Some x
                   /\ tc_status x = ThreadStatusRunning
                   /\ tc_thr x = true)
        /\ (forall j, j <> tid -> threads c' !! j = threads c !! j)).
Proof.
  split; [split|].
  - intros (c' & thr' & resets & H).
    destruct (thread_start_inv _ _ _ _ _ _ _ _ _ _ _ H)
      as (Hin & t & Hl & Hs & _). eauto.
  - intros (Hin & t & Hl & Hs).
    destruct (thread_start_created new_ThreadState dbg c thr tid sa ss ta tsz
                t Hin Hl Hs) as (r & E). eauto.
  - intros c' thr' resets H.
    destruct (thread_start_inv _ _ _ _ _ _ _ _ _ _ _ H)
      as (_ & t & _ & _ & -> & _). split.
    + eexists. split; [cbn; apply lookup_insert_eq|]. now split.
    + intros j Hj. cbn. now rewrite lookup_insert_ne by congruence.
Qed.

(** X15: when [ThreadFinish] returns.  In a well-formed registry the call
    returns exactly when the caller is inside the runtime and the slot of
    its tid holds a Running context; that context is then Finished when
    it is joinable and Dead when it is detached, no longer points to a
    thread state, and has as [epoch1] the thread's own component of its
    last clock. *)
Theorem thread_finish_returns_iff c q thr sa ss ta tsz :
  registry_wf c -> quarantine c q ->
  ((exists r, ThreadFinish c thr sa ss ta tsz = Done r)
   <-> (0 < to_u64 (ts_in_rtl thr)
        /\ exists tctx,
             threads c !! fs_tid (ts_fast_state thr) = Some tctx
             /\ tc_status tctx = ThreadStatusRunning))
  /\ (forall r tctx,
        ThreadFinish c thr sa ss ta tsz = Done r ->
        threads c !! fs_tid (ts_fast_state thr) = Some tctx ->
        exists x,
          threads (fin_ctx r) !! fs_tid (ts_fast_state thr) = Some x
          /\ tc_status x = (if tc_detached tctx then ThreadStatusDead
                            else ThreadStatusFinished)
          /\ tc_thr x = false
          /\ tc_epoch1 x = clock_get (ts_clock (fin_thr r))
                                     (fs_tid (ts_fast_state thr))).
Proof.
  intros Hwf Hq. split; [split|].
  - intros (r & Hr).
    destruct (thread_finish_inv _ _ _ _ _ _ _ Hr) as (Hin & t & Hl & Hs & _).
    eauto.
  - intros (Hin & t & Hl & Hs). eapply thread_finish_returns; eauto.
  - intros r tctx Hr Hl.
    destruct (proj1 Hwf _ _ Hl) as [Htid _].
    destruct (thread_finish_inv _ _ _ _ _ _ _ Hr)
      as (_ & t & Hl' & _ & [(Hd & c1 & x & Hdead & Hx & Hc & Ht)
                            |(Hd & Ht & Hc)]);
      rewrite Hl in Hl'; injection Hl' as <-; rewrite Hd, Hc, Ht.
    + destruct (thread_dead_done _ _ _ _ _ Hwf Hq Hdead) as [Hwf1 _].
      destruct (proj1 Hwf1 _ _ Hx) as [Hxtid _].
      destruct (thread_dead_slots _ _ _ _ Hdead)
        as (_ & _ & (x' & Hx' & Hxs & _) & _).
      rewrite Hx in Hx'. injection Hx' as <-.
      eexists. split; [cbn; apply lookup_insert_eq|].
      split; [exact Hxs|]. split; [reflexivity|]. cbn. now rewrite Hxtid.
    + eexists. split; [cbn; apply lookup_insert_eq|].
      split; [reflexivity|]. split; [reflexivity|].
      cbn [finish_epochs finished_tctx tc_epoch1 set_thr set_epochs tc_tid
           set_status set_sync]. now rewrite Htid.
Qed.

(** [ThreadFinalize] writes only the counter of reports.  A call that
    returns leaves the thread table, the sequence counter and the dead list
    as they were and adds the number of its reports to [nreported]; so a
    second call returns the same reports again. *)
Theorem thread_finalize_repeats c thr c' reps :
  ThreadFinalize SymbolizeStack c thr = Done (c', reps) ->
  threads c' = threads c /\ thread_seq c' = thread_seq c
  /\ dead_list_size c' = dead_list_size c
  /\ nreported c' = nreported c + Z.of_nat (List.length reps)
  /\ exists c'',
       ThreadFinalize SymbolizeStack c' thr = Done (c'', reps)
       /\ nreported c'' = nreported c + 2 * Z.of_nat (List.length reps).
Proof.
  intros H.
  destruct (thread_finalize_frame SymbolizeStack _ _ _ _ H)
    as (Ht & Hs & _ & _ & Hz & Hn).
  split; [exact Ht|]. split; [exact Hs|]. split; [exact Hz|].
  split; [exact Hn|].
  unfold ThreadFinalize in *.
  destruct (check_gt_zero_cases 26 cond_in_rtl (ts_in_rtl thr))
    as [[Hin E]|[_ E]]; rewrite E in *; [|discriminate].
  cbn [mbind Result_bind] in *. revert H.
  generalize (Z.to_nat kMaxTid). intros n H.
  pose proof (finalize_loop_spec SymbolizeStack n 0 c []) as Hs1.
  pose proof (finalize_loop_spec SymbolizeStack n 0 c' []) as Hs2.
  cbv zeta in Hs1, Hs2. rewrite Hs1 in H. rewrite Hs2. rewrite Ht.
  injection H as _ <-. eexists. split; [reflexivity|].
  cbn [nreported]. rewrite Hn, !length_map. lia.
Qed.

(** What [ThreadCreate] leaves alone.  The tid it returns is below
    [kMaxTid] and was, before the call, that of no context or of a Dead
    one, never of a context that is Created, Running or Finished; every
    other slot of the table is as it was. *)
Theorem thread_create_frame c q thr pc uid detached c' thr' tid :
  registry_wf c -> quarantine c q ->
  ThreadCreate c thr pc uid detached = Done (c', thr', tid) ->
  0 <= tid < kMaxTid
  /\ (threads c !! tid = None
      \/ exists tctx, threads c !! tid = Some tctx
                      /\ tc_status tctx = ThreadStatusDead)
  /\ (forall j, j <> tid -> threads c' !! j = threads c !! j)
  /\ ts_in_rtl thr' = ts_in_rtl thr
  /\ ts_shadow_stack thr' = ts_shadow_stack thr.
Proof.
  intros Hwf Hq H.
  destruct (thread_create_done _ _ _ _ _ _ _ _ _ _ Hwf Hq H)
    as ([Hok Hseq] & Hcase & (x & Hx & _) & Hothers & Hthr).
  split; [destruct (Hok _ _ Hx); lia|].
  split.
  { destruct Hcase as [(Hn & _)|(q' & t & _ & Ht & Hs & _)]; eauto. }
  split; [exact Hothers|].
  rewrite Hthr. destruct (tid =? 0); split; reflexivity.
Qed.

End LifecycleTheorems.

Section LifecycleSamples.
Import Rtl Life.

(** The four contexts of [sample_ctx], slot by slot. *)
Lemma sample_ctx_slots j t :
  threads sample_ctx !! j = Some t ->
  (j = 0 /\ tc_uid t = 11 /\ tc_status t = ThreadStatusRunning)
  \/ (j = 1 /\ tc_uid t = 12 /\ tc_status t = ThreadStatusFinished)
  \/ (j = 2 /\ tc_uid t = 13 /\ tc_status t = ThreadStatusRunning)
  \/ (j = 3 /\ tc_uid t = 0 /\ tc_status t = ThreadStatusDead).
Proof.
  intros H. unfold sample_ctx in H. cbn [threads] in H.
  apply elem_of_list_to_map_2 in H.
  repeat (apply elem_of_cons in H as [H|H];
          [injection H as -> ->; cbn; tauto|]).
  now apply elem_of_nil in H.
Qed.

Lemma sample_ctx_lowest p uid :
  (p = 0 /\ uid = 11) \/ (p = 1 /\ uid = 12) \/ (p = 2 /\ uid = 13) ->
  forall j t', j < p -> threads sample_ctx !! j = Some t' ->
    tc_uid t' <> uid \/ tc_status t' = ThreadStatusInvalid.
Proof.
  intros Hp j t' Hj Hl. left.
  destruct (sample_ctx_slots j t' Hl)
    as [(-> & -> & _)|[(-> & -> & _)|[(-> & -> & _)|(-> & -> & _)]]]; lia.
Qed.

Lemma sample_thr_in_rtl : 0 < to_u64 (ts_in_rtl sample_thr).
Proof. reflexivity. Qed.

End LifecycleSamples.

Lemma registry_invariant_witness :
  exists c thr tid,
    Rtl.ThreadCreate Rtl.sample_alloc (Rtl.mkContext ∅ 0 None None 0 0)
                     Rtl.sample_thr 7 12 false = Rtl.Done (c, thr, tid)
    /\ Rtl.registry_wf c /\ exists q, Rtl.quarantine c q.
Proof.
  destruct (Rtl.ThreadCreate Rtl.sample_alloc
              (Rtl.mkContext ∅ 0 None None 0 0) Rtl.sample_thr 7 12 false)
    as [[[c thr] tid]|e] eqn:E; [|vm_compute in E; discriminate].
  exists c, thr, tid. split; [reflexivity|].
  apply (registry_invariant Rtl.sample_symbolize Rtl.sample_new_ThreadState
           Rtl.sample_alloc).
  eapply Life.rr_step; [apply Life.rr_init|].
  eapply Life.rs_create. exact E.
Defined.

Lemma join_detach_nonexistent_witness :
  Life.ThreadJoin Rtl.sample_ctx Rtl.sample_thr 0 99
  = Rtl.Done (Rtl.sample_ctx, Rtl.sample_thr, [Life.join_message])
  /\ Life.ThreadDetach Rtl.sample_ctx Rtl.sample_thr 0 99
     = Rtl.Done (Rtl.sample_ctx, Rtl.sample_thr, [Life.detach_message]).
Proof.
  assert (H : forall j tctx, Rtl.threads Rtl.sample_ctx !! j = Some tctx ->
                Rtl.tc_uid tctx <> 99
                \/ Rtl.tc_status tctx = Rtl.ThreadStatusInvalid).
  { intros j t Hl. left.
    destruct (sample_ctx_slots j t Hl)
      as [(_ & -> & _)|[(_ & -> & _)|[(_ & -> & _)|(_ & -> & _)]]];
      discriminate. }
  destruct (join_detach_nonexistent Rtl.sample_ctx Rtl.sample_thr 0 99
              sample_ctx_wf sample_thr_in_rtl) as [[Hj _] [Hd _]].
  split; [exact (Hj H) | exact (Hd H)].
Defined.

Lemma thread_join_finished_witness :
  exists c' thr' x,
    Life.ThreadJoin Rtl.sample_ctx Rtl.sample_thr 0 12
    = Rtl.Done (c', thr', [])
    /\ Rtl.quarantine c' [3; 1]
    /\ Rtl.threads c' !! 1 = Some x
    /\ Rtl.tc_status x = Rtl.ThreadStatusDead.
Proof.
  destruct (thread_join_finished Rtl.sample_ctx Rtl.sample_thr 0 12 1
              (Rtl.mkThreadContext 1 12 Rtl.ThreadStatusFinished false 0 ∅
                 (Rtl.Stack.holding [100; 7]) 1 5 false None) [3]
              sample_ctx_wf sample_ctx_quarantine sample_thr_in_rtl
              eq_refl eq_refl eq_refl eq_refl)
    as (c' & thr' & x & H & _ & Hq & Hx & Hs & _).
  - apply sample_ctx_lowest. tauto.
  - exists c', thr', x. split; [exact H|]. split; [exact Hq|].
    split; [exact Hx | exact Hs].
Defined.

Lemma thread_join_check_fails_witness :
  Life.ThreadJoin Rtl.sample_ctx Rtl.sample_thr 0 13
  = Rtl.Stop (Rtl.CheckFailed 217 "(tctx->detached) == (false)" 1 0)
  /\ Life.ThreadJoin Rtl.sample_ctx Rtl.sample_thr 0 11
     = Rtl.Stop (Rtl.CheckFailed 218
                   "(tctx->status) == (ThreadStatusFinished)" 2 3).
Proof.
  split.
  - apply (thread_join_check_fails Rtl.sample_ctx Rtl.sample_thr 0 13 2
             (Rtl.mkThreadContext 2 13 Rtl.ThreadStatusRunning true 0 ∅
                (Rtl.Stack.holding [100; 8]) 1 0 true None)
             sample_ctx_wf sample_thr_in_rtl eq_refl eq_refl);
      [discriminate | apply sample_ctx_lowest; tauto | reflexivity].
  - apply (thread_join_check_fails Rtl.sample_ctx Rtl.sample_thr 0 11 0
             (Rtl.mkThreadContext 0 11 Rtl.ThreadStatusRunning false 0 ∅
                Rtl.Stack.StackTrace_new 1 0 true None)
             sample_ctx_wf sample_thr_in_rtl eq_refl eq_refl);
      [discriminate | apply sample_ctx_lowest; tauto | reflexivity
       | discriminate].
Defined.

Lemma thread_join_twice_witness :
  match Life.ThreadJoin Rtl.sample_ctx Rtl.sample_thr 0 12 with
  | Rtl.Done (c', _, _) =>
      Life.ThreadJoin c' Rtl.sample_thr 0 12
      = Rtl.Done (c', Rtl.sample_thr, [Life.join_message])
  | Rtl.Stop _ => False
  end.
Proof.
  destruct (Life.ThreadJoin Rtl.sample_ctx Rtl.sample_thr 0 12)
    as [[[c' thr'] out]|a] eqn:E; [|vm_compute in E; discriminate].
  assert (Hout : out = [])
    by (pose proof E as E'; vm_compute in E';
        injection E' as _ _ <-; reflexivity).
  subst out.
  apply (thread_join_twice Rtl.sample_ctx [3] Rtl.sample_thr 0 12 c' thr'
           Rtl.sample_thr 0 sample_ctx_wf sample_ctx_quarantine);
    [discriminate | | exact E | exact sample_thr_in_rtl].
  intros i j x y Hi Hj Hxu Hyu _ _.
  destruct (sample_ctx_slots i x Hi)
    as [(-> & Hx & _)|[(-> & Hx & _)|[(-> & Hx & _)|(-> & Hx & _)]]];
    destruct (sample_ctx_slots j y Hj)
      as [(-> & Hy & _)|[(-> & Hy & _)|[(-> & Hy & _)|(-> & Hy & _)]]];
    congruence.
Defined.

Lemma thread_detach_found_witness :
  exists c',
    Life.ThreadDetach Rtl.sample_ctx Rtl.sample_thr 0 11
    = Rtl.Done (c', Rtl.sample_thr, [])
    /\ Rtl.quarantine c' [3]
    /\ forall thr2 c'' reps,
         Rtl.ThreadFinalize Rtl.sample_symbolize c' thr2
         = Rtl.Done (c'', reps) ->
         0 ∉ Life.reported_ids reps.
Proof.
  destruct (thread_detach_found Rtl.sample_symbolize Rtl.sample_ctx
              Rtl.sample_thr 0 11 0
              (Rtl.mkThreadContext 0 11 Rtl.ThreadStatusRunning false 0 ∅
                 Rtl.Stack.StackTrace_new 1 0 true None) [3]
              sample_ctx_wf sample_ctx_quarantine sample_thr_in_rtl
              eq_refl eq_refl)
    as (c' & H & _ & Hq & _ & Hsilent).
  - discriminate.
  - apply sample_ctx_lowest. tauto.
  - exists c'. split; [exact H|]. split; [exact Hq | exact Hsilent].
Defined.

Lemma detach_and_finish_quarantine_witness :
  (exists c1 r,
      Life.ThreadDetach Rtl.sample_ctx Rtl.sample_thr 0 11
      = Rtl.Done (c1, Rtl.sample_thr, [])
      /\ Life.ThreadFinish c1 Rtl.sample_thr 0 0 0 0 = Rtl.Done r
      /\ Rtl.quarantine (Life.fin_ctx r) [3; 0])
  /\ (exists r c2,
         Life.ThreadFinish Rtl.sample_ctx Rtl.sample_thr 0 0 0 0 = Rtl.Done r
         /\ Life.ThreadDetach (Life.fin_ctx r) Rtl.sample_thr 0 11
            = Rtl.Done (c2, Rtl.sample_thr, [])
         /\ Rtl.quarantine c2 [3; 0]).
Proof.
  apply (detach_and_finish_quarantine Rtl.sample_ctx [3] Rtl.sample_thr 0 11
           Rtl.sample_thr 0 0 0 0
           (Rtl.mkThreadContext 0 11 Rtl.ThreadStatusRunning false 0 ∅
              Rtl.Stack.StackTrace_new 1 0 true None)
           sample_ctx_wf sample_ctx_quarantine sample_thr_in_rtl
           sample_thr_in_rtl eq_refl eq_refl eq_refl eq_refl).
  apply sample_ctx_lowest. tauto.
Defined.

Lemma create_start_happens_before_witness :
  match Rtl.ThreadCreate Rtl.sample_alloc Rtl.sample_ctx Rtl.sample_thr 7 14
                         false with
  | Rtl.Done (c1, thr1, tid) =>
      match Rtl.ThreadStart Rtl.sample_new_ThreadState false c1
                            Rtl.sample_thr tid 0 0 0 0 with
      | Rtl.Done (c2, child, _) =>
          tid = 4
          /\ Rtl.ts_clock thr1 !! 0 = Some 11
          /\ exists e', Rtl.ts_clock child !! 0 = Some e' /\ 11 <= e'
      | Rtl.Stop _ => False
      end
  | Rtl.Stop _ => False
  end.
Proof.
  destruct (Rtl.ThreadCreate Rtl.sample_alloc Rtl.sample_ctx Rtl.sample_thr 7 14
                         false)
    as [[[c1 thr1] tid]|a] eqn:E1; [|vm_compute in E1; discriminate].
  pose proof E1 as E1'. vm_compute in E1'. injection E1' as <- <- <-.
  destruct (Rtl.ThreadStart Rtl.sample_new_ThreadState false _
                            Rtl.sample_thr 4 0 0 0 0)
    as [[[c2 child] resets]|a] eqn:E2; [|vm_compute in E2; discriminate].
  destruct (create_start_happens_before Rtl.sample_new_ThreadState
              Rtl.sample_alloc false Rtl.sample_ctx [3] Rtl.sample_thr 7 14 false _ _ 4
              Rtl.sample_thr 0 0 0 0 c2 child resets
              sample_ctx_wf sample_ctx_quarantine E1 ltac:(discriminate) E2)
    as (Hhb & Hown & _).
  split; [reflexivity|]. split; [exact Hown|]. exact (Hhb 0 11 Hown).
Defined.

Lemma finish_join_happens_before_witness :
  match Life.ThreadFinish Rtl.sample_ctx Rtl.sample_thr 0 0 0 0 with
  | Rtl.Done r =>
      match Life.ThreadJoin (Life.fin_ctx r) Rtl.sample_thr 0 11 with
      | Rtl.Done (c2, joiner', out) =>
          out = []
          /\ Rtl.ts_clock (Life.fin_thr r) !! 0 = Some 11
          /\ exists e', Rtl.ts_clock joiner' !! 0 = Some e' /\ 11 <= e'
      | Rtl.Stop _ => False
      end
  | Rtl.Stop _ => False
  end.
Proof.
  destruct (Life.ThreadFinish Rtl.sample_ctx Rtl.sample_thr 0 0 0 0)
    as [r|a] eqn:E1; [|vm_compute in E1; discriminate].
  pose proof E1 as E1'. vm_compute in E1'. injection E1' as <-.
  destruct (Life.ThreadJoin _ Rtl.sample_thr 0 11)
    as [[[c2 joiner'] out]|a] eqn:E2; [|vm_compute in E2; discriminate].
  assert (Hout : out = [])
    by (pose proof E2 as E2'; vm_compute in E2';
        injection E2' as _ _ <-; reflexivity).
  subst out.
  assert (Huniq : forall j x,
             Rtl.threads Rtl.sample_ctx !! j = Some x -> Rtl.tc_uid x = 11 ->
             Rtl.tc_status x <> Rtl.ThreadStatusInvalid ->
             j = Rtl.fs_tid (Rtl.ts_fast_state Rtl.sample_thr)).
  { intros j x Hl Hu _.
    destruct (sample_ctx_slots j x Hl)
      as [(-> & _)|[(-> & Hx & _)|[(-> & Hx & _)|(-> & Hx & _)]]];
      [reflexivity | congruence..]. }
  destruct (finish_join_happens_before Rtl.sample_ctx Rtl.sample_thr 0 0 0 0
              _
              (Rtl.mkThreadContext 0 11 Rtl.ThreadStatusRunning false 0 ∅
                 Rtl.Stack.StackTrace_new 1 0 true None)
              Rtl.sample_thr 0 11 c2 joiner' eq_refl eq_refl eq_refl
              Huniq E1 E2) as (Hhb & Hown & _).
  split; [reflexivity|]. split; [exact Hown|]. exact (Hhb 0 11 Hown).
Defined.

Lemma thread_finish_returns_iff_witness :
  exists r, Life.ThreadFinish Rtl.sample_ctx Rtl.sample_thr 0 0 0 0
            = Rtl.Done r.
Proof.
  apply (proj2 (proj1 (thread_finish_returns_iff Rtl.sample_ctx [3]
                         Rtl.sample_thr 0 0 0 0
                         sample_ctx_wf sample_ctx_quarantine))).
  split; [exact sample_thr_in_rtl|].
  eexists. split; reflexivity.
Defined.

Lemma thread_finalize_repeats_witness :
  match Rtl.ThreadFinalize Rtl.sample_symbolize Rtl.sample_ctx
                           Rtl.sample_thr with
  | Rtl.Done (c', reps) =>
      List.length reps = 2%nat
      /\ exists c'',
           Rtl.ThreadFinalize Rtl.sample_symbolize c' Rtl.sample_thr
           = Rtl.Done (c'', reps)
           /\ Rtl.nreported c'' = 4
  | Rtl.Stop _ => False
  end.
Proof.
  destruct (Rtl.ThreadFinalize Rtl.sample_symbolize Rtl.sample_ctx
                               Rtl.sample_thr)
    as [[c' reps]|a] eqn:E; [|vm_compute in E; discriminate].
  assert (Hlen : List.length reps = 2%nat)
    by (pose proof E as E'; vm_compute in E';
        injection E' as _ <-; reflexivity).
  destruct (thread_finalize_repeats Rtl.sample_symbolize Rtl.sample_ctx
              Rtl.sample_thr c' reps E) as (_ & _ & _ & _ & c'' & H & Hn).
  split; [exact Hlen|]. exists c''. split; [exact H|].
  rewrite Hn, Hlen. reflexivity.
Defined.

Lemma thread_create_frame_witness :
  match Rtl.ThreadCreate Rtl.sample_alloc Rtl.sample_ctx Rtl.sample_thr 7 14
                         false with
  | Rtl.Done (c', thr', tid) =>
      0 <= tid < Rtl.kMaxTid
      /\ forall j, j <> tid ->
           Rtl.threads c' !! j = Rtl.threads Rtl.sample_ctx !! j
  | Rtl.Stop _ => False
  end.
Proof.
  destruct (Rtl.ThreadCreate Rtl.sample_alloc Rtl.sample_ctx Rtl.sample_thr 7 14
                         false)
    as [[[c' thr'] tid]|a] eqn:E; [|vm_compute in E; discriminate].
  destruct (thread_create_frame Rtl.sample_alloc Rtl.sample_ctx [3] Rtl.sample_thr 7 14 false
              c' thr' tid sample_ctx_wf sample_ctx_quarantine E)
    as (Hr & _ & Hframe & _).
  split; [exact Hr | exact Hframe].
Defined.

Section RangeMore.
Import Rtl Life.

Variable MemToShadow : Z -> Z.
Variable IsAppMem : Z -> bool.
Variable IsShadowMem : Z -> bool.

Local Abbreviation MemoryAccessRange :=
  (MemoryAccessRange MemToShadow IsAppMem IsShadowMem).

(** The three runs of calls of a range that does not wrap around. *)
Lemma range_calls (TSAN_DEBUG : bool) (thr : ThreadState) (pc addr size : Z)
      (is_write : bool) :
  0 <= addr -> 0 < size -> addr + size <= 2 ^ 64 ->
  GetIgnoreBit (ts_fast_state thr) = false ->
  debug_checks IsAppMem IsShadowMem TSAN_DEBUG addr size (MemToShadow addr)
  = Done tt ->
  let fs := IncrementEpoch (ts_fast_state thr) in
  let p := Z.min size ((- addr) mod 8) in
  let b := (size - p) / 8 in
  let s := (size - p) mod 8 in
  let sm0 := MemToShadow addr in
  let sm1 := if addr mod 8 =? 0 then sm0 else sm0 + 64 in
  calls_of (MemoryAccessRange TSAN_DEBUG thr pc addr size is_write)
  = List.map (fun i : nat => byte_call fs is_write sm0 (addr + Z.of_nat i))
             (List.seq 0 (Z.to_nat p))
    ++ List.map (fun j : nat =>
                   cell_call fs is_write (sm1 + 64 * Z.of_nat j)
                             (addr + p + 8 * Z.of_nat j))
                (List.seq 0 (Z.to_nat b))
    ++ List.map (fun k : nat =>
                   byte_call fs is_write (sm1 + 64 * b)
                             (addr + p + 8 * b + Z.of_nat k))
                (List.seq 0 (Z.to_nat s))
  /\ p + 8 * b + s = size
  /\ 0 <= p < 8 /\ 0 <= b /\ 0 <= s < 8
  /\ (p = size \/ (addr + p) mod 8 = 0)
  /\ (addr mod 8 = 0 -> p = 0).
Proof.
  intros Haddr Hsize Hwrap Hign Hdbg fs p b s sm0 sm1.
  assert (Hm : 0 <= (- addr) mod 8 < 8) by (apply Z.mod_pos_bound; lia).
  assert (Hp : 0 <= p <= size) by (unfold p; lia).
  assert (Hp8 : 0 <= p < 8) by (unfold p; lia).
  assert (Hb : 0 <= b) by (unfold b; apply Z.div_pos; lia).
  assert (Hs : 0 <= s < 8) by (unfold s; apply Z.mod_pos_bound; lia).
  assert (Hsum : p + 8 * b + s = size).
  { unfold b, s. pose proof (Z.div_mod (size - p) 8). lia. }
  assert (Hal : p = size \/ (addr + p) mod 8 = 0).
  { destruct (Z.min_spec size ((- addr) mod 8)) as [[_ E]|[_ E]];
      fold p in E; [now left | right].
    rewrite E. clear - Hm. Z.div_mod_to_equations. lia. }
  assert (Hp0 : addr mod 8 = 0 -> p = 0).
  { intros E. apply neg_mod8_zero in E. unfold p. lia. }
  split; [|repeat split; try assumption; lia].
  unfold Rtl.MemoryAccessRange.
  replace (size =? 0) with false by (symmetry; apply Z.eqb_neq; lia).
  rewrite Hdbg. cbn [mbind Result_bind]. rewrite Hign. fold fs.
  rewrite (prefix_loop_spec fs is_write (Z.to_nat p));
    [| lia | apply to_uptr_small; lia | lia
     | rewrite Z2Nat.id by lia; reflexivity].
  cbn [run_loop mbind Result_bind]. rewrite Z2Nat.id by lia.
  rewrite (body_loop_spec fs is_write (Z.to_nat b));
    [| lia | apply to_uptr_idem
     | rewrite Z2Nat.id by lia; unfold b;
       pose proof (Z.div_mod (size - p) 8);
       pose proof (Z.mod_pos_bound (size - p) 8); lia].
  cbn [run_loop mbind Result_bind]. rewrite Z2Nat.id by lia.
  replace (size - p - 8 * b) with (Z.of_nat (Z.to_nat s))
    by (rewrite Z2Nat.id; lia).
  rewrite (suffix_loop_spec fs is_write (Z.to_nat s));
    [| lia | apply to_uptr_idem].
  cbn [run_loop mbind Result_bind calls_of].
  change cell_stride with 64. unfold kShadowCell.
  replace (if negb (addr mod 8 =? 0) then MemToShadow addr + 64
           else MemToShadow addr) with sm1
    by (unfold sm1, sm0; now destruct (addr mod 8 =? 0)).
  cbn [app]. rewrite <- app_assoc. f_equal; [|f_equal].
  - apply map_ext_in. intros i Hi. apply in_seq in Hi.
    rewrite to_uptr_small by lia. reflexivity.
  - apply map_ext_in. intros j Hj. apply in_seq in Hj.
    rewrite to_uptr_add_l, to_uptr_small by lia. reflexivity.
  - apply map_ext_in. intros k Hk. apply in_seq in Hk.
    rewrite !to_uptr_add_l, <- !Z.add_assoc, to_uptr_add_l, !Z.add_assoc.
    rewrite to_uptr_small by lia. reflexivity.
Qed.

Lemma concat_bytes (base : Z) (n : nat) (f : Z -> AccessCall) :
  (forall a, call_bytes (f a) = [a]) ->
  concat (List.map (fun i : nat => call_bytes (f (base + Z.of_nat i)))
                   (List.seq 0 n))
  = seqZ base (Z.of_nat n).
Proof.
  intros Hf. induction n as [|n IH]; [reflexivity|].
  rewrite seq_S, map_app, concat_app, IH. cbn [List.map concat app].
  rewrite Hf, app_nil_r.
  replace (Z.of_nat (S n)) with (Z.of_nat n + 1) by lia.
  rewrite seqZ_app by lia. reflexivity.
Qed.

Lemma concat_cells (base : Z) (n : nat) (f : nat -> Z -> AccessCall) :
  (forall j a, call_bytes (f j a) = seqZ a 8) ->
  concat (List.map (fun j : nat => call_bytes (f j (base + 8 * Z.of_nat j)))
                   (List.seq 0 n))
  = seqZ base (8 * Z.of_nat n).
Proof.
  intros Hf. induction n as [|n IH]; [reflexivity|].
  rewrite seq_S, map_app, concat_app, IH. cbn [List.map concat app].
  rewrite Hf, app_nil_r.
  replace (8 * Z.of_nat (S n)) with (8 * Z.of_nat n + 8) by lia.
  rewrite seqZ_app by lia. reflexivity.
Qed.

(** X18: the calls of [MemoryAccessRange] cover the range.  For a range
    that does not wrap around the address space, the bytes of the calls of
    [MemoryAccessImpl], call after call, are the bytes of
    [addr, addr + size) in increasing order: each byte of the range is
    accessed once and no byte outside it is. *)
Theorem memory_access_range_covers (TSAN_DEBUG : bool) (thr : ThreadState)
        (pc addr size : Z) (is_write : bool) :
  0 <= addr -> 0 < size -> addr + size <= 2 ^ 64 ->
  GetIgnoreBit (ts_fast_state thr) = false ->
  debug_checks IsAppMem IsShadowMem TSAN_DEBUG addr size (MemToShadow addr)
  = Done tt ->
  concat (List.map call_bytes
            (calls_of (MemoryAccessRange TSAN_DEBUG thr pc addr size
                                         is_write)))
  = seqZ addr size.
Proof.
  intros Haddr Hsize Hwrap Hign Hdbg.
  destruct (range_calls TSAN_DEBUG thr pc addr size is_write Haddr Hsize
              Hwrap Hign Hdbg) as (Hcalls & Hsum & Hp & Hb & Hs & _).
  cbv zeta in *. rewrite Hcalls. clear Hcalls.
  set (p := Z.min size ((- addr) mod 8)) in *.
  set (b := (size - p) / 8) in *. set (s := (size - p) mod 8) in *.
  rewrite !map_app, !concat_app, !map_map.
  rewrite (concat_bytes addr (Z.to_nat p)
             (byte_call (IncrementEpoch (ts_fast_state thr)) is_write
                        (MemToShadow addr))) by reflexivity.
  rewrite (concat_cells (addr + p) (Z.to_nat b)
             (fun j => cell_call (IncrementEpoch (ts_fast_state thr))
                         is_write (_ + 64 * Z.of_nat j))) by reflexivity.
  rewrite (concat_bytes (addr + p + 8 * b) (Z.to_nat s)
             (byte_call (IncrementEpoch (ts_fast_state thr)) is_write _))
    by reflexivity.
  rewrite !Z2Nat.id by lia.
  rewrite <- !seqZ_app by lia. f_equal. lia.
Qed.

(** Each call gets the shadow cell of its own address.  For a range
    that does not wrap around, the shadow pointer handed to
    [MemoryAccessImpl] with an address is the shadow pointer of the first
    address moved on by [kShadowCnt] words for every cell boundary between
    the two; a call of size 8 is at a cell boundary. *)
Theorem memory_access_range_shadow_cells (TSAN_DEBUG : bool)
        (thr : ThreadState) (pc addr size : Z) (is_write : bool)
        (call : AccessCall) :
  0 <= addr -> 0 < size -> addr + size <= 2 ^ 64 ->
  GetIgnoreBit (ts_fast_state thr) = false ->
  debug_checks IsAppMem IsShadowMem TSAN_DEBUG addr size (MemToShadow addr)
  = Done tt ->
  In call (calls_of (MemoryAccessRange TSAN_DEBUG thr pc addr size
                                       is_write)) ->
  a_shadow_mem call
  = MemToShadow addr + cell_stride * (a_addr call / 8 - addr / 8)
  /\ (a_size_log call = 3 -> a_addr call mod 8 = 0)
  /\ sh_addr0 (a_cur call) = a_addr call mod 8
  /\ addr <= a_addr call < addr + size.
Proof.
  intros Haddr Hsize Hwrap Hign Hdbg Hin.
  destruct (range_calls TSAN_DEBUG thr pc addr size is_write Haddr Hsize
              Hwrap Hign Hdbg) as (Hcalls & Hsum & Hp & Hb & Hs & Hal & Hp0).
  cbv zeta in *. rewrite Hcalls in Hin. clear Hcalls.
  set (p := Z.min size ((- addr) mod 8)) in *.
  set (b := (size - p) / 8) in *. set (s := (size - p) mod 8) in *.
  assert (Hpm : p <= (- addr) mod 8) by (unfold p; lia).
  change cell_stride with 64.
  assert (Hland : forall a, 0 <= a -> Z.land a (kShadowCell - 1) = a mod 8).
  { intros a Ha. change (kShadowCell - 1) with (Z.ones 3).
    now rewrite Z.land_ones by lia. }
  apply in_app_or in Hin as [Hin|Hin]; [|apply in_app_or in Hin as [Hin|Hin]];
    apply in_map_iff in Hin as (i & <- & Hi); apply in_seq in Hi;
    cbn [byte_call cell_call a_shadow_mem a_addr a_size_log a_cur sh_addr0
         SetAddr0AndSizeLog SetWrite new_Shadow].
  - split; [|split; [discriminate|split; [apply Hland; lia | lia]]].
    replace ((addr + Z.of_nat i) / 8) with (addr / 8); [lia|].
    clear - Hi Hpm Hp Haddr. Z.div_mod_to_equations. lia.
  - assert (Hne : p <> size) by lia.
    destruct Hal as [|Hal]; [contradiction|].
    assert (Hcell : (addr + p + 8 * Z.of_nat i) mod 8 = 0).
    { clear - Hal. Z.div_mod_to_equations. lia. }
    split; [|split; [intros _; exact Hcell | split; [now rewrite Hcell | lia]]].
    destruct (Z.eqb_spec (addr mod 8) 0) as [E|E].
    + rewrite (Hp0 E). clear - E. Z.div_mod_to_equations. lia.
    + assert (p = (- addr) mod 8) by (unfold p in *; lia).
      clear - E H Hal Haddr. Z.div_mod_to_equations. lia.
  - assert (Hne : p <> size) by lia.
    destruct Hal as [|Hal]; [contradiction|].
    split; [|split; [discriminate|split; [apply Hland; lia | lia]]].
    destruct (Z.eqb_spec (addr mod 8) 0) as [E|E].
    + rewrite (Hp0 E). clear - E Hi Hs Hb. Z.div_mod_to_equations. lia.
    + assert (p = (- addr) mod 8) by (unfold p in *; lia).
      clear - E H Hal Haddr Hi Hs Hb. Z.div_mod_to_equations. lia.
Qed.

End RangeMore.
Section RangeSkips.
Import Rtl Life.

Variable MemToShadow : Z -> Z.
Variable IsAppMem : Z -> bool.
Variable IsShadowMem : Z -> bool.

Local Abbreviation MemoryAccessRange :=
  (MemoryAccessRange MemToShadow IsAppMem IsShadowMem).

(** X19: when [MemoryAccessRange] does nothing.  With size 0 the call
    returns at once; with the ignore bit set it returns after the range
    checks: in both cases the thread state is as before (no new epoch, no
    trace event) and [MemoryAccessImpl] is not called.  The range checks
    of a debug build come before the ignore bit: a first address outside
    application memory fails the check of line 259 whatever the bit is,
    and a release build checks nothing. *)
Theorem memory_access_range_skips (TSAN_DEBUG : bool) (thr : ThreadState)
        (pc addr size : Z) (is_write : bool) :
  (size = 0 ->
   MemoryAccessRange TSAN_DEBUG thr pc addr size is_write = Done (thr, []))
  /\ (GetIgnoreBit (ts_fast_state thr) = true ->
      debug_checks IsAppMem IsShadowMem TSAN_DEBUG addr size
                   (MemToShadow addr) = Done tt ->
      MemoryAccessRange TSAN_DEBUG thr pc addr size is_write
      = Done (thr, []))
  /\ (size <> 0 -> IsAppMem addr = false ->
      MemoryAccessRange true thr pc addr size is_write
      = Stop (CheckFailed 259 "((IsAppMem(addr))) != (0)" 0 0))
  /\ debug_checks IsAppMem IsShadowMem false addr size (MemToShadow addr)
     = Done tt.
Proof.
  unfold Rtl.MemoryAccessRange. split; [|split; [|split]].
  - intros ->. reflexivity.
  - intros Hign Hdbg. destruct (size =? 0); [reflexivity|].
    rewrite Hdbg. cbn [mbind Result_bind]. now rewrite Hign.
  - intros Hsize Happ. apply Z.eqb_neq in Hsize. rewrite Hsize.
    unfold debug_checks. rewrite Happ. reflexivity.
  - reflexivity.
Qed.

End RangeSkips.

Lemma memory_access_range_covers_witness :
  concat (List.map Life.call_bytes
            (Life.calls_of
               (Rtl.MemoryAccessRange Rtl.sample_MemToShadow (fun _ => true)
                  (fun _ => true) true Rtl.sample_thr 77 5 20 true)))
  = seqZ 5 20.
Proof.
  apply (memory_access_range_covers Rtl.sample_MemToShadow (fun _ => true)
           (fun _ => true) true Rtl.sample_thr 77 5 20 true);
    [lia | lia | vm_compute; discriminate | reflexivity | reflexivity].
Defined.

Lemma memory_access_range_shadow_cells_witness :
  Rtl.a_shadow_mem
    (Rtl.cell_call (Rtl.IncrementEpoch (Rtl.ts_fast_state Rtl.sample_thr))
                   true 128 16)
  = Rtl.sample_MemToShadow 5 + Rtl.cell_stride * (16 / 8 - 5 / 8).
Proof.
  apply (memory_access_range_shadow_cells Rtl.sample_MemToShadow
           (fun _ => true) (fun _ => true) true Rtl.sample_thr 77 5 20 true
           (Rtl.cell_call
              (Rtl.IncrementEpoch (Rtl.ts_fast_state Rtl.sample_thr))
              true 128 16));
    [lia | lia | vm_compute; discriminate | reflexivity | reflexivity |].
  vm_compute. tauto.
Defined.

Lemma memory_access_range_skips_witness :
  Rtl.MemoryAccessRange Rtl.sample_MemToShadow (fun _ => false)
                        (fun _ => true) true Rtl.sample_thr 77 5 20 true
  = Rtl.Stop (Rtl.CheckFailed 259 "((IsAppMem(addr))) != (0)" 0 0)
  /\ Rtl.MemoryAccessRange Rtl.sample_MemToShadow (fun _ => false)
                           (fun _ => true) false Rtl.sample_thr 77 5 0 true
     = Rtl.Done (Rtl.sample_thr, []).
Proof.
  destruct (memory_access_range_skips Rtl.sample_MemToShadow (fun _ => false)
              (fun _ => true) true Rtl.sample_thr 77 5 20 true)
    as (_ & _ & H & _).
  destruct (memory_access_range_skips Rtl.sample_MemToShadow (fun _ => false)
              (fun _ => true) false Rtl.sample_thr 77 5 0 true)
    as (H0 & _).
  split; [apply H; [discriminate | reflexivity] | apply H0; reflexivity].
Defined.

Section RemoveFacts.
Import Sync.

Variable kPartCount : Z.

Local Abbreviation PartIdx := (PartIdx kPartCount).
Local Abbreviation buckets_ok := (buckets_ok kPartCount).
Local Abbreviation GetAndRemove := (GetAndRemove kPartCount).

Lemma unlink_spec l : forall addr,
  unlink l addr
  = match find_var l addr with
    | Some (k, v) => (delete k l, Some v)
    | None => (l, None)
    end.
Proof.
  induction l as [|x l IH]; intros addr; [reflexivity|].
  cbn [unlink find_var]. destruct (sv_addr x =? addr); [reflexivity|].
  rewrite IH. destruct (find_var l addr) as [[k v]|]; reflexivity.
Qed.

Lemma var_of_cons x l addr :
  var_of (x :: l) addr = if sv_addr x =? addr then Some x else var_of l addr.
Proof.
  unfold var_of. cbn [find_var]. destruct (sv_addr x =? addr); [reflexivity|].
  destruct (find_var l addr) as [[k v]|]; reflexivity.
Qed.

Lemma var_of_none l addr : var_of l addr = None <-> addr ∉ sv_addr <$> l.
Proof.
  induction l as [|x l IH]; [split; [intros _ H; inversion H | reflexivity]|].
  rewrite var_of_cons, fmap_cons, not_elem_of_cons.
  destruct (Z.eqb_spec (sv_addr x) addr) as [E|E].
  - split; [discriminate | intros [H _]; congruence].
  - rewrite IH. split; [intros H; split; [congruence | exact H] | tauto].
Qed.

Lemma var_of_unlink l : forall addr a,
  NoDup (sv_addr <$> l) ->
  var_of (fst (unlink l addr)) a = if a =? addr then None else var_of l a.
Proof.
  induction l as [|x l IH]; intros addr a Hnd.
  - cbn. now destruct (a =? addr).
  - rewrite fmap_cons in Hnd. apply NoDup_cons in Hnd as [Hx Hnd].
    cbn [unlink]. destruct (Z.eqb_spec (sv_addr x) addr) as [E|E].
    + cbn [fst]. rewrite var_of_cons.
      destruct (Z.eqb_spec a addr) as [->|Ha].
      * apply var_of_none. congruence.
      * replace (sv_addr x =? a) with false
          by (symmetry; apply Z.eqb_neq; congruence). reflexivity.
    + specialize (IH addr a Hnd).
      destruct (unlink l addr) as [l' r]. cbn [fst] in *.
      rewrite !var_of_cons, IH.
      destruct (Z.eqb_spec (sv_addr x) a) as [Ea|Ea]; [|reflexivity].
      replace (a =? addr) with false
        by (symmetry; apply Z.eqb_neq; congruence). reflexivity.
Qed.

Lemma unlink_result l addr : snd (unlink l addr) = var_of l addr.
Proof.
  rewrite unlink_spec. unfold var_of.
  destruct (find_var l addr) as [[k v]|]; reflexivity.
Qed.

Lemma unlink_absent l addr : var_of l addr = None -> fst (unlink l addr) = l.
Proof.
  rewrite unlink_spec. unfold var_of.
  destruct (find_var l addr) as [[k v]|]; [discriminate | reflexivity].
Qed.


Lemma get_and_remove_inv tab addr tab' r :
  GetAndRemove tab addr = Some (tab', r) ->
  tab' = <[PartIdx addr := fst (unlink (bucket tab (PartIdx addr)) addr)]> tab
  /\ r = var_of (bucket tab (PartIdx addr)) addr.
Proof.
  unfold Sync.GetAndRemove. intros H.
  pose proof (unlink_result (bucket tab (PartIdx addr)) addr) as Hres.
  destruct (unlink (bucket tab (PartIdx addr)) addr) as [l r0].
  cbn [fst snd] in *. subst r0.
  destruct (var_of (bucket tab (PartIdx addr)) addr) as [v|].
  - destruct (mtx_Lock (sv_mtx v)); [|discriminate].
    injection H as <- <-. now split.
  - injection H as <- <-. now split.
Qed.

Lemma find_var_insert l : forall addr k v v',
  find_var l addr = Some (k, v) -> sv_addr v' = addr ->
  find_var (<[k := v']> l) addr = Some (k, v').
Proof.
  induction l as [|x l IH]; intros addr k v v' H Hv; [discriminate|].
  cbn [find_var] in H. destruct (Z.eqb_spec (sv_addr x) addr) as [E|E].
  - injection H as <- <-. cbn. now rewrite Hv, Z.eqb_refl.
  - destruct (find_var l addr) as [[k0 v0]|] eqn:Hf; [|discriminate].
    injection H as <- <-.
    change (<[S k0 := v']> (x :: l)) with (x :: <[k0 := v']> l).
    cbn [find_var].
    replace (sv_addr x =? addr) with false
      by (symmetry; now apply Z.eqb_neq).
    now rewrite (IH addr k0 v0 v' Hf Hv).
Qed.

Lemma lock_var_held w v v' :
  lock_var w v = Some v' -> mtx_Lock (sv_mtx v') = None.
Proof.
  intros H. rewrite (lock_var_mode w v v' H). now destruct w.
Qed.

Variable kInvalidTid : Z.
Variable internal_alloc : Z -> bool.

Local Abbreviation GetAndLock :=
  (GetAndLock kPartCount kInvalidTid internal_alloc).

(** What a [GetAndLock] that returns has done. *)
Lemma get_and_lock_inv tab thr pc ptr addr w tab1 res :
  GetAndLock tab thr pc ptr addr w = Rtl.Done (Some (tab1, res)) ->
  sv_addr res = addr
  /\ mtx_Lock (sv_mtx res) = None
  /\ var_of (bucket tab1 (PartIdx addr)) addr = Some res
  /\ (var_of (bucket tab (PartIdx addr)) addr = None ->
      sv_ptr res = ptr
      /\ Rtl.Stack.ObtainCurrent internal_alloc Rtl.Stack.StackTrace_new
                                 thr pc
         = Rtl.Done (sv_creation_stack res)).
Proof.
  unfold Sync.GetAndLock, Sync.GetAndLock_first, Sync.GetAndLock_second,
    var_of.
  destruct (find_var (bucket tab (PartIdx addr)) addr) as [[k v]|] eqn:Hf.
  - destruct (lock_var w v) as [res'|] eqn:Hl; [|discriminate].
    intros H. injection H as <- <-.
    destruct (lock_var_same w v res' Hl) as (_ & Ha & _).
    destruct (find_var_some _ _ _ _ Hf) as [_ Hv].
    split; [congruence|]. split; [eapply lock_var_held; eauto|].
    split; [|discriminate].
    rewrite bucket_insert, decide_True by reflexivity.
    rewrite (find_var_insert _ addr k v res' Hf) by congruence. reflexivity.
  - cbn [sv_creation_stack new_SyncVar].
    destruct (Rtl.Stack.ObtainCurrent internal_alloc Rtl.Stack.StackTrace_new
                                      thr pc) as [cs|e]; [|discriminate].
    cbn [mbind Rtl.Result_bind].
    destruct (lock_var w _) as [res'|] eqn:Hl; [|discriminate].
    intros H. injection H as <- <-.
    destruct (lock_var_same w _ res' Hl) as (Hp & Ha & Hs).
    split; [exact Ha|]. split; [eapply lock_var_held; eauto|].
    split; [|intros _; split; [exact Hp | now rewrite Hs]].
    rewrite bucket_insert, decide_True by reflexivity.
    cbn [find_var]. cbn in Ha. rewrite Ha, Z.eqb_refl. reflexivity.
Qed.


End RemoveFacts.



Section StackTraceFacts.
Import Rtl Stack.

Variable internal_alloc : Z -> bool.

Lemma check_ne_zero line cond x :
  0 < x < 2 ^ 64 -> CHECK_NE line cond x 0 = Done tt.
Proof.
  intros H. unfold CHECK_NE, CHECK_IMPL. change (to_u64 0) with 0.
  unfold to_u64. rewrite Z.mod_small by lia.
  now replace (x =? 0) with false by (symmetry; apply Z.eqb_neq; lia).
Qed.

Lemma free_consistent st :
  consistent st -> n_ st < 2 ^ 64 -> Free st = Done StackTrace_new.
Proof.
  unfold consistent, Free. destruct st as [n [l|]]; cbn.
  - intros [-> Hn] Hlt. rewrite check_ne_zero by lia. reflexivity.
  - intros -> _. reflexivity.
Qed.

Lemma get_in_range st l i pc :
  s_ st = Some l -> n_ st = Z.of_nat (List.length l) -> n_ st < 2 ^ 64 ->
  l !! Z.to_nat i = Some pc -> 0 <= i ->
  Get st i = Done pc.
Proof.
  intros Hs Hn Hlt Hl Hi. unfold Get.
  assert (Hlen : i < n_ st).
  { apply lookup_lt_Some in Hl. lia. }
  unfold CHECK_LT, CHECK_IMPL, to_u64. rewrite !Z.mod_small by lia.
  replace (i <? n_ st) with true by (symmetry; apply Z.ltb_lt; lia).
  cbn [mbind Result_bind]. now rewrite Hs, Hl.
Qed.

(** X22: [StackTrace::ObtainCurrent] stores the stack that the registry and
    the sync table record.  On a consistent object, when the allocator
    returns a buffer, the object then holds the frames of the shadow stack
    followed by a nonzero [toppc]: [Size] is their number, [Get] reads
    them in order, and [Get] at [Size] or beyond fails the check of line
    151. *)
Theorem stack_trace_obtain_current st thr toppc :
  consistent st -> n_ st < 2 ^ 64 ->
  Z.of_nat (List.length (current_frames thr toppc)) < 2 ^ 64 ->
  internal_alloc (Z.of_nat (List.length (current_frames thr toppc)))
  = true ->
  exists st',
    ObtainCurrent internal_alloc st thr toppc = Done st'
    /\ s_ st' = Some (current_frames thr toppc)
    /\ Size st' = Z.of_nat (List.length (current_frames thr toppc))
    /\ IsEmpty st'
       = bool_decide (ts_shadow_stack thr = [] /\ toppc = 0)
    /\ (forall i pc, current_frames thr toppc !! i = Some pc ->
          Get st' (Z.of_nat i) = Done pc)
    /\ (forall i, Size st' <= i < 2 ^ 64 ->
          Get st' i = Stop (CheckFailed 151 "(i) < (n_)" i (Size st'))).
Proof.
  intros Hc Hn Hlen Halloc.
  assert (Hcount : Z.of_nat (List.length (current_frames thr toppc))
                   = Z.of_nat (List.length (ts_shadow_stack thr))
                     + (if toppc =? 0 then 0 else 1)).
  { unfold current_frames. rewrite length_app.
    destruct (toppc =? 0); cbn [List.length]; lia. }
  unfold ObtainCurrent. rewrite (free_consistent st Hc Hn).
  cbn [mbind Result_bind]. rewrite <- Hcount.
  unfold filled. rewrite Halloc.
  cbn [mbind Result_bind]. eexists. split; [reflexivity|].
  cbn [s_ n_ Size IsEmpty]. split; [reflexivity|]. split; [reflexivity|].
  split; [|split].
  - rewrite Hcount. case_bool_decide as Hb.
    + destruct Hb as [-> ->]. reflexivity.
    + apply Z.eqb_neq. intros Hz. apply Hb.
      destruct (ts_shadow_stack thr) as [|x l];
        destruct (Z.eqb_spec toppc 0) as [E|E];
        cbn [List.length] in Hz; try lia; try (now split).
  - intros i pc Hi.
    apply (get_in_range _ (current_frames thr toppc)); cbn [s_ n_];
      try reflexivity; try lia.
    now rewrite Nat2Z.id.
  - intros i Hi. unfold Get. cbn [n_].
    unfold CHECK_LT, CHECK_IMPL, to_u64. rewrite !Z.mod_small by lia.
    now replace (i <? _) with false by (symmetry; apply Z.ltb_ge; lia).
Qed.

(** X23: the empty stack with [toppc = 0].  [ObtainCurrent] on an empty
    shadow stack with no [toppc] asks the allocator for no words.  When
    the allocator answers with a buffer, the object counts zero frames
    but owns a buffer: [IsEmpty] is true, and the next [Free] (so the next
    [Init] or [ObtainCurrent] too) fails the check of line 135, and the
    destructor that of line 109.  When the allocator answers null the
    object is as new. *)
Theorem stack_trace_empty_buffer st thr :
  consistent st -> n_ st < 2 ^ 64 ->
  ts_shadow_stack thr = [] ->
  exists st',
    ObtainCurrent internal_alloc st thr 0 = Done st'
    /\ IsEmpty st' = true
    /\ (if internal_alloc 0 then
          Free st' = Stop (CheckFailed 135 "(n_) != (0)" 0 0)
          /\ (forall thr' toppc,
                ObtainCurrent internal_alloc st' thr' toppc
                = Stop (CheckFailed 135 "(n_) != (0)" 0 0))
          /\ (forall pcs cnt,
                Init internal_alloc st' pcs cnt
                = Stop (CheckFailed 135 "(n_) != (0)" 0 0))
          /\ StackTrace_delete st'
             = Stop (CheckFailed 109 "(s_) == (0)" 1 0)
        else st' = StackTrace_new /\ StackTrace_delete st' = Done tt).
Proof.
  intros Hc Hn Hempty. unfold ObtainCurrent, current_frames.
  rewrite (free_consistent st Hc Hn). cbn [mbind Result_bind].
  rewrite Hempty. cbn [List.length app Z.eqb].
  change (Z.of_nat 0 + 0) with 0.
  unfold filled. destruct (internal_alloc 0) eqn:Ha;
    cbn [mbind Result_bind]; eexists; (split; [reflexivity|]);
    (split; [reflexivity|]).
  - repeat split; reflexivity.
  - split; reflexivity.
Qed.

(** X24: [Init] and [Free].  On a consistent object [Init] with a nonzero
    count leaves the first [cnt] words of [pcs], which [Get] reads back; a
    [Free] after it gives a new object, on which the destructor passes;
    [Init] with count 0 does what [Free] does. *)
Theorem stack_trace_init_free st pcs cnt :
  consistent st -> n_ st < 2 ^ 64 ->
  0 <= cnt < 2 ^ 64 ->
  internal_alloc cnt = true ->
  exists st',
    Init internal_alloc st pcs cnt = Done st'
    /\ consistent st'
    /\ Size st' = cnt
    /\ (forall i, 0 <= i < cnt -> Get st' i = Done (pcs i))
    /\ Free st' = Done StackTrace_new
    /\ StackTrace_delete StackTrace_new = Done tt
    /\ Init internal_alloc st pcs 0 = Free st.
Proof.
  intros Hc Hn Hcnt Halloc. unfold Init.
  rewrite (free_consistent st Hc Hn). cbn [mbind Result_bind].
  destruct (Z.eqb_spec cnt 0) as [->|Hnz].
  - exists StackTrace_new. split; [reflexivity|].
    split; [reflexivity|]. split; [reflexivity|].
    split; [intros i Hi; lia|]. repeat split; reflexivity.
  - unfold filled. rewrite Halloc. cbn [mbind Result_bind].
    assert (Hlen : Z.of_nat (List.length (pcs <$> seqZ 0 cnt)) = cnt).
    { rewrite length_fmap, length_seqZ. lia. }
    eexists. split; [reflexivity|]. split; [|split; [reflexivity|split]].
    + unfold consistent. cbn [s_ n_]. split; [now rewrite Hlen | exact Hnz].
    + intros i Hi.
      apply (get_in_range _ (pcs <$> seqZ 0 cnt)); cbn [s_ n_];
        try reflexivity; try lia.
      rewrite list_lookup_fmap, lookup_seqZ_lt by lia.
      cbn. f_equal. f_equal. lia.
    + split; [|split; reflexivity].
      apply free_consistent; cbn [n_]; [|lia].
      unfold consistent. cbn [s_ n_]. split; [now rewrite Hlen | exact Hnz].
Qed.

End StackTraceFacts.

Lemma stack_trace_obtain_current_witness :
  exists st',
    Rtl.Stack.ObtainCurrent (fun _ => true) Rtl.Stack.StackTrace_new
                            Rtl.sample_thr 7
    = Rtl.Done st'
    /\ Rtl.Stack.Size st' = 3
    /\ Rtl.Stack.Get st' 2 = Rtl.Done 7
    /\ Rtl.Stack.Get st' 3 = Rtl.Stop (Rtl.CheckFailed 151 "(i) < (n_)" 3 3).
Proof.
  destruct (stack_trace_obtain_current (fun _ => true) Rtl.Stack.StackTrace_new
              Rtl.sample_thr 7)
    as (st' & H & _ & Hsize & _ & Hget & Hout);
    [reflexivity | reflexivity | reflexivity | reflexivity |].
  exists st'. split; [exact H|]. split; [exact Hsize|]. split.
  - apply (Hget 2%nat). reflexivity.
  - change 3 with (Z.of_nat (length (Rtl.current_frames Rtl.sample_thr 7)))
      at 3.
    rewrite <- Hsize. apply Hout. rewrite Hsize. split; [reflexivity..].
Defined.

Lemma stack_trace_empty_buffer_witness :
  exists st',
    Rtl.Stack.ObtainCurrent (fun _ => true) Rtl.Stack.StackTrace_new
                        (Rtl.sample_new_ThreadState 0 0 0 0 0 0) 0
    = Rtl.Done st'
    /\ Rtl.Stack.IsEmpty st' = true
    /\ Rtl.Stack.Free st' = Rtl.Stop (Rtl.CheckFailed 135 "(n_) != (0)" 0 0).
Proof.
  destruct (stack_trace_empty_buffer (fun _ => true) Rtl.Stack.StackTrace_new
              (Rtl.sample_new_ThreadState 0 0 0 0 0 0))
    as (st' & H & He & Hf & _); [reflexivity | reflexivity | reflexivity |].
  exists st'. split; [exact H|]. split; [exact He | exact Hf].
Defined.

Lemma stack_trace_init_free_witness :
  exists st',
    Rtl.Stack.Init (fun _ => true) Rtl.Stack.StackTrace_new (fun i => 100 + i) 3
    = Rtl.Done st'
    /\ Rtl.Stack.Get st' 1 = Rtl.Done 101
    /\ Rtl.Stack.Free st' = Rtl.Done Rtl.Stack.StackTrace_new.
Proof.
  destruct (stack_trace_init_free (fun _ => true) Rtl.Stack.StackTrace_new
              (fun i => 100 + i) 3)
    as (st' & H & _ & _ & Hget & Hfree & _);
    [reflexivity | reflexivity | lia | reflexivity |].
  exists st'. split; [exact H|]. split; [apply (Hget 1); lia | exact Hfree].
Defined.

Section ReportFacts.
Import Rtl Life.

Lemma print_stack_from stack : forall i,
  PrintStack_from i stack
  = imap (fun k ent => PStackEntry (i + Z.of_nat k) (ent_pc ent)
                                   (ent_func ent) (ent_file ent)
                                   (ent_line ent)) stack.
Proof.
  induction stack as [|e stack IH]; intros i; [reflexivity|].
  cbn [PrintStack_from]. rewrite imap_cons, IH. f_equal.
  - f_equal. cbn. lia.
  - apply imap_ext. intros k x _. cbn. f_equal. lia.
Qed.

Lemma mop_lines_stack stack : forall i,
  mop_lines (PrintStack_from i stack) = [].
Proof. induction stack as [|e stack IH]; intros i; [reflexivity | apply IH]. Qed.

Lemma mop_lines_app a b : mop_lines (a ++ b) = mop_lines a ++ mop_lines b.
Proof. unfold mop_lines. apply List.filter_app. Qed.

Lemma mop_lines_mops mops : forall i, 0 <= i ->
  mop_lines (PrintMops_from i mops)
  = imap (fun k m => PMop (negb (i + Z.of_nat k =? 0)) (mop_write m)
                          (mop_size m) (mop_addr m) (mop_tid m)) mops.
Proof.
  induction mops as [|m mops IH]; intros i Hi; [reflexivity|].
  cbn [PrintMops_from]. rewrite imap_cons.
  change (mop_lines (?x :: ?l)) with (x :: mop_lines l).
  rewrite mop_lines_app. unfold PrintStack. rewrite mop_lines_stack.
  cbn [app]. rewrite IH by lia. f_equal.
  - f_equal. f_equal. f_equal. cbn. lia.
  - apply imap_ext. intros k x _. cbn. do 3 f_equal. lia.
Qed.

(** X25: the lines of [PrintReport].  The output starts with the rule and
    the line "WARNING: ThreadSanitizer: data race", whatever the type of
    the report, and ends with the rule; it does not depend on the type of
    the report nor on its threads, so a thread-leak report prints the
    banner only.  There is one access line per access, in order, and
    "Previous" is printed on all but the first; the frames of a stack are
    numbered from 0. *)
Theorem print_report_lines rep :
  (forall typ thr,
      PrintReport (mkReport typ (rep_mop rep) (rep_loc rep) thr)
      = PrintReport rep)
  /\ (exists body,
         PrintReport rep
         = [PText "=================="; PText "WARNING: ThreadSanitizer: data race"]
           ++ body ++ [PText "=================="])
  /\ (rep_mop rep = [] -> rep_loc rep = None ->
      PrintReport rep
      = [PText "=================="; PText "WARNING: ThreadSanitizer: data race";
         PText "=================="])
  /\ mop_lines (PrintReport rep)
     = imap (fun k m => PMop (negb (k =? 0)%nat) (mop_write m) (mop_size m)
                             (mop_addr m) (mop_tid m)) (rep_mop rep)
  /\ (forall stack,
        PrintStack stack
        = imap (fun k ent => PStackEntry (Z.of_nat k) (ent_pc ent)
                                         (ent_func ent) (ent_file ent)
                                         (ent_line ent)) stack).
Proof.
  split; [reflexivity|]. split; [|split; [|split]].
  - unfold PrintReport. eexists (_ ++ _). now rewrite <- app_assoc.
  - intros Hm Hl. unfold PrintReport. rewrite Hm, Hl. reflexivity.
  - unfold PrintReport. rewrite !mop_lines_app.
    rewrite mop_lines_mops by lia.
    replace (mop_lines (match rep_loc rep with
                        | Some loc => _
                        | None => []
                        end)) with (@nil Printed).
    + cbn [mop_lines List.filter app]. rewrite app_nil_r.
      apply imap_ext. intros k m _. cbn. do 2 f_equal.
      destruct k; reflexivity.
    + destruct (rep_loc rep) as [loc|]; [|reflexivity].
      destruct (loc_type loc); try reflexivity.
      change (mop_lines (?x :: ?l)) with (mop_lines l).
      unfold PrintStack. now rewrite mop_lines_stack.
  - intros stack. unfold PrintStack. rewrite print_stack_from.
    apply imap_ext. intros k x _. reflexivity.
Qed.

End ReportFacts.

(** ** tsan/ts_valgrind.cc: the handlers of the front-end *)

Section VgFacts.
Import Vg.

Variable DEBUG_MODE : bool.
Variable VG_N_THREADS : Z.
Variable dry_run : Z.
Variable verbosity : Z.

Local Abbreviation VgTidToTsTid := (VgTidToTsTid DEBUG_MODE VG_N_THREADS).
Local Abbreviation Put := (Put DEBUG_MODE dry_run).
Local Abbreviation at_slot := (at_slot VG_N_THREADS).
Local Abbreviation evh__pre_thread_ll_create :=
  (evh__pre_thread_ll_create DEBUG_MODE VG_N_THREADS dry_run).
Local Abbreviation evh__pre_thread_ll_exit :=
  (evh__pre_thread_ll_exit DEBUG_MODE VG_N_THREADS dry_run).
Local Abbreviation rtn_call := (rtn_call DEBUG_MODE VG_N_THREADS verbosity).
Local Abbreviation evh__die_mem_stack_helper :=
  (evh__die_mem_stack_helper DEBUG_MODE VG_N_THREADS verbosity).
Local Abbreviation Mop := (Mop DEBUG_MODE VG_N_THREADS).
Local Abbreviation evh__on_trace_entry :=
  (evh__on_trace_entry DEBUG_MODE VG_N_THREADS).
Local Abbreviation ignore_all_accesses_begin :=
  (ignore_all_accesses_begin DEBUG_MODE VG_N_THREADS).
Local Abbreviation ignore_all_accesses_end :=
  (ignore_all_accesses_end DEBUG_MODE VG_N_THREADS).

Lemma thread_at_set st i t j :
  thread_at (set_thread st i t) j = if decide (i = j) then t else thread_at st j.
Proof.
  unfold thread_at, set_thread. cbn [g_valgrind_threads].
  destruct (decide (i = j)) as [->|Hne].
  - now rewrite lookup_insert_eq.
  - now rewrite lookup_insert_ne.
Qed.

Lemma thread_at_emit st c j : thread_at (emit st c) j = thread_at st j.
Proof. reflexivity. Qed.

Lemma thread_at_put st ty a b c d j :
  thread_at (Put st ty a b c d) j = thread_at st j.
Proof. unfold Vg.Put. now destruct (DEBUG_MODE && (dry_run >=? 1)). Qed.

Lemma vg_tid_value st vg_tid ts :
  VgTidToTsTid st vg_tid = Ok ts ->
  ts = zero_based_uniq_tid (thread_at st vg_tid).
Proof.
  unfold Vg.VgTidToTsTid, DCHECK, CHECK. intros H.
  destruct DEBUG_MODE; cbn [mbind Outcome_bind] in H.
  - destruct (vg_tid <? VG_N_THREADS); [|discriminate].
    cbn [mbind Outcome_bind] in H.
    destruct (vg_tid >=? 1); [|discriminate].
    cbn [mbind Outcome_bind] in H.
    destruct (at_slot vg_tid) as [[]| |]; try discriminate.
    cbn [mbind Outcome_bind] in H.
    destruct (_ >=? 0); [|discriminate].
    cbn [mbind Outcome_bind] in H. congruence.
  - destruct (at_slot vg_tid) as [[]| |]; try discriminate.
    cbn [mbind Outcome_bind] in H. congruence.
Qed.

(** A thread whose tid [VgTidToTsTid] gives has a slot in the array. *)
Lemma vg_tid_slot st vg_tid ts :
  VgTidToTsTid st vg_tid = Ok ts -> at_slot vg_tid = Ok tt.
Proof.
  unfold Vg.VgTidToTsTid, DCHECK, CHECK. intros H.
  destruct (at_slot vg_tid) as [[]| |]; [reflexivity|exfalso..];
    destruct DEBUG_MODE; cbn [mbind Outcome_bind] in H;
    try discriminate;
    destruct (vg_tid <? VG_N_THREADS); try discriminate;
    cbn [mbind Outcome_bind] in H;
    destruct (vg_tid >=? 1); discriminate.
Qed.

Lemma vg_tid_same st st' vg_tid :
  zero_based_uniq_tid (thread_at st' vg_tid)
  = zero_based_uniq_tid (thread_at st vg_tid) ->
  VgTidToTsTid st' vg_tid = VgTidToTsTid st vg_tid.
Proof. intros H. unfold Vg.VgTidToTsTid. now rewrite H. Qed.

Lemma put_fields st ty a b c d :
  g_valgrind_threads (Put st ty a b c d) = g_valgrind_threads st
  /\ g_uniq_thread_id_counter (Put st ty a b c d)
     = g_uniq_thread_id_counter st
  /\ global_ignore (Put st ty a b c d) = global_ignore st
  /\ calls (Put st ty a b c d)
     = calls st ++ (if DEBUG_MODE && (dry_run >=? 1) then []
                    else [HandleOneEvent ty a b c d]).
Proof.
  unfold Vg.Put. destruct (DEBUG_MODE && (dry_run >=? 1)); cbn;
    rewrite ?app_nil_r; now repeat split.
Qed.

(** X26: the allocation cost centers are a stack.  With room in the array,
    [Push] of a cost center makes it the [Top], and the [Pop] that follows
    gives back the size and the [Top] there were.  The [Top] of the empty
    stack is "default_cc".  A [Pop] of the empty stack fails its check in
    a debug build; in a release build it leaves the size at -1, and [Top]
    then reads before the array.  A [Push] on the full stack fails its
    check in a debug build and writes past the array in a release
    build. *)
Theorem malloc_cost_center_lifo (s : MallocCostCenterStack) (cc : string) :
  0 <= size_ s < kMaxMallocStackSize ->
  (exists s1 s2,
      Push DEBUG_MODE s (Some cc) = Ok s1
      /\ Top s1 = Ok (Some cc)
      /\ Pop DEBUG_MODE s1 = Ok s2
      /\ size_ s2 = size_ s
      /\ Top s2 = Top s)
  /\ Top g_malloc_stack = Ok (Some "default_cc")
  /\ Pop true g_malloc_stack = Failed "size_ > 0"
  /\ (exists s3, Pop false g_malloc_stack = Ok s3 /\ Top s3 = OutOfBounds)
  /\ (forall full, size_ full = kMaxMallocStackSize ->
        Push true full (Some cc) = Failed "size_ < kMaxMallocStackSize"
        /\ Push false full (Some cc) = OutOfBounds).
Proof.
  intros Hs. unfold kMaxMallocStackSize in *.
  assert (Hin : in_array (size_ s) = true).
  { unfold in_array, kMaxMallocStackSize.
    apply andb_true_iff. split; [apply Z.leb_le | apply Z.ltb_lt]; lia. }
  split; [|split; [reflexivity|split; [reflexivity|split]]].
  - eexists _, _. split.
    { unfold Push, DCHECK, CHECK, kMaxMallocStackSize.
      replace (size_ s <? 100) with true by (symmetry; apply Z.ltb_lt; lia).
      rewrite bool_decide_eq_true_2 by discriminate.
      rewrite Hin. destruct DEBUG_MODE; reflexivity. }
    split.
    { unfold Top. cbn [size_ malloc_cost_centers_].
      replace (size_ s + 1 =? 0) with false
        by (symmetry; apply Z.eqb_neq; lia).
      replace (size_ s + 1 - 1) with (size_ s) by lia.
      now rewrite Hin, lookup_insert_eq. }
    split.
    { unfold Pop, DCHECK, CHECK. cbn [size_ malloc_cost_centers_].
      replace (size_ s + 1 >? 0) with true
        by (symmetry; apply Z.gtb_lt; lia).
      destruct DEBUG_MODE; reflexivity. }
    split; [cbn; lia|].
    unfold Top. cbn [size_ malloc_cost_centers_].
    replace (size_ s + 1 - 1) with (size_ s) by lia.
    destruct (size_ s =? 0); [reflexivity|].
    destruct (in_array (size_ s - 1)); [|reflexivity].
    now rewrite lookup_insert_ne by lia.
  - eexists. split; reflexivity.
  - intros full Hfull. unfold Push, DCHECK, CHECK, in_array.
    rewrite Hfull. split; reflexivity.
Qed.

Lemma create_inv st parent child pc st' :
  evh__pre_thread_ll_create st parent child pc
  = Ok st' ->
  parent <> child
  /\ g_valgrind_threads st'
     = <[child := mkValgrindThread (g_uniq_thread_id_counter st) [] 0 false
                                   0 0]> (g_valgrind_threads st)
  /\ g_uniq_thread_id_counter st' = g_uniq_thread_id_counter st + 1
  /\ global_ignore st' = global_ignore st.
Proof.
  unfold Vg.evh__pre_thread_ll_create, CHECK. intros H.
  destruct (Z.eqb_spec parent child) as [|Hne]; [discriminate|].
  cbn [negb mbind Outcome_bind] in H. split; [exact Hne|].
  destruct (at_slot child) as [[]| |]; try discriminate.
  cbn [mbind Outcome_bind] in H.
  destruct (Vg.VgTidToTsTid _ _ _ child) as [ct| |]; try discriminate.
  cbn [mbind Outcome_bind] in H.
  destruct (if parent >? 0 then _ else _) as [pt| |]; try discriminate.
  cbn [mbind Outcome_bind] in H. injection H as <-.
  match goal with
  | |- context [Vg.Put _ _ ?s ?ty ?a ?b ?c ?d] =>
      destruct (put_fields s ty a b c d) as (-> & -> & -> & _)
  end.
  destruct (negb (zero_based_uniq_tid (thread_at st child) =? -1));
    now repeat split.
Qed.

Lemma exit_inv st quit st' :
  evh__pre_thread_ll_exit st quit = Ok st' ->
  g_valgrind_threads st'
  = <[quit := mkValgrindThread (-1) (call_stack (thread_at st quit))
                (ignore_accesses (thread_at st quit))
                (ignore_accesses_in_current_trace (thread_at st quit))
                (ignore_sync (thread_at st quit))
                (in_signal_handler (thread_at st quit))]>
      (g_valgrind_threads st)
  /\ g_uniq_thread_id_counter st' = g_uniq_thread_id_counter st
  /\ global_ignore st' = global_ignore st.
Proof.
  unfold Vg.evh__pre_thread_ll_exit. intros H.
  destruct (Vg.VgTidToTsTid _ _ _ quit) as [ts| |]; try discriminate.
  cbn [mbind Outcome_bind] in H. injection H as <-.
  rewrite !thread_at_put. unfold set_thread.
  cbn [g_valgrind_threads g_uniq_thread_id_counter global_ignore].
  destruct (put_fields st "THR_END" ts 0 0 0) as (-> & -> & -> & _).
  now repeat split.
Qed.

(** X27: the ThreadSanitizer tids of the Valgrind threads.  The tid given
    by [evh__pre_thread_ll_create] is the value of the counter, which no
    other thread has, and the counter moves on by one; the thread that
    [evh__pre_thread_ll_exit] ends has tid -1 afterwards; both leave the
    other threads as they were.  So threads that have a tid never share
    one, and every tid is below the counter. *)
Theorem vg_thread_ids_unique st :
  tids_ok st ->
  (forall parent child pc st',
      evh__pre_thread_ll_create st parent
                                child pc = Ok st' ->
      tids_ok st'
      /\ parent <> child
      /\ thread_at st' child
         = mkValgrindThread (g_uniq_thread_id_counter st) [] 0 false 0 0
      /\ g_uniq_thread_id_counter st' = g_uniq_thread_id_counter st + 1
      /\ (forall j, j <> child -> thread_at st' j = thread_at st j)
      /\ (forall j, zero_based_uniq_tid (thread_at st j)
                    <> g_uniq_thread_id_counter st))
  /\ (forall quit st',
        evh__pre_thread_ll_exit st quit
        = Ok st' ->
        tids_ok st'
        /\ zero_based_uniq_tid (thread_at st' quit) = -1
        /\ g_uniq_thread_id_counter st' = g_uniq_thread_id_counter st
        /\ (forall j, j <> quit -> thread_at st' j = thread_at st j)).
Proof.
  intros (Hc & Hrange & Huniq). split.
  - intros parent child pc st' H.
    destruct (create_inv _ _ _ _ _ H) as (Hne & Hth & Hcnt & _).
    assert (Hat : forall j, thread_at st' j
                  = if decide (child = j)
                    then mkValgrindThread (g_uniq_thread_id_counter st) []
                                          0 false 0 0
                    else thread_at st j).
    { intros j. unfold thread_at. rewrite Hth.
      destruct (decide (child = j)) as [->|Hj].
      - now rewrite lookup_insert_eq.
      - now rewrite lookup_insert_ne. }
    split; [|split; [exact Hne|split; [|split; [exact Hcnt|split]]]].
    + split; [lia|]. split.
      * intros i t Hi. rewrite Hth in Hi. rewrite Hcnt.
        destruct (decide (i = child)) as [->|Hci].
        -- rewrite lookup_insert_eq in Hi. injection Hi as <-. cbn. lia.
        -- rewrite lookup_insert_ne in Hi by congruence.
           specialize (Hrange i t Hi). lia.
      * intros i j ti tj Hi Hj Heq Hlive. rewrite Hth in Hi, Hj.
        destruct (decide (i = child)) as [->|Hci];
          destruct (decide (j = child)) as [->|Hcj]; [reflexivity|..].
        -- rewrite lookup_insert_eq in Hi. injection Hi as <-.
           rewrite lookup_insert_ne in Hj by congruence.
           specialize (Hrange j tj Hj). cbn in Heq. lia.
        -- rewrite lookup_insert_eq in Hj. injection Hj as <-.
           rewrite lookup_insert_ne in Hi by congruence.
           specialize (Hrange i ti Hi). cbn in Heq. lia.
        -- rewrite lookup_insert_ne in Hi by congruence.
           rewrite lookup_insert_ne in Hj by congruence. eauto.
    + rewrite Hat. now rewrite decide_True.
    + intros j Hj. rewrite Hat. now rewrite decide_False by congruence.
    + intros j. unfold thread_at.
      destruct (g_valgrind_threads st !! j) as [t|] eqn:Ht; cbn.
      * specialize (Hrange j t Ht). lia.
      * lia.
  - intros quit st' H.
    destruct (exit_inv _ _ _ H) as (Hth & Hcnt & _).
    assert (Hat : forall j, j <> quit -> thread_at st' j = thread_at st j).
    { intros j Hj. unfold thread_at. rewrite Hth.
      now rewrite lookup_insert_ne by congruence. }
    split; [|split; [|split; [exact Hcnt | exact Hat]]].
    + split; [lia|]. split.
      * intros i t Hi. rewrite Hth in Hi. rewrite Hcnt.
        destruct (decide (i = quit)) as [->|Hqi].
        -- rewrite lookup_insert_eq in Hi. injection Hi as <-. cbn. lia.
        -- rewrite lookup_insert_ne in Hi by congruence. eauto.
      * intros i j ti tj Hi Hj Heq Hlive. rewrite Hth in Hi, Hj.
        destruct (decide (i = quit)) as [->|Hqi].
        { rewrite lookup_insert_eq in Hi. injection Hi as <-.
          cbn in Hlive. contradiction. }
        destruct (decide (j = quit)) as [->|Hqj].
        { rewrite lookup_insert_eq in Hj. injection Hj as <-.
          cbn in Heq. congruence. }
        rewrite lookup_insert_ne in Hi by congruence.
        rewrite lookup_insert_ne in Hj by congruence. eauto.
    + unfold thread_at. rewrite Hth, lookup_insert_eq. reflexivity.
Qed.

(** The state [evh__on_trace_entry] leaves. *)
Lemma on_trace_entry_result st vg_tid pc skip ts :
  VgTidToTsTid st vg_tid = Ok ts ->
  (ignore_accesses_in_current_trace (thread_at st vg_tid) = true ->
   ignore_accesses (thread_at st vg_tid) > 0) ->
  let t := thread_at st vg_tid in
  let mark := (user_ignores t =? 0) && (global_ignore st || skip) in
  evh__on_trace_entry st vg_tid pc skip
  = Ok (mkState
          (<[vg_tid := set_ignore t (user_ignores t
                                     + (if mark then 1 else 0)) mark]>
             (g_valgrind_threads st))
          (global_ignore st) (g_uniq_thread_id_counter st)
          (calls st ++ (if user_ignores t =? 0
                        then [EnterSblock ts pc] else []))).
Proof.
  intros Hts Hinv t mark. fold t in Hinv.
  assert (Hok : forall st1 : State,
            zero_based_uniq_tid (thread_at st1 vg_tid)
            = zero_based_uniq_tid t ->
            VgTidToTsTid st1 vg_tid = Ok ts).
  { intros st1 E. rewrite <- Hts. now apply vg_tid_same. }
  unfold Vg.evh__on_trace_entry, CHECK.
  rewrite (vg_tid_slot _ _ _ Hts). cbn [mbind Outcome_bind]. fold t.
  assert (Hreset :
            (if ignore_accesses_in_current_trace t
             then _ ← (if ignore_accesses t >? 0 then Ok ()
                       else Failed "thr->ignore_accesses > 0");
                  Ok (set_ignore t (ignore_accesses t - 1) false)
             else Ok t)
            = Ok (set_ignore t (user_ignores t) false)).
  { unfold user_ignores. fold t.
    destruct (ignore_accesses_in_current_trace t) eqn:Hflag.
    - replace (ignore_accesses t >? 0) with true
        by (symmetry; apply Z.gtb_lt; specialize (Hinv eq_refl); lia).
      reflexivity.
    - rewrite Z.sub_0_r. f_equal. destruct t. cbn in *. now subst. }
  rewrite Hreset. clear Hreset. cbn [mbind Outcome_bind].
  cbn [set_ignore ignore_accesses]. subst mark.
  destruct (user_ignores t =? 0) eqn:Hu; cbn [negb andb].
  - rewrite Hok.
    2:{ destruct (global_ignore _ || skip);
          rewrite !thread_at_set, !decide_True by reflexivity; reflexivity. }
    cbn [mbind Outcome_bind global_ignore set_thread].
    destruct (global_ignore st || skip); unfold emit, set_thread;
      cbn [g_valgrind_threads global_ignore g_uniq_thread_id_counter calls];
      rewrite ?insert_insert_eq, ?Z.add_0_r; reflexivity.
  - unfold set_thread. rewrite Z.add_0_r, app_nil_r. reflexivity.
Qed.

(** X28: which accesses reach the detector.  When the counter is positive
    whenever the current trace is marked as ignored, [evh__on_trace_entry]
    returns; it keeps the nesting depth of the client's ignore requests,
    marks the new trace as ignored exactly when that depth is 0 and the
    global ignore is on or [LiteRaceSkipTrace] says so, and enters the
    super-block in the detector exactly when the depth is 0.  A [Mop] in
    the trace is then handed to the detector exactly when the depth is 0
    and the trace is not marked. *)
Theorem vg_trace_entry_ignore st vg_tid pc skip ts :
  VgTidToTsTid st vg_tid = Ok ts ->
  (ignore_accesses_in_current_trace (thread_at st vg_tid) = true ->
   ignore_accesses (thread_at st vg_tid) > 0) ->
  exists st',
    evh__on_trace_entry st vg_tid pc skip = Ok st'
    /\ user_ignores (thread_at st' vg_tid)
       = user_ignores (thread_at st vg_tid)
    /\ ignore_accesses_in_current_trace (thread_at st' vg_tid)
       = (user_ignores (thread_at st vg_tid) =? 0)
         && (global_ignore st || skip)
    /\ (ignore_accesses_in_current_trace (thread_at st' vg_tid) = true ->
        ignore_accesses (thread_at st' vg_tid) > 0)
    /\ calls st'
       = calls st ++ (if user_ignores (thread_at st vg_tid) =? 0
                      then [EnterSblock ts pc] else [])
    /\ (forall j, j <> vg_tid -> thread_at st' j = thread_at st j)
    /\ (forall a is_w size,
          exists st'',
            Mop st' vg_tid a is_w size = Ok st''
            /\ calls st''
               = calls st'
                 ++ (if (user_ignores (thread_at st vg_tid) =? 0)
                        && negb (global_ignore st || skip)
                     then [HandleMemoryAccess ts a size is_w] else [])).
Proof.
  intros Hts Hinv.
  rewrite (on_trace_entry_result st vg_tid pc skip ts Hts Hinv).
  pose proof (vg_tid_value _ _ _ Hts) as Htsv.
  set (t := thread_at st vg_tid) in *.
  set (mark := (user_ignores t =? 0) && (global_ignore st || skip)).
  set (t' := set_ignore t (user_ignores t + (if mark then 1 else 0)) mark).
  eexists. split; [reflexivity|].
  assert (Hat : forall cs j,
            thread_at
              (mkState (<[vg_tid := t']> (g_valgrind_threads st))
                       (global_ignore st) (g_uniq_thread_id_counter st)
                       cs) j
            = if decide (vg_tid = j) then t' else thread_at st j).
  { intros cs j. unfold thread_at. cbn [g_valgrind_threads].
    destruct (decide (vg_tid = j)) as [->|Hj].
    - now rewrite lookup_insert_eq.
    - now rewrite lookup_insert_ne. }
  rewrite !Hat, !decide_True by reflexivity.
  split; [|split; [reflexivity|split; [|split; [reflexivity|split]]]].
  - unfold user_ignores, t'. cbn [set_ignore ignore_accesses
                                  ignore_accesses_in_current_trace].
    fold (user_ignores t). destruct mark; lia.
  - unfold t'. cbn [set_ignore ignore_accesses
                    ignore_accesses_in_current_trace].
    intros Hm. rewrite Hm. unfold mark in Hm.
    destruct (Z.eqb_spec (user_ignores t) 0); [lia | discriminate].
  - intros j Hj. now rewrite Hat, decide_False by congruence.
  - intros a w sz. unfold Vg.Mop.
    rewrite (vg_tid_slot _ _ _ Hts). cbn [mbind Outcome_bind].
    rewrite Hat, decide_True by reflexivity.
    rewrite (vg_tid_same st) by
      (rewrite Hat, decide_True by reflexivity; reflexivity).
    rewrite Hts. cbn [mbind Outcome_bind].
    unfold t', mark. cbn [set_ignore ignore_accesses].
    destruct (Z.eqb_spec (user_ignores t) 0) as [E|E]; cbn [andb].
    + rewrite E. destruct (global_ignore st || skip); cbn [negb Z.add Z.eqb].
      * eexists. split; [reflexivity|]. symmetry. apply app_nil_r.
      * eexists. split; reflexivity.
    + rewrite Z.add_0_r.
      replace (user_ignores t =? 0) with false
        by (symmetry; now apply Z.eqb_neq).
      cbn [negb]. eexists. split; [reflexivity|]. symmetry. apply app_nil_r.
Qed.

Lemma die_mem_stack_result st vg_tid a len ts :
  VgTidToTsTid st vg_tid = Ok ts ->
  let t := thread_at st vg_tid in
  let pop := match last (call_stack t) with
             | Some record => negb (a <? r_sp record)
             | None => false
             end in
  evh__die_mem_stack_helper st vg_tid a len
  = Ok (mkState
          (if pop
           then <[vg_tid := set_call_stack t (removelast (call_stack t))]>
                  (g_valgrind_threads st)
           else g_valgrind_threads st)
          (global_ignore st) (g_uniq_thread_id_counter st)
          (calls st
           ++ (if pop
               then HandleRtnExit ts
                    :: (if verbosity >=? 2 then [PrintfRtnExit ts] else [])
               else [])
           ++ (if ignore_accesses t =? 0
               then [HandleStackMemChange ts a len false] else []))).
Proof.
  intros Hts t pop. unfold Vg.evh__die_mem_stack_helper. rewrite Hts.
  cbn [mbind Outcome_bind]. fold t. subst pop.
  destruct (last (call_stack t)) as [record|].
  - destruct (a <? r_sp record); cbn [negb].
    + fold t. destruct (ignore_accesses t =? 0); destruct st; cbn;
        rewrite ?app_nil_r; reflexivity.
    + assert (Hign : forall st1 : State,
                ignore_accesses
                  (thread_at
                     (set_thread st1 vg_tid
                        (set_call_stack t (removelast (call_stack t))))
                     vg_tid)
                = ignore_accesses t).
      { intros st1. now rewrite thread_at_set, decide_True. }
      destruct (verbosity >=? 2); rewrite !thread_at_emit, Hign;
        destruct (ignore_accesses t =? 0); unfold emit, set_thread;
        cbn [g_valgrind_threads global_ignore g_uniq_thread_id_counter calls];
        rewrite <- ?app_assoc, ?app_nil_r; reflexivity.
  - fold t. destruct (ignore_accesses t =? 0); destruct st; cbn;
      rewrite ?app_nil_r; reflexivity.
Qed.

Lemma rtn_call_inv st vg_tid call_pc sp pc ib st1 :
  rtn_call st vg_tid call_pc sp pc ib
  = Ok st1 ->
  g_valgrind_threads st1
  = <[vg_tid := set_call_stack (thread_at st vg_tid)
                  (call_stack (thread_at st vg_tid) ++ [mkRecord pc sp])]>
      (g_valgrind_threads st).
Proof.
  unfold Vg.rtn_call. intros H.
  destruct (at_slot vg_tid) as [[]| |]; try discriminate.
  cbn [mbind Outcome_bind] in H.
  destruct (DCHECK _ _ _) as [[]| |]; try discriminate.
  cbn [mbind Outcome_bind] in H.
  destruct (Vg.VgTidToTsTid _ _ _ vg_tid) as [ts| |]; try discriminate.
  cbn [mbind Outcome_bind] in H.
  destruct (verbosity >=? 2).
  - destruct (Vg.VgTidToTsTid _ _ _ vg_tid) as [ts'| |]; try discriminate.
    cbn [mbind Outcome_bind] in H. now injection H as <-.
  - now injection H as <-.
Qed.

(** X29: the shadow call stack of the front-end.  [rtn_call] pushes one
    record.  [evh__die_mem_stack_helper] pops the last record when the
    stack pointer has reached its [sp], and never more than that one
    record in a call, whatever lies below; it tells the detector of the
    function exit exactly when it popped, and of the stack change exactly
    when accesses are not ignored.  So after a [rtn_call] the stack is
    back to what it was as soon as the stack pointer is at least the
    [sp] of the call. *)
Theorem vg_die_mem_stack_pops_one st vg_tid a len ts :
  VgTidToTsTid st vg_tid = Ok ts ->
  (exists st',
      evh__die_mem_stack_helper st vg_tid
                                a len = Ok st'
      /\ call_stack (thread_at st' vg_tid)
         = match last (call_stack (thread_at st vg_tid)) with
           | Some record =>
               if a <? r_sp record then call_stack (thread_at st vg_tid)
               else removelast (call_stack (thread_at st vg_tid))
           | None => []
           end
      /\ (List.length (call_stack (thread_at st vg_tid))
          <= S (List.length (call_stack (thread_at st' vg_tid))))%nat
      /\ (forall j, j <> vg_tid -> thread_at st' j = thread_at st j)
      /\ (In (HandleRtnExit ts) (calls st') <->
          In (HandleRtnExit ts) (calls st)
          \/ exists record,
               last (call_stack (thread_at st vg_tid)) = Some record
               /\ r_sp record <= a))
  /\ (forall call_pc sp pc ib st1,
        rtn_call st vg_tid call_pc sp pc ib
        = Ok st1 ->
        exists st2,
          evh__die_mem_stack_helper st1
                                    vg_tid a len = Ok st2
          /\ call_stack (thread_at st2 vg_tid)
             = if a <? sp
               then call_stack (thread_at st vg_tid) ++ [mkRecord pc sp]
               else call_stack (thread_at st vg_tid)).
Proof.
  intros Hts. split.
  - rewrite (die_mem_stack_result st vg_tid a len ts Hts).
    set (t := thread_at st vg_tid).
    eexists. split; [reflexivity|].
    assert (Hat : forall th cs j,
              thread_at (mkState th (global_ignore st)
                                 (g_uniq_thread_id_counter st) cs) j
              = default Clear (th !! j)) by reflexivity.
    rewrite !Hat.
    destruct (last (call_stack t)) as [record|] eqn:Hlast.
    + destruct (Z.ltb_spec a (r_sp record)) as [Hlt|Hge]; cbn [negb].
      * split; [reflexivity|]. split; [change (default Clear (g_valgrind_threads st !! vg_tid)) with t; lia|].
        split; [intros j _; now rewrite Hat|].
        cbn [calls]. rewrite app_nil_l, in_app_iff. split.
        -- intros [H|H]; [now left|].
           destruct (ignore_accesses t =? 0); [|contradiction].
           destruct H as [H|[]]. discriminate.
        -- intros [H|(r & Hr & Hle)]; [now left|].
           injection Hr as <-. lia.
      * rewrite lookup_insert_eq. cbn [default set_call_stack call_stack].
        split; [reflexivity|]. split.
        { change (default Clear (g_valgrind_threads st !! vg_tid)) with t.
          destruct (call_stack t) as [|x l] using rev_ind; [discriminate|].
          rewrite removelast_last, length_app. cbn. lia. }
        split.
        { intros j Hj. rewrite Hat. unfold thread_at.
          now rewrite lookup_insert_ne by congruence. }
        cbn [calls]. rewrite !in_app_iff. split; [|intros _; right; left; now left].
        intros _. right. exists record. split; [reflexivity | lia].
    + split.
      { change (default Clear (g_valgrind_threads st !! vg_tid)) with t.
        destruct (call_stack t) as [|x l] using rev_ind; [reflexivity|].
        rewrite last_snoc in Hlast. discriminate. }
      split; [change (default Clear (g_valgrind_threads st !! vg_tid)) with t; lia|].
      split; [intros j _; now rewrite Hat|].
      cbn [calls]. rewrite app_nil_l, in_app_iff. split.
      * intros [H|H]; [now left|].
        destruct (ignore_accesses t =? 0); [|contradiction].
        destruct H as [H|[]]. discriminate.
      * intros [H|(r & Hr & _)]; [now left | discriminate].
  - intros call_pc sp pc ib st1 H1.
    pose proof (rtn_call_inv _ _ _ _ _ _ _ H1) as Hth.
    assert (Ht1 : thread_at st1 vg_tid
                  = set_call_stack (thread_at st vg_tid)
                      (call_stack (thread_at st vg_tid) ++ [mkRecord pc sp])).
    { unfold thread_at at 1. now rewrite Hth, lookup_insert_eq. }
    assert (Hts1 : VgTidToTsTid st1 vg_tid = Ok ts).
    { rewrite <- Hts. apply vg_tid_same. now rewrite Ht1. }
    rewrite (die_mem_stack_result st1 vg_tid a len ts Hts1).
    eexists. split; [reflexivity|].
    rewrite Ht1. cbn [set_call_stack call_stack].
    rewrite last_snoc. cbn [r_sp].
    unfold thread_at at 1. cbn [g_valgrind_threads].
    destruct (a <? sp); cbn [negb].
    + fold (thread_at st1 vg_tid). now rewrite Ht1.
    + rewrite lookup_insert_eq. cbn. now rewrite removelast_last.
Qed.

(** X30: the client's requests to ignore accesses nest.  A begin request
    adds one to the nesting depth, and the end request after it gives
    back the thread as it was.  An end request when the counter is 0
    fails its check.  But an end request without a begin inside a trace
    that is marked as ignored passes its own check, since the counter is
    1 there, and the next [evh__on_trace_entry] fails instead. *)
Theorem vg_ignore_requests_nest st vg_tid ts :
  VgTidToTsTid st vg_tid = Ok ts ->
  g_valgrind_threads st !! vg_tid = Some (thread_at st vg_tid) ->
  (0 <= ignore_accesses (thread_at st vg_tid) ->
   exists st1 st2,
     ignore_all_accesses_begin st vg_tid = Ok st1
     /\ user_ignores (thread_at st1 vg_tid)
        = user_ignores (thread_at st vg_tid) + 1
     /\ ignore_all_accesses_end st1 vg_tid = Ok st2
     /\ st2 = st)
  /\ (ignore_accesses (thread_at st vg_tid) = 0 ->
      ignore_all_accesses_end st vg_tid
      = Failed "g_valgrind_threads[vg_tid].ignore_accesses >= 0")
  /\ (ignore_accesses (thread_at st vg_tid) = 1 ->
      ignore_accesses_in_current_trace (thread_at st vg_tid) = true ->
      exists st1,
        ignore_all_accesses_end st vg_tid = Ok st1
        /\ forall pc skip,
             evh__on_trace_entry st1 vg_tid pc skip
             = Failed "thr->ignore_accesses > 0").
Proof.
  intros Hts Hslot. set (t := thread_at st vg_tid) in *.
  assert (Hok : forall st1 : State,
            zero_based_uniq_tid (thread_at st1 vg_tid)
            = zero_based_uniq_tid t ->
            VgTidToTsTid st1 vg_tid = Ok ts).
  { intros st1 E. rewrite <- Hts. now apply vg_tid_same. }
  split; [|split].
  - intros Hpos. unfold Vg.ignore_all_accesses_begin, Vg.ignore_all_accesses_end.
    rewrite Hts. cbn [mbind Outcome_bind]. fold t.
    eexists _, _. split; [reflexivity|].
    rewrite thread_at_set, decide_True by reflexivity.
    split; [unfold user_ignores; cbn; lia|].
    rewrite Hok by (now rewrite thread_at_set, decide_True).
    cbn [mbind Outcome_bind].
    cbn [set_ignore ignore_accesses ignore_accesses_in_current_trace
         zero_based_uniq_tid call_stack ignore_sync in_signal_handler].
    unfold CHECK.
    replace (ignore_accesses t + 1 - 1 >=? 0) with true
      by (symmetry; rewrite Z.geb_leb; apply Z.leb_le; lia).
    cbn [mbind Outcome_bind]. split; [reflexivity|].
    unfold set_thread. cbn [g_valgrind_threads global_ignore
                            g_uniq_thread_id_counter calls].
    rewrite insert_insert_eq.
    replace (ignore_accesses t + 1 - 1) with (ignore_accesses t) by lia.
    assert (Et : set_ignore
                   (set_ignore t (ignore_accesses t + 1)
                               (ignore_accesses_in_current_trace t))
                   (ignore_accesses t) (ignore_accesses_in_current_trace t)
                 = t) by now destruct t.
    rewrite Et.
    rewrite insert_id by exact Hslot. now destruct st.
  - intros Hz. unfold Vg.ignore_all_accesses_end. rewrite Hts.
    cbn [mbind Outcome_bind]. fold t. cbn [set_ignore ignore_accesses].
    rewrite Hz. reflexivity.
  - intros Hone Hflag. unfold Vg.ignore_all_accesses_end. rewrite Hts.
    cbn [mbind Outcome_bind]. fold t. cbn [set_ignore ignore_accesses].
    rewrite Hone. cbn [CHECK Z.sub Z.geb Z.compare mbind Outcome_bind].
    eexists. split; [reflexivity|]. intros pc skip.
    unfold Vg.evh__on_trace_entry.
    rewrite (vg_tid_slot _ _ _ Hts). cbn [mbind Outcome_bind].
    rewrite thread_at_set, decide_True by reflexivity.
    cbn [ignore_accesses_in_current_trace ignore_accesses]. rewrite Hflag.
    reflexivity.
Qed.

End VgFacts.

Lemma malloc_cost_center_lifo_witness :
  exists s1 s2,
    Vg.Push true Vg.g_malloc_stack (Some "operator new"%string) = Vg.Ok s1
    /\ Vg.Top s1 = Vg.Ok (Some "operator new"%string)
    /\ Vg.Pop true s1 = Vg.Ok s2
    /\ Vg.Top s2 = Vg.Ok (Some "default_cc"%string).
Proof.
  destruct (malloc_cost_center_lifo true Vg.g_malloc_stack "operator new")
    as ((s1 & s2 & H1 & H2 & H3 & _ & H5) & _).
  - vm_compute. split; [discriminate | reflexivity].
  - exists s1, s2. split; [exact H1|]. split; [exact H2|].
    split; [exact H3|]. rewrite H5. reflexivity.
Defined.

Lemma vg_thread_ids_unique_witness :
  match Vg.evh__pre_thread_ll_create true 500 0 Vg.sample_state 1 2 77 with
  | Vg.Ok st' =>
      Vg.tids_ok st'
      /\ Vg.zero_based_uniq_tid (Vg.thread_at st' 2) = 1
      /\ Vg.thread_at st' 1 = Vg.thread_at Vg.sample_state 1
      /\ Vg.calls st' = [Vg.HandleOneEvent "THR_START" 1 77 0 0]
  | _ => False
  end.
Proof.
  destruct (Vg.evh__pre_thread_ll_create true 500 0 Vg.sample_state 1 2 77)
    as [st'| |] eqn:E; [|vm_compute in E; discriminate..].
  destruct (vg_thread_ids_unique true 500 0 Vg.sample_state) as [Hc _].
  - split; [vm_compute; discriminate|]. split.
    + intros i t H. unfold Vg.sample_state in H. cbn in H.
      apply lookup_singleton_Some in H as [_ <-]. cbn. lia.
    + intros i j ti tj Hi Hj _ _. unfold Vg.sample_state in Hi, Hj.
      cbn in Hi, Hj. apply lookup_singleton_Some in Hi as [<- _].
      now apply lookup_singleton_Some in Hj as [<- _].
  - destruct (Hc 1 2 77 st' E) as (Hok & _ & Hat & _ & Hother & _).
    split; [exact Hok|]. split; [now rewrite Hat|].
    split; [apply Hother; discriminate|].
    pose proof E as E'. vm_compute in E'. now injection E' as <-.
Defined.

Lemma vg_trace_entry_ignore_witness :
  exists st',
    Vg.evh__on_trace_entry true 500 Vg.sample_state 1 4096 true = Vg.Ok st'
    /\ Vg.ignore_accesses_in_current_trace (Vg.thread_at st' 1) = true
    /\ Vg.calls st' = [Vg.EnterSblock 0 4096]
    /\ exists st'',
         Vg.Mop true 500 st' 1 8192 true 4 = Vg.Ok st''
         /\ Vg.calls st'' = Vg.calls st'.
Proof.
  destruct (vg_trace_entry_ignore true 500 Vg.sample_state 1 4096 true 0)
    as (st' & H & _ & Hmark & _ & Hcalls & _ & Hmop).
  - reflexivity.
  - intros E. discriminate E.
  - exists st'. split; [exact H|]. split; [exact Hmark|].
    split; [exact Hcalls|].
    destruct (Hmop 8192 true 4) as (st'' & H1 & H2).
    exists st''. split; [exact H1|]. rewrite H2. apply app_nil_r.
Defined.

Lemma vg_die_mem_stack_pops_one_witness :
  match Vg.rtn_call true 500 0 Vg.sample_state 1 4000 1000 4004 0 with
  | Vg.Ok st1 =>
      (exists st2,
          Vg.evh__die_mem_stack_helper true 500 0 st1 1 1000 8 = Vg.Ok st2
          /\ Vg.call_stack (Vg.thread_at st2 1) = [])
      /\ (exists st2,
             Vg.evh__die_mem_stack_helper true 500 0 st1 1 992 8 = Vg.Ok st2
             /\ Vg.call_stack (Vg.thread_at st2 1) = [Vg.mkRecord 4004 1000])
  | _ => False
  end.
Proof.
  destruct (Vg.rtn_call true 500 0 Vg.sample_state 1 4000 1000 4004 0)
    as [st1| |] eqn:E; [|vm_compute in E; discriminate..].
  split.
  - destruct (vg_die_mem_stack_pops_one true 500 0 Vg.sample_state 1 1000 8 0
                eq_refl) as [_ H].
    destruct (H 4000 1000 4004 0 st1 E) as (st2 & H1 & H2).
    exists st2. split; [exact H1 | exact H2].
  - destruct (vg_die_mem_stack_pops_one true 500 0 Vg.sample_state 1 992 8 0
                eq_refl) as [_ H].
    destruct (H 4000 1000 4004 0 st1 E) as (st2 & H1 & H2).
    exists st2. split; [exact H1 | exact H2].
Defined.

Lemma vg_ignore_requests_nest_witness :
  (exists st1,
      Vg.ignore_all_accesses_begin true 500 Vg.sample_state 1 = Vg.Ok st1
      /\ Vg.ignore_all_accesses_end true 500 st1 1 = Vg.Ok Vg.sample_state)
  /\ Vg.ignore_all_accesses_end true 500 Vg.sample_state 1
     = Vg.Failed "g_valgrind_threads[vg_tid].ignore_accesses >= 0".
Proof.
  destruct (vg_ignore_requests_nest true 500 Vg.sample_state 1 0)
    as (Hnest & Hzero & _).
  - reflexivity.
  - reflexivity.
  - split.
    + destruct Hnest as (st1 & st2 & H1 & _ & H2 & ->); [discriminate|].
      exists st1. split; [exact H1 | exact H2].
    + apply Hzero. reflexivity.
Defined.
